(* ===== verification/_CoqProject ===== *)
-Q . S2P
Prelude.v
Wire.v
Ring.v
Events.v
Sha256.v
Scram.v
Ctx.v
Parse.v
ParseSafe.v
Feed.v
FeedSpec.v
Erase.v
FeedThms.v
CtxThms.v
Send.v
SendSpec.v
Roundtrip.v
RoundtripRows.v
RoundtripBind.v
Alias.v
SendThms.v
Pipeline.v
Params.v
ParamsSpec.v
ParamsInject.v
Endpoint.v
Mitm.v
