(* ===== verification/Prelude.v ===== *)
(** * libpqwire: a verification development

    libpqwire (src/) is a C library for the PostgreSQL v3 wire protocol that does no I/O: an
    application feeds it received bytes and takes events out, calls builders and takes bytes
    to send out.  This library models src/src/pqwire.c, src/src/scram.c and src/src/mitm.c
    and proves what they promise.

    ** Parts of the program and the files that model them

    - Wire.v: the leaf functions of pqwire.c ([wr32_be] .. [rd16_be], [copy_cstr],
      [read_cstr], [atoi]).
    - Ring.v: the event queue ([enqueue_event], [dequeue_event] on the array, head, tail and
      count), behind the interface [BoundedQueue]; Ctx.v uses only the interface.
    - Events.v: include/protocol_events.h, one record per payload struct, the union as
      [payload_t].
    - Ctx.v: [struct pqwire_ctx].  The [session] is the part that parsers change (role, queue,
      scratch arrays, row arena, states); the rest of [pqwire_ctx] is buffers, configuration
      and SCRAM state.  Also the output helpers ([ensure_output], [append_output],
      [emit_msg]), creation, reset, destruction and [pqwire_start_auth].
    - Parse.v: all message parsers and [handle_message]; ParseSafe.v proves them safe,
      Erase.v that they do not depend on the address of the input buffer.
    - Feed.v: [pqwire_feed_input] (buffer growth, copy, the framing loop), [pqwire_get_output],
      [pqwire_next_event].  FeedSpec.v holds the specification, a pure deframer of the wire
      format, and the refinement lemmas; FeedThms.v the properties.
    - CtxThms.v: lifecycle, output and authentication start.
    - Send.v: all [pqwire_send_*] builders; SendSpec.v what they put on the wire; SendThms.v
      the calls they refuse or garble.
    - Roundtrip.v, RoundtripRows.v, RoundtripBind.v: builder, wire, framing loop, parser and
      event together; Alias.v how long an event's pointers stay good.
    - Pipeline.v: message peek, pipeline status, feeding a backend message, filtering.
    - Params.v: owned parameters, copying and zero-copy rewriting of a Bind, prepared
      statements; ParamsSpec.v and ParamsInject.v their properties.
    - Sha256.v, Scram.v: scram.c.
    - Endpoint.v, Mitm.v: mitm.c, against the interface [Endpoint] that the contexts of Feed.v
      implement.

    The parts interact as in the code: the framing loop calls [handle_message], which
    enqueues events and fills arrays of the context; [pqwire_next_event] dequeues; a builder
    calls [emit_msg], which grows the output buffer that [pqwire_get_output] drains; the
    relay calls [pqwire_get_output] of one context and [pqwire_feed_input] of the other.

    ** How C is written down

    - Bytes and machine integers are [Z]; conversions and wrap-around are written out
      ([to_u16], [to_u32], [to_i32], [size_sub]).  An array of C is a list of exactly its
      length; [zget], [zset], [mem_read], [mem_write] are its accesses and are [None] out of
      bounds.  A bounded local or heap buffer being filled is the list of bytes written so
      far together with its capacity ([Send.put]), or the whole object and an offset where
      the caller owns it ([Params.writer]).
    - A function's early [return] is [Ret], undefined behaviour is [Ub] (or [None] where there
      is no early return), a value is [Val] ([outcome], in this file).  A possibly NULL
      pointer is an [option].  State is passed explicitly; builders run in the monad [send].
    - An allocation takes its answer from a list of booleans in the state ([allocs],
      [p_allocs]); the empty list means that requests succeed.  Uninitialised heap bytes
      ([heap]) and stack arrays ([stack]) and the results of [rand] are arguments.
    - A pointer that an event carries is a tagged value: into a scratch array ([ctx_ptr]), or
      into the input buffer with the generation of its allocation ([in_ptr]), so that
      reading through it after a [realloc] is undefined.  Owned parameter data are blocks of
      a heap in which freed names are not reused, and a source pointer may go into a block.

    ** What the theorems show

    - Input: any bytes, any allocator answers: the framing loop ends, stays in bounds, keeps
      the context well-formed ([feed_input_safe]), delivers exactly the messages of the wire
      format ([feed_input_refines]), loses no byte ([feed_input_lossless]) and does not depend
      on how the stream is cut ([feed_input_chunking]).  Queue: [ring_keeps_newest].
      Lifetimes: [queued_rows_stable], [pipelined_events_alias].
    - Round trips: for each builder with a parser in the library, the bytes sent and fed to
      the peer give the event with the sender's arguments, exactly or cut at the sizes of the
      event's arrays; where the builder refuses or overruns is exact too.
    - Context: creation, reset, output as a FIFO, [emit_msg] under failing allocations, the
      authentication request.
    - Pipelines: the status of a run of frames; a frame fed through a client; peeking against
      the framing loop.
    - Bind rewriting: ownership without double free or use after free (and the aliasing call
      that breaks it), the exact message in the caller's buffer, agreement of the copying and
      the zero-copy way.
    - Cryptography: the streaming hash equals the padded-block description, HMAC and PBKDF2
      over it, and the hash is not SHA-256 because of an extra constant.  SCRAM messages and
      the bounds of their buffers.
    - Relay: complete and ordered transfer; the attack list.

    Some theorems state what the code does although it cannot be meant; the names
    [arena_exhausted_is_null], [missing_values_sent], [send_bind_refused_sizes],
    [pipelined_events_alias], [sha256_differs_from_fips] and parts of [emit_msg_outcomes],
    [reset_spec], [startup_roundtrip], [pbkdf2_sha256_correct], [client_final_terminated],
    [param_ops_ownership] are of this kind.

    ** Bounds and fuel

    - [feed_loop] has one unit of fuel more than the bytes buffered.  Every turn but the last
      consumes a byte, which is proved for fewer than 2^32 buffered bytes; beyond that
      [1 + mlen] wraps and the C loop can run for ever.
    - [startup_loop] and [error_loop] have one unit more than the body's length, and each turn
      consumes a byte; [drain_events] has one unit more than the events queued.  The other
      loops count down a number the code computes.

    ** Not modelled

    The tests, the fuzzer, the examples and the documentation.  Signed [int] promotion in
    shifts such as [data[j] << 24] of [sha256_transform] is taken with wrap-around.  The two contexts of the relay,
    a caller's strings and the object it gives for output, and the view pointers of a Bind
    and the blocks of owned parameters, are taken to be different objects. *)

From Stdlib Require Export ZArith Lia.
From stdpp Require Export base option list numbers.
From Stdlib Require Ascii String.
Export Ascii.AsciiSyntax String.StringSyntax.

#[export] Set Default Proof Using "Type".
#[global] Open Scope Z_scope.

#[global] Arguments Z.shiftl : simpl never.
#[global] Arguments Z.shiftr : simpl never.
#[global] Arguments Z.land : simpl never.
#[global] Arguments Z.lor : simpl never.
#[global] Arguments Z.lxor : simpl never.
#[global] Arguments Z.mul : simpl never.
#[global] Arguments Z.add : simpl never.
#[global] Arguments Z.sub : simpl never.
#[global] Arguments Z.pow : simpl never.
#[global] Arguments Z.modulo : simpl never.
#[global] Arguments Z.to_nat : simpl never.
#[global] Arguments Z.of_nat : simpl never.

(** ** Outcomes of a C fragment

    [Val a]: control reaches the end of the fragment with value [a].
    [Ret]: the fragment executes one of its early [return]s (or the [return -1] of a guard).
    [Ub]: the fragment left defined behaviour, by an access outside the bounds of an object
    (or, for a loop given fuel, it did not stop). *)
Inductive outcome (A : Type) : Type :=
| Val (a : A)
| Ret
| Ub.
Arguments Val {A} a.
Arguments Ret {A}.
Arguments Ub {A}.

#[export] Instance outcome_ret : MRet outcome := λ A a, Val a.
#[export] Instance outcome_bind : MBind outcome := λ A B f m,
  match m with Val a => f a | Ret => Ret | Ub => Ub end.

#[export] Instance outcome_fmap : FMap outcome := λ A B f m,
  match m with Val a => Val (f a) | Ret => Ret | Ub => Ub end.

(** [check b]: an [if (!b) return ...;] guard. *)
Definition check (b : bool) : outcome unit := if b then Val tt else Ret.

(** [deref o]: a memory access; [None] is an access outside the object. *)
Definition deref {A} (o : option A) : outcome A :=
  match o with Some a => Val a | None => Ub end.

(** [returns m dflt]: run a function body whose early returns give [dflt]. *)
Definition returns {A} (m : outcome A) (dflt : A) : option A :=
  match m with Val a => Some a | Ret => Some dflt | Ub => None end.

Definition defined {A} (m : outcome A) : Prop := m ≠ Ub.

Lemma outcome_bind_Val {A B} (a : A) (f : A → outcome B) : (Val a ≫= f) = f a.
Proof. done. Qed.

Lemma defined_bind {A B} (m : outcome A) (f : A → outcome B) :
  defined m → (∀ a, m = Val a → defined (f a)) → defined (m ≫= f).
Proof. destruct m; unfold defined; simpl; eauto. Qed.

Lemma bind_Val_inv {A B} (m : outcome A) (f : A → outcome B) b :
  (m ≫= f) = Val b → ∃ a, m = Val a ∧ f a = Val b.
Proof. destruct m; simpl; intros; simplify_eq; eauto. Qed.

Lemma check_Val_inv b u : check b = Val u → b = true.
Proof. by destruct b. Qed.

(** ** Sizes, offsets and memory objects

    A C object of [n] bytes is a list of length [n]; sizes and offsets are [Z]. *)
Definition zlen {A} (l : list A) : Z := Z.of_nat (length l).
Definition ztake {A} (n : Z) (l : list A) : list A := take (Z.to_nat n) l.
Definition zdrop {A} (n : Z) (l : list A) : list A := drop (Z.to_nat n) l.
Definition zrep {A} (n : Z) (x : A) : list A := replicate (Z.to_nat n) x.

(** [m[i]] as an rvalue. *)
Definition zget {A} (m : list A) (i : Z) : option A :=
  if 0 <=? i then m !! Z.to_nat i else None.

(** [m[i] = x]. *)
Definition zset {A} (m : list A) (i : Z) (x : A) : option (list A) :=
  if (0 <=? i) && (i <? zlen m) then Some (<[Z.to_nat i := x]> m) else None.

(** [memcpy(m + off, d, len)] with [d] the [len] source bytes. *)
Definition mem_write {A} (m : list A) (off : Z) (d : list A) : option (list A) :=
  if (0 <=? off) && (off + zlen d <=? zlen m)
  then Some (ztake off m ++ d ++ zdrop (off + zlen d) m) else None.

(** The [n] bytes at [m + off]. *)
Definition mem_read {A} (m : list A) (off n : Z) : option (list A) :=
  if (0 <=? off) && (0 <=? n) && (off + n <=? zlen m)
  then Some (ztake n (zdrop off m)) else None.

(** [size_t] subtraction, as the code writes it. *)
Definition size_sub (a b : Z) : Z := (a - b) mod 2 ^ 64.

(** Conversions to the fixed-width types. *)
Definition to_u8 (z : Z) : Z := z mod 2 ^ 8.
Definition to_u16 (z : Z) : Z := z mod 2 ^ 16.
Definition to_u32 (z : Z) : Z := z mod 2 ^ 32.
Definition to_i16 (z : Z) : Z := (z + 2 ^ 15) mod 2 ^ 16 - 2 ^ 15.
Definition to_i32 (z : Z) : Z := (z + 2 ^ 31) mod 2 ^ 32 - 2 ^ 31.

(** Bytes, and byte strings. *)
Definition byte_ok (b : Z) : Prop := 0 ≤ b < 256.
Definition bytes_ok (l : list Z) : Prop := Forall byte_ok l.

#[export] Instance byte_ok_dec b : Decision (byte_ok b).
Proof. unfold byte_ok. apply _. Defined.
#[export] Instance bytes_ok_dec l : Decision (bytes_ok l).
Proof. unfold bytes_ok. apply _. Defined.

(** The contents of a C string: no NUL before its end. *)
Definition char_ok (b : Z) : Prop := 0 < b < 256.
Definition cstr_ok (s : list Z) : Prop := Forall char_ok s.

#[export] Instance char_ok_dec b : Decision (char_ok b).
Proof. unfold char_ok. apply _. Defined.
#[export] Instance cstr_ok_dec s : Decision (cstr_ok s).
Proof. unfold cstr_ok. apply _. Defined.

(** A character constant and the bytes of a string literal (without its NUL). *)
Definition chr (c : Ascii.ascii) : Z := Z.of_N (Ascii.N_of_ascii c).
Fixpoint bs (s : String.string) : list Z :=
  match s with
  | String.EmptyString => []
  | String.String c s' => chr c :: bs s'
  end.
Arguments chr c%_char_scope.
Arguments bs s%_string_scope.

(** The allocator: the outcomes of the next requests; past the end of the list a request
    succeeds. *)
Definition alloc_next (al : list bool) : bool * list bool :=
  match al with
  | [] => (true, [])
  | b :: al' => (b, al')
  end.

(** ** Lemmas on lists indexed by [Z] *)
Section zlist.
Context {A : Type}.
Implicit Types (l k m d : list A) (x : A) (i n off : Z).

Lemma zlen_nonneg l : 0 ≤ zlen l.
Proof. unfold zlen. lia. Qed.
Lemma zlen_nil : zlen (@nil A) = 0.
Proof. done. Qed.
Lemma zlen_cons x l : zlen (x :: l) = zlen l + 1.
Proof. unfold zlen. simpl. lia. Qed.
Lemma zlen_app l k : zlen (l ++ k) = zlen l + zlen k.
Proof. unfold zlen. rewrite length_app. lia. Qed.
Lemma zlen_zrep n x : 0 ≤ n → zlen (zrep n x) = n.
Proof. intros. unfold zlen, zrep. rewrite length_replicate. lia. Qed.
Lemma zlen_ztake n l : 0 ≤ n ≤ zlen l → zlen (ztake n l) = n.
Proof. unfold zlen, ztake. intros. rewrite length_take. lia. Qed.
Lemma zlen_ztake_le n l : 0 ≤ n → zlen (ztake n l) ≤ n.
Proof. unfold zlen, ztake. intros. rewrite length_take. lia. Qed.
Lemma zlen_zdrop n l : 0 ≤ n ≤ zlen l → zlen (zdrop n l) = zlen l - n.
Proof. unfold zlen, zdrop. intros. rewrite length_drop. lia. Qed.

Lemma ztake_0 l : ztake 0 l = [].
Proof. done. Qed.
Lemma zdrop_0 l : zdrop 0 l = l.
Proof. done. Qed.
Lemma ztake_zdrop n l : ztake n l ++ zdrop n l = l.
Proof. apply take_drop. Qed.
Lemma ztake_all n l : zlen l ≤ n → ztake n l = l.
Proof. unfold zlen, ztake. intros. apply take_ge. lia. Qed.
Lemma zdrop_all n l : zlen l ≤ n → zdrop n l = [].
Proof. unfold zlen, zdrop. intros. apply drop_ge. lia. Qed.
Lemma ztake_app n l k : n = zlen l → ztake n (l ++ k) = l.
Proof. intros ->. unfold ztake, zlen. rewrite Nat2Z.id. apply take_app_length. Qed.
Lemma zdrop_app n l k : n = zlen l → zdrop n (l ++ k) = k.
Proof. intros ->. unfold zdrop, zlen. rewrite Nat2Z.id. apply drop_app_length. Qed.
Lemma ztake_app_le n l k : n ≤ zlen l → ztake n (l ++ k) = ztake n l.
Proof. unfold ztake, zlen. intros. apply take_app_le. lia. Qed.
Lemma zdrop_app_le n l k : n ≤ zlen l → zdrop n (l ++ k) = zdrop n l ++ k.
Proof. unfold zdrop, zlen. intros. apply drop_app_le. lia. Qed.
Lemma zdrop_app_ge n l k : zlen l ≤ n → zdrop n (l ++ k) = zdrop (n - zlen l) k.
Proof.
  unfold zdrop, zlen. intros. rewrite drop_app_ge by lia. f_equal. lia.
Qed.
Lemma zdrop_zdrop n (p : Z) l : 0 ≤ n → 0 ≤ p → zdrop n (zdrop p l) = zdrop (p + n) l.
Proof. unfold zdrop. intros. rewrite drop_drop. f_equal. lia. Qed.
Lemma ztake_ztake n (p : Z) l : 0 ≤ n ≤ p → ztake n (ztake p l) = ztake n l.
Proof. unfold ztake. intros. rewrite take_take. f_equal. lia. Qed.

Lemma zget_app_l i l k : i < zlen l → zget (l ++ k) i = zget l i.
Proof.
  unfold zget, zlen. intros. destruct (Z.leb_spec 0 i); [|done].
  apply lookup_app_l. lia.
Qed.
Lemma zget_app_r i l k : zlen l ≤ i → zget (l ++ k) i = zget k (i - zlen l).
Proof.
  unfold zget, zlen. intros. rewrite !(proj2 (Z.leb_le _ _)) by lia.
  rewrite lookup_app_r by lia. f_equal. lia.
Qed.
Lemma zget_0 x l : zget (x :: l) 0 = Some x.
Proof. done. Qed.
Lemma zget_cons i x l : 0 < i → zget (x :: l) i = zget l (i - 1).
Proof.
  unfold zget. intros. rewrite !(proj2 (Z.leb_le _ _)) by lia.
  by replace (Z.to_nat i) with (S (Z.to_nat (i - 1))) by lia.
Qed.
Lemma zget_is_Some i l : 0 ≤ i < zlen l → ∃ x, zget l i = Some x.
Proof.
  unfold zget, zlen. intros. rewrite (proj2 (Z.leb_le _ _)) by lia.
  apply lookup_lt_is_Some_2. lia.
Qed.
Lemma zget_Some_lt i l x : zget l i = Some x → 0 ≤ i < zlen l.
Proof.
  unfold zget, zlen. destruct (Z.leb_spec 0 i); [|done].
  intros ?%lookup_lt_Some. lia.
Qed.
Lemma zget_Forall (P : A → Prop) i l x : Forall P l → zget l i = Some x → P x.
Proof.
  unfold zget. destruct (0 <=? i); [|done].
  intros HF Hl. by eapply Forall_lookup_1.
Qed.

Lemma zset_Some i x l : 0 ≤ i < zlen l → zset l i x = Some (<[Z.to_nat i := x]> l).
Proof. intros. unfold zset. by rewrite (proj2 (Z.leb_le _ _)), (proj2 (Z.ltb_lt _ _)) by lia. Qed.
Lemma zset_zlen i x l l' : zset l i x = Some l' → zlen l' = zlen l.
Proof. unfold zset, zlen. case_match; [|done]. intros [= <-]. by rewrite length_insert. Qed.

Lemma mem_write_Some m off d :
  0 ≤ off → off + zlen d ≤ zlen m →
  mem_write m off d = Some (ztake off m ++ d ++ zdrop (off + zlen d) m).
Proof. intros. unfold mem_write. by rewrite !(proj2 (Z.leb_le _ _)) by lia. Qed.
Lemma mem_write_zlen m off d m' : mem_write m off d = Some m' → zlen m' = zlen m.
Proof.
  unfold mem_write. case_match eqn:E; [|done]. intros [= <-].
  apply andb_true_iff in E as [H1%Z.leb_le H2%Z.leb_le].
  pose proof (zlen_nonneg d).
  rewrite !zlen_app, zlen_ztake, zlen_zdrop by lia. lia.
Qed.
Lemma mem_read_Some m off n :
  0 ≤ off → 0 ≤ n → off + n ≤ zlen m → mem_read m off n = Some (ztake n (zdrop off m)).
Proof. intros. unfold mem_read. by rewrite !(proj2 (Z.leb_le _ _)) by lia. Qed.
Lemma mem_read_app l d k off n :
  off = zlen l → n = zlen d → mem_read (l ++ d ++ k) off n = Some d.
Proof.
  intros -> ->. pose proof (zlen_nonneg l). pose proof (zlen_nonneg d).
  pose proof (zlen_nonneg k).
  rewrite mem_read_Some by (rewrite ?zlen_app; lia).
  by rewrite zdrop_app, ztake_app by done.
Qed.
End zlist.

Lemma ztake_add {A} (a b : Z) (l : list A) :
  0 ≤ a → 0 ≤ b → ztake (a + b) l = ztake a l ++ ztake b (zdrop a l).
Proof.
  intros. unfold ztake, zdrop. rewrite Z2Nat.inj_add by lia.
  rewrite <- (take_drop (Z.to_nat a) l) at 1.
  rewrite take_app, take_take, length_take. f_equal; [f_equal; lia|].
  destruct (decide (Z.to_nat a ≤ length l)%nat).
  - f_equal. lia.
  - rewrite drop_ge by lia. by rewrite !take_nil.
Qed.

Lemma zlen_map {A B} (f : A → B) l : zlen (f <$> l) = zlen l.
Proof. unfold zlen. by rewrite length_fmap. Qed.

(** Deciding the code's comparisons. *)
Ltac zbool :=
  repeat match goal with
  | H : (_ && _)%bool = true |- _ => apply andb_true_iff in H as [? ?]
  | H : (_ || _)%bool = false |- _ => apply orb_false_iff in H as [? ?]
  | H : negb _ = true |- _ => apply negb_true_iff in H
  | H : negb _ = false |- _ => apply negb_false_iff in H
  | H : (_ <? _) = true |- _ => apply Z.ltb_lt in H
  | H : (_ <? _) = false |- _ => apply Z.ltb_ge in H
  | H : (_ <=? _) = true |- _ => apply Z.leb_le in H
  | H : (_ <=? _) = false |- _ => apply Z.leb_gt in H
  | H : (_ =? _) = true |- _ => apply Z.eqb_eq in H
  | H : (_ =? _) = false |- _ => apply Z.eqb_neq in H
  end.

(** Case analysis on the condition of the first [if] of the goal. *)
Ltac zcase :=
  match goal with
  | |- context [if ?b then _ else _] => destruct b eqn:?; zbool; try lia
  end.

Ltac ztrue := rewrite ?(proj2 (Z.leb_le _ _)), ?(proj2 (Z.ltb_lt _ _)) by lia.

(** Sizes of lists that are in sight. *)
Create Rewrite HintDb zlen.
#[export] Hint Rewrite @zlen_nil @zlen_cons @zlen_app @zlen_map : zlen.
#[export] Hint Rewrite @zlen_zrep @zlen_zdrop @zlen_ztake using lia : zlen.
Ltac zsize :=
  autorewrite with zlen in *;
  repeat match goal with
  | |- context [zlen ?l] =>
      lazymatch goal with
      | H : 0 ≤ zlen l |- _ => fail
      | _ => pose proof (zlen_nonneg l)
      end
  | _ : context [zlen ?l] |- _ =>
      lazymatch goal with
      | H : 0 ≤ zlen l |- _ => fail
      | _ => pose proof (zlen_nonneg l)
      end
  end.
Ltac zlia := zsize; lia.

(** The same, on the goal only. *)
Ltac zl := autorewrite with zlen; lia.

(** ** Machine integers *)
Lemma to_u32_small z : 0 ≤ z < 2 ^ 32 → to_u32 z = z.
Proof. intros. unfold to_u32. by apply Z.mod_small. Qed.
Lemma to_u16_small z : 0 ≤ z < 2 ^ 16 → to_u16 z = z.
Proof. intros. unfold to_u16. by apply Z.mod_small. Qed.
Lemma to_u32_range z : 0 ≤ to_u32 z < 2 ^ 32.
Proof. apply Z.mod_pos_bound. lia. Qed.
Lemma to_u16_range z : 0 ≤ to_u16 z < 2 ^ 16.
Proof. apply Z.mod_pos_bound. lia. Qed.
Lemma to_i32_small z : - 2 ^ 31 ≤ z < 2 ^ 31 → to_i32 z = z.
Proof. intros. unfold to_i32. rewrite Z.mod_small; lia. Qed.
Lemma to_i16_small z : - 2 ^ 15 ≤ z < 2 ^ 15 → to_i16 z = z.
Proof. intros. unfold to_i16. rewrite Z.mod_small; lia. Qed.
Lemma to_i32_u32 z : to_i32 (to_u32 z) = to_i32 z.
Proof. unfold to_i32, to_u32. by rewrite Zplus_mod_idemp_l. Qed.
Lemma to_i16_u16 z : to_i16 (to_u16 z) = to_i16 z.
Proof. unfold to_i16, to_u16. by rewrite Zplus_mod_idemp_l. Qed.

Lemma cstr_ok_bytes s : cstr_ok s → bytes_ok s.
Proof. apply Forall_impl. unfold char_ok, byte_ok. lia. Qed.
Lemma bytes_ok_app l k : bytes_ok (l ++ k) ↔ bytes_ok l ∧ bytes_ok k.
Proof. apply Forall_app. Qed.
Lemma chr_ok c : byte_ok (chr c).
Proof.
  unfold chr, byte_ok. pose proof (Ascii.N_ascii_bounded c). lia.
Qed.

(** Concrete byte strings. *)
Lemma bytes_ok_check l : bool_decide (bytes_ok l) = true → bytes_ok l.
Proof. apply bool_decide_eq_true. Qed.
Lemma cstr_ok_check l : bool_decide (cstr_ok l) = true → cstr_ok l.
Proof. apply bool_decide_eq_true. Qed.
Ltac concrete_bytes := first [apply bytes_ok_check | apply cstr_ok_check]; vm_compute; reflexivity.
