(* ===== verification/Wire.v ===== *)
(** * Wire: byte-order helpers, C strings and number parsing

    The leaf functions of src/src/pqwire.c: the big-endian readers and writers, [copy_cstr]
    ([strncpy] into a fixed array), [read_cstr] (a bounded scan for a NUL) and the standard
    library's [atoi] as the ErrorResponse parsers use it. *)
From S2P Require Import Prelude.

(** ** Big-endian integers *)
Definition wr32_be (v : Z) : list Z :=
  [ Z.land (Z.shiftr v 24) 255; Z.land (Z.shiftr v 16) 255;
    Z.land (Z.shiftr v 8) 255; Z.land v 255 ].

Definition wr16_be (v : Z) : list Z :=
  [ Z.land (Z.shiftr v 8) 255; Z.land v 255 ].

Definition rd32_be (p : list Z) (off : Z) : option Z :=
  b0 ← zget p off;
  b1 ← zget p (off + 1);
  b2 ← zget p (off + 2);
  b3 ← zget p (off + 3);
  Some (Z.lor (Z.lor (Z.lor (Z.shiftl b0 24) (Z.shiftl b1 16)) (Z.shiftl b2 8)) b3).

Definition rd16_be (p : list Z) (off : Z) : option Z :=
  b0 ← zget p off;
  b1 ← zget p (off + 1);
  Some (to_u16 (Z.lor (Z.shiftl b0 8) b1)).

(** ** C strings *)

(** The characters before the first NUL, when there is one. *)
Fixpoint until_nul (l : list Z) : option (list Z) :=
  match l with
  | [] => None
  | b :: l' => if b =? 0 then Some [] else cons b <$> until_nul l'
  end.

(** [read_cstr(p + off, avail, &consumed)] on the object [p]: [Some (Some (s, consumed))]
    for a string [s], [Some None] for NULL, [None] when the scan leaves the object. *)
Definition read_cstr (p : list Z) (off avail : Z) : option (option (list Z * Z)) :=
  if negb ((0 <=? off) && (off <=? zlen p)) then None
  else match until_nul (zdrop off p) with
       | Some s => if zlen s <? avail then Some (Some (s, zlen s + 1)) else Some None
       | None => if avail <=? zlen p - off then Some None else None
       end.

(** [strncpy(dst, src, n)]: the first [n] characters of [src], NUL padded. *)
Definition strncpy (src : list Z) (n : Z) : list Z :=
  ztake n src ++ zrep (n - zlen (ztake n src)) 0.

(** [copy_cstr(dst, dstsz, src)] with [dst] an array of [dstsz] bytes, [None] for a NULL
    [src]: the array after the call. *)
Definition copy_cstr (dst : list Z) (dstsz : Z) (src : option (list Z)) : list Z :=
  if dstsz =? 0 then dst
  else match src with
       | None => default dst (zset dst 0 0)
       | Some s => strncpy s (dstsz - 1) ++ [0]
       end.

(** The C string held by a char array. *)
Definition cstr_of (a : list Z) : list Z := default a (until_nul a).

(** ** [atoi]: [(int)strtol(s, NULL, 10)] with a 64-bit [long], which saturates *)
Definition is_space (b : Z) : bool := (b =? 32) || ((9 <=? b) && (b <=? 13)).
Definition is_digit (b : Z) : bool := (48 <=? b) && (b <=? 57).

Fixpoint skip_space (s : list Z) : list Z :=
  match s with
  | b :: s' => if is_space b then skip_space s' else s
  | [] => []
  end.

Fixpoint digits_val (acc : Z) (s : list Z) : Z :=
  match s with
  | b :: s' => if is_digit b then digits_val (acc * 10 + (b - 48)) s' else acc
  | [] => acc
  end.

Definition strtol (s : list Z) : Z :=
  let '(neg, s) := match skip_space s with
                   | 45 :: s' => (true, s')
                   | 43 :: s' => (false, s')
                   | s' => (false, s')
                   end in
  let v := digits_val 0 s in
  Z.max (- 2 ^ 63) (Z.min (2 ^ 63 - 1) (if (neg : bool) then - v else v)).

Definition atoi (s : list Z) : Z := to_i32 (strtol s).

(** ** Lemmas *)
Lemma land_255 v : Z.land v 255 = v mod 2 ^ 8.
Proof. by rewrite <- (Z.land_ones v 8) by lia. Qed.

Lemma lor_shiftl_add a b n : 0 ≤ n → 0 ≤ b < 2 ^ n → Z.lor (Z.shiftl a n) b = a * 2 ^ n + b.
Proof.
  intros Hn Hb.
  assert (Hl : Z.land (Z.shiftl a n) b = 0).
  { apply Z.bits_inj'. intros i Hi. rewrite Z.land_spec, Z.bits_0.
    destruct (Z.lt_ge_cases i n).
    - by rewrite Z.shiftl_spec_low.
    - destruct (Z.eq_dec b 0) as [->|]; [by rewrite Z.bits_0, andb_false_r|].
      rewrite (Z.bits_above_log2 b i); [by rewrite andb_false_r|lia|].
      apply Z.log2_lt_pow2; [lia|]. pose proof (Z.pow_le_mono_r 2 n i). lia. }
  rewrite <- Z.lxor_lor, <- Z.add_nocarry_lxor by done.
  by rewrite Z.shiftl_mul_pow2.
Qed.

Lemma zlen_wr32_be v : zlen (wr32_be v) = 4.
Proof. done. Qed.
Lemma zlen_wr16_be v : zlen (wr16_be v) = 2.
Proof. done. Qed.
#[export] Hint Rewrite zlen_wr32_be zlen_wr16_be : zlen.

Lemma wr32_be_ok v : bytes_ok (wr32_be v).
Proof.
  unfold wr32_be, bytes_ok. rewrite !land_255.
  repeat constructor; apply Z.mod_pos_bound; lia.
Qed.
Lemma wr16_be_ok v : bytes_ok (wr16_be v).
Proof.
  unfold wr16_be, bytes_ok. rewrite !land_255.
  repeat constructor; apply Z.mod_pos_bound; lia.
Qed.

(** The value of four bytes in network order. *)
Definition be32 (b0 b1 b2 b3 : Z) : Z := b0 * 2 ^ 24 + b1 * 2 ^ 16 + b2 * 2 ^ 8 + b3.

Lemma rd32_be_val b0 b1 b2 b3 rest :
  bytes_ok [b0; b1; b2; b3] →
  rd32_be (b0 :: b1 :: b2 :: b3 :: rest) 0 = Some (be32 b0 b1 b2 b3).
Proof.
  intros Hb. unfold bytes_ok in Hb. rewrite !Forall_cons_iff in Hb.
  destruct Hb as (H0 & H1 & H2 & H3 & _). unfold byte_ok in *.
  unfold rd32_be, be32. rewrite zget_0. simpl. f_equal.
  rewrite <- !Z.lor_assoc.
  rewrite (lor_shiftl_add b2 b3) by lia.
  rewrite (lor_shiftl_add b1 (b2 * 2 ^ 8 + b3)) by lia.
  rewrite lor_shiftl_add by lia. lia.
Qed.

Lemma rd16_be_val b0 b1 rest :
  bytes_ok [b0; b1] → rd16_be (b0 :: b1 :: rest) 0 = Some (b0 * 2 ^ 8 + b1).
Proof.
  intros Hb. unfold bytes_ok in Hb. rewrite !Forall_cons_iff in Hb.
  destruct Hb as (H0 & H1 & _). unfold byte_ok in *.
  unfold rd16_be. rewrite zget_0. simpl. f_equal.
  rewrite (lor_shiftl_add b0 b1) by lia. apply to_u16_small. lia.
Qed.

Lemma zget_zdrop {A} (p : list A) off i :
  0 ≤ off → 0 ≤ i → zget (zdrop off p) i = zget p (off + i).
Proof.
  intros. unfold zget, zdrop. ztrue. rewrite lookup_drop. f_equal. lia.
Qed.

Lemma rd32_be_zdrop p off : 0 ≤ off → rd32_be p off = rd32_be (zdrop off p) 0.
Proof. intros. unfold rd32_be. by rewrite !zget_zdrop, Z.add_0_r by lia. Qed.
Lemma rd16_be_zdrop p off : 0 ≤ off → rd16_be p off = rd16_be (zdrop off p) 0.
Proof. intros. unfold rd16_be. by rewrite !zget_zdrop, Z.add_0_r by lia. Qed.

(** Reading back what was written, anywhere in a buffer. *)
Lemma rd32_be_wr32_be pre v rest off :
  off = zlen pre → rd32_be (pre ++ wr32_be v ++ rest) off = Some (to_u32 v).
Proof.
  intros ->. pose proof (zlen_nonneg pre).
  rewrite rd32_be_zdrop, zdrop_app by lia. unfold wr32_be. simpl.
  rewrite rd32_be_val by apply wr32_be_ok. f_equal. unfold be32, to_u32.
  rewrite !land_255, !Z.shiftr_div_pow2 by lia.
  Z.div_mod_to_equations. lia.
Qed.

Lemma rd16_be_wr16_be pre v rest off :
  off = zlen pre → rd16_be (pre ++ wr16_be v ++ rest) off = Some (to_u16 v).
Proof.
  intros ->. pose proof (zlen_nonneg pre).
  rewrite rd16_be_zdrop, zdrop_app by lia. unfold wr16_be. simpl.
  rewrite rd16_be_val by apply wr16_be_ok. f_equal. unfold to_u16.
  rewrite !land_255, !Z.shiftr_div_pow2 by lia.
  Z.div_mod_to_equations. lia.
Qed.

(** Total definedness and range of the readers, inside the object. *)
Lemma rd32_be_defined p off :
  0 ≤ off → off + 4 ≤ zlen p → ∃ v, rd32_be p off = Some v.
Proof.
  intros. unfold rd32_be.
  destruct (zget_is_Some off p) as [? ->]; [lia|].
  destruct (zget_is_Some (off + 1) p) as [? ->]; [lia|].
  destruct (zget_is_Some (off + 2) p) as [? ->]; [lia|].
  destruct (zget_is_Some (off + 3) p) as [? ->]; [lia|]. simpl. eauto.
Qed.
Lemma rd16_be_defined p off :
  0 ≤ off → off + 2 ≤ zlen p → ∃ v, rd16_be p off = Some v ∧ 0 ≤ v < 2 ^ 16.
Proof.
  intros. unfold rd16_be.
  destruct (zget_is_Some off p) as [? ->]; [lia|].
  destruct (zget_is_Some (off + 1) p) as [? ->]; [lia|]. simpl.
  eexists. split; [done|]. apply to_u16_range.
Qed.

Lemma be32_range b0 b1 b2 b3 :
  byte_ok b0 → byte_ok b1 → byte_ok b2 → byte_ok b3 → 0 ≤ be32 b0 b1 b2 b3 < 2 ^ 32.
Proof. unfold byte_ok, be32. lia. Qed.

Lemma rd32_be_range p off v : bytes_ok p → rd32_be p off = Some v → 0 ≤ v < 2 ^ 32.
Proof.
  intros Hp Hr. unfold rd32_be in Hr.
  destruct (zget p off) as [b0|] eqn:E0; [|done].
  destruct (zget p (off + 1)) as [b1|] eqn:E1; [|done].
  destruct (zget p (off + 2)) as [b2|] eqn:E2; [|done].
  destruct (zget p (off + 3)) as [b3|] eqn:E3; [|done].
  simpl in Hr. injection Hr as <-.
  apply (zget_Forall _ _ _ _ Hp) in E0, E1, E2, E3. unfold byte_ok in *.
  rewrite <- !Z.lor_assoc.
  rewrite (lor_shiftl_add b2 b3) by lia.
  rewrite (lor_shiftl_add b1 (b2 * 2 ^ 8 + b3)) by lia.
  rewrite lor_shiftl_add by lia. lia.
Qed.

(** Appending to the object does not change what is read inside it. *)
Lemma rd32_be_app_l p q off : off + 4 ≤ zlen p → rd32_be (p ++ q) off = rd32_be p off.
Proof. intros. unfold rd32_be. by rewrite !zget_app_l by lia. Qed.

(** *** Strings *)
Lemma until_nul_app s rest : cstr_ok s → until_nul (s ++ 0 :: rest) = Some s.
Proof.
  induction 1 as [|b s Hb _ IH]; [done|]. simpl.
  unfold char_ok in Hb. destruct (Z.eqb_spec b 0); [lia|]. by rewrite IH.
Qed.
Lemma until_nul_none s : cstr_ok s → until_nul s = None.
Proof.
  induction 1 as [|b s Hb _ IH]; [done|]. simpl.
  unfold char_ok in Hb. destruct (Z.eqb_spec b 0); [lia|]. by rewrite IH.
Qed.
Lemma until_nul_spec l s : until_nul l = Some s → ∃ rest, l = s ++ 0 :: rest.
Proof.
  revert s. induction l as [|b l IH]; intros s; [done|]. simpl.
  destruct (Z.eqb_spec b 0) as [->|]; [intros [= <-]; by exists l|].
  destruct (until_nul l); [|done]. intros [= <-].
  destruct (IH _ eq_refl) as [rest ->]. by exists rest.
Qed.
Lemma until_nul_ok l s : bytes_ok l → until_nul l = Some s → cstr_ok s.
Proof.
  intros Hl. revert s. induction Hl as [|b l Hb _ IH]; intros s; [done|]. simpl.
  destruct (Z.eqb_spec b 0); [intros [= <-]; constructor|].
  destruct (until_nul l); [|done]. intros [= <-]. constructor; [|by apply IH].
  unfold byte_ok in Hb. unfold char_ok. lia.
Qed.

Lemma read_cstr_app pre s rest off avail :
  cstr_ok s → off = zlen pre → zlen s < avail →
  read_cstr (pre ++ s ++ 0 :: rest) off avail = Some (Some (s, zlen s + 1)).
Proof.
  intros Hs -> Ha. pose proof (zlen_nonneg pre). unfold read_cstr.
  rewrite zdrop_app by done. rewrite until_nul_app by done.
  ztrue. simpl. destruct (Z.leb_spec (zlen pre) (zlen (pre ++ s ++ 0 :: rest))).
  - simpl. done.
  - exfalso. zlia.
Qed.

(** A scan bounded by the object stays in the object, and what it consumes does too. *)
Lemma read_cstr_defined p off avail :
  0 ≤ off → off ≤ zlen p → avail = zlen p - off →
  read_cstr p off avail = Some None ∨
  ∃ s, read_cstr p off avail = Some (Some (s, zlen s + 1)) ∧ off + (zlen s + 1) ≤ zlen p.
Proof.
  intros Ho Hp ->. unfold read_cstr. ztrue. simpl.
  destruct (until_nul (zdrop off p)) as [s|] eqn:E.
  - apply until_nul_spec in E as [rest E].
    assert (zlen (zdrop off p) = zlen s + 1 + zlen rest) as Hl
      by (rewrite E, zlen_app, zlen_cons; lia).
    rewrite zlen_zdrop in Hl by lia. pose proof (zlen_nonneg rest).
    ztrue. right. eexists. split; [done|]. lia.
  - by left.
Qed.

Lemma size_sub_small a b : 0 ≤ b ≤ a → a < 2 ^ 64 → size_sub a b = a - b.
Proof. intros. unfold size_sub. apply Z.mod_small. lia. Qed.

Lemma zlen_strncpy s n : 0 ≤ n → zlen (strncpy s n) = n.
Proof.
  intros. unfold strncpy. rewrite zlen_app.
  pose proof (zlen_ztake_le n s). pose proof (zlen_nonneg (ztake n s)).
  rewrite zlen_zrep; lia.
Qed.
Lemma zlen_copy_cstr dst n s : 0 < n → zlen dst = n → zlen (copy_cstr dst n s) = n.
Proof.
  intros Hn Hd. unfold copy_cstr. zcase. destruct s as [s|].
  - rewrite zlen_app, zlen_strncpy by lia. zlia.
  - rewrite zset_Some by lia. simpl. rewrite <- Hd. unfold zlen. by rewrite length_insert.
Qed.

(** Reading the array back gives the source string, cut at [dstsz - 1] characters. *)
Lemma cstr_of_copy_cstr dst n s :
  0 < n → cstr_ok s → cstr_of (copy_cstr dst n (Some s)) = ztake (n - 1) s.
Proof.
  intros Hn Hs. unfold copy_cstr. destruct (Z.eqb_spec n 0); [lia|].
  unfold strncpy, cstr_of.
  assert (Ht : cstr_ok (ztake (n - 1) s)) by by apply Forall_take.
  set (t := ztake (n - 1) s) in *.
  assert (∃ rest, zrep (n - 1 - zlen t) 0 ++ [0] = 0 :: rest) as [rest Hr].
  { unfold zrep. destruct (Z.to_nat _); simpl; eauto. }
  by rewrite <- app_assoc, Hr, until_nul_app.
Qed.

Lemma copy_cstr_bytes_ok dst n s : bytes_ok dst → cstr_ok s → bytes_ok (copy_cstr dst n (Some s)).
Proof.
  intros Hd Hs. unfold copy_cstr. destruct (n =? 0); [done|]. unfold strncpy, bytes_ok.
  rewrite !Forall_app. split_and!.
  - by apply cstr_ok_bytes, Forall_take.
  - apply Forall_replicate. unfold byte_ok. lia.
  - repeat constructor; lia.
Qed.
