(* ===== verification/Ring.v ===== *)
(** * Ring: the event queue

    The ring buffer of src/src/pqwire.c ([enqueue_event], [dequeue_event] and the fields
    [events], [event_head], [event_tail], [event_count], [event_queue_size] of
    [struct pqwire_ctx]), generic in what it stores.

    [BoundedQueue] is the interface the rest of the development uses: a queue of at most
    [q_cap] elements that drops its oldest element to make room, and the laws of its two
    operations in terms of the list of its elements.  [ring_queue] is the implementation's
    proof of the interface. *)
From S2P Require Import Prelude.

(** ** The promise: a bounded queue that drops its oldest element *)
Definition push_bounded {A} (cap : Z) (q : list A) (x : A) : list A :=
  (if cap <=? zlen q then tail q else q) ++ [x].

Class BoundedQueue (Q : Type → Type) := {
  q_list : ∀ {A}, Q A → list A;
  q_cap : ∀ {A}, Q A → Z;
  q_wf : ∀ {A}, Q A → Prop;
  q_enqueue : ∀ {A}, Q A → A → option (Q A);
  q_dequeue : ∀ {A}, Q A → option (option A * Q A);
  q_count : ∀ {A}, Q A → Z;
  q_reset : ∀ {A}, Q A → Q A;
  q_len_cap : ∀ {A} (q : Q A), q_wf q → zlen (q_list q) ≤ q_cap q;
  q_enqueue_spec : ∀ {A} (q : Q A) x, q_wf q →
    ∃ q', q_enqueue q x = Some q' ∧ q_wf q' ∧ q_cap q' = q_cap q ∧
          q_list q' = push_bounded (q_cap q) (q_list q) x;
  q_dequeue_spec : ∀ {A} (q : Q A), q_wf q →
    ∃ q', q_dequeue q = Some (head (q_list q), q') ∧ q_wf q' ∧ q_cap q' = q_cap q ∧
          q_list q' = tail (q_list q);
  q_count_spec : ∀ {A} (q : Q A), q_wf q → q_count q = zlen (q_list q);
  q_reset_spec : ∀ {A} (q : Q A), q_wf q →
    q_wf (q_reset q) ∧ q_cap (q_reset q) = q_cap q ∧ q_list (q_reset q) = [];
}.

(** ** The implementation *)
Record ring (A : Type) := mk_ring {
  events : list A;
  event_head : Z;
  event_tail : Z;
  event_count : Z;
  event_queue_size : Z;
}.
Arguments mk_ring {A}.
Arguments events {A}.
Arguments event_head {A}.
Arguments event_tail {A}.
Arguments event_count {A}.
Arguments event_queue_size {A}.

Section ring.
Context {A : Type}.
Implicit Types (r : ring A) (ev : A).

(** [None]: a write outside [events], or a division by zero. *)
Definition ring_enqueue (r : ring A) (ev : A) : option (ring A) :=
  let n := event_queue_size r in
  let '(hd, cnt) := if n <=? event_count r
                    then ((event_head r + 1) mod n, event_count r - 1)
                    else (event_head r, event_count r) in
  if n =? 0 then None else
  evs ← zset (events r) (event_tail r) ev;
  Some (mk_ring evs hd ((event_tail r + 1) mod n) (cnt + 1) n).

Definition ring_dequeue (r : ring A) : option (option A * ring A) :=
  let n := event_queue_size r in
  if event_count r =? 0 then Some (None, r)
  else if n =? 0 then None
  else ev ← zget (events r) (event_head r);
       Some (Some ev, mk_ring (events r) ((event_head r + 1) mod n) (event_tail r)
                        (event_count r - 1) n).

(** [calloc]ed, then all indices zero. *)
Definition ring_create (n : Z) (zero : A) : ring A := mk_ring (zrep n zero) 0 0 0 n.

(** [event_head = event_tail = event_count = 0], as [pqwire_reset] does. *)
Definition ring_reset r : ring A := mk_ring (events r) 0 0 0 (event_queue_size r).

Record ring_wf r : Prop := {
  rwf_size : 0 < event_queue_size r;
  rwf_len : zlen (events r) = event_queue_size r;
  rwf_head : 0 ≤ event_head r < event_queue_size r;
  rwf_count : 0 ≤ event_count r ≤ event_queue_size r;
  rwf_tail : event_tail r = (event_head r + event_count r) mod event_queue_size r;
}.

(** The queued elements, oldest first. *)
Definition ring_list r : list A :=
  take (Z.to_nat (event_count r)) (rotate (Z.to_nat (event_head r)) (events r)).

Lemma length_ring_list r : ring_wf r → length (ring_list r) = Z.to_nat (event_count r).
Proof.
  intros [H1 H2 H3 H4 H5]. unfold zlen in H2. unfold ring_list.
  rewrite length_take, length_rotate. lia.
Qed.

Lemma ring_list_lookup r (i : nat) :
  ring_wf r → Z.of_nat i < event_count r →
  ring_list r !! i
  = events r !! Z.to_nat ((event_head r + Z.of_nat i) mod event_queue_size r).
Proof.
  intros [H1 H2 H3 H4 H5] Hi. unfold zlen in H2. unfold ring_list.
  rewrite lookup_take_lt by lia. rewrite lookup_rotate_r by lia.
  unfold rotate_nat_add. rewrite H2, Z2Nat.id by lia. done.
Qed.

Lemma mod_add_ne n a i j :
  0 < n → 0 ≤ i < n → 0 ≤ j < n → i ≠ j → (a + i) mod n ≠ (a + j) mod n.
Proof.
  intros Hn Hi Hj Hne He. apply Hne.
  pose proof (Z_div_mod_eq_full (a + i) n) as Ei.
  pose proof (Z_div_mod_eq_full (a + j) n) as Ej. rewrite <- He in Ej.
  assert (i - j = n * ((a + i) / n - (a + j) / n)) by lia.
  assert ((a + i) / n - (a + j) / n = 0) by nia. lia.
Qed.

(** Elements beyond position [i] of the queue are found from a moved head. *)
Lemma mod_add_shift n a i : 0 < n → ((a + 1) mod n + i) mod n = (a + (i + 1)) mod n.
Proof. intros. rewrite Zplus_mod_idemp_l. f_equal. lia. Qed.

(** Moving the head past the oldest element. *)
Lemma ring_advance r :
  ring_wf r → 0 < event_count r →
  let r' := mk_ring (events r) ((event_head r + 1) mod event_queue_size r) (event_tail r)
              (event_count r - 1) (event_queue_size r) in
  ring_wf r' ∧ ring_list r' = tail (ring_list r).
Proof.
  intros Hwf Hc r'. pose proof Hwf as [H1 H2 H3 H4 H5].
  assert (Hwf' : ring_wf r').
  { split; simpl; try done; try lia.
    - apply Z.mod_pos_bound. lia.
    - rewrite H5, mod_add_shift by lia. f_equal. lia. }
  split; [done|]. apply list_eq_same_length with (n := Z.to_nat (event_count r - 1)).
  - rewrite length_tl, length_ring_list by done. lia.
  - rewrite length_ring_list by done. done.
  - intros i x y Hi. rewrite lookup_tail.
    rewrite !ring_list_lookup by (try done; simpl; lia). simpl.
    rewrite mod_add_shift by lia. rewrite Nat2Z.inj_succ. unfold Z.succ. congruence.
Qed.

(** Writing at the tail of a queue that is not full. *)
Lemma ring_append r ev :
  ring_wf r → event_count r < event_queue_size r →
  let r' := mk_ring (<[Z.to_nat (event_tail r) := ev]> (events r)) (event_head r)
              ((event_tail r + 1) mod event_queue_size r)
              (event_count r + 1) (event_queue_size r) in
  ring_wf r' ∧ ring_list r' = ring_list r ++ [ev].
Proof.
  intros Hwf Hc r'. pose proof Hwf as [H1 H2 H3 H4 H5].
  assert (Ht : 0 ≤ event_tail r < event_queue_size r)
    by (rewrite H5; apply Z.mod_pos_bound; lia).
  assert (Hwf' : ring_wf r').
  { split; simpl; try done; try lia.
    - unfold zlen in *. by rewrite length_insert.
    - rewrite H5, Zplus_mod_idemp_l. f_equal. lia. }
  split; [done|]. unfold zlen in H2.
  apply list_eq_same_length with (n := Z.to_nat (event_count r + 1)).
  - rewrite length_app, length_ring_list by done. simpl. lia.
  - by rewrite length_ring_list.
  - intros i x y Hi. rewrite ring_list_lookup by (try done; simpl; lia). simpl.
    destruct (decide (Z.of_nat i < event_count r)) as [Hlt|Hge].
    + rewrite lookup_app_l by (rewrite length_ring_list by done; lia).
      rewrite ring_list_lookup by done.
      rewrite list_lookup_insert_ne; [congruence|]. rewrite H5.
      pose proof (mod_add_ne (event_queue_size r) (event_head r) (event_count r) (Z.of_nat i)).
      pose proof (Z.mod_pos_bound (event_head r + Z.of_nat i) (event_queue_size r)).
      pose proof (Z.mod_pos_bound (event_head r + event_count r) (event_queue_size r)). lia.
    + assert (Z.of_nat i = event_count r) as Hi' by lia. rewrite Hi', <- H5.
      rewrite list_lookup_insert_eq by lia.
      rewrite lookup_app_r; rewrite length_ring_list by done; [|lia].
      replace (i - Z.to_nat (event_count r))%nat with 0%nat by lia. simpl. congruence.
Qed.

Lemma ring_enqueue_spec r ev :
  ring_wf r →
  ∃ r', ring_enqueue r ev = Some r' ∧ ring_wf r' ∧
        event_queue_size r' = event_queue_size r ∧
        ring_list r' = push_bounded (event_queue_size r) (ring_list r) ev.
Proof.
  intros Hwf. pose proof Hwf as [H1 H2 H3 H4 H5].
  assert (Ht : 0 ≤ event_tail r < event_queue_size r)
    by (rewrite H5; apply Z.mod_pos_bound; lia).
  unfold ring_enqueue, push_bounded. unfold zlen at 1.
  rewrite length_ring_list, Z2Nat.id by (done || lia).
  rewrite zset_Some by (rewrite H2; lia).
  destruct (Z.leb_spec (event_queue_size r) (event_count r)) as [Hf|Hf].
  - destruct (ring_advance r Hwf) as [Hwa Hla]; [lia|].
    destruct (ring_append _ ev Hwa) as [Hwb Hlb]; [simpl; lia|].
    destruct (Z.eqb_spec (event_queue_size r) 0); [lia|]. simpl in *.
    eexists. split; [done|]. rewrite Hla in Hlb. done.
  - destruct (ring_append r ev Hwf) as [Hwb Hlb]; [lia|].
    destruct (Z.eqb_spec (event_queue_size r) 0); [lia|]. simpl.
    eexists. split; [done|]. done.
Qed.

Lemma ring_dequeue_spec r :
  ring_wf r →
  ∃ r', ring_dequeue r = Some (head (ring_list r), r') ∧ ring_wf r' ∧
        event_queue_size r' = event_queue_size r ∧ ring_list r' = tail (ring_list r).
Proof.
  intros Hwf. pose proof Hwf as [H1 H2 H3 H4 H5]. unfold ring_dequeue.
  destruct (Z.eqb_spec (event_count r) 0) as [Hc|Hc].
  - exists r. pose proof (length_ring_list r Hwf) as Hl. rewrite Hc in Hl.
    by destruct (ring_list r).
  - destruct (Z.eqb_spec (event_queue_size r) 0); [lia|].
    destruct (ring_advance r Hwf) as [Hwa Hla]; [lia|].
    assert (head (ring_list r) = zget (events r) (event_head r)) as Hh.
    { rewrite head_lookup, ring_list_lookup by (done || lia).
      unfold zget. ztrue. rewrite Z.mod_small by lia. by rewrite Z.add_0_r. }
    destruct (zget_is_Some (event_head r) (events r)) as [ev Hev]; [lia|].
    rewrite Hev in *. simpl. rewrite <- Hh. eexists. split; [done|]. done.
Qed.

Lemma ring_len_cap r : ring_wf r → zlen (ring_list r) ≤ event_queue_size r.
Proof. intros Hwf. unfold zlen. rewrite length_ring_list by done. destruct Hwf. lia. Qed.

Lemma ring_count_spec r : ring_wf r → event_count r = zlen (ring_list r).
Proof. intros Hwf. unfold zlen. rewrite length_ring_list by done. destruct Hwf. lia. Qed.

Lemma ring_create_wf n zero : 0 < n → ring_wf (ring_create n zero).
Proof.
  intros. split; simpl; try lia.
  - by rewrite zlen_zrep by lia.
  - by rewrite Z.mod_0_l by lia.
Qed.
Lemma ring_list_create n zero : ring_list (ring_create n zero) = [].
Proof. done. Qed.
Lemma ring_reset_wf r : ring_wf r → ring_wf (ring_reset r).
Proof. intros []. split; simpl; try done; try lia. Qed.
Lemma ring_reset_spec r :
  ring_wf r →
  ring_wf (ring_reset r) ∧ event_queue_size (ring_reset r) = event_queue_size r ∧
  ring_list (ring_reset r) = [].
Proof. intros. split_and!; [by apply ring_reset_wf|done|done]. Qed.
End ring.

#[export] Instance ring_queue : BoundedQueue ring := {|
  q_list := @ring_list;
  q_cap := @event_queue_size;
  q_wf := @ring_wf;
  q_enqueue := @ring_enqueue;
  q_dequeue := @ring_dequeue;
  q_len_cap := @ring_len_cap;
  q_enqueue_spec := @ring_enqueue_spec;
  q_dequeue_spec := @ring_dequeue_spec;
  q_count := @event_count;
  q_reset := @ring_reset;
  q_count_spec := @ring_count_spec;
  q_reset_spec := @ring_reset_spec;
|}.

(** ** Mapping a function over the stored elements *)
Definition ring_map {A B} (f : A → B) (r : ring A) : ring B :=
  mk_ring (f <$> events r) (event_head r) (event_tail r) (event_count r) (event_queue_size r).

Lemma zget_fmap {A B} (f : A → B) (l : list A) i : zget (f <$> l) i = f <$> zget l i.
Proof. unfold zget. destruct (0 <=? i); [|done]. apply list_lookup_fmap. Qed.
Lemma zset_fmap {A B} (f : A → B) (l : list A) i x :
  zset (f <$> l) i (f x) = (λ l' : list A, f <$> l') <$> zset l i x.
Proof.
  unfold zset. rewrite zlen_map. destruct (_ && _); [|done]. simpl. by rewrite list_fmap_insert.
Qed.

Lemma ring_enqueue_map {A B} (f : A → B) (r : ring A) ev :
  ring_enqueue (ring_map f r) (f ev) = ring_map f <$> ring_enqueue r ev.
Proof.
  unfold ring_enqueue, ring_map. simpl.
  destruct (_ <=? _); simpl; destruct (_ =? 0); try done;
    rewrite zset_fmap; by destruct (zset _ _ _).
Qed.

(** ** The drop-oldest law over a run of enqueues *)
Definition ring_enqueue_all {A} (r : ring A) (evs : list A) : option (ring A) :=
  foldl (λ acc ev, r ← acc; ring_enqueue r ev) (Some r) evs.

Lemma push_bounded_suffix {A} cap (evs q : list A) x k :
  0 < cap → q = zdrop k evs → k = Z.max 0 (zlen evs - cap) →
  push_bounded cap q x = zdrop (Z.max 0 (zlen (evs ++ [x]) - cap)) (evs ++ [x]).
Proof.
  intros Hc -> ->. unfold push_bounded. pose proof (zlen_nonneg evs).
  rewrite zlen_zdrop by lia. autorewrite with zlen.
  destruct (Z.leb_spec cap (zlen evs - Z.max 0 (zlen evs - cap))).
  - rewrite (zdrop_app_le (Z.max _ _)) by lia. f_equal.
    unfold zdrop.
    replace (list.tail (drop (Z.to_nat (Z.max 0 (zlen evs - cap))) evs))
      with (drop 1 (drop (Z.to_nat (Z.max 0 (zlen evs - cap))) evs))
      by by destruct (drop _ evs).
    rewrite drop_drop. f_equal. lia.
  - rewrite zdrop_app_le by lia. f_equal. f_equal. lia.
Qed.

Lemma ring_enqueue_all_spec {A} (evs : list A) (r : ring A) :
  ring_wf r → ring_list r = [] →
  ∃ r', ring_enqueue_all r evs = Some r' ∧ ring_wf r' ∧
        event_queue_size r' = event_queue_size r ∧
        ring_list r' = zdrop (Z.max 0 (zlen evs - event_queue_size r)) evs.
Proof.
  intros Hwf Hr. induction evs as [|x evs IH] using rev_ind.
  - exists r. rewrite Hr, zdrop_all by (rewrite zlen_nil; lia). done.
  - destruct IH as (r1 & He & Hwf1 & Hs & Hl). unfold ring_enqueue_all in *.
    rewrite foldl_app, He. simpl.
    destruct (ring_enqueue_spec r1 x Hwf1) as (r2 & -> & Hwf2 & Hs2 & Hl2).
    exists r2. split_and!; [done|done|congruence|]. rewrite Hl2, Hs.
    eapply push_bounded_suffix; [destruct Hwf; lia|exact Hl|done].
Qed.

(** C5: the event queue keeps the newest [event_queue_size] events: whatever sequence of
    events is enqueued into an empty queue, the queue then holds, in order, exactly the
    last [event_queue_size] of them (all of them if they fit), and every array access of
    the ring was in bounds. *)
Theorem ring_keeps_newest {A} (r : ring A) (evs : list A) :
  ring_wf r → ring_list r = [] →
  ∃ r', ring_enqueue_all r evs = Some r' ∧ ring_wf r' ∧
        ring_list r' = zdrop (Z.max 0 (zlen evs - event_queue_size r)) evs.
Proof.
  intros Hwf Hr. destruct (ring_enqueue_all_spec evs r Hwf Hr) as (r' & ? & ? & ? & ?). eauto.
Qed.

Lemma ring_keeps_newest_witness :
  ∃ r', ring_enqueue_all (ring_create 3 0) [1; 2; 3; 4; 5] = Some r' ∧ ring_wf r' ∧
        ring_list r' = [3; 4; 5].
Proof.
  apply (ring_keeps_newest (ring_create 3 0) [1; 2; 3; 4; 5]).
  - apply ring_create_wf. lia.
  - reflexivity.
Defined.
