(* ===== verification/Events.v ===== *)
(** * Events: the data types of include/protocol_events.h and include/pqwire.h

    Fixed-size C arrays are lists of exactly that length.  Pointers that an event carries
    are values of two types: [ctx_ptr] names one of the scratch arrays of the context, and
    [in_ptr] is a pointer into the context's input buffer, tagged with the allocation it
    points into, so that reading through it after a [realloc] is undefined. *)
From S2P Require Import Prelude.

(** ** Limits *)
Definition PQWIRE_MAX_ROW_COLUMNS : Z := 16.
Definition PQWIRE_NOTIFY_PAYLOAD_MAX : Z := 8000.
Definition PQWIRE_MAX_STMT_NAME : Z := 64.
Definition PQWIRE_MAX_PORTAL_NAME : Z := 64.
Definition PQWIRE_MAX_QUERY_LEN : Z := 4096.
Definition PQWIRE_MAX_BIND_PARAMS : Z := 32.
Definition PQWIRE_MAX_PARAM_TYPES : Z := 16.
Definition PQWIRE_ROW_ARENA : Z := 65536.

Inductive pqwire_role_t := PQWIRE_ROLE_CLIENT | PQWIRE_ROLE_SERVER.
#[export] Instance pqwire_role_eq_dec : EqDecision pqwire_role_t.
Proof. solve_decision. Defined.

Inductive protocol_event_type_t :=
| PROTOCOL_EVENT_NONE
| PQ_EVENT_STARTUP
| PQ_EVENT_AUTHENTICATION_OK
| PQ_EVENT_READY_FOR_QUERY
| PQ_EVENT_QUERY
| PQ_EVENT_ROW_DESCRIPTION
| PQ_EVENT_DATA_ROW
| PQ_EVENT_COMMAND_COMPLETE
| PQ_EVENT_ERROR
| PQ_EVENT_PROTOCOL_ERROR
| PQ_EVENT_ERROR_RESPONSE
| PQ_EVENT_NOTICE_RESPONSE
| PQ_EVENT_PARSE
| PQ_EVENT_BIND
| PQ_EVENT_DESCRIBE
| PQ_EVENT_EXECUTE
| PQ_EVENT_CLOSE
| PQ_EVENT_SYNC
| PQ_EVENT_FLUSH
| PQ_EVENT_TERMINATE
| PQ_EVENT_PARSE_COMPLETE
| PQ_EVENT_BIND_COMPLETE
| PQ_EVENT_NO_DATA
| PQ_EVENT_PORTAL_SUSPENDED
| PQ_EVENT_CLOSE_COMPLETE
| PQ_EVENT_PARAMETER_STATUS
| PQ_EVENT_NOTIFICATION
| PQ_EVENT_COPY_IN_RESPONSE
| PQ_EVENT_COPY_OUT_RESPONSE
| PQ_EVENT_COPY_BOTH_RESPONSE
| PQ_EVENT_COPY_DATA
| PQ_EVENT_COPY_DONE
| PQ_EVENT_COPY_FAIL
| PQ_EVENT_MAX.
#[export] Instance protocol_event_type_eq_dec : EqDecision protocol_event_type_t.
Proof. solve_decision. Defined.

(** ** Pointers *)

(** [&ctx->user_scratch], ... *)
Inductive ctx_ptr := user_scratch_ptr | db_scratch_ptr | sql_scratch_ptr | tag_scratch_ptr
  | col_scratch_ptr.
#[export] Instance ctx_ptr_eq_dec : EqDecision ctx_ptr.
Proof. solve_decision. Defined.

(** [ctx->input_buf + ip_off] for the input buffer's [ip_gen]-th allocation. *)
Record in_ptr := mk_in_ptr { ip_gen : nat; ip_off : Z }.
#[export] Instance in_ptr_eq_dec : EqDecision in_ptr.
Proof. solve_decision. Defined.

Definition in_ptr_add (p : in_ptr) (n : Z) : in_ptr := mk_in_ptr (ip_gen p) (ip_off p + n).

(** ** Payloads *)

(** Column metadata.  [ptr] is what a non-NULL [name] points to: a caller's string, or a row
    of the context's [col_name_scratch]. *)
Record pq_column_desc_t (ptr : Type) := mk_column_desc {
  cd_name : option ptr;
  cd_oid : Z;
  cd_format : Z;
}.
Arguments mk_column_desc {ptr}.
Arguments cd_name {ptr}.
Arguments cd_oid {ptr}.
Arguments cd_format {ptr}.

(** [data[i]] is an offset into the context's [row_arena], [None] for NULL. *)
Record pq_data_row_t := mk_data_row {
  dr_data : list (option Z);
  dr_len : list Z;
  dr_format : list Z;
  dr_oid : list Z;
  dr_n_columns : Z;
}.

Record pq_error_t := mk_error {
  err_severity : list Z;
  err_code : list Z;
  err_message : list Z;
  err_detail : list Z;
  err_hint : list Z;
  err_position : Z;
}.

Record pq_notification_t := mk_notification {
  nt_pid : Z;
  nt_channel : list Z;
  nt_payload : list Z;
  nt_payload_len : Z;
}.

Record pq_parse_t := mk_parse {
  parse_statement : list Z;
  parse_query : list Z;
  parse_n_param_types : Z;
  parse_param_type_oids : list Z;
}.

Record pq_bind_param_view_t := mk_view {
  pv_length : Z;
  pv_data : option in_ptr;
  pv_format : Z;
}.

Record pq_bind_t := mk_bind {
  bind_portal : list Z;
  bind_statement : list Z;
  bind_n_formats : Z;
  bind_formats : list Z;
  bind_n_params : Z;
  bind_params : list pq_bind_param_view_t;
  bind_n_result_formats : Z;
  bind_result_formats : list Z;
  bind_raw_body : in_ptr;
  bind_raw_body_len : Z;
}.

Record pq_describe_t := mk_describe { desc_target : Z; desc_name : list Z }.
Record pq_execute_t := mk_execute { exec_portal : list Z; exec_max_rows : Z }.
Record pq_close_t := mk_close { close_target : Z; close_name : list Z }.

(** The payload union; [P_zero] is the zero-filled union of an event that carries none. *)
Inductive payload_t :=
| P_zero
| P_startup (user database : ctx_ptr)
| P_query (sql : ctx_ptr)
| P_row_desc (columns : ctx_ptr) (column_count : Z)
| P_data_row (row : pq_data_row_t)
| P_command_complete (tag : ctx_ptr)
| P_error (err : pq_error_t)
| P_notification (n : pq_notification_t)
| P_parse (p : pq_parse_t)
| P_bind (b : pq_bind_t)
| P_describe (d : pq_describe_t)
| P_execute (e : pq_execute_t)
| P_close (c : pq_close_t)
| P_raw (data : in_ptr) (len : Z).

Record protocol_event_t := mk_event {
  ev_type : protocol_event_type_t;
  ev_payload : payload_t;
}.

(** An event with a type and nothing else ([memset] to zero, then [ev.type = t]). *)
Definition plain_event (t : protocol_event_type_t) : protocol_event_t := mk_event t P_zero.

(** Zero-filled structures. *)
Definition zero_view : pq_bind_param_view_t := mk_view 0 None 0.
Definition zero_bind (raw : in_ptr) (len : Z) : pq_bind_t :=
  mk_bind (zrep PQWIRE_MAX_PORTAL_NAME 0) (zrep PQWIRE_MAX_STMT_NAME 0)
    0 (zrep PQWIRE_MAX_BIND_PARAMS 0) 0 (zrep PQWIRE_MAX_BIND_PARAMS zero_view)
    0 (zrep PQWIRE_MAX_BIND_PARAMS 0) raw len.
Definition zero_parse : pq_parse_t :=
  mk_parse (zrep PQWIRE_MAX_STMT_NAME 0) (zrep PQWIRE_MAX_QUERY_LEN 0) 0
    (zrep PQWIRE_MAX_PARAM_TYPES 0).
Definition zero_error : pq_error_t :=
  mk_error (zrep 32 0) (zrep 8 0) (zrep 256 0) (zrep 256 0) (zrep 256 0) 0.
Definition zero_data_row : pq_data_row_t :=
  mk_data_row (zrep PQWIRE_MAX_ROW_COLUMNS None) (zrep PQWIRE_MAX_ROW_COLUMNS 0)
    (zrep PQWIRE_MAX_ROW_COLUMNS 0) (zrep PQWIRE_MAX_ROW_COLUMNS 0) 0.
Definition zero_notification : pq_notification_t :=
  mk_notification 0 (zrep 64 0) (zrep (PQWIRE_NOTIFY_PAYLOAD_MAX + 1) 0) 0.

(** ** Forgetting which allocation an input pointer belongs to

    Two runs that differ only in when the input buffer was reallocated deliver events that
    are equal up to this. *)
Definition erase_ptr (p : in_ptr) : in_ptr := mk_in_ptr 0 (ip_off p).
Definition erase_view (v : pq_bind_param_view_t) : pq_bind_param_view_t :=
  mk_view (pv_length v) (erase_ptr <$> pv_data v) (pv_format v).
Definition erase_bind (b : pq_bind_t) : pq_bind_t :=
  mk_bind (bind_portal b) (bind_statement b) (bind_n_formats b) (bind_formats b)
    (bind_n_params b) (erase_view <$> bind_params b) (bind_n_result_formats b)
    (bind_result_formats b) (erase_ptr (bind_raw_body b)) (bind_raw_body_len b).
Definition erase_payload (p : payload_t) : payload_t :=
  match p with
  | P_bind b => P_bind (erase_bind b)
  | P_raw d n => P_raw (erase_ptr d) n
  | _ => p
  end.
Definition erase_event (e : protocol_event_t) : protocol_event_t :=
  mk_event (ev_type e) (erase_payload (ev_payload e)).
