(* ===== verification/Sha256.v ===== *)
(** * Sha256: the hash functions of src/src/scram.c

    [sha256_init], [sha256_update], [sha256_transform], [sha256_final], [hmac_sha256] and
    [pbkdf2_sha256], on [uint32_t] words kept in [0, 2^32).  The constant tables are written
    in decimal.

    [Spec] is the padded-block description of SHA-256 with the additive constant of the
    message schedule as a parameter: FIPS 180-4 has no such constant (0), the code adds
    0x741c = 29724.  The theorems say the streaming code computes exactly the block
    description at 29724, however the message is split over updates, and that this is not
    SHA-256. *)
From S2P Require Import Prelude Wire.

Definition add32 (x y : Z) : Z := to_u32 (x + y).
Definition rotr (x n : Z) : Z := Z.lor (Z.shiftr x n) (to_u32 (Z.shiftl x (32 - n))).

Record SHA256_CTX := mk_sha {
  sha_data : list Z;
  sha_datalen : Z;
  sha_bitlen : Z;
  sha_state : list Z;
}.

(** The table [k]. *)
Definition sha_k : list Z :=
  [ 1116352408; 1899447441; 3049323471; 3921009573; 961987163; 1508970993;
    2453635748; 2870763221; 3624381080; 310598401; 607225278; 1426881987;
    1925078388; 2162078206; 2614888103; 3248222580; 3835390401; 4022224774;
    264347078; 604807628; 770255983; 1249150122; 1555081692; 1996064986;
    2554220882; 2821834349; 2952996808; 3210313671; 3336571891; 3584528711;
    113926993; 338241895; 666307205; 773529912; 1294757372; 1396182291;
    1695183700; 1986661051; 2177026350; 2456956037; 2730485921; 2820302411;
    3259730800; 3345764771; 3516065817; 3600352804; 4094571909; 275423344;
    430227734; 506948616; 659060556; 883997877; 958139571; 1322822218;
    1537002063; 1747873779; 1955562222; 2024104815; 2227730452; 2361852424;
    2428436474; 2756734187; 3204031479; 3329325298 ].

(** The initial [state]. *)
Definition sha_h0 : list Z :=
  [ 1779033703; 3144134277; 1013904242; 2773480762; 1359893119; 2600822924; 528734635; 1541459225 ].

(** ** [sha256_transform] *)

(** [m[i] = (data[j] << 24) | (data[j+1] << 16) | (data[j+2] << 8) | data[j+3]]. *)
Fixpoint block_words (data : list Z) : list Z :=
  match data with
  | d0 :: d1 :: d2 :: d3 :: data' =>
      to_u32 (Z.lor (Z.lor (Z.lor (Z.shiftl d0 24) (Z.shiftl d1 16)) (Z.shiftl d2 8)) d3)
      :: block_words data'
  | _ => []
  end.

Definition sig0 (x : Z) : Z := Z.lxor (Z.lxor (rotr x 7) (rotr x 18)) (Z.shiftr x 3).
Definition sig1 (x : Z) : Z := Z.lxor (Z.lxor (rotr x 17) (rotr x 19)) (Z.shiftr x 10).
Definition Sig0 (x : Z) : Z := Z.lxor (Z.lxor (rotr x 2) (rotr x 13)) (rotr x 22).
Definition Sig1 (x : Z) : Z := Z.lxor (Z.lxor (rotr x 6) (rotr x 11)) (rotr x 25).

(** [m[i]] for [i >= 16]; [cst] is the additive constant. *)
Definition schedule_word (cst : Z) (m : list Z) (i : nat) : Z :=
  add32 (add32 (add32 (add32 (nth (i - 16) m 0) cst) (sig0 (nth (i - 15) m 0)))
    (nth (i - 7) m 0)) (sig1 (nth (i - 2) m 0)).

Definition schedule (cst : Z) (data : list Z) : list Z :=
  foldl (λ m i, m ++ [schedule_word cst m i]) (block_words data) (seq 16 48).

(** The working variables [a] .. [h]. *)
Record sha_vars := mk_vars { va : Z; vb : Z; vc : Z; vd : Z; ve : Z; vf : Z; vg : Z; vh : Z }.

Definition sha_round (m : list Z) (v : sha_vars) (i : nat) : sha_vars :=
  let ch := Z.lxor (Z.land (ve v) (vf v)) (Z.land (to_u32 (Z.lnot (ve v))) (vg v)) in
  let maj := Z.lxor (Z.lxor (Z.land (va v) (vb v)) (Z.land (va v) (vc v)))
               (Z.land (vb v) (vc v)) in
  let t1 := add32 (add32 (add32 (add32 (vh v) (Sig1 (ve v))) ch) (nth i sha_k 0)) (nth i m 0) in
  let t2 := add32 (Sig0 (va v)) maj in
  mk_vars (add32 t1 t2) (va v) (vb v) (vc v) (add32 (vd v) t1) (ve v) (vf v) (vg v).

(** The compression of one 64-byte block into the state, for a given schedule constant. *)
Definition compress (cst : Z) (st data : list Z) : list Z :=
  let m := schedule cst data in
  let w i := nth i st 0 in
  let v := foldl (sha_round m)
             (mk_vars (w 0%nat) (w 1%nat) (w 2%nat) (w 3%nat) (w 4%nat) (w 5%nat) (w 6%nat)
                (w 7%nat)) (seq 0 64) in
  [ add32 (w 0%nat) (va v); add32 (w 1%nat) (vb v); add32 (w 2%nat) (vc v);
    add32 (w 3%nat) (vd v); add32 (w 4%nat) (ve v); add32 (w 5%nat) (vf v);
    add32 (w 6%nat) (vg v); add32 (w 7%nat) (vh v) ].

#[global] Arguments schedule : simpl never.
#[global] Arguments compress : simpl never.

(** The constant the code's message schedule adds. *)
Definition schedule_cst : Z := 0x741c.

Definition sha256_transform (ctx : SHA256_CTX) (data : list Z) : SHA256_CTX :=
  mk_sha (sha_data ctx) (sha_datalen ctx) (sha_bitlen ctx)
    (compress schedule_cst (sha_state ctx) data).

(** ** [sha256_init], [sha256_update], [sha256_final]

    [data0] is the indeterminate content of an uninitialised [SHA256_CTX]. *)
Definition sha256_init (data0 : list Z) : SHA256_CTX := mk_sha data0 0 0 sha_h0.

Definition sha_update_byte (ctx : SHA256_CTX) (b : Z) : option SHA256_CTX :=
  data ← zset (sha_data ctx) (sha_datalen ctx) b;
  let ctx := mk_sha data (sha_datalen ctx + 1) (sha_bitlen ctx) (sha_state ctx) in
  if sha_datalen ctx =? 64 then
    let ctx := sha256_transform ctx data in
    Some (mk_sha (sha_data ctx) 0 ((sha_bitlen ctx + 512) mod 2 ^ 64) (sha_state ctx))
  else Some ctx.

Definition sha256_update (ctx : SHA256_CTX) (data : list Z) : option SHA256_CTX :=
  foldl (λ acc b, c ← acc; sha_update_byte c b) (Some ctx) data.

(** [data[i++] = 0x00], [n] times. *)
Fixpoint zero_fill (data : list Z) (i : Z) (n : nat) : option (list Z) :=
  match n with
  | O => Some data
  | S n' => data' ← zset data i 0; zero_fill data' (i + 1) n'
  end.

Definition hash_bytes (st : list Z) : list Z :=
  concat ((λ w, (λ i, Z.land (Z.shiftr (nth w st 0) (24 - i * 8)) 255) <$> [0; 1; 2; 3])
            <$> seq 0 8).

#[global] Arguments hash_bytes : simpl never.

Definition bitlen_bytes (n : Z) : list Z :=
  (λ s, to_u8 (Z.shiftr n s)) <$> [56; 48; 40; 32; 24; 16; 8; 0].

Definition sha256_final (ctx : SHA256_CTX) : option (SHA256_CTX * list Z) :=
  let i := sha_datalen ctx in
  data ← zset (sha_data ctx) i 0x80;
  ctx' ← (if i <? 56 then
            data ← zero_fill data (i + 1) (Z.to_nat (56 - (i + 1)));
            Some (mk_sha data i (sha_bitlen ctx) (sha_state ctx))
          else
            data ← zero_fill data (i + 1) (Z.to_nat (64 - (i + 1)));
            let c := sha256_transform (mk_sha data i (sha_bitlen ctx) (sha_state ctx)) data in
            data ← mem_write (sha_data c) 0 (zrep 56 0);
            Some (mk_sha data i (sha_bitlen c) (sha_state c)));
  let bitlen := (sha_bitlen ctx' + sha_datalen ctx' * 8) mod 2 ^ 64 in
  data ← mem_write (sha_data ctx') 56 (bitlen_bytes bitlen);
  let c := sha256_transform (mk_sha data (sha_datalen ctx') bitlen (sha_state ctx')) data in
  Some (c, hash_bytes (sha_state c)).

(** One whole hash: init, update, final on a fresh stack object. *)
Definition sha256 (data0 msg : list Z) : option (list Z) :=
  c ← sha256_update (sha256_init data0) msg;
  r ← sha256_final c;
  Some (snd r).

(** ** [hmac_sha256] and [pbkdf2_sha256] *)

(** [for (i = 0; i < keylen; i++) pad[i] ^= key[i];]  [None]: [keylen] exceeds the pad. *)
Fixpoint xor_into (pad key : list Z) : option (list Z) :=
  match key, pad with
  | [], _ => Some pad
  | _, [] => None
  | k :: key', p :: pad' => cons (Z.lxor p k) <$> xor_into pad' key'
  end.

(** [out] may alias [data]: [data] is read to its end before [out] is written. *)
Definition hmac_sha256 (data0 key data : list Z) : option (list Z) :=
  '(ctx0, key) ← (if 64 <? zlen key then
                    c ← sha256_update (sha256_init data0) key;
                    '(c, tk) ← sha256_final c;
                    Some (sha_data c, tk)
                  else Some (data0, key));
  k_ipad ← xor_into (zrep 64 0x36) key;
  k_opad ← xor_into (zrep 64 0x5c) key;
  c ← sha256_update (sha256_init ctx0) k_ipad;
  c ← sha256_update c data;
  '(c, out) ← sha256_final c;
  c ← sha256_update (sha256_init (sha_data c)) k_opad;
  c ← sha256_update c out;
  '(c, out) ← sha256_final c;
  Some out.

(** The loop of [pbkdf2_sha256]: [n] further iterations. *)
Fixpoint pbkdf2_loop (data0 password : list Z) (n : nat) (u t : list Z) : option (list Z) :=
  match n with
  | O => Some t
  | S n' =>
      u ← hmac_sha256 data0 password u;
      t ← xor_into t u;
      pbkdf2_loop data0 password n' u t
  end.

(** [salt_buf0] is the indeterminate content of the 64-byte [salt_buf]; [None] when a store
    leaves it. *)
Definition pbkdf2_sha256 (data0 salt_buf0 password salt : list Z) (iterations out_len : Z) :
    option (list Z) :=
  let salt_len := zlen salt in
  salt_buf ← mem_write salt_buf0 0 salt;
  salt_buf ← zset salt_buf salt_len 0;
  salt_buf ← zset salt_buf (salt_len + 1) 0;
  salt_buf ← zset salt_buf (salt_len + 2) 0;
  salt_buf ← zset salt_buf (salt_len + 3) 1;
  t ← hmac_sha256 data0 password (ztake (salt_len + 4) salt_buf);
  t ← pbkdf2_loop data0 password (Z.to_nat (iterations - 1)) t t;
  Some (ztake (if 32 <? out_len then 32 else out_len) t).

(** ** The block description *)
Module Spec.
Fixpoint blocks (q : nat) (l : list Z) : list (list Z) :=
  match q with
  | O => []
  | S q' => ztake 64 l :: blocks q' (zdrop 64 l)
  end.

(** Padding to a multiple of 64 bytes: 0x80, zeros, the 64-bit length in bits. *)
Definition pad_zeros (n : Z) : Z := (55 - n) mod 64.
Definition pad (msg : list Z) : list Z :=
  msg ++ [0x80] ++ zrep (pad_zeros (zlen msg)) 0 ++ bitlen_bytes (8 * zlen msg mod 2 ^ 64).

Definition run (cst : Z) (padded : list Z) : list Z :=
  foldl (compress cst) sha_h0 (blocks (Z.to_nat (zlen padded / 64)) padded).

Definition sha256 (cst : Z) (msg : list Z) : list Z := hash_bytes (run cst (pad msg)).

Definition xor_bytes (a b : list Z) : list Z := zip_with Z.lxor a b.

(** RFC 2104 over [sha256 cst]. *)
Definition hmac (cst : Z) (key data : list Z) : list Z :=
  let k := if 64 <? zlen key then sha256 cst key else key in
  let k0 := k ++ zrep (64 - zlen k) 0 in
  sha256 cst (xor_bytes (zrep 64 0x5c) k0 ++ sha256 cst (xor_bytes (zrep 64 0x36) k0 ++ data)).

(** RFC 8018, first block: U_1 xor U_2 xor ... *)
Fixpoint pbkdf2_tail (cst : Z) (password : list Z) (n : nat) (u t : list Z) : list Z :=
  match n with
  | O => t
  | S n' => let u' := hmac cst password u in
            pbkdf2_tail cst password n' u' (xor_bytes t u')
  end.
Definition pbkdf2 (cst : Z) (password salt : list Z) (iterations : Z) : list Z :=
  let u1 := hmac cst password (salt ++ [0; 0; 0; 1]) in
  pbkdf2_tail cst password (Z.to_nat (iterations - 1)) u1 u1.
End Spec.

(** ** Lemmas *)
Lemma blocks_snoc q l blk :
  zlen l = 64 * Z.of_nat q → zlen blk = 64 →
  Spec.blocks (S q) (l ++ blk) = Spec.blocks q l ++ [blk].
Proof.
  revert l. induction q as [|q IH]; intros l Hl Hb.
  - assert (l = []) as -> by (destruct l; [done|zlia]). simpl.
    by rewrite ztake_all by lia.
  - change (Spec.blocks (S (S q)) (l ++ blk))
      with (ztake 64 (l ++ blk) :: Spec.blocks (S q) (zdrop 64 (l ++ blk))).
    rewrite ztake_app_le, zdrop_app_le by lia. rewrite IH; [done| |done].
    rewrite zlen_zdrop by lia. lia.
Qed.

Lemma run_snoc cst l blk q :
  zlen l = 64 * q → 0 ≤ q → zlen blk = 64 →
  Spec.run cst (l ++ blk) = compress cst (Spec.run cst l) blk.
Proof.
  intros Hl Hq Hb. unfold Spec.run. rewrite zlen_app, Hl, Hb.
  replace (64 * q + 64) with ((q + 1) * 64) by lia. rewrite (Z.mul_comm 64 q).
  rewrite !Z.div_mul by lia. replace (Z.to_nat (q + 1)) with (S (Z.to_nat q)) by lia.
  rewrite blocks_snoc by lia. by rewrite foldl_app.
Qed.

Lemma zlen_bitlen_bytes n : zlen (bitlen_bytes n) = 8.
Proof. done. Qed.
#[export] Hint Rewrite zlen_bitlen_bytes : zlen.

(** What [sha256_update] keeps: [hd] is the part of the message already compressed. *)
Record sha_inv (msg : list Z) (c : SHA256_CTX) (hd tl : list Z) (q : Z) : Prop := {
  si_msg : msg = hd ++ tl;
  si_q : 0 ≤ q;
  si_hd : zlen hd = 64 * q;
  si_tl : zlen tl = sha_datalen c;
  si_len : sha_datalen c < 64;
  si_data : ztake (sha_datalen c) (sha_data c) = tl;
  si_size : zlen (sha_data c) = 64;
  si_bits : sha_bitlen c = 512 * q mod 2 ^ 64;
  si_state : sha_state c = Spec.run schedule_cst hd;
}.

Lemma zset_take l i (b : Z) l' :
  0 ≤ i → zset l i b = Some l' → ztake (i + 1) l' = ztake i l ++ [b].
Proof.
  unfold zset. case_match eqn:E; [|done]. intros Hi [= <-]. zbool.
  unfold ztake, zlen in *. replace (Z.to_nat (i + 1)) with (S (Z.to_nat i)) by lia.
  erewrite take_S_r by (apply list_lookup_insert_eq; lia).
  by rewrite take_insert_ge by lia.
Qed.

Lemma sha_update_byte_inv msg c hd tl q b :
  sha_inv msg c hd tl q →
  ∃ c' hd' tl' q', sha_update_byte c b = Some c' ∧ sha_inv (msg ++ [b]) c' hd' tl' q'.
Proof.
  intros [Hm Hq Hh Ht Hl Hd Hs Hb Hst]. pose proof (zlen_nonneg tl).
  unfold sha_update_byte. rewrite zset_Some by lia. simpl.
  set (data' := <[_ := b]> (sha_data c)).
  assert (Hz : zset (sha_data c) (sha_datalen c) b = Some data') by (rewrite zset_Some by lia; done).
  pose proof (zset_zlen _ _ _ _ Hz) as Hzl.
  apply zset_take in Hz; [|lia]. rewrite Hd in Hz.
  destruct (Z.eqb_spec (sha_datalen c + 1) 64) as [E|E].
  - rewrite E, ztake_all in Hz by lia.
    eexists _, (hd ++ data'), [], (q + 1). split; [done|].
    split; simpl; try done; try lia.
    + rewrite app_nil_r, Hm, Hz. by rewrite app_assoc.
    + rewrite zlen_app. lia.
    + rewrite Hb, Zplus_mod_idemp_l. f_equal. lia.
    + rewrite Hst. by erewrite run_snoc by (done || lia).
  - eexists _, hd, (tl ++ [b]), q. split; [done|]. split; simpl; try done; try lia.
    + by rewrite Hm, app_assoc.
    + rewrite zlen_app, zlen_cons, zlen_nil. lia.
Qed.

Lemma sha_update_inv msg0 msg c hd tl q :
  sha_inv msg0 c hd tl q →
  ∃ c' hd' tl' q', sha256_update c msg = Some c' ∧ sha_inv (msg0 ++ msg) c' hd' tl' q'.
Proof.
  intros Hi. induction msg as [|b msg IH] using rev_ind.
  - exists c, hd, tl, q. by rewrite app_nil_r.
  - destruct IH as (c1 & hd1 & tl1 & q1 & Hu & Hi1).
    destruct (sha_update_byte_inv _ _ _ _ _ b Hi1) as (c2 & hd2 & tl2 & q2 & Hb & Hi2).
    exists c2, hd2, tl2, q2. unfold sha256_update in *. rewrite foldl_app, Hu. simpl.
    by rewrite app_assoc.
Qed.

Lemma sha_init_inv data0 : zlen data0 = 64 → sha_inv [] (sha256_init data0) [] [] 0.
Proof. intros. split; done. Qed.

Lemma zero_fill_spec n data i :
  0 ≤ i → i + Z.of_nat n ≤ zlen data →
  zero_fill data i n = Some (ztake i data ++ replicate n 0 ++ zdrop (i + Z.of_nat n) data).
Proof.
  revert data i. induction n as [|n IH]; intros data i Hi Hn.
  - simpl. rewrite Z.add_0_r. by rewrite ztake_zdrop.
  - simpl. rewrite zset_Some by lia. simpl.
    assert (Hz : zset data i 0 = Some (<[Z.to_nat i := 0]> data)) by (by rewrite zset_Some by lia).
    rewrite IH by (try lia; erewrite zset_zlen by done; lia).
    erewrite zset_take by (done || lia). f_equal. rewrite <- app_assoc. f_equal. simpl.
    f_equal. f_equal. unfold zdrop. rewrite drop_insert_lt by lia. f_equal. lia.
Qed.

Lemma mem_write_app (a b d : list Z) off :
  off = zlen a → zlen d = zlen b → mem_write (a ++ b) off d = Some (a ++ d).
Proof.
  intros -> Hd. pose proof (zlen_nonneg a).
  rewrite mem_write_Some by (rewrite ?zlen_app; lia).
  rewrite ztake_app, zdrop_all by (done || rewrite ?zlen_app; lia). by rewrite app_nil_r.
Qed.

Lemma zero_fill_to tl data i n :
  ztake (i + 1) data = tl ++ [128] → 0 ≤ i → i + 1 ≤ n ≤ zlen data →
  zero_fill data (i + 1) (Z.to_nat (n - (i + 1)))
  = Some ((tl ++ [128] ++ zrep (n - 1 - i) 0) ++ zdrop n data).
Proof.
  intros Ht Hi Hn. rewrite zero_fill_spec by lia. rewrite Ht.
  replace (i + 1 + Z.of_nat (Z.to_nat (n - (i + 1)))) with n by lia.
  unfold zrep. replace (n - 1 - i) with (n - (i + 1)) by lia. by rewrite <- !app_assoc.
Qed.

Lemma pad_zeros_low q n : 0 ≤ n < 56 → Spec.pad_zeros (64 * q + n) = 55 - n.
Proof.
  intros. unfold Spec.pad_zeros. symmetry. apply Z.mod_unique with (q := - q); lia.
Qed.
Lemma pad_zeros_high q n : 56 ≤ n < 64 → Spec.pad_zeros (64 * q + n) = 119 - n.
Proof.
  intros. unfold Spec.pad_zeros. symmetry. apply Z.mod_unique with (q := - q - 1); lia.
Qed.

(** The whole of [sha256_final] on a context that has absorbed [msg]. *)
Lemma sha_final_spec msg c hd tl q :
  sha_inv msg c hd tl q →
  ∃ c', sha256_final c = Some (c', Spec.sha256 schedule_cst msg).
Proof.
  intros [Hm Hq Hh Ht Hl Hd Hs Hb Hst]. pose proof (zlen_nonneg tl).
  assert (Hmlen : zlen msg = 64 * q + sha_datalen c) by (rewrite Hm, zlen_app; lia).
  assert (Hbits : (sha_bitlen c + sha_datalen c * 8) mod 2 ^ 64 = 8 * zlen msg mod 2 ^ 64).
  { rewrite Hb, Zplus_mod_idemp_l. f_equal. lia. }
  unfold sha256_final. rewrite zset_Some by lia. simpl.
  set (data1 := <[_ := 128]> (sha_data c)).
  assert (Hz : zset (sha_data c) (sha_datalen c) 128 = Some data1) by (by rewrite zset_Some by lia).
  pose proof (zset_zlen _ _ _ _ Hz) as Hzl. apply zset_take in Hz; [|lia]. rewrite Hd in Hz.
  unfold Spec.sha256, Spec.pad. rewrite <- Hbits, Hmlen.
  rewrite Hm, <- (app_assoc hd).
  destruct (Z.ltb_spec (sha_datalen c) 56) as [Hlt|Hge].
  - rewrite (zero_fill_to tl) by (done || lia). simpl.
    rewrite mem_write_app by zl.
    simpl. rewrite pad_zeros_low by lia. eexists. do 2 f_equal.
    rewrite Hst, <- (run_snoc _ _ _ q), <- !app_assoc by zl.
    simpl. repeat f_equal; lia.
  - rewrite (zero_fill_to tl) by (done || lia). rewrite zdrop_all, app_nil_r by lia. simpl.
    set (b1 := tl ++ _). assert (Hb1 : zlen b1 = 64).
    { unfold b1. zl. }
    rewrite mem_write_Some by zl. rewrite ztake_0. autorewrite with zlen.
    cbn [mbind option_bind app sha_data sha_datalen sha_bitlen sha_state sha256_transform].
    rewrite mem_write_app by zl.
    cbn [mbind option_bind app sha_data sha_datalen sha_bitlen sha_state sha256_transform].
    rewrite pad_zeros_high by lia. eexists. do 2 f_equal.
    rewrite Hst, <- (run_snoc _ _ _ q) by (done || lia).
    rewrite <- (run_snoc _ _ _ (q + 1)) by zl.
    f_equal. unfold b1. rewrite <- !app_assoc. do 2 f_equal. cbn [app]. f_equal.
    rewrite app_assoc. f_equal. unfold zrep. rewrite <- replicate_add.
    by replace (_ + _)%nat with (Z.to_nat (119 - sha_datalen c)) by lia.
Qed.

Lemma zlen_hash_bytes st : zlen (hash_bytes st) = 32.
Proof. done. Qed.
Lemma zlen_spec_sha256 cst msg : zlen (Spec.sha256 cst msg) = 32.
Proof. apply zlen_hash_bytes. Qed.

(** A complete hash on a 64-byte context object, which [sha256_final] leaves 64 bytes long. *)
Lemma zlen_data_final c c' h :
  sha256_final c = Some (c', h) → zlen (sha_data c') = zlen (sha_data c).
Proof.
  unfold sha256_final. intros Hf.
  destruct (zset _ _ _) as [d1|] eqn:E1; [|done]. apply zset_zlen in E1. cbn in Hf.
  assert (Hz : ∀ n d i d', zero_fill d i n = Some d' → zlen d' = zlen d).
  { induction n as [|n IH]; intros d i d'; cbn; [by intros [= <-]|].
    destruct (zset d i 0) eqn:E; [|done]. cbn. intros ->%IH. by apply zset_zlen in E. }
  destruct (_ <? _).
  - destruct (zero_fill _ _ _) as [d2|] eqn:E2; [|done]. apply Hz in E2. cbn in Hf.
    destruct (mem_write d2 _ _) as [d3|] eqn:E3; [|done]. apply mem_write_zlen in E3.
    cbn in Hf. injection Hf as <- _. cbn. lia.
  - destruct (zero_fill _ _ _) as [d2|] eqn:E2; [|done]. apply Hz in E2. cbn in Hf.
    destruct (mem_write d2 _ _) as [d3|] eqn:E3; [|done]. apply mem_write_zlen in E3.
    cbn in Hf.
    destruct (mem_write d3 _ _) as [d4|] eqn:E4; [|done]. apply mem_write_zlen in E4.
    cbn in Hf. injection Hf as <- _. cbn. lia.
Qed.

(** Absorbing chunks one after the other. *)
Lemma sha_updates_inv (chunks : list (list Z)) msg0 c hd tl q :
  sha_inv msg0 c hd tl q →
  ∃ c' hd' tl' q',
    foldl (λ acc d, c ← acc; sha256_update c d) (Some c) chunks = Some c' ∧
    sha_inv (msg0 ++ concat chunks) c' hd' tl' q'.
Proof.
  revert msg0 c hd tl q. induction chunks as [|d chunks IH]; intros msg0 c hd tl q Hi.
  - exists c, hd, tl, q. by rewrite app_nil_r.
  - destruct (sha_update_inv _ d _ _ _ _ Hi) as (c1 & hd1 & tl1 & q1 & Hu & Hi1).
    destruct (IH _ _ _ _ _ Hi1) as (c2 & hd2 & tl2 & q2 & Hf & Hi2).
    exists c2, hd2, tl2, q2. simpl. rewrite Hu. by rewrite app_assoc.
Qed.

Lemma hash_chunks data0 chunks :
  zlen data0 = 64 →
  ∃ c c',
    foldl (λ acc d, c ← acc; sha256_update c d) (Some (sha256_init data0)) chunks = Some c ∧
    sha256_final c = Some (c', Spec.sha256 schedule_cst (concat chunks)) ∧
    zlen (sha_data c') = 64.
Proof.
  intros Hd. destruct (sha_updates_inv chunks _ _ _ _ _ (sha_init_inv data0 Hd))
    as (c & hd & tl & q & Hu & Hi).
  destruct (sha_final_spec _ _ _ _ _ Hi) as [c' Hf].
  exists c, c'. split_and!; [done|done|]. rewrite (zlen_data_final _ _ _ Hf). by destruct Hi.
Qed.

Lemma xor_into_spec pad key :
  zlen key ≤ zlen pad →
  xor_into pad key = Some (Spec.xor_bytes pad (key ++ zrep (zlen pad - zlen key) 0)).
Proof.
  revert pad. induction key as [|k key IH]; intros pad Hl.
  - simpl. rewrite Z.sub_0_r. unfold zrep, zlen, Spec.xor_bytes. rewrite Nat2Z.id.
    clear Hl. induction pad as [|p pad IH]; [done|]. simpl.
    replace (xor_into pad []) with (Some pad) in IH by by destruct pad.
    injection IH as <-. by rewrite Z.lxor_0_r.
  - destruct pad as [|p pad]; [zlia|]. simpl. rewrite IH by zlia. simpl. do 3 f_equal.
    f_equal. f_equal. zlia.
Qed.

Lemma hmac_spec data0 key data :
  zlen data0 = 64 →
  hmac_sha256 data0 key data = Some (Spec.hmac schedule_cst key data).
Proof.
  intros Hd. unfold hmac_sha256, Spec.hmac.
  set (k := if 64 <? zlen key then _ else key).
  assert (∃ d1, zlen d1 = 64 ∧ zlen k ≤ 64 ∧
    (if 64 <? zlen key then
       c ← sha256_update (sha256_init data0) key;
       '(c, tk) ← sha256_final c;
       Some (sha_data c, tk)
     else Some (data0, key)) = Some (d1, k)) as (d1 & Hd1 & Hk & ->).
  { unfold k. destruct (Z.ltb_spec 64 (zlen key)).
    - destruct (hash_chunks data0 [key] Hd) as (c & c' & Hu & Hf & Hz). simpl in Hu.
      rewrite Hu. simpl. rewrite Hf. simpl. rewrite app_nil_r. exists (sha_data c').
      by rewrite zlen_spec_sha256.
    - by exists data0. }
  cbn [mbind option_bind]. rewrite !xor_into_spec by zl. cbn [mbind option_bind].
  rewrite !zlen_zrep by lia. set (k0 := k ++ _).
  destruct (hash_chunks d1 [Spec.xor_bytes (zrep 64 54) k0; data] Hd1) as (c & c' & Hu & Hf & Hz).
  cbn [foldl mbind option_bind concat] in Hu. cbn [concat] in Hf. rewrite app_nil_r in Hf.
  destruct (sha256_update _ _) as [c1|]; [|done]. cbn [mbind option_bind] in Hu |- *.
  rewrite Hu. cbn [mbind option_bind]. rewrite Hf. cbn [mbind option_bind].
  set (inner := Spec.sha256 _ _).
  destruct (hash_chunks (sha_data c') [Spec.xor_bytes (zrep 64 92) k0; inner] Hz)
    as (c2 & c2' & Hu2 & Hf2 & _).
  cbn [foldl mbind option_bind concat] in Hu2. cbn [concat] in Hf2. rewrite app_nil_r in Hf2.
  destruct (sha256_update (sha256_init (sha_data c')) _) as [c3|]; [|done].
  cbn [mbind option_bind] in Hu2 |- *. rewrite Hu2. cbn [mbind option_bind].
  by rewrite Hf2.
Qed.

Lemma zlen_xor_bytes a b : zlen a = zlen b → zlen (Spec.xor_bytes a b) = zlen a.
Proof. unfold zlen, Spec.xor_bytes. intros. rewrite length_zip_with. lia. Qed.

Lemma zlen_spec_hmac cst key data : zlen (Spec.hmac cst key data) = 32.
Proof. apply zlen_spec_sha256. Qed.

Lemma pbkdf2_loop_spec data0 password n u t :
  zlen data0 = 64 → zlen t = 32 →
  pbkdf2_loop data0 password n u t = Some (Spec.pbkdf2_tail schedule_cst password n u t).
Proof.
  intros Hd. revert u t. induction n as [|n IH]; intros u t Ht; [done|].
  cbn [pbkdf2_loop Spec.pbkdf2_tail]. rewrite hmac_spec by done. cbn [mbind option_bind].
  pose proof (zlen_spec_hmac schedule_cst password u) as Hu.
  rewrite xor_into_spec by lia. rewrite Ht, Hu.
  change (zrep (32 - 32) 0) with (@nil Z). rewrite app_nil_r. cbn [mbind option_bind].
  apply IH. rewrite zlen_xor_bytes; lia.
Qed.

(** The four stores after the salt, when they fit. *)
Lemma salt_buf_spec salt_buf0 salt :
  zlen salt_buf0 = 64 → zlen salt ≤ 60 →
  ∃ b0 b1 b2 b3 b4,
    mem_write salt_buf0 0 salt = Some b0 ∧ zset b0 (zlen salt) 0 = Some b1 ∧
    zset b1 (zlen salt + 1) 0 = Some b2 ∧ zset b2 (zlen salt + 2) 0 = Some b3 ∧
    zset b3 (zlen salt + 3) 1 = Some b4 ∧ ztake (zlen salt + 4) b4 = salt ++ [0; 0; 0; 1].
Proof.
  intros Hb Hs. pose proof (zlen_nonneg salt). rewrite mem_write_Some by lia.
  set (b0 := ztake 0 _ ++ _).
  assert (Hb0 : zlen b0 = 64) by (unfold b0; rewrite ztake_0; zl).
  assert (Ht0 : ztake (zlen salt) b0 = salt).
  { unfold b0. rewrite ztake_0. cbn [app]. by apply ztake_app. }
  assert (Hset : ∀ (b : list Z) i x, zlen b = 64 → 0 ≤ i < 64 →
    ∃ b', zset b i x = Some b' ∧ zlen b' = 64 ∧ ztake (i + 1) b' = ztake i b ++ [x]).
  { intros b i x Hz Hi. destruct (zset b i x) as [b'|] eqn:E; [|by rewrite zset_Some in E by lia].
    exists b'. rewrite (zset_zlen _ _ _ _ E). erewrite zset_take by (done || lia). done. }
  destruct (Hset b0 (zlen salt) 0) as (b1 & E1 & Hb1 & Ht1); [lia..|].
  destruct (Hset b1 (zlen salt + 1) 0) as (b2 & E2 & Hb2 & Ht2); [lia..|].
  destruct (Hset b2 (zlen salt + 2) 0) as (b3 & E3 & Hb3 & Ht3); [lia..|].
  destruct (Hset b3 (zlen salt + 3) 1) as (b4 & E4 & Hb4 & Ht4); [lia..|].
  exists b0, b1, b2, b3, b4. do 5 (split; [done|]).
  replace (zlen salt + 4) with (zlen salt + 3 + 1) by lia. rewrite Ht4.
  replace (zlen salt + 3) with (zlen salt + 2 + 1) by lia. rewrite Ht3.
  replace (zlen salt + 2) with (zlen salt + 1 + 1) by lia. rewrite Ht2, Ht1, Ht0.
  by rewrite <- !app_assoc.
Qed.

Lemma pbkdf2_spec data0 salt_buf0 password salt iterations out_len :
  zlen data0 = 64 → zlen salt_buf0 = 64 → zlen salt ≤ 60 →
  pbkdf2_sha256 data0 salt_buf0 password salt iterations out_len
  = Some (ztake (Z.min 32 out_len) (Spec.pbkdf2 schedule_cst password salt iterations)).
Proof.
  intros Hd Hb Hs.
  destruct (salt_buf_spec _ _ Hb Hs) as (b0 & b1 & b2 & b3 & b4 & E0 & E1 & E2 & E3 & E4 & Ht).
  unfold pbkdf2_sha256. rewrite E0. cbn [mbind option_bind]. rewrite E1. cbn [mbind option_bind].
  rewrite E2. cbn [mbind option_bind]. rewrite E3. cbn [mbind option_bind].
  rewrite E4. cbn [mbind option_bind]. rewrite Ht, hmac_spec by done. cbn [mbind option_bind].
  rewrite pbkdf2_loop_spec by (done || apply zlen_spec_hmac). cbn [mbind option_bind].
  unfold Spec.pbkdf2. f_equal. f_equal. destruct (Z.ltb_spec 32 out_len); lia.
Qed.

(** A salt of more than 60 bytes makes a store leave [salt_buf]. *)
Lemma pbkdf2_overflow data0 salt_buf0 password salt iterations out_len :
  zlen salt_buf0 = 64 → 60 < zlen salt →
  pbkdf2_sha256 data0 salt_buf0 password salt iterations out_len = None.
Proof.
  intros Hb Hs.
  unfold pbkdf2_sha256. destruct (mem_write _ _ _) as [b0|] eqn:E0; [|done].
  apply mem_write_zlen in E0. cbn [mbind option_bind].
  destruct (zset b0 _ _) as [b1|] eqn:E1; [|done]. apply zset_zlen in E1. cbn [mbind option_bind].
  destruct (zset b1 _ _) as [b2|] eqn:E2; [|done]. apply zset_zlen in E2. cbn [mbind option_bind].
  destruct (zset b2 _ _) as [b3|] eqn:E3; [|done]. apply zset_zlen in E3. cbn [mbind option_bind].
  assert (zset b3 (zlen salt + 3) 1 = None) as ->; [|done].
  unfold zset. destruct (Z.ltb_spec (zlen salt + 3) (zlen b3)); [lia|]. by rewrite andb_false_r.
Qed.

(** ** Properties *)

(** C30: streaming correctness.  Whatever chunks a message is fed in, [sha256_init] followed
    by one [sha256_update] per chunk and [sha256_final] performs only in-bounds accesses and
    returns the hash of the concatenated message as the padded-block description defines it,
    with the schedule constant 0x741c of the code. *)
Theorem sha256_streaming (data0 : list Z) (chunks : list (list Z)) :
  zlen data0 = 64 →
  ∃ c c', foldl (λ acc d, c ← acc; sha256_update c d) (Some (sha256_init data0)) chunks = Some c ∧
          sha256_final c = Some (c', Spec.sha256 schedule_cst (concat chunks)).
Proof.
  intros Hd. destruct (hash_chunks data0 chunks Hd) as (c & c' & ? & ? & ?). eauto.
Qed.

Lemma sha256_streaming_witness :
  ∃ c c', foldl (λ acc d, c ← acc; sha256_update c d)
            (Some (sha256_init (zrep 64 0))) [bs "a"; bs "bc"] = Some c ∧
          sha256_final c = Some (c', Spec.sha256 schedule_cst (bs "abc")).
Proof. apply (sha256_streaming (zrep 64 0) [bs "a"; bs "bc"]). reflexivity. Defined.

(** C40: the hash is not SHA-256.  On the one-block message "abc" the block description with
    no schedule constant gives the digest of FIPS 180-4 (ba7816bf...), and the code returns
    another value; the difference is the [+ 0x741c] in the message schedule. *)
Theorem sha256_differs_from_fips :
  Spec.sha256 0 (bs "abc") =
    [186; 120; 22; 191; 143; 1; 207; 234; 65; 65; 64; 222; 93; 174; 34; 35;
     176; 3; 97; 163; 150; 23; 122; 156; 180; 16; 255; 97; 242; 0; 21; 173] ∧
  ∀ data0, zlen data0 = 64 → sha256 data0 (bs "abc") ≠ Some (Spec.sha256 0 (bs "abc")).
Proof.
  split; [vm_compute; reflexivity|]. intros data0 Hd.
  assert (Spec.sha256 schedule_cst (bs "abc") ≠ Spec.sha256 0 (bs "abc")) as Hne
    by (vm_compute; discriminate).
  destruct (hash_chunks data0 [bs "abc"] Hd) as (c & c' & Hu & Hf & _).
  cbn [foldl mbind option_bind concat] in Hu, Hf. rewrite app_nil_r in Hf.
  unfold sha256. rewrite Hu. cbn [mbind option_bind]. rewrite Hf. cbn [mbind option_bind snd].
  intros He%(inj Some). by apply Hne.
Qed.

(** C31: [hmac_sha256] is RFC 2104's HMAC over the code's hash, for keys and data of any
    length (keys over 64 bytes are hashed first), with every access in bounds. *)
Theorem hmac_sha256_correct (data0 key data : list Z) :
  zlen data0 = 64 →
  hmac_sha256 data0 key data = Some (Spec.hmac schedule_cst key data).
Proof. apply hmac_spec. Qed.

Lemma hmac_sha256_correct_witness :
  hmac_sha256 (zrep 64 0) (bs "key") (bs "data") = Some (Spec.hmac schedule_cst (bs "key") (bs "data")).
Proof. apply (hmac_sha256_correct (zrep 64 0)). reflexivity. Defined.

(** C32: [pbkdf2_sha256] computes the first PBKDF2 block (U_1 xor ... xor U_c, with 0
    iterations treated as 1) when the salt has at most 60 bytes, and writes past the end of
    its 64-byte [salt_buf] when the salt is longer. *)
Theorem pbkdf2_sha256_correct (data0 salt_buf0 password salt : list Z) (iterations out_len : Z) :
  zlen data0 = 64 → zlen salt_buf0 = 64 →
  pbkdf2_sha256 data0 salt_buf0 password salt iterations out_len =
    if zlen salt <=? 60
    then Some (ztake (Z.min 32 out_len) (Spec.pbkdf2 schedule_cst password salt iterations))
    else None.
Proof.
  intros Hd Hb. destruct (Z.leb_spec (zlen salt) 60) as [Hs|Hs];
    [by apply pbkdf2_spec|by apply pbkdf2_overflow].
Qed.

Lemma pbkdf2_sha256_correct_witness :
  pbkdf2_sha256 (zrep 64 0) (zrep 64 0) (bs "pw") (zrep 60 65) 2 32
    = Some (ztake 32 (Spec.pbkdf2 schedule_cst (bs "pw") (zrep 60 65) 2)) ∧
  pbkdf2_sha256 (zrep 64 0) (zrep 64 0) (bs "pw") (zrep 61 65) 2 32 = None.
Proof.
  split.
  - apply (pbkdf2_sha256_correct (zrep 64 0) (zrep 64 0) (bs "pw") (zrep 60 65) 2 32); reflexivity.
  - apply (pbkdf2_sha256_correct (zrep 64 0) (zrep 64 0) (bs "pw") (zrep 61 65) 2 32); reflexivity.
Defined.
