(* ===== verification/Scram.v ===== *)
(** * Scram: the SCRAM-SHA-256 client of src/src/scram.c

    [scram_sha256_init], [scram_sha256_client_first], [scram_sha256_process_server_first],
    [scram_sha256_client_final], [scram_sha256_process_server_final] and the C library
    functions they are written with ([strstr], [snprintf], the [sscanf] conversions).
    [rand] is a stream of non-negative results.  [None] is an access outside an object. *)
From S2P Require Import Prelude Wire Sha256.

Definition SCRAM_MAX_NONCE_LEN : Z := 32.
Definition SCRAM_MAX_SALT_LEN : Z := 64.

Record scram_sha256_ctx_t := mk_scram {
  client_nonce : list Z;
  server_nonce : list Z;
  salt : list Z;
  salt_len : Z;
  iterations : Z;
  salted_password : list Z;
  sc_client_key : list Z;
  stored_key : list Z;
  client_signature : list Z;
  server_signature : list Z;
  sc_state : Z;
}.

(** [memset(ctx, 0, sizeof *ctx)]. *)
Definition zero_scram : scram_sha256_ctx_t :=
  mk_scram (zrep SCRAM_MAX_NONCE_LEN 0) (zrep SCRAM_MAX_NONCE_LEN 0) (zrep SCRAM_MAX_SALT_LEN 0)
    0 0 (zrep 32 0) (zrep 32 0) (zrep 32 0) (zrep 32 0) (zrep 32 0) 0.

(** ** [generate_nonce] and [scram_sha256_init] *)
Definition charset : list Z :=
  bs "abcdefghijklmnopqrstuvwxyzABCDEFGHIJKLMNOPQRSTUVWXYZ0123456789".

(** [nonce[i] = charset[rand() % (sizeof(charset) - 1)]] for the next [n] values of [i]. *)
Fixpoint nonce_fill (rnd : nat → Z) (nonce : list Z) (i n : nat) : option (list Z) :=
  match n with
  | O => Some nonce
  | S n' => c ← zget charset (Z.rem (rnd i) (zlen charset));
            nonce ← zset nonce (Z.of_nat i) c;
            nonce_fill rnd nonce (S i) n'
  end.

Definition generate_nonce (rnd : nat → Z) (nonce : list Z) (len : nat) : option (list Z) :=
  nonce ← nonce_fill rnd nonce 0 len;
  zset nonce (Z.of_nat len) 0.

(** Returns 0; the previous contents of the context are cleared. *)
Definition scram_sha256_init (rnd : nat → Z) : option scram_sha256_ctx_t :=
  let c := zero_scram in
  n ← generate_nonce rnd (client_nonce c) 24;
  Some (mk_scram n (server_nonce c) (salt c) (salt_len c) (iterations c) (salted_password c)
          (sc_client_key c) (stored_key c) (client_signature c) (server_signature c) 0).

(** ** Messages to the server *)

(** [snprintf(out, n, "%s", s)]: the bytes stored into [out]. *)
Definition snprintf (n : Z) (s : list Z) : list Z :=
  if n =? 0 then [] else ztake (n - 1) s ++ [0].

(** [scram_sha256_client_first(ctx, out, outlen)]: the result and the bytes stored. *)
Definition scram_sha256_client_first (ctx : scram_sha256_ctx_t) (outlen : Z) :
    option (Z * list Z) :=
  n ← until_nul (client_nonce ctx);
  let s := bs "n,,n=user,r=" ++ n in
  let written := zlen s in
  Some (if (0 <? written) && (written <? outlen) then 0 else -1, snprintf outlen s).

(** [scram_sha256_client_final(ctx, out, outlen)]: the bytes stored; it always returns 0. *)
Definition scram_sha256_client_final (ctx : scram_sha256_ctx_t) (outlen : Z) :
    option (list Z) :=
  sn ← until_nul (server_nonce ctx);
  cn ← until_nul (client_nonce ctx);
  let client_final := snprintf 256 (bs "c=biws,r=" ++ sn ++ cn) in
  cf ← until_nul client_final;
  Some (strncpy cf outlen).

(** ** [scram_sha256_process_server_first] *)
Fixpoint prefix_of (p s : list Z) : bool :=
  match p, s with
  | [], _ => true
  | a :: p', b :: s' => (a =? b) && prefix_of p' s'
  | _ :: _, [] => false
  end.

(** [strstr(s, pat)]: the suffix of [s] at the first occurrence. *)
Fixpoint strstr (s pat : list Z) : option (list Z) :=
  if prefix_of pat s then Some s
  else match s with
       | [] => None
       | _ :: s' => strstr s' pat
       end.

(** The characters a [%<n>[^,]] conversion takes. *)
Fixpoint until_comma (n : nat) (s : list Z) : list Z :=
  match n, s with
  | S n', b :: s' => if b =? 44 then [] else b :: until_comma n' s'
  | _, _ => []
  end.

(** [sscanf(s, "%<n>[^,]", dst)]: no store when nothing matches. *)
Definition scan_set (n : nat) (s dst : list Z) : option (list Z) :=
  match until_comma n s with
  | [] => Some dst
  | tok => mem_write dst 0 (tok ++ [0])
  end.

(** [sscanf(s, "%u", dst)]: a 64-bit [strtoul] (which negates after a minus sign and
    saturates) converted to [unsigned]. *)
Definition scan_u (s : list Z) (dst : Z) : Z :=
  let '(neg, s) := match skip_space s with
                   | 45 :: s' => (true, s')
                   | 43 :: s' => (false, s')
                   | s' => (false, s')
                   end in
  match s with
  | b :: _ =>
      if is_digit b then
        let v := digits_val 0 s in
        to_u32 (if 2 ^ 64 <=? v then 2 ^ 64 - 1 else if (neg : bool) then - v else v)
      else dst
  | [] => dst
  end.

(** [data0], [salt_buf0]: the indeterminate contents of the hash contexts and of
    [pbkdf2_sha256]'s buffer.  Returns the result code and the context. *)
Definition scram_sha256_process_server_first (data0 salt_buf0 : list Z)
    (ctx : scram_sha256_ctx_t) (server_first password : list Z) :
    option (Z * scram_sha256_ctx_t) :=
  match strstr server_first (bs "r="), strstr server_first (bs "s="),
        strstr server_first (bs "i=") with
  | Some r, Some s, Some i =>
      sn ← scan_set 31 (zdrop 2 r) (server_nonce ctx);
      sl ← scan_set 63 (zdrop 2 s) (salt ctx);
      let it := scan_u (zdrop 2 i) (iterations ctx) in
      salt_str ← until_nul sl;
      sp ← pbkdf2_sha256 data0 salt_buf0 password salt_str it 32;
      client_key ← hmac_sha256 data0 sp (bs "Client Key");
      sk ← sha256 data0 client_key;
      Some (0, mk_scram (client_nonce ctx) sn sl (zlen salt_str) it sp (sc_client_key ctx) sk
                 (client_signature ctx) (server_signature ctx) 1)
  | _, _, _ => Some (-1, ctx)
  end.

(** ** [scram_sha256_process_server_final]: returns 0; the message is not looked at. *)
Definition scram_sha256_process_server_final (ctx : scram_sha256_ctx_t) (server_final : list Z) :
    scram_sha256_ctx_t :=
  mk_scram (client_nonce ctx) (server_nonce ctx) (salt ctx) (salt_len ctx) (iterations ctx)
    (salted_password ctx) (sc_client_key ctx) (stored_key ctx) (client_signature ctx)
    (server_signature ctx) 2.

(** ** Well-formed contexts: every array has its declared size and the strings end in it *)
Record scram_wf (c : scram_sha256_ctx_t) : Prop := {
  swf_cn : zlen (client_nonce c) = SCRAM_MAX_NONCE_LEN;
  swf_sn : zlen (server_nonce c) = SCRAM_MAX_NONCE_LEN;
  swf_salt : zlen (salt c) = SCRAM_MAX_SALT_LEN;
  swf_cn_nul : ∃ s, until_nul (client_nonce c) = Some s;
  swf_sn_nul : ∃ s, until_nul (server_nonce c) = Some s;
  swf_salt_nul : ∃ s, until_nul (salt c) = Some s;
}.

(** ** Lemmas *)
Lemma charset_ok : cstr_ok charset.
Proof. vm_compute. repeat constructor; discriminate. Qed.

Lemma charset_pick r :
  0 ≤ r → ∃ c, zget charset (Z.rem r (zlen charset)) = Some c ∧ c ∈ charset.
Proof.
  intros Hr. pose proof (Z.rem_bound_pos r (zlen charset) Hr ltac:(vm_compute; done)).
  destruct (zget_is_Some (Z.rem r (zlen charset)) charset) as [c Hc]; [lia|].
  exists c. split; [done|]. unfold zget in Hc. destruct (0 <=? _); [|done].
  by eapply list_elem_of_lookup_2.
Qed.

Lemma nonce_fill_spec rnd n : ∀ nonce i,
  (∀ j, 0 ≤ rnd j) → (i + n ≤ length nonce)%nat →
  ∃ cs nonce', nonce_fill rnd nonce i n = Some nonce' ∧ length cs = n ∧
    Forall (λ c, c ∈ charset) cs ∧ nonce' = take i nonce ++ cs ++ drop (i + n) nonce.
Proof.
  induction n as [|n IH]; intros nonce i Hr Hl.
  - exists [], nonce. split_and!; [done|done|constructor|]. simpl.
    by rewrite Nat.add_0_r, take_drop.
  - destruct (charset_pick (rnd i) (Hr i)) as (c & Hc & Hin). simpl. rewrite Hc. simpl.
    rewrite zset_Some by (unfold zlen; lia). simpl. rewrite Nat2Z.id.
    destruct (IH (<[i := c]> nonce) (S i) Hr) as (cs & n' & He & Hn & Hcs & ->).
    { rewrite length_insert. lia. }
    exists (c :: cs), (take i nonce ++ (c :: cs) ++ drop (i + S n) nonce). rewrite He.
    split_and!; [|simpl; lia|by constructor|done]. f_equal.
    erewrite take_S_r by (apply list_lookup_insert_eq; lia).
    rewrite take_insert_ge, <- app_assoc by lia. simpl. do 3 f_equal.
    rewrite drop_insert_lt by lia. f_equal. lia.
Qed.

Lemma scram_init_spec rnd :
  (∀ j, 0 ≤ rnd j) →
  ∃ c cs, scram_sha256_init rnd = Some c ∧ scram_wf c ∧ length cs = 24%nat ∧
    Forall (λ b, b ∈ charset) cs ∧ until_nul (client_nonce c) = Some cs ∧ sc_state c = 0.
Proof.
  intros Hr. unfold scram_sha256_init, generate_nonce.
  destruct (nonce_fill_spec rnd 24 (client_nonce zero_scram) 0 Hr)
    as (cs & n & -> & Hl & Hcs & ->); [vm_compute; lia|].
  assert (Hok : cstr_ok cs).
  { eapply Forall_impl; [|exact Hcs]. intros b Hb. cbn in Hb.
    by apply (proj1 (list.Forall_forall _ _) charset_ok). }
  cbn [mbind option_bind]. rewrite take_0. cbn [app].
  replace (drop (0 + 24) (client_nonce zero_scram)) with (replicate 8 0) by done.
  rewrite zset_Some by (unfold zlen; rewrite length_app, Hl; simpl; lia).
  cbn [mbind option_bind]. rewrite Nat2Z.id.
  rewrite insert_app_r_alt by lia. rewrite Hl, Nat.sub_diag. cbn [replicate insert list_insert].
  eexists _, cs. split; [done|].
  assert (Hn : until_nul (cs ++ 0 :: replicate 7 0) = Some cs) by by apply until_nul_app.
  split_and!; try done. split; try done.
  - cbn [client_nonce]. unfold zlen. rewrite length_app, Hl. done.
  - by eexists.
  - by eexists.
  - by eexists.
Qed.

Lemma strstr_suffix s pat r : strstr s pat = Some r → ∃ pre, s = pre ++ r.
Proof.
  induction s as [|b s IH]; simpl.
  - destruct (prefix_of pat []); [|done]. intros [= <-]. by exists [].
  - destruct (prefix_of pat (b :: s)); [intros [= <-]; by exists []|].
    intros [pre ->]%IH. by exists (b :: pre).
Qed.

Lemma strstr_ok s pat r : cstr_ok s → strstr s pat = Some r → cstr_ok r.
Proof. intros Hs [pre ->]%strstr_suffix. by apply Forall_app in Hs as [_ ?]. Qed.

Lemma until_comma_ok n s : cstr_ok s → cstr_ok (until_comma n s).
Proof.
  intros Hs. revert n. induction Hs as [|b s Hb _ IH]; intros [|n]; simpl; try constructor.
  destruct (b =? 44); constructor; auto. apply IH.
Qed.

Lemma until_comma_len n s : zlen (until_comma n s) ≤ Z.of_nat n.
Proof.
  revert n. induction s as [|b s IH]; intros [|n]; simpl; rewrite ?zlen_nil; try lia.
  destruct (b =? 44); rewrite ?zlen_nil, ?zlen_cons; [lia|]. specialize (IH n). lia.
Qed.

(** What a [%<n>[^,]] conversion leaves in an array of more than [n] bytes. *)
Lemma scan_set_spec n s dst :
  cstr_ok s → Z.of_nat n < zlen dst →
  ∃ dst', scan_set n s dst = Some dst' ∧ zlen dst' = zlen dst ∧
    ((until_comma n s = [] ∧ dst' = dst) ∨ until_nul dst' = Some (until_comma n s)).
Proof.
  intros Hs Hn. unfold scan_set.
  pose proof (until_comma_ok n s Hs) as Hok. pose proof (until_comma_len n s) as Hlen.
  destruct (until_comma n s) as [|b tok]; [by exists dst; auto|].
  rewrite zlen_cons in Hlen. pose proof (zlen_nonneg tok).
  rewrite mem_write_Some by zl.
  eexists. split; [done|]. split; [zl|]. right.
  rewrite ztake_0. set (rest := zdrop _ dst).
  replace ([] ++ ((b :: tok) ++ [0]) ++ rest) with ((b :: tok) ++ 0 :: rest)
    by (cbn; by rewrite <- app_assoc).
  by apply until_nul_app.
Qed.

Lemma hash_one data0 msg :
  zlen data0 = 64 → sha256 data0 msg = Some (Spec.sha256 schedule_cst msg).
Proof.
  intros Hd. destruct (hash_chunks data0 [msg] Hd) as (c & c' & Hu & Hf & _).
  cbn [foldl mbind option_bind concat] in Hu, Hf. rewrite app_nil_r in Hf.
  unfold sha256. rewrite Hu. cbn [mbind option_bind]. by rewrite Hf.
Qed.

(** The keys SCRAM derives from a password, with the code's hash. *)
Definition derived_salted (password salt_str : list Z) (it : Z) : list Z :=
  ztake 32 (Spec.pbkdf2 schedule_cst password salt_str it).
Definition derived_stored_key (password salt_str : list Z) (it : Z) : list Z :=
  Spec.sha256 schedule_cst
    (Spec.hmac schedule_cst (derived_salted password salt_str it) (bs "Client Key")).

(** C33: whatever [rand] returns, a fresh client context produces the message
    ["n,,n=user,r=<nonce>"] with a nonce of 24 alphanumeric characters; it reports success
    exactly when the caller's buffer has room for its 36 characters and the NUL, and never
    stores more than the buffer holds. *)
Theorem client_first_message (rnd : nat → Z) (outlen : Z) :
  (∀ j, 0 ≤ rnd j) → 0 ≤ outlen →
  ∃ c nonce out,
    scram_sha256_init rnd = Some c ∧ length nonce = 24%nat ∧
    Forall (λ b, b ∈ charset) nonce ∧
    scram_sha256_client_first c outlen = Some (if 37 <=? outlen then 0 else -1, out) ∧
    zlen out ≤ outlen ∧ (37 ≤ outlen → out = bs "n,,n=user,r=" ++ nonce ++ [0]).
Proof.
  intros Hr Ho. destruct (scram_init_spec rnd Hr) as (c & cs & Hc & Hwf & Hl & Hcs & Hn & _).
  set (s := bs "n,,n=user,r=" ++ cs). assert (Hs : zlen s = 36).
  { unfold s, zlen. rewrite length_app, Hl. done. }
  exists c, cs, (snprintf outlen s).
  unfold scram_sha256_client_first. rewrite Hn. cbn [mbind option_bind]. fold s.
  split_and!; try done.
  - rewrite Hs. do 2 f_equal. cbn [andb Z.ltb Z.compare Pos.compare].
    destruct (Z.ltb_spec 36 outlen), (Z.leb_spec 37 outlen); simpl; (done || lia).
  - unfold snprintf. destruct (Z.eqb_spec outlen 0); [zl|].
    pose proof (zlen_ztake_le (outlen - 1) s). rewrite zlen_app, zlen_cons, zlen_nil. lia.
  - intros H37. unfold snprintf. destruct (Z.eqb_spec outlen 0); [lia|].
    rewrite ztake_all by lia. unfold s. by rewrite <- app_assoc.
Qed.

Lemma client_first_message_witness :
  ∃ c nonce out,
    scram_sha256_init (λ _, 5) = Some c ∧ length nonce = 24%nat ∧
    Forall (λ b, b ∈ charset) nonce ∧
    scram_sha256_client_first c 256 = Some (if 37 <=? 256 then 0 else -1, out) ∧
    zlen out ≤ 256 ∧ (37 ≤ 256 → out = bs "n,,n=user,r=" ++ nonce ++ [0]).
Proof. apply (client_first_message (λ _, 5) 256); [intros; lia|lia]. Defined.

(** C34: the server-first message is processed without leaving any buffer exactly when its
    salt attribute (taken to the next comma, at most 63 characters) has at most 60
    characters; then the context holds the password-derived keys and is in state 1. *)
Theorem process_server_first_spec data0 salt_buf0 ctx server_first password r s i :
  zlen data0 = 64 → zlen salt_buf0 = 64 → scram_wf ctx → cstr_ok server_first →
  strstr server_first (bs "r=") = Some r → strstr server_first (bs "s=") = Some s →
  strstr server_first (bs "i=") = Some i →
  until_comma 63 (zdrop 2 s) ≠ [] →
  let tok := until_comma 63 (zdrop 2 s) in
  let it := scan_u (zdrop 2 i) (iterations ctx) in
  match scram_sha256_process_server_first data0 salt_buf0 ctx server_first password with
  | Some (rc, ctx') =>
      zlen tok ≤ 60 ∧ rc = 0 ∧ scram_wf ctx' ∧ sc_state ctx' = 1 ∧ iterations ctx' = it ∧
      salt_len ctx' = zlen tok ∧ salted_password ctx' = derived_salted password tok it ∧
      stored_key ctx' = derived_stored_key password tok it
  | None => 60 < zlen tok
  end.
Proof.
  intros Hd Hb Hwf Hok Hr Hs Hi Htok tok it.
  unfold scram_sha256_process_server_first. rewrite Hr, Hs, Hi.
  pose proof Hwf as [W1 W2 W3 W4 W5 W6]. unfold SCRAM_MAX_NONCE_LEN, SCRAM_MAX_SALT_LEN in *.
  assert (Hdr : ∀ x pat, strstr server_first pat = Some x → cstr_ok (zdrop 2 x)).
  { intros x pat Hx. by apply Forall_drop, (strstr_ok server_first pat). }
  destruct (scan_set_spec 31 (zdrop 2 r) (server_nonce ctx)) as (sn & -> & Hsn & Hsn');
    [by eapply Hdr|lia|].
  destruct (scan_set_spec 63 (zdrop 2 s) (salt ctx)) as (sl & -> & Hsl & [[? ?]|Hsl']);
    [by eapply Hdr|lia|done|].
  cbn [mbind option_bind]. rewrite Hsl'. cbn [mbind option_bind]. fold tok. fold it.
  destruct (Z.leb_spec (zlen tok) 60) as [Hle|Hgt].
  - rewrite pbkdf2_spec by done. cbn [mbind option_bind].
    rewrite hmac_spec by done. cbn [mbind option_bind].
    rewrite hash_one by done. cbn [mbind option_bind sc_state salted_password stored_key].
    split_and!; try done. split; cbn; try done; unfold SCRAM_MAX_NONCE_LEN, SCRAM_MAX_SALT_LEN.
    + lia.
    + lia.
    + destruct Hsn' as [[_ ->]| ->]; [done|by eexists].
    + by eexists.
  - destruct (pbkdf2_sha256 _ _ _ _ _ _) eqn:E; [|done]. exfalso.
    rewrite pbkdf2_overflow in E by done. done.
Qed.

Lemma process_server_first_spec_witness :
  match scram_sha256_process_server_first (zrep 64 0) (zrep 64 0) zero_scram
          (bs "r=abc,s=QSXC,i=2") (bs "pw") with
  | Some (rc, ctx') =>
      zlen (bs "QSXC") ≤ 60 ∧ rc = 0 ∧ scram_wf ctx' ∧ sc_state ctx' = 1 ∧ iterations ctx' = 2 ∧
      salt_len ctx' = zlen (bs "QSXC") ∧
      salted_password ctx' = derived_salted (bs "pw") (bs "QSXC") 2 ∧
      stored_key ctx' = derived_stored_key (bs "pw") (bs "QSXC") 2
  | None => 60 < zlen (bs "QSXC")
  end.
Proof.
  apply (process_server_first_spec (zrep 64 0) (zrep 64 0) zero_scram (bs "r=abc,s=QSXC,i=2")
    (bs "pw") (bs "r=abc,s=QSXC,i=2") (bs "s=QSXC,i=2") (bs "i=2")); try reflexivity.
  - split; try reflexivity; by eexists.
  - vm_compute. repeat constructor; discriminate.
  - discriminate.
Defined.

(** C35: the client-final message is NUL-terminated in the caller's buffer exactly when the
    buffer is longer than the message: at [outlen] equal to the message length or less, the
    caller gets an unterminated array and still the result 0. *)
Theorem client_final_terminated ctx outlen sn cn :
  until_nul (server_nonce ctx) = Some sn → until_nul (client_nonce ctx) = Some cn →
  cstr_ok sn → cstr_ok cn → zlen sn ≤ 31 → zlen cn ≤ 31 → 0 ≤ outlen →
  ∃ out, scram_sha256_client_final ctx outlen = Some out ∧ zlen out = outlen ∧
         (until_nul out = None ↔ outlen ≤ zlen (bs "c=biws,r=" ++ sn ++ cn)).
Proof.
  intros Hsn Hcn Osn Ocn Lsn Lcn Ho. unfold scram_sha256_client_final.
  rewrite Hsn. cbn [mbind option_bind]. rewrite Hcn. cbn [mbind option_bind].
  set (m := bs "c=biws,r=" ++ sn ++ cn).
  assert (Om : cstr_ok m).
  { unfold m, cstr_ok. rewrite !Forall_app. split_and!; try done.
    vm_compute. repeat constructor; discriminate. }
  assert (Hm : zlen m ≤ 71).
  { unfold m. rewrite !zlen_app. change (zlen (bs "c=biws,r=")) with 9. lia. }
  unfold snprintf. cbn [Z.eqb]. rewrite ztake_all by lia.
  rewrite until_nul_app by done. cbn [mbind option_bind].
  eexists. split; [done|]. split; [by apply zlen_strncpy|]. unfold strncpy.
  destruct (decide (outlen ≤ zlen m)) as [Hle|Hgt].
  - rewrite zlen_ztake by lia. rewrite Z.sub_diag. change (zrep 0 0) with (@nil Z).
    rewrite app_nil_r. split; [done|intros _]. apply until_nul_none. by apply Forall_take.
  - rewrite ztake_all by lia. split; [|lia]. intros Hn. exfalso.
    assert (∃ rest, zrep (outlen - zlen m) 0 = 0 :: rest) as [rest Hrest].
    { unfold zrep. destruct (Z.to_nat (outlen - zlen m)) eqn:E; [lia|]. simpl. eauto. }
    rewrite Hrest, until_nul_app in Hn by done. done.
Qed.

Lemma client_final_terminated_witness :
  ∃ out, scram_sha256_client_final zero_scram 5 = Some out ∧ zlen out = 5 ∧
         (until_nul out = None ↔ 5 ≤ zlen (bs "c=biws,r=" ++ [] ++ [])).
Proof.
  apply (client_final_terminated zero_scram 5 [] []); try reflexivity; try constructor; done.
Defined.
