(* ===== verification/Ctx.v ===== *)
(** * Ctx: the context object of src/src/pqwire.c

    [struct pqwire_ctx], split into the [session] (what the message parsers read and write:
    role, event queue, scratch arrays, row arena, states) and the rest (buffers,
    configuration, SCRAM state); the event queue and output buffer helpers
    ([enqueue_event], [dequeue_event], [ensure_output], [append_output], [emit_msg]); the
    lifecycle ([pqwire_create], [pqwire_create_with_config], [pqwire_destroy],
    [pqwire_reset], [pqwire_current_state]) and [pqwire_start_auth].

    A possibly NULL [pqwire_ctx_t *] is an [option pqwire_ctx].  The event queue is used
    through the [BoundedQueue] interface only. *)
From S2P Require Import Prelude Wire Ring Events Sha256 Scram.

Inductive auth_state_t :=
| AUTH_STATE_NONE
| AUTH_STATE_CLIENT_FIRST
| AUTH_STATE_CLIENT_FINAL
| AUTH_STATE_SERVER_FIRST
| AUTH_STATE_SERVER_FINAL
| AUTH_STATE_DONE.
#[export] Instance auth_state_eq_dec : EqDecision auth_state_t.
Proof. solve_decision. Defined.

Inductive protocol_state_t :=
| PROTO_STATE_STARTUP
| PROTO_STATE_AUTHENTICATING
| PROTO_STATE_READY
| PROTO_STATE_QUERYING
| PROTO_STATE_ERROR.
#[export] Instance protocol_state_eq_dec : EqDecision protocol_state_t.
Proof. solve_decision. Defined.

(** The enumerators' values. *)
Definition proto_state_int (p : protocol_state_t) : Z :=
  match p with
  | PROTO_STATE_STARTUP => 0
  | PROTO_STATE_AUTHENTICATING => 1
  | PROTO_STATE_READY => 2
  | PROTO_STATE_QUERYING => 3
  | PROTO_STATE_ERROR => 4
  end.

Definition PQWIRE_MAGIC : Z := 0xABCD1234.
Definition PQ_PROTO_3_0 : Z := 0x00030000.

Record pqwire_config_t := mk_config {
  cfg_event_queue_size : Z;
  cfg_password : option (list Z);
  cfg_use_scram : Z;
  cfg_max_message_size : Z;
}.

(** ** State *)
Record session := mk_session {
  role : pqwire_role_t;
  event_ring : ring protocol_event_t;
  user_scratch : list Z;
  db_scratch : list Z;
  sql_scratch : list Z;
  tag_scratch : list Z;
  col_scratch : list (pq_column_desc_t Z);
  col_name_scratch : list (list Z);
  row_arena : list Z;
  row_arena_used : Z;
  auth_state : auth_state_t;
  proto_state : protocol_state_t;
  startup_seen : bool;
}.

Definition set_event_ring (x : ring protocol_event_t) (s : session) : session :=
  mk_session (role s) x (user_scratch s) (db_scratch s) (sql_scratch s) (tag_scratch s)
    (col_scratch s) (col_name_scratch s) (row_arena s) (row_arena_used s) (auth_state s)
    (proto_state s) (startup_seen s).
Definition set_user_scratch (x : list Z) (s : session) : session :=
  mk_session (role s) (event_ring s) x (db_scratch s) (sql_scratch s) (tag_scratch s)
    (col_scratch s) (col_name_scratch s) (row_arena s) (row_arena_used s) (auth_state s)
    (proto_state s) (startup_seen s).
Definition set_db_scratch (x : list Z) (s : session) : session :=
  mk_session (role s) (event_ring s) (user_scratch s) x (sql_scratch s) (tag_scratch s)
    (col_scratch s) (col_name_scratch s) (row_arena s) (row_arena_used s) (auth_state s)
    (proto_state s) (startup_seen s).
Definition set_sql_scratch (x : list Z) (s : session) : session :=
  mk_session (role s) (event_ring s) (user_scratch s) (db_scratch s) x (tag_scratch s)
    (col_scratch s) (col_name_scratch s) (row_arena s) (row_arena_used s) (auth_state s)
    (proto_state s) (startup_seen s).
Definition set_tag_scratch (x : list Z) (s : session) : session :=
  mk_session (role s) (event_ring s) (user_scratch s) (db_scratch s) (sql_scratch s) x
    (col_scratch s) (col_name_scratch s) (row_arena s) (row_arena_used s) (auth_state s)
    (proto_state s) (startup_seen s).
Definition set_col_scratch (x : list (pq_column_desc_t Z)) (s : session) : session :=
  mk_session (role s) (event_ring s) (user_scratch s) (db_scratch s) (sql_scratch s)
    (tag_scratch s) x (col_name_scratch s) (row_arena s) (row_arena_used s) (auth_state s)
    (proto_state s) (startup_seen s).
Definition set_col_name_scratch (x : list (list Z)) (s : session) : session :=
  mk_session (role s) (event_ring s) (user_scratch s) (db_scratch s) (sql_scratch s)
    (tag_scratch s) (col_scratch s) x (row_arena s) (row_arena_used s) (auth_state s)
    (proto_state s) (startup_seen s).
Definition set_row_arena (x : list Z) (s : session) : session :=
  mk_session (role s) (event_ring s) (user_scratch s) (db_scratch s) (sql_scratch s)
    (tag_scratch s) (col_scratch s) (col_name_scratch s) x (row_arena_used s) (auth_state s)
    (proto_state s) (startup_seen s).
Definition set_row_arena_used (x : Z) (s : session) : session :=
  mk_session (role s) (event_ring s) (user_scratch s) (db_scratch s) (sql_scratch s)
    (tag_scratch s) (col_scratch s) (col_name_scratch s) (row_arena s) x (auth_state s)
    (proto_state s) (startup_seen s).
Definition set_auth_state (x : auth_state_t) (s : session) : session :=
  mk_session (role s) (event_ring s) (user_scratch s) (db_scratch s) (sql_scratch s)
    (tag_scratch s) (col_scratch s) (col_name_scratch s) (row_arena s) (row_arena_used s) x
    (proto_state s) (startup_seen s).
Definition set_proto_state (x : protocol_state_t) (s : session) : session :=
  mk_session (role s) (event_ring s) (user_scratch s) (db_scratch s) (sql_scratch s)
    (tag_scratch s) (col_scratch s) (col_name_scratch s) (row_arena s) (row_arena_used s)
    (auth_state s) x (startup_seen s).
Definition set_startup_seen (x : bool) (s : session) : session :=
  mk_session (role s) (event_ring s) (user_scratch s) (db_scratch s) (sql_scratch s)
    (tag_scratch s) (col_scratch s) (col_name_scratch s) (row_arena s) (row_arena_used s)
    (auth_state s) (proto_state s) x.

(** [input_mem] is the part of [input_buf] that has been written so far: the bytes below
    [input_len] are the buffered input, those above are what [memmove] and consumed messages
    left behind.  [input_gen] counts the reallocations of [input_buf].  [output_buf] is the
    first [output_len] bytes of the output buffer.  [allocs] are the outcomes the allocator
    will give to the next requests. *)
Record pqwire_ctx := mk_ctx {
  magic : Z;
  max_message_size : Z;
  sess : session;
  output_buf : list Z;
  output_cap : Z;
  input_mem : list Z;
  input_len : Z;
  input_cap : Z;
  input_gen : nat;
  password : list Z;
  use_scram : Z;
  scram_ctx : scram_sha256_ctx_t;
  allocs : list bool;
}.

Definition set_sess (x : session) (c : pqwire_ctx) : pqwire_ctx :=
  mk_ctx (magic c) (max_message_size c) x (output_buf c) (output_cap c) (input_mem c)
    (input_len c) (input_cap c) (input_gen c) (password c) (use_scram c) (scram_ctx c) (allocs c).
Definition set_output (buf : list Z) (cap : Z) (al : list bool) (c : pqwire_ctx) : pqwire_ctx :=
  mk_ctx (magic c) (max_message_size c) (sess c) buf cap (input_mem c)
    (input_len c) (input_cap c) (input_gen c) (password c) (use_scram c) (scram_ctx c) al.
Definition set_input (mem : list Z) (len cap : Z) (gen : nat) (al : list bool) (c : pqwire_ctx) :
    pqwire_ctx :=
  mk_ctx (magic c) (max_message_size c) (sess c) (output_buf c) (output_cap c) mem
    len cap gen (password c) (use_scram c) (scram_ctx c) al.
Definition set_scram (x : scram_sha256_ctx_t) (c : pqwire_ctx) : pqwire_ctx :=
  mk_ctx (magic c) (max_message_size c) (sess c) (output_buf c) (output_cap c) (input_mem c)
    (input_len c) (input_cap c) (input_gen c) (password c) (use_scram c) x (allocs c).

(** [output_len]. *)
Definition output_len (c : pqwire_ctx) : Z := zlen (output_buf c).

(** ** Event queue *)
Definition enqueue_event (s : session) (ev : protocol_event_t) : option session :=
  r ← q_enqueue (event_ring s) ev;
  Some (set_event_ring r s).

Definition dequeue_event (s : session) : option (option protocol_event_t * session) :=
  '(ev, r) ← q_dequeue (event_ring s);
  match ev with
  | None => Some (None, s)
  | Some ev =>
      let s := set_event_ring r s in
      Some (Some ev, if q_count r =? 0 then set_row_arena_used 0 s else s)
  end.

(** The queued events, oldest first. *)
Definition queued (s : session) : list protocol_event_t := q_list (event_ring s).

(** ** Output buffer *)
Definition ensure_output (c : pqwire_ctx) (need : Z) : bool * pqwire_ctx :=
  if output_len c + need <=? output_cap c then (true, c)
  else
    let new_cap := output_cap c * 2 + need + 1024 in
    let '(ok, al) := alloc_next (allocs c) in
    if ok then (true, set_output (output_buf c) new_cap al c)
    else (false, set_output (output_buf c) (output_cap c) al c).

(** Returns nothing: a failed [realloc] drops the data. *)
Definition append_output (c : pqwire_ctx) (data : list Z) : option pqwire_ctx :=
  let '(ok, c) := ensure_output c (zlen data) in
  if ok then
    if output_len c + zlen data <=? output_cap c
    then Some (set_output (output_buf c ++ data) (output_cap c) (allocs c) c)
    else None
  else Some c.

(** [emit_msg(ctx, type, payload, plen)]; [None] for a NULL payload of length 0. *)
Definition emit_msg (c : pqwire_ctx) (type : Z) (payload : option (list Z)) :
    option (Z * pqwire_ctx) :=
  let plen := match payload with Some p => zlen p | None => 0 end in
  let hdr := type :: wr32_be (to_u32 (plen + 4)) in
  c ← append_output c hdr;
  c ← match payload with
      | Some p => if plen =? 0 then Some c else append_output c p
      | None => Some c
      end;
  Some (0, c).

(** ** The guard [if (!ctx || ctx->magic != PQWIRE_MAGIC) return bad;] *)
Definition guard_ctx {A} (bad : A) (ctx : option pqwire_ctx)
    (k : pqwire_ctx → option (A * pqwire_ctx)) : option (A * option pqwire_ctx) :=
  match ctx with
  | None => Some (bad, None)
  | Some c => if magic c =? PQWIRE_MAGIC
              then '(a, c) ← k c; Some (a, Some c)
              else Some (bad, Some c)
  end.

(** ** Lifecycle *)
Definition zero_session (r : pqwire_role_t) (queue_size : Z) : session :=
  mk_session r (ring_create queue_size (plain_event PROTOCOL_EVENT_NONE))
    (zrep 128 0) (zrep 128 0) (zrep PQWIRE_MAX_QUERY_LEN 0) (zrep 64 0)
    (zrep PQWIRE_MAX_ROW_COLUMNS (mk_column_desc None 0 0))
    (zrep PQWIRE_MAX_ROW_COLUMNS (zrep 64 0))
    (zrep PQWIRE_ROW_ARENA 0) 0 AUTH_STATE_NONE PROTO_STATE_STARTUP false.

Definition pqwire_create_with_config (r : pqwire_role_t) (config : option pqwire_config_t)
    (al : list bool) : option pqwire_ctx :=
  match config with
  | None => None
  | Some config =>
      if cfg_event_queue_size config <=? 0 then None else
      let '(ok, al) := alloc_next al in
      if negb ok then None else
      let '(ok_events, al) := alloc_next al in
      let '(ok_out, al) := alloc_next al in
      let '(ok_in, al) := alloc_next al in
      if negb (ok_events && ok_out && ok_in) then None else
      Some (mk_ctx PQWIRE_MAGIC
              (if cfg_max_message_size config =? 0 then 16 * 1024 * 1024
               else cfg_max_message_size config)
              (zero_session r (cfg_event_queue_size config))
              [] 4096 [] 0 4096 0
              (match cfg_password config with
               | Some pw => strncpy pw 255 ++ [0]
               | None => zrep 256 0
               end)
              (cfg_use_scram config) zero_scram al)
  end.

Definition pqwire_create (r : pqwire_role_t) (al : list bool) : option pqwire_ctx :=
  pqwire_create_with_config r (Some (mk_config 16 None 1 0)) al.

(** The object that is still allocated after the call: a valid context is freed. *)
Definition pqwire_destroy (ctx : option pqwire_ctx) : option pqwire_ctx :=
  match ctx with
  | None => None
  | Some c => if magic c =? PQWIRE_MAGIC then None else Some c
  end.

Definition reset_session (s : session) : session :=
  set_startup_seen false (set_proto_state PROTO_STATE_STARTUP
    (set_auth_state AUTH_STATE_NONE (set_event_ring (q_reset (event_ring s)) s))).

Definition pqwire_reset (ctx : option pqwire_ctx) : option pqwire_ctx :=
  match ctx with
  | None => None
  | Some c =>
      if magic c =? PQWIRE_MAGIC then
        Some (set_scram zero_scram
          (set_input (input_mem c) 0 (input_cap c) (input_gen c) (allocs c)
             (set_output [] (output_cap c) (allocs c)
                (set_sess (reset_session (sess c)) c))))
      else Some c
  end.

Definition pqwire_current_state (ctx : option pqwire_ctx) : Z :=
  match ctx with
  | None => -1
  | Some c => if magic c =? PQWIRE_MAGIC then proto_state_int (proto_state (sess c)) else -1
  end.

(** ** [pqwire_start_auth]; [rnd] are the results of [rand] *)
Definition pqwire_start_auth (rnd : nat → Z) (ctx : option pqwire_ctx) :
    option (Z * option pqwire_ctx) :=
  guard_ctx (-1) ctx (λ c,
    if negb (bool_decide (auth_state (sess c) = AUTH_STATE_NONE)) then Some (-1, c) else
    pw0 ← zget (password c) 0;
    if bool_decide (role (sess c) = PQWIRE_ROLE_CLIENT) && negb (use_scram c =? 0)
         && negb (pw0 =? 0) then
      sc ← scram_sha256_init rnd;
      let c := set_sess (set_auth_state AUTH_STATE_CLIENT_FIRST (sess c)) (set_scram sc c) in
      '(rc, first) ← scram_sha256_client_first sc 256;
      if rc =? 0 then
        s ← until_nul first;
        let flen := zlen s in
        buf ← mem_write (zrep 512 0) 5 (s ++ [0]);
        c ← append_output c (chr "p" :: wr32_be (to_u32 (4 + flen + 1)) ++ ztake (flen + 1) (zdrop 5 buf));
        Some (0, c)
      else Some (0, c)
    else Some (0, c)).

(** ** Well-formedness *)

(** A data row whose column pointers stay inside the used part of the arena. *)
Definition cell_in_arena (used : Z) (d : option Z) (n : Z) : Prop :=
  match d with Some off => 0 ≤ off ∧ 0 ≤ n ∧ off + n ≤ used | None => True end.
Definition row_in_arena (used : Z) (row : pq_data_row_t) : Prop :=
  Forall2 (cell_in_arena used) (dr_data row) (dr_len row).
Definition event_in_arena (used : Z) (ev : protocol_event_t) : Prop :=
  match ev_payload ev with P_data_row row => row_in_arena used row | _ => True end.

Record session_wf (s : session) : Prop := {
  sw_ring : q_wf (event_ring s);
  sw_user : zlen (user_scratch s) = 128;
  sw_db : zlen (db_scratch s) = 128;
  sw_sql : zlen (sql_scratch s) = PQWIRE_MAX_QUERY_LEN;
  sw_tag : zlen (tag_scratch s) = 64;
  sw_col : zlen (col_scratch s) = PQWIRE_MAX_ROW_COLUMNS;
  sw_col_names : zlen (col_name_scratch s) = PQWIRE_MAX_ROW_COLUMNS;
  sw_col_name : Forall (λ n, zlen n = 64) (col_name_scratch s);
  sw_arena : zlen (row_arena s) = PQWIRE_ROW_ARENA;
  sw_used : 0 ≤ row_arena_used s ≤ PQWIRE_ROW_ARENA;
  sw_rows : Forall (event_in_arena (row_arena_used s)) (queued s);
}.

Record ctx_wf (c : pqwire_ctx) : Prop := {
  cw_magic : magic c = PQWIRE_MAGIC;
  cw_sess : session_wf (sess c);
  cw_max : 0 < max_message_size c;
  cw_output : output_len c ≤ output_cap c;
  cw_input : 0 ≤ input_len c ≤ zlen (input_mem c);
  cw_input_cap : zlen (input_mem c) ≤ input_cap c;
  cw_bytes : bytes_ok (input_mem c);
  cw_password : zlen (password c) = 256;
}.

(** ** Lemmas on the helpers *)
Lemma cell_in_arena_mono u u' d n : u ≤ u' → cell_in_arena u d n → cell_in_arena u' d n.
Proof. destruct d; simpl; lia. Qed.
Lemma event_in_arena_mono u u' ev : u ≤ u' → event_in_arena u ev → event_in_arena u' ev.
Proof.
  unfold event_in_arena. destruct (ev_payload ev); try done. intros Hu.
  apply Forall2_impl. intros ??. by apply cell_in_arena_mono.
Qed.

Lemma Forall_push_bounded {A} (P : A → Prop) cap q x :
  Forall P q → P x → Forall P (push_bounded cap q x).
Proof.
  intros Hq Hx. unfold push_bounded. apply Forall_app. split; [|by constructor].
  destruct (_ <=? _); [|done]. destruct Hq; [constructor|done].
Qed.

(** [enqueue_event] through the queue's interface. *)
Lemma enqueue_event_spec s ev :
  session_wf s → event_in_arena (row_arena_used s) ev →
  ∃ r, enqueue_event s ev = Some (set_event_ring r s) ∧
       session_wf (set_event_ring r s) ∧ q_cap r = q_cap (event_ring s) ∧
       queued (set_event_ring r s) = push_bounded (q_cap (event_ring s)) (queued s) ev.
Proof.
  intros Hwf Hev. destruct Hwf.
  destruct (q_enqueue_spec (event_ring s) ev) as (r & He & Hr & Hc & Hl); [done|].
  exists r. unfold enqueue_event. rewrite He. split_and!; try done.
  split; try done. unfold queued. cbn [event_ring set_event_ring row_arena_used].
  rewrite Hl. by apply Forall_push_bounded.
Qed.

Lemma dequeue_event_spec s :
  session_wf s →
  ∃ s', dequeue_event s = Some (head (queued s), s') ∧ session_wf s' ∧
        queued s' = tail (queued s) ∧
        row_arena s' = row_arena s ∧
        (row_arena_used s' = row_arena_used s ∨ queued s' = []).
Proof.
  intros Hwf. pose proof Hwf as [].
  destruct (q_dequeue_spec (event_ring s)) as (r & He & Hr & Hc & Hl); [done|].
  unfold dequeue_event. rewrite He. cbn [mbind option_bind]. fold (queued s) in *.
  assert (Htl : Forall (event_in_arena (row_arena_used s)) (q_list r)).
  { rewrite Hl. unfold queued in *. by destruct sw_rows0. }
  destruct (queued s) as [|ev q] eqn:Hq; cbn [head].
  - exists s. rewrite Hq. split_and!; auto.
  - pose proof (q_count_spec r Hr) as Hn.
    destruct (Z.eqb_spec (q_count r) 0) as [Hz|Hz]; (eexists; split; [done|]).
    + assert (q_list r = []) as Hnil.
      { destruct (q_list r); [done|]. zlia. }
      split_and!; try done; [|by right].
      split; try done; cbn [row_arena_used set_row_arena_used]; try lia.
      unfold queued. cbn [event_ring set_event_ring set_row_arena_used]. by rewrite Hnil.
    + split_and!; [by split|done|done|by left].
Qed.

Lemma alloc_next_nil : alloc_next [] = (true, []).
Proof. done. Qed.

(** [append_output] touches the output only; it appends everything or nothing. *)
Lemma append_output_spec c d :
  output_len c ≤ output_cap c →
  ∃ buf cap al,
    append_output c d = Some (set_output buf cap al c) ∧ zlen buf ≤ cap ∧
    (buf = output_buf c ++ d ∨ buf = output_buf c) ∧
    (allocs c = [] → al = [] ∧ buf = output_buf c ++ d) ∧
    (output_len c + zlen d ≤ output_cap c → buf = output_buf c ++ d ∧ al = allocs c).
Proof.
  intros Hc. unfold append_output, ensure_output, output_len in *.
  pose proof (zlen_nonneg (output_buf c)). pose proof (zlen_nonneg d).
  destruct (Z.leb_spec (zlen (output_buf c) + zlen d) (output_cap c)) as [Hf|Hf].
  - rewrite (proj2 (Z.leb_le _ _)) by done.
    eexists _, _, _. split; [done|]. split; [zl|]. auto.
  - destruct (alloc_next (allocs c)) as [ok al] eqn:Ha.
    assert (allocs c = [] → ok = true ∧ al = []) as Hnil.
    { intros Hn. rewrite Hn in Ha. cbn in Ha. by simplify_eq. }
    destruct ok.
    + cbn [output_buf output_cap set_output allocs].
      rewrite (proj2 (Z.leb_le _ _)) by lia.
      eexists _, _, _. split; [done|]. split; [zl|]. split_and!; [by left| |lia].
      intros Hn. by destruct (Hnil Hn).
    + eexists _, _, _. split; [done|]. split; [lia|]. split_and!; [by right| |lia].
      intros Hn. by destruct (Hnil Hn).
Qed.

(** A typed frame, as [emit_msg] lays it out. *)
Definition frame (type : Z) (payload : list Z) : list Z :=
  type :: wr32_be (to_u32 (zlen payload + 4)) ++ payload.

Lemma set_output_twice b c a b' c' a' x :
  set_output b c a (set_output b' c' a' x) = set_output b c a x.
Proof. done. Qed.

(** [emit_msg] always returns 0; what reaches the buffer is the frame, or (after failed
    allocations) only its header, only its payload, or nothing. *)
Lemma emit_msg_spec c t payload :
  output_len c ≤ output_cap c →
  let p := default [] payload in
  let hdr := t :: wr32_be (to_u32 (zlen p + 4)) in
  ∃ buf cap al,
    emit_msg c t payload = Some (0, set_output buf cap al c) ∧ zlen buf ≤ cap ∧
    (buf = output_buf c ++ hdr ++ p ∨ buf = output_buf c ++ hdr ∨
     buf = output_buf c ++ p ∨ buf = output_buf c) ∧
    (allocs c = [] → al = [] ∧ buf = output_buf c ++ frame t p).
Proof.
  intros Hc p hdr. unfold emit_msg.
  replace (match payload with Some p0 => zlen p0 | None => 0 end) with (zlen p)
    by by destruct payload.
  fold hdr.
  destruct (append_output_spec c hdr Hc) as (b1 & c1 & a1 & -> & Hz1 & Hb1 & Hn1 & _).
  cbn [mbind option_bind].
  destruct (decide (zlen p = 0)) as [Hz|Hz].
  - assert (Hp : p = []) by (clearbody p; destruct p; [done|zlia]).
    exists b1, c1, a1. split; [destruct payload; [by rewrite Hz|done]|]. split; [done|].
    unfold frame. rewrite Hp. rewrite !app_nil_r.
    split; [destruct Hb1 as [-> | ->]; auto|]. intros Hn. destruct (Hn1 Hn) as [-> ->].
    split; [done|]. unfold hdr. by rewrite Hp.
  - destruct payload as [p'|]; [|done]. cbn in p. subst p.
    destruct (Z.eqb_spec (zlen p') 0); [done|].
    destruct (append_output_spec (set_output b1 c1 a1 c) p') as (b2 & c2 & a2 & -> & Hz2 & Hb2 & Hn2 & _);
      [done|].
    cbn [mbind option_bind]. rewrite set_output_twice. cbn [output_buf set_output allocs] in *.
    exists b2, c2, a2. split; [done|]. split; [done|]. split.
    + destruct Hb1 as [-> | ->], Hb2 as [-> | ->]; rewrite <- ?app_assoc; auto.
    + intros Hn. destruct (Hn1 Hn) as [-> ->]. destruct (Hn2 eq_refl) as [-> ->].
      split; [done|]. unfold frame. by rewrite <- app_assoc.
Qed.

Lemma ctx_wf_set_output c buf cap al :
  ctx_wf c → zlen buf ≤ cap → ctx_wf (set_output buf cap al c).
Proof. intros [] Hb. by split. Qed.

Lemma ctx_wf_set_sess c s : ctx_wf c → session_wf s → ctx_wf (set_sess s c).
Proof. intros [] Hs. by split. Qed.

Lemma guard_ctx_valid {A} (bad : A) c k :
  ctx_wf c → guard_ctx bad (Some c) k = ('(a, c') ← k c; Some (a, Some c')).
Proof. intros []. unfold guard_ctx. rewrite cw_magic0. done. Qed.
