(* ===== verification/Parse.v ===== *)
(** * Parse: the message parsers and the dispatcher of src/src/pqwire.c

    [parse_startup_body] .. [parse_notification_response], [parse_error_fields] and
    [handle_message].  A parser gets the message body as the object [body] (an access
    outside it is undefined behaviour, although the input buffer may be larger) and, where
    it stores pointers into it, the pointer [base] to its first byte.  Field decoders have
    type [outcome]: [Val] is the decoded payload, [Ret] an early [return] that drops the
    message. *)
From S2P Require Import Prelude Wire Ring Events Ctx.

(** Run a decoder in a session: deliver its value, or leave the session alone on [return]. *)
Definition on_val {A} (m : outcome A) (s : session) (k : A → option session) : option session :=
  match m with Val a => k a | Ret => Some s | Ub => None end.

(** [read_cstr(body + off, body_len - off, &c)]. *)
Definition read_at (body : list Z) (off : Z) : option (option (list Z * Z)) :=
  read_cstr body off (size_sub (zlen body) off).

(** The same where a NULL result makes the caller return. *)
Definition read_or_return (body : list Z) (off : Z) : outcome (list Z * Z) :=
  match read_at body off with
  | None => Ub
  | Some None => Ret
  | Some (Some r) => Val r
  end.

(** ** StartupMessage *)
Fixpoint startup_loop (fuel : nat) (s : session) (body : list Z) (off : Z) : option session :=
  match fuel with
  | O => None
  | S fuel' =>
      if off + 1 <? zlen body then
        key ← read_at body off;
        match key with
        | None => Some s
        | Some (key, c1) =>
            if c1 <=? 1 then Some s else
            let off := off + c1 in
            val ← read_at body off;
            match val with
            | None => Some s
            | Some (val, c2) =>
                let off := off + c2 in
                let s :=
                  if bool_decide (key = bs "user")
                  then set_user_scratch (copy_cstr (user_scratch s) 128 (Some val)) s
                  else if bool_decide (key = bs "database")
                  then set_db_scratch (copy_cstr (db_scratch s) 128 (Some val)) s
                  else s in
                startup_loop fuel' s body off
            end
        end
      else Some s
  end.

Definition parse_startup_body (s : session) (body : list Z) : option session :=
  u ← zset (user_scratch s) 0 0;
  d ← zset (db_scratch s) 0 0;
  s ← startup_loop (S (length body)) (set_db_scratch d (set_user_scratch u s)) body 4;
  s ← enqueue_event s (mk_event PQ_EVENT_STARTUP (P_startup user_scratch_ptr db_scratch_ptr));
  let s := set_startup_seen true s in
  Some (if bool_decide (role s = PQWIRE_ROLE_SERVER)
        then set_proto_state PROTO_STATE_AUTHENTICATING s else s).

(** ** Parse *)

(** [for (i = 0; i < n && off + 4 <= body_len; i++)] reading type OIDs. *)
Fixpoint read_oids (n : nat) (i off : Z) (oids body : list Z) : option (list Z) :=
  match n with
  | O => Some oids
  | S n' =>
      if off + 4 <=? zlen body then
        v ← rd32_be body off;
        oids ← zset oids i v;
        read_oids n' (i + 1) (off + 4) oids body
      else Some oids
  end.

Definition clamp (n lim : Z) : Z := if lim <? n then lim else n.

Definition parse_fields (body : list Z) : outcome pq_parse_t :=
  let z := zero_parse in
  '(name, c) ← read_or_return body 0;
  let off := 0 + c in
  '(query, c) ← read_or_return body off;
  let off := off + c in
  let stmt := copy_cstr (parse_statement z) PQWIRE_MAX_STMT_NAME (Some name) in
  let q := copy_cstr (parse_query z) PQWIRE_MAX_QUERY_LEN (Some query) in
  if off + 2 <=? zlen body then
    n ← deref (rd16_be body off);
    let off := off + 2 in
    let n := clamp n PQWIRE_MAX_PARAM_TYPES in
    oids ← deref (read_oids (Z.to_nat n) 0 off (parse_param_type_oids z) body);
    Val (mk_parse stmt q n oids)
  else Val (mk_parse stmt q 0 (parse_param_type_oids z)).

Definition parse_parse_msg (s : session) (body : list Z) : option session :=
  on_val (parse_fields body) s (λ p, enqueue_event s (mk_event PQ_EVENT_PARSE (P_parse p))).

(** ** Bind *)

(** [for (i = 0; i < n && off + 2 <= body_len; i++)] reading format codes; the final offset. *)
Fixpoint read_formats (n : nat) (i off : Z) (fmts body : list Z) : option (list Z * Z) :=
  match n with
  | O => Some (fmts, off)
  | S n' =>
      if off + 2 <=? zlen body then
        v ← rd16_be body off;
        fmts ← zset fmts i (to_i16 v);
        read_formats n' (i + 1) (off + 2) fmts body
      else Some (fmts, off)
  end.

(** The format that applies to parameter [i]. *)
Definition param_format (n_formats : Z) (formats : list Z) (i : Z) : option Z :=
  if n_formats =? 0 then Some 0
  else if n_formats =? 1 then zget formats 0
  else if i <? n_formats then zget formats i else Some 0.

Fixpoint read_params (n : nat) (i off : Z) (params : list pq_bind_param_view_t)
    (n_formats : Z) (formats body : list Z) (base : in_ptr) :
    outcome (list pq_bind_param_view_t * Z) :=
  match n with
  | O => Val (params, off)
  | S n' =>
      if off + 4 <=? zlen body then
        v ← deref (rd32_be body off);
        let plen := to_i32 v in
        let off := off + 4 in
        '(data, off') ← (if plen <? 0 then Val (None, off)
                         else if zlen body <? off + plen then Ret
                         else Val (Some (in_ptr_add base off), off + plen));
        fmt ← deref (param_format n_formats formats i);
        params ← deref (zset params i (mk_view plen data fmt));
        read_params n' (i + 1) off' params n_formats formats body base
      else Val (params, off)
  end.

Definition bind_fields (base : in_ptr) (body : list Z) : outcome pq_bind_t :=
  let z := zero_bind base (zlen body) in
  '(portal, c) ← read_or_return body 0;
  let off := 0 + c in
  '(stmt, c) ← read_or_return body off;
  let off := off + c in
  let portal := copy_cstr (bind_portal z) PQWIRE_MAX_PORTAL_NAME (Some portal) in
  let stmt := copy_cstr (bind_statement z) PQWIRE_MAX_STMT_NAME (Some stmt) in
  _ ← check (negb (zlen body <? off + 2));
  n ← deref (rd16_be body off);
  let n_formats := clamp n PQWIRE_MAX_BIND_PARAMS in
  '(formats, off) ← deref (read_formats (Z.to_nat n_formats) 0 (off + 2) (bind_formats z) body);
  _ ← check (negb (zlen body <? off + 2));
  n ← deref (rd16_be body off);
  let n_params := clamp n PQWIRE_MAX_BIND_PARAMS in
  '(params, off) ← read_params (Z.to_nat n_params) 0 (off + 2) (bind_params z)
                     n_formats formats body base;
  '(n_result, results) ←
    (if off + 2 <=? zlen body then
       n ← deref (rd16_be body off);
       let n := clamp n PQWIRE_MAX_BIND_PARAMS in
       '(rf, _) ← deref (read_formats (Z.to_nat n) 0 (off + 2) (bind_result_formats z) body);
       Val (n, rf)
     else Val (0, bind_result_formats z));
  Val (mk_bind portal stmt n_formats formats n_params params n_result results base (zlen body)).

Definition parse_bind_msg (base : in_ptr) (s : session) (body : list Z) : option session :=
  on_val (bind_fields base body) s (λ b, enqueue_event s (mk_event PQ_EVENT_BIND (P_bind b))).

(** ** Describe, Execute, Close *)

(** The target byte and the name array shared by Describe and Close. *)
Definition target_name (body : list Z) : outcome (Z * list Z) :=
  _ ← check (negb (zlen body <? 1));
  target ← deref (zget body 0);
  name ← deref (read_cstr body 1 (size_sub (zlen body) 1));
  let zero := zrep PQWIRE_MAX_STMT_NAME 0 in
  Val (target, match name with
               | Some (n, _) => copy_cstr zero PQWIRE_MAX_STMT_NAME (Some n)
               | None => zero
               end).

Definition parse_describe_msg (s : session) (body : list Z) : option session :=
  on_val (target_name body) s (λ '(t, n),
    enqueue_event s (mk_event PQ_EVENT_DESCRIBE (P_describe (mk_describe t n)))).

Definition parse_close_msg (s : session) (body : list Z) : option session :=
  on_val (target_name body) s (λ '(t, n),
    enqueue_event s (mk_event PQ_EVENT_CLOSE (P_close (mk_close t n)))).

Definition execute_fields (body : list Z) : outcome pq_execute_t :=
  '(portal, c) ← read_or_return body 0;
  let off := 0 + c in
  let p := copy_cstr (zrep PQWIRE_MAX_PORTAL_NAME 0) PQWIRE_MAX_PORTAL_NAME (Some portal) in
  if off + 4 <=? zlen body then
    v ← deref (rd32_be body off);
    Val (mk_execute p v)
  else Val (mk_execute p 0).

Definition parse_execute_msg (s : session) (body : list Z) : option session :=
  on_val (execute_fields body) s (λ e,
    enqueue_event s (mk_event PQ_EVENT_EXECUTE (P_execute e))).

(** ** Query and CommandComplete: a string copied to a scratch array *)
Definition copy_or_clear (arr : list Z) (sz : Z) (src : option (list Z * Z)) : option (list Z) :=
  match src with
  | Some (str, _) => Some (copy_cstr arr sz (Some str))
  | None => zset arr 0 0
  end.

Definition parse_query_msg (s : session) (body : list Z) : option session :=
  sql ← read_cstr body 0 (zlen body);
  arr ← copy_or_clear (sql_scratch s) PQWIRE_MAX_QUERY_LEN sql;
  let s := set_sql_scratch arr s in
  s ← enqueue_event s (mk_event PQ_EVENT_QUERY (P_query sql_scratch_ptr));
  Some (set_proto_state PROTO_STATE_QUERYING s).

Definition parse_command_complete (s : session) (body : list Z) : option session :=
  tag ← read_cstr body 0 (zlen body);
  arr ← copy_or_clear (tag_scratch s) 64 tag;
  let s := set_tag_scratch arr s in
  s ← enqueue_event s (mk_event PQ_EVENT_COMMAND_COMPLETE (P_command_complete tag_scratch_ptr));
  Some (set_proto_state PROTO_STATE_READY s).

(** ** ErrorResponse *)
Definition set_error_field (field : Z) (v : list Z) (e : pq_error_t) : pq_error_t :=
  let 'mk_error sev code msg det hint pos := e in
  if field =? chr "S" then mk_error (copy_cstr sev 32 (Some v)) code msg det hint pos
  else if field =? chr "C" then mk_error sev (copy_cstr code 8 (Some v)) msg det hint pos
  else if field =? chr "M" then mk_error sev code (copy_cstr msg 256 (Some v)) det hint pos
  else if field =? chr "D" then mk_error sev code msg (copy_cstr det 256 (Some v)) hint pos
  else if field =? chr "H" then mk_error sev code msg det (copy_cstr hint 256 (Some v)) pos
  else if field =? chr "P" then mk_error sev code msg det hint (atoi v)
  else e.

Fixpoint error_loop (fuel : nat) (e : pq_error_t) (body : list Z) (off : Z) :
    option pq_error_t :=
  match fuel with
  | O => None
  | S fuel' =>
      if off <? zlen body then
        field ← zget body off;
        if field =? 0 then Some e else
        let off := off + 1 in
        val ← read_at body off;
        match val with
        | None => Some e
        | Some (v, c) => error_loop fuel' (set_error_field field v e) body (off + c)
        end
      else Some e
  end.

Definition parse_error_fields (body : list Z) : option pq_error_t :=
  error_loop (S (length body)) zero_error body 0.

Definition parse_error_response (s : session) (body : list Z) : option session :=
  e ← parse_error_fields body;
  enqueue_event s (mk_event PQ_EVENT_ERROR_RESPONSE (P_error e)).

(** ** RowDescription *)

(** The column loop: the session with its column scratch, and the final [i]. *)
Fixpoint columns_loop (n : nat) (i off : Z) (s : session) (body : list Z) :
    option (session * Z) :=
  match n with
  | O => Some (s, i)
  | S n' =>
      if off <? zlen body then
        name ← read_at body off;
        match name with
        | None => Some (s, i)
        | Some (name, c) =>
            row ← zget (col_name_scratch s) i;
            names ← zset (col_name_scratch s) i (copy_cstr row 64 (Some name));
            let s := set_col_name_scratch names s in
            let off := off + c in
            if zlen body <? off + 18 then Some (s, i) else
            oid ← rd32_be body (off + 6);
            fmt ← rd16_be body (off + 16);
            cols ← zset (col_scratch s) i (mk_column_desc (Some i) oid (to_i16 fmt));
            columns_loop n' (i + 1) (off + 18) (set_col_scratch cols s) body
        end
      else Some (s, i)
  end.

Definition parse_row_description (s : session) (body : list Z) : option session :=
  if zlen body <? 2 then Some s else
  n ← rd16_be body 0;
  let n := clamp n PQWIRE_MAX_ROW_COLUMNS in
  '(s, i) ← columns_loop (Z.to_nat n) 0 2 s body;
  enqueue_event s (mk_event PQ_EVENT_ROW_DESCRIPTION (P_row_desc col_scratch_ptr i)).

(** ** DataRow *)

(** [data[i] = d; len[i] = n; format[i] = 0; oid[i] = 0]. *)
Definition set_cell (row : pq_data_row_t) (i : Z) (d : option Z) (n : Z) :
    option pq_data_row_t :=
  ds ← zset (dr_data row) i d;
  ls ← zset (dr_len row) i n;
  fs ← zset (dr_format row) i 0;
  os ← zset (dr_oid row) i 0;
  Some (mk_data_row ds ls fs os (dr_n_columns row)).

Fixpoint cells_loop (n : nat) (i off : Z) (row : pq_data_row_t) (s : session) (body : list Z) :
    option (pq_data_row_t * session * Z) :=
  match n with
  | O => Some (row, s, i)
  | S n' =>
      if off + 4 <=? zlen body then
        v ← rd32_be body off;
        let plen := to_i32 v in
        let off := off + 4 in
        if plen <? 0 then
          row ← set_cell row i None 0;
          cells_loop n' (i + 1) off row s body
        else
          let need := plen in
          if zlen body <? off + need then Some (row, s, i)
          else if PQWIRE_ROW_ARENA <? row_arena_used s + need then
            row ← set_cell row i None 0;
            cells_loop n' (i + 1) (off + need) row s body
          else
            bytes ← mem_read body off need;
            let dst := row_arena_used s in
            arena ← mem_write (row_arena s) dst bytes;
            let s := set_row_arena_used (dst + need) (set_row_arena arena s) in
            row ← set_cell row i (Some dst) need;
            cells_loop n' (i + 1) (off + need) row s body
      else Some (row, s, i)
  end.

Definition parse_data_row (s : session) (body : list Z) : option session :=
  if zlen body <? 2 then Some s else
  n ← rd16_be body 0;
  let n := clamp n PQWIRE_MAX_ROW_COLUMNS in
  '(row, s, i) ← cells_loop (Z.to_nat n) 0 2 zero_data_row s body;
  let row := mk_data_row (dr_data row) (dr_len row) (dr_format row) (dr_oid row) i in
  enqueue_event s (mk_event PQ_EVENT_DATA_ROW (P_data_row row)).

(** ** NotificationResponse *)
Definition notification_fields (body : list Z) : outcome pq_notification_t :=
  let z := zero_notification in
  _ ← check (negb (zlen body <? 4));
  pid ← deref (rd32_be body 0);
  '(channel, c) ← read_or_return body 4;
  let off := 4 + c in
  let ch := copy_cstr (nt_channel z) 64 (Some channel) in
  payload ← deref (read_at body off);
  let str := match payload with Some (p, _) => p | None => [] end in
  let plen := Z.min (zlen str) PQWIRE_NOTIFY_PAYLOAD_MAX in
  arr ← deref (mem_write (nt_payload z) 0 (ztake plen str));
  arr ← deref (zset arr plen 0);
  Val (mk_notification (to_i32 pid) ch arr plen).

Definition parse_notification_response (s : session) (body : list Z) : option session :=
  on_val (notification_fields body) s (λ n,
    enqueue_event s (mk_event PQ_EVENT_NOTIFICATION (P_notification n))).

(** ** Dispatch *)
Definition handle_frontend (base : in_ptr) (s : session) (type : Z) (body : list Z) :
    option session :=
  if type =? chr "Q" then parse_query_msg s body
  else if type =? chr "P" then parse_parse_msg s body
  else if type =? chr "B" then parse_bind_msg base s body
  else if type =? chr "D" then parse_describe_msg s body
  else if type =? chr "E" then parse_execute_msg s body
  else if type =? chr "C" then parse_close_msg s body
  else if type =? chr "S" then enqueue_event s (plain_event PQ_EVENT_SYNC)
  else if type =? chr "H" then enqueue_event s (plain_event PQ_EVENT_FLUSH)
  else if type =? chr "X" then enqueue_event s (plain_event PQ_EVENT_TERMINATE)
  else Some s.

Definition handle_backend (base : in_ptr) (s : session) (type : Z) (body : list Z) :
    option session :=
  if type =? chr "R" then
    if 4 <=? zlen body then
      v ← rd32_be body 0;
      if v =? 0 then
        s ← enqueue_event s (plain_event PQ_EVENT_AUTHENTICATION_OK);
        Some (set_auth_state AUTH_STATE_DONE s)
      else Some s
    else Some s
  else if type =? chr "Z" then
    s ← enqueue_event s (plain_event PQ_EVENT_READY_FOR_QUERY);
    Some (set_proto_state PROTO_STATE_READY s)
  else if type =? chr "T" then parse_row_description s body
  else if type =? chr "D" then parse_data_row s body
  else if type =? chr "C" then parse_command_complete s body
  else if type =? chr "E" then parse_error_response s body
  else if type =? chr "1" then enqueue_event s (plain_event PQ_EVENT_PARSE_COMPLETE)
  else if type =? chr "2" then enqueue_event s (plain_event PQ_EVENT_BIND_COMPLETE)
  else if type =? chr "3" then enqueue_event s (plain_event PQ_EVENT_CLOSE_COMPLETE)
  else if type =? chr "n" then enqueue_event s (plain_event PQ_EVENT_NO_DATA)
  else if type =? chr "s" then enqueue_event s (plain_event PQ_EVENT_PORTAL_SUSPENDED)
  else if type =? chr "S" then
    enqueue_event s (mk_event PQ_EVENT_PARAMETER_STATUS (P_raw base (zlen body)))
  else if type =? chr "N" then enqueue_event s (plain_event PQ_EVENT_NOTICE_RESPONSE)
  else if type =? chr "A" then parse_notification_response s body
  else Some s.

Definition handle_message (base : in_ptr) (s : session) (type : Z) (body : list Z) :
    option session :=
  if bool_decide (role s = PQWIRE_ROLE_SERVER)
  then handle_frontend base s type body
  else handle_backend base s type body.
