(* ===== verification/ParseSafe.v ===== *)
(** * ParseSafe: the parsers stay inside the message and keep the session well-formed

    For every message body, whatever its bytes, the parsers of [Parse] only access the body
    and the arrays they fill inside their bounds, their loops stop, and the session stays
    well-formed.  [session_ext] is what any parser may do to the rest of the session: it
    never changes the role or the queue's capacity, and never touches row-arena bytes that
    queued DataRow events may point to. *)
From S2P Require Import Prelude Wire Ring Events Ctx Parse.

Record session_ext (s s' : session) : Prop := {
  se_role : role s' = role s;
  se_cap : q_cap (event_ring s') = q_cap (event_ring s);
  se_used : row_arena_used s ≤ row_arena_used s';
  se_arena : ztake (row_arena_used s) (row_arena s') = ztake (row_arena_used s) (row_arena s);
  se_seen : startup_seen s = true → startup_seen s' = true;
}.

(** Well-formed result that extends the session it started from. *)
Definition good (s : session) (r : option session) : Prop :=
  ∃ s', r = Some s' ∧ session_wf s' ∧ session_ext s s'.

Lemma session_ext_refl s : session_ext s s.
Proof. split; (done || lia). Qed.

Lemma session_ext_trans s1 s2 s3 :
  0 ≤ row_arena_used s1 → session_ext s1 s2 → session_ext s2 s3 → session_ext s1 s3.
Proof.
  intros H0 [A1 A2 A3 A4 A5] [B1 B2 B3 B4 B5]. split; [congruence|congruence|lia| |by auto].
  rewrite <- A4.
  rewrite <- (ztake_ztake _ (row_arena_used s2) (row_arena s3)) by lia.
  rewrite B4. by apply ztake_ztake.
Qed.

Lemma good_Some s : session_wf s → good s (Some s).
Proof. intros Hwf. exists s. split_and!; [done|done|apply session_ext_refl]. Qed.

Lemma good_bind s r k :
  session_wf s → good s r → (∀ s', session_wf s' → session_ext s s' → good s' (k s')) →
  good s (s' ← r; k s').
Proof.
  intros Hwf (s' & -> & Hwf' & He) Hk. cbn [mbind option_bind].
  destruct (Hk s' Hwf' He) as (s2 & -> & Hwf2 & He2).
  exists s2. split_and!; [done|done|].
  eapply session_ext_trans; [destruct Hwf; lia|done|done].
Qed.

Lemma good_weaken s s' r : session_wf s → session_ext s s' → good s' r → good s r.
Proof.
  intros Hwf He (s2 & -> & Hwf2 & He2). exists s2. split_and!; [done|done|].
  eapply session_ext_trans; [destruct Hwf; lia|done|done].
Qed.

Lemma good_on_val {A} (m : outcome A) s k :
  session_wf s → defined m → (∀ a, m = Val a → good s (k a)) → good s (on_val m s k).
Proof.
  intros Hwf Hm Hk. destruct m; cbn; [by apply Hk|by apply good_Some|done].
Qed.

Lemma good_enqueue s ev :
  session_wf s → event_in_arena (row_arena_used s) ev → good s (enqueue_event s ev).
Proof.
  intros Hwf Hev. destruct (enqueue_event_spec s ev Hwf Hev) as (r & -> & Hwf' & Hc & _).
  eexists. split_and!; [done|done|]. split; cbn [role event_ring set_event_ring]; try done.
Qed.

(** ** Updates of single fields *)
Ltac field_update := intros []; intros; split; cbn; try done; try lia.

Lemma wf_set_user s a : session_wf s → zlen a = 128 → session_wf (set_user_scratch a s).
Proof. field_update. Qed.
Lemma wf_set_db s a : session_wf s → zlen a = 128 → session_wf (set_db_scratch a s).
Proof. field_update. Qed.
Lemma wf_set_sql s a :
  session_wf s → zlen a = PQWIRE_MAX_QUERY_LEN → session_wf (set_sql_scratch a s).
Proof. field_update. Qed.
Lemma wf_set_tag s a : session_wf s → zlen a = 64 → session_wf (set_tag_scratch a s).
Proof. field_update. Qed.
Lemma wf_set_col s a :
  session_wf s → zlen a = PQWIRE_MAX_ROW_COLUMNS → session_wf (set_col_scratch a s).
Proof. field_update. Qed.
Lemma wf_set_col_names s a :
  session_wf s → zlen a = PQWIRE_MAX_ROW_COLUMNS → Forall (λ n, zlen n = 64) a →
  session_wf (set_col_name_scratch a s).
Proof. field_update. Qed.
Lemma wf_set_auth s a : session_wf s → session_wf (set_auth_state a s).
Proof. field_update. Qed.
Lemma wf_set_proto s a : session_wf s → session_wf (set_proto_state a s).
Proof. field_update. Qed.
Lemma wf_set_seen s a : session_wf s → session_wf (set_startup_seen a s).
Proof. field_update. Qed.

Create HintDb session discriminated.
#[export] Hint Resolve wf_set_user wf_set_db wf_set_sql wf_set_tag wf_set_col wf_set_auth
  wf_set_proto wf_set_seen good_Some good_enqueue session_ext_refl : session.

Lemma ext_same s s' :
  role s' = role s → event_ring s' = event_ring s → row_arena_used s' = row_arena_used s →
  row_arena s' = row_arena s → (startup_seen s = true → startup_seen s' = true) →
  session_ext s s'.
Proof. intros H1 H2 H3 H4 H5. split; rewrite ?H2, ?H3, ?H4; (done || lia). Qed.

(** The frontmost update is invisible to [session_ext]. *)
Lemma good_same s s' :
  session_wf s' → role s' = role s → event_ring s' = event_ring s →
  row_arena_used s' = row_arena_used s → row_arena s' = row_arena s →
  (startup_seen s = true → startup_seen s' = true) → good s (Some s').
Proof. intros. exists s'. split_and!; [done|done|by apply ext_same]. Qed.

(** ** Reading strings *)
Lemma read_at_spec body off :
  0 ≤ off ≤ zlen body → zlen body < 2 ^ 64 →
  read_at body off = Some None ∨
  ∃ str, read_at body off = Some (Some (str, zlen str + 1)) ∧ off + (zlen str + 1) ≤ zlen body.
Proof.
  intros Ho Hb. unfold read_at. rewrite size_sub_small by lia. apply read_cstr_defined; lia.
Qed.

Lemma read_or_return_spec body off :
  0 ≤ off ≤ zlen body → zlen body < 2 ^ 64 →
  read_or_return body off = Ret ∨
  ∃ str, read_or_return body off = Val (str, zlen str + 1) ∧ off + (zlen str + 1) ≤ zlen body.
Proof.
  intros Ho Hb. unfold read_or_return.
  destruct (read_at_spec body off Ho Hb) as [-> | (str & -> & Hs)]; eauto.
Qed.

Lemma clamp_bound n lim : 0 ≤ n → 0 ≤ lim → 0 ≤ clamp n lim ≤ lim.
Proof. unfold clamp. intros. destruct (Z.ltb_spec lim n); lia. Qed.

(** ** Array-filling loops *)
Lemma read_oids_defined n i off oids body :
  0 ≤ i → 0 ≤ off → i + Z.of_nat n ≤ zlen oids →
  ∃ oids', read_oids n i off oids body = Some oids' ∧ zlen oids' = zlen oids.
Proof.
  revert i off oids. induction n as [|n IH]; intros i off oids Hi Ho Hn; [by exists oids|].
  cbn [read_oids]. destruct (Z.leb_spec (off + 4) (zlen body)); [|by exists oids].
  destruct (rd32_be_defined body off) as [v ->]; [lia..|]. cbn [mbind option_bind].
  destruct (zset oids i v) as [o1|] eqn:E; [|by rewrite zset_Some in E by lia].
  apply zset_zlen in E. cbn [mbind option_bind].
  destruct (IH (i + 1) (off + 4) o1) as (o2 & -> & ?); [lia..|]. exists o2. split; [done|lia].
Qed.

Lemma read_formats_defined n i off fmts body :
  0 ≤ i → 0 ≤ off → i + Z.of_nat n ≤ zlen fmts →
  ∃ fmts' off', read_formats n i off fmts body = Some (fmts', off') ∧
    zlen fmts' = zlen fmts ∧ off ≤ off'.
Proof.
  revert i off fmts. induction n as [|n IH]; intros i off fmts Hi Ho Hn;
    [exists fmts, off; auto with lia|].
  cbn [read_formats]. destruct (Z.leb_spec (off + 2) (zlen body)); [|exists fmts, off; auto with lia].
  destruct (rd16_be_defined body off) as (v & -> & _); [lia..|]. cbn [mbind option_bind].
  destruct (zset fmts i (to_i16 v)) as [o1|] eqn:E; [|by rewrite zset_Some in E by lia].
  apply zset_zlen in E. cbn [mbind option_bind].
  destruct (IH (i + 1) (off + 2) o1) as (o2 & off' & -> & ? & ?); [lia..|].
  exists o2, off'. split_and!; [done|lia|lia].
Qed.

Lemma param_format_defined nf fmts i :
  0 ≤ i → 0 ≤ nf ≤ zlen fmts → ∃ f, param_format nf fmts i = Some f.
Proof.
  intros Hi Hn. unfold param_format.
  destruct (Z.eqb_spec nf 0); [by eexists|].
  destruct (Z.eqb_spec nf 1); [apply zget_is_Some; lia|].
  destruct (Z.ltb_spec i nf); [apply zget_is_Some; lia|by eexists].
Qed.

Lemma read_params_defined n i off params nf fmts body base :
  0 ≤ i → 0 ≤ off → i + Z.of_nat n ≤ zlen params → 0 ≤ nf ≤ zlen fmts →
  read_params n i off params nf fmts body base = Ret ∨
  ∃ params' off', read_params n i off params nf fmts body base = Val (params', off') ∧
    zlen params' = zlen params ∧ off ≤ off'.
Proof.
  revert i off params. induction n as [|n IH]; intros i off params Hi Ho Hn Hf;
    [right; exists params, off; auto with lia|].
  cbn [read_params]. destruct (Z.leb_spec (off + 4) (zlen body));
    [|right; exists params, off; auto with lia].
  destruct (rd32_be_defined body off) as [v ->]; [lia..|].
  destruct (param_format_defined nf fmts i) as [f Hpf]; [lia..|].
  cbn [deref mbind outcome_bind].
  assert (Hnext : ∀ data off', off ≤ off' →
    let r := (fmt ← deref (param_format nf fmts i);
              params0 ← deref (zset params i (mk_view (to_i32 v) data fmt));
              read_params n (i + 1) off' params0 nf fmts body base) in
    r = Ret ∨ ∃ params' off'', r = Val (params', off'') ∧ zlen params' = zlen params ∧ off ≤ off'').
  { intros data off' Hoff'. rewrite Hpf. cbn [deref mbind outcome_bind].
    destruct (zset params i _) as [p1|] eqn:E; [|by rewrite zset_Some in E by lia].
    apply zset_zlen in E. cbn [deref mbind outcome_bind].
    destruct (IH (i + 1) off' p1) as [-> | (p2 & off2 & -> & ? & ?)]; [lia..|by left|].
    right. exists p2, off2. split_and!; [done|lia|lia]. }
  destruct (Z.ltb_spec (to_i32 v) 0).
  - apply (Hnext None (off + 4)). lia.
  - destruct (Z.ltb_spec (zlen body) (off + 4 + to_i32 v)); [by left|].
    apply (Hnext (Some (in_ptr_add base (off + 4)))). lia.
Qed.

(** ** The decoders are defined on every body *)
Section decoders.
Context (body : list Z) (Hlen : zlen body < 2 ^ 64).

Lemma parse_fields_defined : defined (parse_fields body).
Proof using Hlen.
  pose proof (zlen_nonneg body). unfold parse_fields, defined.
  destruct (read_or_return_spec body 0) as [-> | (nm & -> & Hn)]; [lia|done|done|].
  cbn [mbind outcome_bind]. pose proof (zlen_nonneg nm).
  destruct (read_or_return_spec body (0 + (zlen nm + 1))) as [-> | (q & -> & Hq)]; [lia|done|done|].
  cbn [mbind outcome_bind]. pose proof (zlen_nonneg q). zcase; [|done].
  destruct (rd16_be_defined body (0 + (zlen nm + 1) + (zlen q + 1))) as (n & -> & Hr); [lia..|].
  cbn [deref mbind outcome_bind].
  pose proof (clamp_bound n PQWIRE_MAX_PARAM_TYPES) as Hc. unfold PQWIRE_MAX_PARAM_TYPES in *.
  destruct (read_oids_defined (Z.to_nat (clamp n 16)) 0
    (0 + (zlen nm + 1) + (zlen q + 1) + 2) (parse_param_type_oids zero_parse) body)
    as (o & -> & _); [lia|lia| |done].
  change (zlen (parse_param_type_oids zero_parse)) with 16. lia.
Qed.

Lemma bind_fields_defined base : defined (bind_fields base body).
Proof using Hlen.
  pose proof (zlen_nonneg body). unfold bind_fields, defined.
  destruct (read_or_return_spec body 0) as [-> | (nm & -> & Hn)]; [lia|done|done|].
  cbn [mbind outcome_bind]. pose proof (zlen_nonneg nm).
  destruct (read_or_return_spec body (0 + (zlen nm + 1))) as [-> | (q & -> & Hq)]; [lia|done|done|].
  cbn [mbind outcome_bind]. pose proof (zlen_nonneg q).
  set (o1 := 0 + (zlen nm + 1) + (zlen q + 1)) in *.
  destruct (Z.ltb_spec (zlen body) (o1 + 2)); cbn [negb check mbind outcome_bind]; [done|].
  destruct (rd16_be_defined body o1) as (n & -> & Hr); [lia..|].
  cbn [deref mbind outcome_bind].
  assert (Hz : zlen (bind_formats (zero_bind base (zlen body))) = 32) by done.
  assert (Hz' : zlen (bind_params (zero_bind base (zlen body))) = 32) by done.
  assert (Hz2 : zlen (bind_result_formats (zero_bind base (zlen body))) = 32) by done.
  unfold PQWIRE_MAX_BIND_PARAMS in *.
  pose proof (clamp_bound n 32) as Hc.
  destruct (read_formats_defined (Z.to_nat (clamp n 32)) 0 (o1 + 2)
    (bind_formats (zero_bind base (zlen body))) body) as (f & o2 & -> & Hf & Ho2); [lia..|].
  cbn [deref mbind outcome_bind].
  destruct (Z.ltb_spec (zlen body) (o2 + 2)); cbn [negb check mbind outcome_bind]; [done|].
  destruct (rd16_be_defined body o2) as (n2 & -> & Hr2); [lia..|].
  cbn [deref mbind outcome_bind]. pose proof (clamp_bound n2 32) as Hc2.
  destruct (read_params_defined (Z.to_nat (clamp n2 32)) 0 (o2 + 2)
    (bind_params (zero_bind base (zlen body))) (clamp n 32) f body base)
    as [-> | (p & o3 & -> & Hp & Ho3)]; [lia..|done|].
  cbn [deref mbind outcome_bind].
  destruct (Z.leb_spec (o3 + 2) (zlen body)); [|done].
  destruct (rd16_be_defined body o3) as (n3 & -> & Hr3); [lia..|].
  cbn [deref mbind outcome_bind]. pose proof (clamp_bound n3 32) as Hc3.
  destruct (read_formats_defined (Z.to_nat (clamp n3 32)) 0 (o3 + 2)
    (bind_result_formats (zero_bind base (zlen body))) body) as (f3 & o4 & -> & Hf3 & Ho4);
    [lia..|done].
Qed.

Lemma target_name_defined : defined (target_name body).
Proof using Hlen.
  pose proof (zlen_nonneg body). unfold target_name, defined.
  destruct (Z.ltb_spec (zlen body) 1); cbn [negb check mbind outcome_bind]; [done|].
  destruct (zget_is_Some 0 body) as [t ->]; [lia|]. cbn [deref mbind outcome_bind].
  rewrite size_sub_small by lia.
  by destruct (read_cstr_defined body 1 (zlen body - 1)) as [-> | (str & -> & _)]; [lia..| |].
Qed.

Lemma execute_fields_defined : defined (execute_fields body).
Proof using Hlen.
  pose proof (zlen_nonneg body). unfold execute_fields, defined.
  destruct (read_or_return_spec body 0) as [-> | (nm & -> & Hn)]; [lia|done|done|].
  cbn [mbind outcome_bind]. pose proof (zlen_nonneg nm). zcase; [|done].
  by destruct (rd32_be_defined body (0 + (zlen nm + 1))) as [v ->]; [lia..|].
Qed.

Lemma notification_fields_defined : defined (notification_fields body).
Proof using Hlen.
  unfold notification_fields, defined.
  destruct (Z.ltb_spec (zlen body) 4); cbn [negb check mbind outcome_bind]; [done|].
  destruct (rd32_be_defined body 0) as [pid ->]; [lia..|]. cbn [deref mbind outcome_bind].
  destruct (read_or_return_spec body 4) as [-> | (ch & -> & Hc)]; [lia|done|done|].
  cbn [mbind outcome_bind]. pose proof (zlen_nonneg ch).
  assert (∃ p, read_at body (4 + (zlen ch + 1)) = Some p) as [p ->].
  { destruct (read_at_spec body (4 + (zlen ch + 1))) as [-> | (? & -> & _)]; [lia..| |]; eauto. }
  cbn [deref mbind outcome_bind]. set (str := match p with Some (q, _) => q | None => [] end).
  pose proof (zlen_nonneg str). unfold PQWIRE_NOTIFY_PAYLOAD_MAX.
  assert (Hz : zlen (nt_payload zero_notification) = 8001) by (apply zlen_zrep; lia).
  destruct (mem_write (nt_payload zero_notification) 0 (ztake (Z.min (zlen str) 8000) str))
    as [a|] eqn:E; cbn [deref mbind outcome_bind].
  - apply mem_write_zlen in E. by rewrite zset_Some by lia.
  - rewrite mem_write_Some in E; [done|lia|]. rewrite Hz, zlen_ztake by lia. lia.
Qed.

Lemma error_loop_defined fuel e off :
  0 ≤ off ≤ zlen body → (Z.to_nat (zlen body - off) < fuel)%nat →
  ∃ e', error_loop fuel e body off = Some e'.
Proof using Hlen.
  revert e off. induction fuel as [|fuel IH]; intros e off Ho Hf; [lia|].
  cbn [error_loop]. destruct (Z.ltb_spec off (zlen body)); [|by eexists].
  destruct (zget_is_Some off body) as [fd ->]; [lia|]. cbn [mbind option_bind].
  destruct (fd =? 0); [by eexists|].
  destruct (read_at_spec body (off + 1)) as [-> | (v & -> & Hv)]; [lia..|by eexists|].
  cbn [mbind option_bind]. pose proof (zlen_nonneg v). apply IH; lia.
Qed.

Lemma parse_error_fields_defined : ∃ e, parse_error_fields body = Some e.
Proof using Hlen.
  apply error_loop_defined; [pose proof (zlen_nonneg body); lia|unfold zlen; lia].
Qed.
End decoders.

(** ** The loops that update the session *)
Lemma startup_loop_good fuel s body off :
  session_wf s → zlen body < 2 ^ 64 → 0 ≤ off →
  (Z.to_nat (zlen body - off) < fuel)%nat → good s (startup_loop fuel s body off).
Proof.
  revert s off. induction fuel as [|fuel IH]; intros s off Hwf Hb Ho Hf; [lia|].
  cbn [startup_loop]. destruct (Z.ltb_spec (off + 1) (zlen body)); [|by apply good_Some].
  destruct (read_at_spec body off) as [-> | (key & -> & Hk)]; [lia..|by apply good_Some|].
  cbn [mbind option_bind]. pose proof (zlen_nonneg key).
  destruct (Z.leb_spec (zlen key + 1) 1); [by apply good_Some|].
  destruct (read_at_spec body (off + (zlen key + 1))) as [-> | (v & -> & Hv)];
    [lia..|by apply good_Some|].
  cbn [mbind option_bind]. pose proof (zlen_nonneg v).
  assert (Hn : ∀ s', session_wf s' → session_ext s s' →
    good s (startup_loop fuel s' body (off + (zlen key + 1) + (zlen v + 1)))).
  { intros s' Hwf' He. eapply good_weaken; [done|done|]. apply IH; [done|done|lia|lia]. }
  destruct (bool_decide _); [|destruct (bool_decide _); [|by apply Hn, session_ext_refl]].
  - apply Hn; [|by apply ext_same]. apply wf_set_user; [done|].
    destruct Hwf. by apply zlen_copy_cstr.
  - apply Hn; [|by apply ext_same]. apply wf_set_db; [done|].
    destruct Hwf. by apply zlen_copy_cstr.
Qed.

(** Event payloads without arena pointers. *)
Ltac no_row := (unfold event_in_arena; cbn; exact I).

Lemma zset_scratch arr (n : Z) :
  zlen arr = n → 0 < n → ∃ arr', zset arr 0 0 = Some arr' ∧ zlen arr' = n.
Proof.
  intros Ha Hn. destruct (zset arr 0 0) as [a|] eqn:E; [|by rewrite zset_Some in E by lia].
  exists a. split; [done|]. by rewrite (zset_zlen _ _ _ _ E).
Qed.

Lemma parse_startup_body_good s body :
  session_wf s → zlen body < 2 ^ 64 → good s (parse_startup_body s body).
Proof.
  intros Hwf Hb. unfold parse_startup_body.
  destruct (zset_scratch (user_scratch s) 128) as (u & -> & Hu); [by destruct Hwf|lia|].
  destruct (zset_scratch (db_scratch s) 128) as (d & -> & Hd); [by destruct Hwf|lia|].
  cbn [mbind option_bind].
  set (s1 := set_db_scratch d (set_user_scratch u s)).
  assert (Hwf1 : session_wf s1) by (unfold s1; auto with session).
  eapply (good_weaken s s1); [done|by apply ext_same|].
  apply good_bind; [done| |].
  { apply startup_loop_good; [done|done|lia|]. unfold zlen in *. lia. }
  intros s2 Hwf2 _. apply good_bind; [done|apply good_enqueue; [done|no_row]|].
  intros s3 Hwf3 _.
  destruct (bool_decide _); apply good_same; auto with session.
Qed.

Lemma copy_or_clear_spec arr n src :
  zlen arr = n → 0 < n → ∃ arr', copy_or_clear arr n src = Some arr' ∧ zlen arr' = n.
Proof.
  intros Ha Hn. destruct src as [[str c]|]; cbn; [|by apply zset_scratch].
  eexists. split; [done|]. by apply zlen_copy_cstr.
Qed.

Lemma read_cstr_all body : ∃ r, read_cstr body 0 (zlen body) = Some r.
Proof.
  pose proof (zlen_nonneg body).
  destruct (read_cstr_defined body 0 (zlen body)) as [-> | (? & -> & _)]; [lia..| |]; eauto.
Qed.

Lemma parse_query_msg_good s body : session_wf s → good s (parse_query_msg s body).
Proof.
  intros Hwf. unfold parse_query_msg. destruct (read_cstr_all body) as [sql ->].
  destruct (copy_or_clear_spec (sql_scratch s) PQWIRE_MAX_QUERY_LEN sql) as (a & Ha & Hl);
    [by destruct Hwf|done|].
  cbn [mbind option_bind]. rewrite Ha. cbn [mbind option_bind].
  assert (session_wf (set_sql_scratch a s)) by auto with session.
  eapply (good_weaken s (set_sql_scratch a s)); [done|by apply ext_same|].
  apply good_bind; [done|apply good_enqueue; [done|no_row]|].
  intros s3 Hwf3 _. apply good_same; auto with session.
Qed.

Lemma parse_command_complete_good s body : session_wf s → good s (parse_command_complete s body).
Proof.
  intros Hwf. unfold parse_command_complete. destruct (read_cstr_all body) as [tag ->].
  destruct (copy_or_clear_spec (tag_scratch s) 64 tag) as (a & Ha & Hl);
    [by destruct Hwf|done|].
  cbn [mbind option_bind]. rewrite Ha. cbn [mbind option_bind].
  assert (session_wf (set_tag_scratch a s)) by auto with session.
  eapply (good_weaken s (set_tag_scratch a s)); [done|by apply ext_same|].
  apply good_bind; [done|apply good_enqueue; [done|no_row]|].
  intros s3 Hwf3 _. apply good_same; auto with session.
Qed.

Lemma columns_loop_good n i off s body :
  session_wf s → zlen body < 2 ^ 64 → 0 ≤ i → 0 ≤ off → i + Z.of_nat n ≤ 16 →
  ∃ s' i', columns_loop n i off s body = Some (s', i') ∧ session_wf s' ∧ session_ext s s' ∧
           i ≤ i' ≤ 16.
Proof.
  revert i off s. induction n as [|n IH]; intros i off s Hwf Hb Hi Ho Hn.
  { exists s, i. split_and!; [done|done|apply session_ext_refl|lia|lia]. }
  assert (Hstop : ∀ s', session_wf s' → session_ext s s' →
    ∃ s2 i', Some (s', i) = Some (s2, i') ∧ session_wf s2 ∧ session_ext s s2 ∧ i ≤ i' ≤ 16).
  { intros s' ??. exists s', i. split_and!; (done || lia). }
  cbn [columns_loop]. destruct (Z.ltb_spec off (zlen body));
    [|by apply Hstop, session_ext_refl].
  destruct (read_at_spec body off) as [-> | (nm & -> & Hnm)]; [lia..| |];
    cbn [mbind option_bind]; [by apply Hstop, session_ext_refl|].
  pose proof (zlen_nonneg nm). pose proof Hwf as []. unfold PQWIRE_MAX_ROW_COLUMNS in *.
  destruct (zget_is_Some i (col_name_scratch s)) as [row Hrow]; [lia|].
  rewrite Hrow. cbn [mbind option_bind].
  pose proof (zget_Forall _ _ _ _ sw_col_name Hrow) as Hrl. cbn in Hrl.
  rewrite zset_Some by lia. cbn [mbind option_bind].
  set (s1 := set_col_name_scratch _ s).
  assert (Hwf1 : session_wf s1).
  { apply wf_set_col_names; [done| |].
    - unfold zlen in *. by rewrite length_insert.
    - apply Forall_insert; [done|]. by apply zlen_copy_cstr. }
  assert (He1 : session_ext s s1) by by apply ext_same.
  destruct (Z.ltb_spec (zlen body) (off + (zlen nm + 1) + 18)); [by apply Hstop|].
  destruct (rd32_be_defined body (off + (zlen nm + 1) + 6)) as [oid ->]; [lia..|].
  destruct (rd16_be_defined body (off + (zlen nm + 1) + 16)) as (fmt & -> & _); [lia..|].
  cbn [mbind option_bind].
  destruct (zset (col_scratch s1) i _) as [cols|] eqn:E;
    [|by rewrite zset_Some in E by (unfold s1; cbn; lia)].
  apply zset_zlen in E. cbn [mbind option_bind].
  assert (Hwf2 : session_wf (set_col_scratch cols s1)) by (apply wf_set_col; [done|by rewrite E]).
  destruct (IH (i + 1) (off + (zlen nm + 1) + 18) (set_col_scratch cols s1))
    as (s3 & i3 & -> & ? & ? & ?); [done|done|lia|lia|lia|].
  exists s3, i3. split_and!; [done|done| |lia|lia].
  eapply session_ext_trans; [lia|exact He1|].
  eapply (session_ext_trans _ (set_col_scratch cols s1)); [cbn; lia|by apply ext_same|done].
Qed.

Lemma parse_row_description_good s body :
  session_wf s → zlen body < 2 ^ 64 → good s (parse_row_description s body).
Proof.
  intros Hwf Hb. unfold parse_row_description.
  destruct (Z.ltb_spec (zlen body) 2); [by apply good_Some|].
  destruct (rd16_be_defined body 0) as (n & -> & Hr); [lia..|]. cbn [mbind option_bind].
  pose proof (clamp_bound n PQWIRE_MAX_ROW_COLUMNS) as Hc. unfold PQWIRE_MAX_ROW_COLUMNS in *.
  destruct (columns_loop_good (Z.to_nat (clamp n 16)) 0 2 s body)
    as (s1 & i & -> & Hwf1 & He & _); [done|done|lia..|].
  cbn [mbind option_bind]. eapply good_weaken; [done|done|]. apply good_enqueue; [done|no_row].
Qed.

(** Rows under construction. *)
Record row_wf (used : Z) (row : pq_data_row_t) : Prop := {
  rw_data : zlen (dr_data row) = 16;
  rw_len : zlen (dr_len row) = 16;
  rw_format : zlen (dr_format row) = 16;
  rw_oid : zlen (dr_oid row) = 16;
  rw_cells : row_in_arena used row;
}.

Lemma set_cell_wf used row i d n :
  row_wf used row → 0 ≤ i < 16 → cell_in_arena used d n →
  ∃ row', set_cell row i d n = Some row' ∧ row_wf used row'.
Proof.
  intros [] Hi Hd. unfold set_cell. rewrite !zset_Some by lia. cbn [mbind option_bind].
  eexists. split; [done|]. unfold zlen in *.
  split; cbn; unfold zlen; rewrite ?length_insert; try done.
  unfold row_in_arena. cbn. by apply Forall2_insert.
Qed.

Lemma row_wf_mono u u' row : u ≤ u' → row_wf u row → row_wf u' row.
Proof.
  intros Hu []. split; try done. unfold row_in_arena in *.
  revert rw_cells0. apply Forall2_impl. intros ??. by apply cell_in_arena_mono.
Qed.

Lemma zero_row_wf used : row_wf used zero_data_row.
Proof. split; try done. unfold row_in_arena. cbn. repeat constructor. Qed.

(** Copying a column into the free part of the arena. *)
Lemma arena_copy_good s bytes :
  session_wf s → row_arena_used s + zlen bytes ≤ PQWIRE_ROW_ARENA →
  ∃ arena, mem_write (row_arena s) (row_arena_used s) bytes = Some arena ∧
    let s' := set_row_arena_used (row_arena_used s + zlen bytes) (set_row_arena arena s) in
    session_wf s' ∧ session_ext s s' ∧
    mem_read (row_arena s') (row_arena_used s) (zlen bytes) = Some bytes.
Proof.
  intros Hwf Hfit. pose proof Hwf as []. pose proof (zlen_nonneg bytes).
  rewrite mem_write_Some by lia. eexists. split; [done|]. cbn zeta.
  set (arena := _ ++ _). assert (Hz : zlen arena = PQWIRE_ROW_ARENA) by (unfold arena; zl).
  split_and!.
  - split; cbn; try done; try lia.
    eapply Forall_impl; [|exact sw_rows]. intros ev. apply event_in_arena_mono. lia.
  - split; cbn; try done; [lia|]. unfold arena. apply ztake_app. by rewrite zlen_ztake by lia.
  - cbn [row_arena set_row_arena set_row_arena_used]. unfold arena.
    apply mem_read_app; [by rewrite zlen_ztake by lia|done].
Qed.

Lemma cells_loop_good n i off row s body :
  session_wf s → zlen body < 2 ^ 64 → 0 ≤ i → 0 ≤ off → i + Z.of_nat n ≤ 16 →
  row_wf (row_arena_used s) row →
  ∃ row' s' i', cells_loop n i off row s body = Some (row', s', i') ∧ session_wf s' ∧
    session_ext s s' ∧ row_wf (row_arena_used s') row' ∧ i ≤ i' ≤ 16.
Proof.
  revert i off row s. induction n as [|n IH]; intros i off row s Hwf Hb Hi Ho Hn Hrow.
  { exists row, s, i. split_and!; [done|done|apply session_ext_refl|done|lia|lia]. }
  assert (Hstop : ∃ row' s' i', Some (row, s, i) = Some (row', s', i') ∧ session_wf s' ∧
    session_ext s s' ∧ row_wf (row_arena_used s') row' ∧ i ≤ i' ≤ 16).
  { exists row, s, i. split_and!; (done || lia || apply session_ext_refl). }
  cbn [cells_loop]. destruct (Z.leb_spec (off + 4) (zlen body)); [|done].
  destruct (rd32_be_defined body off) as [v ->]; [lia..|]. cbn [mbind option_bind].
  assert (Hnull : ∀ off', 0 ≤ off' →
    ∃ row' s' i', (row0 ← set_cell row i None 0; cells_loop n (i + 1) off' row0 s body)
      = Some (row', s', i') ∧ session_wf s' ∧
      session_ext s s' ∧ row_wf (row_arena_used s') row' ∧ i ≤ i' ≤ 16).
  { intros off' Hoff'. destruct (set_cell_wf _ row i None 0 Hrow) as (r1 & -> & Hr1); [lia|done|].
    cbn [mbind option_bind]. destruct (IH (i + 1) off' r1 s) as (r2 & s2 & i2 & -> & ? & ? & ? & ?);
      [done|done|lia|lia|lia|done|].
    exists r2, s2, i2. split_and!; (done || lia). }
  destruct (Z.ltb_spec (to_i32 v) 0); [apply Hnull; lia|].
  destruct (Z.ltb_spec (zlen body) (off + 4 + to_i32 v)); [done|].
  destruct (Z.ltb_spec PQWIRE_ROW_ARENA (row_arena_used s + to_i32 v)); [apply Hnull; lia|].
  rewrite mem_read_Some by lia. cbn [mbind option_bind].
  set (bytes := ztake _ _).
  assert (Hbl : zlen bytes = to_i32 v).
  { unfold bytes. rewrite zlen_ztake; [done|]. rewrite zlen_zdrop by lia. lia. }
  destruct (arena_copy_good s bytes) as (arena & -> & Hwf1 & He1 & _); [done|lia|].
  cbn [mbind option_bind]. rewrite Hbl in Hwf1, He1.
  set (s1 := set_row_arena_used _ _) in *.
  destruct (set_cell_wf (row_arena_used s1) row i (Some (row_arena_used s)) (to_i32 v))
    as (r1 & -> & Hr1).
  { eapply row_wf_mono; [|done]. by destruct He1. }
  { lia. }
  { cbn. destruct Hwf. lia. }
  cbn [mbind option_bind].
  destruct (IH (i + 1) (off + 4 + to_i32 v) r1 s1) as (r2 & s2 & i2 & -> & ? & ? & ? & ?);
    [done|done|lia|lia|lia|done|].
  exists r2, s2, i2. split_and!; try done; try lia.
  eapply session_ext_trans; [destruct Hwf; lia|done|done].
Qed.

Lemma parse_data_row_good s body :
  session_wf s → zlen body < 2 ^ 64 → good s (parse_data_row s body).
Proof.
  intros Hwf Hb. unfold parse_data_row.
  destruct (Z.ltb_spec (zlen body) 2); [by apply good_Some|].
  destruct (rd16_be_defined body 0) as (n & -> & Hr); [lia..|]. cbn [mbind option_bind].
  pose proof (clamp_bound n PQWIRE_MAX_ROW_COLUMNS) as Hc. unfold PQWIRE_MAX_ROW_COLUMNS in *.
  destruct (cells_loop_good (Z.to_nat (clamp n 16)) 0 2 zero_data_row s body)
    as (row & s1 & i & -> & Hwf1 & He & Hrow & _); [done|done|lia..|apply zero_row_wf|].
  cbn [mbind option_bind]. eapply good_weaken; [done|done|].
  apply good_enqueue; [done|]. unfold event_in_arena. cbn. by destruct Hrow.
Qed.

(** ** Dispatch *)
Lemma handle_frontend_good base s type body :
  session_wf s → zlen body < 2 ^ 64 → good s (handle_frontend base s type body).
Proof.
  intros Hwf Hb. unfold handle_frontend.
  repeat (match goal with |- good _ (if ?b then _ else _) => destruct b end);
    try (apply good_enqueue; [done|no_row]); try (by apply good_Some).
  - by apply parse_query_msg_good.
  - apply good_on_val; [done|by apply parse_fields_defined|].
    intros p _. apply good_enqueue; [done|no_row].
  - apply good_on_val; [done|by apply bind_fields_defined|].
    intros p _. apply good_enqueue; [done|no_row].
  - apply good_on_val; [done|by apply target_name_defined|].
    intros [t nm] _. apply good_enqueue; [done|no_row].
  - apply good_on_val; [done|by apply execute_fields_defined|].
    intros p _. apply good_enqueue; [done|no_row].
  - apply good_on_val; [done|by apply target_name_defined|].
    intros [t nm] _. apply good_enqueue; [done|no_row].
Qed.

Lemma handle_backend_good base s type body :
  session_wf s → zlen body < 2 ^ 64 → good s (handle_backend base s type body).
Proof.
  intros Hwf Hb. unfold handle_backend.
  destruct (type =? chr "R").
  { destruct (Z.leb_spec 4 (zlen body)); [|by apply good_Some].
    destruct (rd32_be_defined body 0) as [v ->]; [lia..|]. cbn [mbind option_bind].
    destruct (v =? 0); [|by apply good_Some].
    apply good_bind; [done|apply good_enqueue; [done|no_row]|].
    intros s3 Hwf3 _. apply good_same; auto with session. }
  destruct (type =? chr "Z").
  { apply good_bind; [done|apply good_enqueue; [done|no_row]|].
    intros s3 Hwf3 _. apply good_same; auto with session. }
  repeat (match goal with |- good _ (if ?b then _ else _) => destruct b end);
    try (apply good_enqueue; [done|no_row]); try (by apply good_Some).
  - by apply parse_row_description_good.
  - by apply parse_data_row_good.
  - by apply parse_command_complete_good.
  - unfold parse_error_response. destruct (parse_error_fields_defined body Hb) as [e ->].
    cbn [mbind option_bind]. apply good_enqueue; [done|no_row].
  - apply good_on_val; [done|by apply notification_fields_defined|].
    intros p _. apply good_enqueue; [done|no_row].
Qed.

Lemma handle_message_good base s type body :
  session_wf s → zlen body < 2 ^ 64 → good s (handle_message base s type body).
Proof.
  intros Hwf Hb. unfold handle_message. destruct (bool_decide _).
  - by apply handle_frontend_good.
  - by apply handle_backend_good.
Qed.
