(* ===== verification/Feed.v ===== *)
(** * Feed: input buffering and framing, output draining, event delivery

    [pqwire_feed_input], [pqwire_get_output] and [pqwire_next_event] of src/src/pqwire.c.
    The framing loop is [feed_loop] over [feed_step], one iteration of the [for (;;)]; its
    fuel is one more than the buffered length, which [FeedSpec] shows is enough for inputs
    below 4 GiB. *)
From S2P Require Import Prelude Wire Ring Events Ctx Parse.

(** The buffered input. *)
Definition pending (c : pqwire_ctx) : list Z := ztake (input_len c) (input_mem c).

(** [memmove(buf, buf + from, n)]: bytes above [n] keep their old values. *)
Definition memmove_down (mem : list Z) (from n : Z) : option (list Z) :=
  d ← mem_read mem from n;
  mem_write mem 0 d.

Inductive step_result :=
| Break (c : pqwire_ctx)
| Continue (c : pqwire_ctx).

(** The context after an iteration: a new session, buffer contents and buffered length. *)
Definition with_input (c : pqwire_ctx) (s : session) (mem : list Z) (len : Z) : pqwire_ctx :=
  set_input mem len (input_cap c) (input_gen c) (allocs c) (set_sess s c).

Definition protocol_error (s : session) : option session :=
  enqueue_event s (plain_event PQ_EVENT_PROTOCOL_ERROR).

(** A StartupMessage is due: no type byte. *)
Definition startup_step (c : pqwire_ctx) : option step_result :=
  if input_len c <? 4 then Some (Break c) else
  mlen ← rd32_be (input_mem c) 0;
  if (mlen <? 8) || (max_message_size c <? mlen) then
    s ← protocol_error (sess c);
    Some (Break (with_input c s (input_mem c) 0))
  else if input_len c <? mlen then Some (Break c)
  else
    body ← mem_read (input_mem c) 4 (mlen - 4);
    s ← parse_startup_body (sess c) body;
    mem ← memmove_down (input_mem c) mlen (input_len c - mlen);
    Some (Continue (with_input c s mem (input_len c - mlen))).

(** A typed message is due.  [1 + mlen] in the resynchronising branch is a [uint32_t]. *)
Definition message_step (c : pqwire_ctx) : option step_result :=
  if input_len c <? 5 then Some (Break c) else
  type ← zget (input_mem c) 0;
  mlen ← rd32_be (input_mem c) 1;
  if (mlen <? 4) || (max_message_size c <? mlen) then
    s ← protocol_error (sess c);
    if (0 <? mlen) && (mlen + 1 <=? input_len c) then
      mem ← memmove_down (input_mem c) (1 + mlen) (input_len c - 1 - mlen);
      Some (Continue (with_input c s mem (input_len c - to_u32 (1 + mlen))))
    else Some (Continue (with_input c s (input_mem c) 0))
  else
    let total := 1 + mlen in
    if input_len c <? total then Some (Break c)
    else
      body ← mem_read (input_mem c) 5 (mlen - 4);
      s ← handle_message (mk_in_ptr (input_gen c) 5) (sess c) type body;
      mem ← memmove_down (input_mem c) total (input_len c - total);
      Some (Continue (with_input c s mem (input_len c - total))).

(** Server that has not seen StartupMessage. *)
Definition expects_startup (s : session) : bool :=
  bool_decide (role s = PQWIRE_ROLE_SERVER) && negb (startup_seen s).

Definition feed_step (c : pqwire_ctx) : option step_result :=
  if expects_startup (sess c) then startup_step c else message_step c.

Fixpoint feed_loop (fuel : nat) (c : pqwire_ctx) : option pqwire_ctx :=
  match fuel with
  | O => None
  | S fuel' =>
      r ← feed_step c;
      match r with
      | Break c => Some c
      | Continue c => feed_loop fuel' c
      end
  end.

(** The buffer growth and copy at the head of [pqwire_feed_input]; [None] inside for a
    failed [realloc], with the context that request leaves. *)
Definition grow_input (c : pqwire_ctx) (len : Z) : bool * pqwire_ctx :=
  if input_cap c <? input_len c + len then
    let '(ok, al) := alloc_next (allocs c) in
    if ok
    then (true, set_input (input_mem c) (input_len c) (input_len c + len + 1024)
                  (S (input_gen c)) al c)
    else (false, set_input (input_mem c) (input_len c) (input_cap c) (input_gen c) al c)
  else (true, c).

Definition copy_input (c : pqwire_ctx) (data : list Z) : option pqwire_ctx :=
  let len := zlen data in
  if input_len c + len <=? input_cap c then
    Some (set_input (ztake (input_len c) (input_mem c) ++ data
                       ++ zdrop (input_len c + len) (input_mem c))
            (input_len c + len) (input_cap c) (input_gen c) (allocs c) c)
  else None.

Definition pqwire_feed_input (ctx : option pqwire_ctx) (data : option (list Z)) :
    option (Z * option pqwire_ctx) :=
  guard_ctx 0 ctx (λ c,
    match data with
    | None => Some (0, c)
    | Some data =>
        let '(ok, c) := grow_input c (zlen data) in
        if negb ok then Some (0, c) else
        c ← copy_input c data;
        c ← feed_loop (S (Z.to_nat (input_len c))) c;
        Some (zlen data, c)
    end).

(** [pqwire_get_output(ctx, buf, max_len)]: the bytes copied to [buf] (their number is the
    result) and the context.  It does not check [magic]. *)
Definition pqwire_get_output (ctx : option pqwire_ctx) (buf_null : bool) (max_len : Z) :
    list Z * option pqwire_ctx :=
  match ctx with
  | None => ([], None)
  | Some c =>
      if buf_null || (max_len =? 0) then ([], Some c) else
      let to_copy := if output_len c <? max_len then output_len c else max_len in
      (ztake to_copy (output_buf c),
       Some (set_output (zdrop to_copy (output_buf c)) (output_cap c) (allocs c) c))
  end.

(** [pqwire_next_event(ctx, event)]: [Some ev] for the result 1 with [*event = ev]. *)
Definition pqwire_next_event (ctx : option pqwire_ctx) (event_null : bool) :
    option (option protocol_event_t * option pqwire_ctx) :=
  guard_ctx None ctx (λ c,
    if event_null then Some (None, c) else
    '(ev, s) ← dequeue_event (sess c);
    Some (ev, set_sess s c)).

(** ** Reading what an event points to *)

(** Through a pointer into the input buffer: defined only if the buffer has not been
    reallocated since, and then the buffer's present contents. *)
Definition read_in_ptr (c : pqwire_ctx) (p : in_ptr) (n : Z) : option (list Z) :=
  if bool_decide (ip_gen p = input_gen c) then mem_read (input_mem c) (ip_off p) n else None.

Definition read_param (c : pqwire_ctx) (v : pq_bind_param_view_t) : option (list Z) :=
  p ← pv_data v; read_in_ptr c p (pv_length v).

Definition read_ctx_ptr (s : session) (p : ctx_ptr) : list Z :=
  match p with
  | user_scratch_ptr => cstr_of (user_scratch s)
  | db_scratch_ptr => cstr_of (db_scratch s)
  | sql_scratch_ptr => cstr_of (sql_scratch s)
  | tag_scratch_ptr => cstr_of (tag_scratch s)
  | col_scratch_ptr => []
  end.

(** The bytes of a DataRow column ([None] for a NULL data pointer). *)
Definition read_cell (s : session) (row : pq_data_row_t) (i : Z) : option (list Z) :=
  d ← zget (dr_data row) i;
  n ← zget (dr_len row) i;
  off ← d;
  mem_read (row_arena s) off n.
