(* ===== verification/FeedSpec.v ===== *)
(** * FeedSpec: the framing loop refines a pure deframer

    [next_item] and [deframe] describe what the wire format says about a byte string: the
    items (startup bodies, typed messages, malformed headers) at its front and the
    incomplete rest.  [pqwire_feed_input] refines that description: it stops within its fuel, stays inside
    its buffers for every input, hands exactly the deframed items to the parsers, in order,
    and keeps exactly the rest.  From the refinement follow, in [FeedThms], the independence
    from how the stream is cut into calls and the stability of queued DataRow bytes. *)
From S2P Require Import Prelude Wire Ring Events Ctx Parse ParseSafe Feed.

(** ** Specification *)
Inductive item :=
| I_startup (body : list Z)
| I_msg (type : Z) (body : list Z)
| I_error.

(** The first item of [buf], whether a StartupMessage is due after it, and what follows it. *)
Definition next_item (max : Z) (st : bool) (buf : list Z) : option (item * bool * list Z) :=
  if st then
    match buf with
    | b0 :: b1 :: b2 :: b3 :: tl =>
        let mlen := be32 b0 b1 b2 b3 in
        if (mlen <? 8) || (max <? mlen) then Some (I_error, true, [])
        else if zlen tl <? mlen - 4 then None
        else Some (I_startup (ztake (mlen - 4) tl), false, zdrop (mlen - 4) tl)
    | _ => None
    end
  else
    match buf with
    | t :: b0 :: b1 :: b2 :: b3 :: tl =>
        let mlen := be32 b0 b1 b2 b3 in
        if (mlen <? 4) || (max <? mlen)
        then Some (I_error, false,
               if (0 <? mlen) && (mlen + 1 <=? zlen buf) then zdrop (1 + mlen) buf else [])
        else if zlen tl <? mlen - 4 then None
        else Some (I_msg t (ztake (mlen - 4) tl), false, zdrop (mlen - 4) tl)
    | _ => None
    end.

Fixpoint deframe_fuel (fuel : nat) (max : Z) (st : bool) (buf : list Z) :
    list item * bool * list Z :=
  match fuel with
  | O => ([], st, buf)
  | S fuel' =>
      match next_item max st buf with
      | None => ([], st, buf)
      | Some (it, st', rest) =>
          let '(its, st2, rest2) := deframe_fuel fuel' max st' rest in
          (it :: its, st2, rest2)
      end
  end.

(** Every item consumes at least a byte ([next_item_shorter]), so this is all of them. *)
Definition deframe (max : Z) (st : bool) (buf : list Z) : list item * bool * list Z :=
  deframe_fuel (S (length buf)) max st buf.

(** What an item does to a session; [gen] is the input buffer's current allocation. *)
Definition apply_item (gen : nat) (s : session) (it : item) : option session :=
  match it with
  | I_startup body => parse_startup_body s body
  | I_msg type body => handle_message (mk_in_ptr gen 5) s type body
  | I_error => protocol_error s
  end.

Fixpoint apply_items (gen : nat) (s : session) (its : list item) : option session :=
  match its with
  | [] => Some s
  | it :: its => s ← apply_item gen s it; apply_items gen s its
  end.

(** The bytes of an item on the wire. *)
Definition item_bytes (it : item) : list Z :=
  match it with
  | I_startup body => wr32_be (zlen body + 4) ++ body
  | I_msg t body => frame t body
  | I_error => []
  end.

Definition is_error (it : item) : bool := match it with I_error => true | _ => false end.
Definition no_errors (its : list item) : Prop := Forall (λ it, is_error it = false) its.

(** ** The deframer *)
Lemma next_item_shorter max st buf it st' rest :
  next_item max st buf = Some (it, st', rest) → (length rest < length buf)%nat.
Proof.
  unfold next_item. destruct st.
  - destruct buf as [|b0 [|b1 [|b2 [|b3 tl]]]]; try done. cbn zeta.
    repeat case_match; intros; simplify_eq; unfold zdrop; simpl; rewrite ?length_drop; lia.
  - destruct buf as [|t [|b0 [|b1 [|b2 [|b3 tl]]]]]; try done. cbn zeta.
    repeat case_match; intros; simplify_eq; zbool; unfold zdrop;
      rewrite ?length_drop; simpl; try lia.
Qed.

Lemma deframe_fuel_enough f1 f2 max st buf :
  (length buf < f1)%nat → (length buf < f2)%nat →
  deframe_fuel f1 max st buf = deframe_fuel f2 max st buf.
Proof.
  revert f2 st buf. induction f1 as [|f1 IH]; intros f2 st buf H1 H2; [lia|].
  destruct f2 as [|f2]; [lia|]. cbn [deframe_fuel].
  destruct (next_item max st buf) as [[[it st'] rest]|] eqn:E; [|done].
  apply next_item_shorter in E. by rewrite (IH f2) by lia.
Qed.

(** The deframer's equation. *)
Lemma deframe_eq max st buf :
  deframe max st buf =
  match next_item max st buf with
  | None => ([], st, buf)
  | Some (it, st', rest) =>
      let '(its, st2, rest2) := deframe max st' rest in (it :: its, st2, rest2)
  end.
Proof.
  unfold deframe. cbn [deframe_fuel].
  destruct (next_item max st buf) as [[[it st'] rest]|] eqn:E; [|done].
  apply next_item_shorter in E.
  by rewrite (deframe_fuel_enough (length buf) (S (length rest))) by lia.
Qed.

(** Induction on the items. *)
Lemma deframe_ind (max : Z) (P : bool → list Z → list item * bool * list Z → Prop) :
  (∀ st buf, next_item max st buf = None → P st buf ([], st, buf)) →
  (∀ st buf it st' rest its st2 rest2,
     next_item max st buf = Some (it, st', rest) →
     deframe max st' rest = (its, st2, rest2) → P st' rest (its, st2, rest2) →
     P st buf (it :: its, st2, rest2)) →
  ∀ st buf, P st buf (deframe max st buf).
Proof.
  intros Hn Hc st buf. remember (length buf) as n eqn:Hl. revert st buf Hl.
  induction n as [n IH] using lt_wf_ind. intros st buf ->. rewrite deframe_eq.
  destruct (next_item max st buf) as [[[it st'] rest]|] eqn:E; [|by apply Hn].
  pose proof (next_item_shorter _ _ _ _ _ _ E) as Hs.
  specialize (IH _ Hs st' rest eq_refl).
  destruct (deframe max st' rest) as [[its st2] rest2] eqn:Ed. by eapply Hc.
Qed.

Lemma wr32_be_be32 b0 b1 b2 b3 :
  byte_ok b0 → byte_ok b1 → byte_ok b2 → byte_ok b3 →
  wr32_be (be32 b0 b1 b2 b3) = [b0; b1; b2; b3].
Proof.
  unfold byte_ok. intros H0 H1 H2 H3. unfold wr32_be, be32. rewrite !land_255, !Z.shiftr_div_pow2 by lia.
  repeat f_equal; Z.div_mod_to_equations; lia.
Qed.

Lemma zlen_ztake_all {A} n (l : list A) : 0 ≤ n → n ≤ zlen l → zlen (ztake n l) = n.
Proof. intros. apply zlen_ztake. lia. Qed.

(** A well-formed item is the bytes it was read from. *)
Lemma next_item_bytes max st buf it st' rest :
  bytes_ok buf → next_item max st buf = Some (it, st', rest) → is_error it = false →
  buf = item_bytes it ++ rest.
Proof.
  intros Hb. unfold next_item. destruct st.
  - destruct buf as [|b0 [|b1 [|b2 [|b3 tl]]]]; try done. cbn zeta.
    unfold bytes_ok in Hb. rewrite !Forall_cons_iff in Hb. destruct Hb as (H0 & H1 & H2 & H3 & Ht).
    pose proof (be32_range b0 b1 b2 b3 H0 H1 H2 H3).
    destruct (_ || _) eqn:E; [by intros; simplify_eq|]. zbool.
    destruct (Z.ltb_spec (zlen tl) (be32 b0 b1 b2 b3 - 4)); [done|]. intros; simplify_eq.
    cbn [item_bytes]. rewrite zlen_ztake by lia.
    replace (be32 b0 b1 b2 b3 - 4 + 4) with (be32 b0 b1 b2 b3) by lia.
    rewrite wr32_be_be32 by done. cbn [app].
    by rewrite ztake_zdrop.
  - destruct buf as [|t [|b0 [|b1 [|b2 [|b3 tl]]]]]; try done. cbn zeta.
    unfold bytes_ok in Hb. rewrite !Forall_cons_iff in Hb. destruct Hb as (_ & H0 & H1 & H2 & H3 & Ht).
    pose proof (be32_range b0 b1 b2 b3 H0 H1 H2 H3).
    destruct ((_ <? 4) || _) eqn:E; [by intros; simplify_eq|]. zbool.
    destruct (Z.ltb_spec (zlen tl) (be32 b0 b1 b2 b3 - 4)); [done|]. intros; simplify_eq.
    cbn [item_bytes]. unfold frame. rewrite zlen_ztake by lia.
    replace (be32 b0 b1 b2 b3 - 4 + 4) with (be32 b0 b1 b2 b3) by lia.
    rewrite to_u32_small, wr32_be_be32 by done. cbn [app].
    by rewrite ztake_zdrop.
Qed.

Lemma next_item_rest_ok max st buf it st' rest :
  bytes_ok buf → next_item max st buf = Some (it, st', rest) → bytes_ok rest.
Proof.
  intros Hb. unfold next_item. destruct st.
  - destruct buf as [|b0 [|b1 [|b2 [|b3 tl]]]]; try done. cbn zeta.
    unfold bytes_ok in *. rewrite !Forall_cons_iff in Hb. destruct Hb as (_ & _ & _ & _ & Ht).
    repeat case_match; intros; simplify_eq; try constructor; by apply Forall_drop.
  - destruct buf as [|t [|b0 [|b1 [|b2 [|b3 tl]]]]]; try done. cbn zeta.
    unfold bytes_ok in *. pose proof Hb as Hb'.
    rewrite !Forall_cons_iff in Hb'. destruct Hb' as (_ & _ & _ & _ & _ & Ht).
    repeat case_match; intros; simplify_eq; try constructor; by apply Forall_drop.
Qed.

(** More input does not change a complete well-formed item, nor turn a well-formed prefix
    malformed. *)
Lemma next_item_app max st buf more it st' rest :
  next_item max st buf = Some (it, st', rest) → is_error it = false →
  next_item max st (buf ++ more) = Some (it, st', rest ++ more).
Proof.
  unfold next_item. destruct st.
  - destruct buf as [|b0 [|b1 [|b2 [|b3 tl]]]]; try done. cbn [app]. cbn zeta.
    destruct (_ || _) eqn:E; [by intros; simplify_eq|]. zbool.
    destruct (Z.ltb_spec (zlen tl) (be32 b0 b1 b2 b3 - 4)); [done|]. intros; simplify_eq.
    pose proof (zlen_nonneg more). rewrite zlen_app. rewrite (proj2 (Z.ltb_ge _ _)) by lia.
    by rewrite ztake_app_le, zdrop_app_le by lia.
  - destruct buf as [|t [|b0 [|b1 [|b2 [|b3 tl]]]]]; try done. cbn [app]. cbn zeta.
    destruct ((_ <? 4) || _) eqn:E; [by intros; simplify_eq|]. zbool.
    destruct (Z.ltb_spec (zlen tl) (be32 b0 b1 b2 b3 - 4)); [done|]. intros; simplify_eq.
    pose proof (zlen_nonneg more). rewrite zlen_app. rewrite (proj2 (Z.ltb_ge _ _)) by lia.
    by rewrite ztake_app_le, zdrop_app_le by lia.
Qed.

Lemma deframe_app max st buf more :
  let '(its, st1, rest) := deframe max st buf in
  no_errors its →
  deframe max st (buf ++ more) =
    let '(its', st2, rest') := deframe max st1 (rest ++ more) in (its ++ its', st2, rest').
Proof.
  apply (deframe_ind max (λ st buf '(its, st1, rest), no_errors its →
    deframe max st (buf ++ more) =
      let '(its', st2, rest') := deframe max st1 (rest ++ more) in (its ++ its', st2, rest'))).
  - intros ????. by destruct (deframe _ _ _) as [[??]?].
  - intros st0 buf0 it st' rest its st2 rest2 Hn _ IH Hne. apply Forall_cons_iff in Hne as [Hi Hne].
    rewrite (deframe_eq max st0). rewrite (next_item_app _ _ _ more _ _ _ Hn Hi), (IH Hne).
    by destruct (deframe max st2 _) as [[??]?].
Qed.

(** ** One iteration of the loop *)
Lemma Forall_ztake {A} (P : A → Prop) n l : Forall P l → Forall P (ztake n l).
Proof. apply Forall_take. Qed.
Lemma Forall_zdrop {A} (P : A → Prop) n l : Forall P l → Forall P (zdrop n l).
Proof. apply Forall_drop. Qed.
Lemma ztake_zdrop_comm {A} n from (l : list A) :
  0 ≤ n → 0 ≤ from → ztake n (zdrop from l) = zdrop from (ztake (from + n) l).
Proof.
  intros. unfold ztake, zdrop.
  replace (Z.to_nat (from + n)) with (Z.to_nat from + Z.to_nat n)%nat by lia.
  by rewrite take_drop_commute.
Qed.

Lemma memmove_down_spec mem from n :
  0 ≤ from → 0 ≤ n → from + n ≤ zlen mem →
  ∃ mem', memmove_down mem from n = Some mem' ∧ zlen mem' = zlen mem ∧
    ztake n mem' = zdrop from (ztake (from + n) mem) ∧ (bytes_ok mem → bytes_ok mem').
Proof.
  intros Hf Hn Hl. unfold memmove_down. rewrite mem_read_Some by lia. cbn [mbind option_bind].
  assert (Hz : zlen (ztake n (zdrop from mem)) = n)
    by (rewrite zlen_ztake; [done|rewrite zlen_zdrop by lia; lia]).
  rewrite mem_write_Some by lia. rewrite ztake_0, Hz. cbn [app].
  eexists. split; [done|]. split_and!.
  - rewrite zlen_app, Hz, zlen_zdrop by lia. lia.
  - rewrite ztake_app by done. by apply ztake_zdrop_comm.
  - intros Hb. apply bytes_ok_app. split; [by apply Forall_ztake, Forall_zdrop|by apply Forall_zdrop].
Qed.

Lemma pending_split c :
  ctx_wf c → ∃ junk, input_mem c = pending c ++ junk ∧ zlen (pending c) = input_len c.
Proof.
  intros []. exists (zdrop (input_len c) (input_mem c)). unfold pending.
  by rewrite ztake_zdrop, zlen_ztake by lia.
Qed.

Lemma pending_ok c : ctx_wf c → bytes_ok (pending c).
Proof. intros []. by apply Forall_ztake. Qed.

Lemma rd32_be_at pre b0 b1 b2 b3 tl off :
  byte_ok b0 → byte_ok b1 → byte_ok b2 → byte_ok b3 → off = zlen pre →
  rd32_be (pre ++ b0 :: b1 :: b2 :: b3 :: tl) off = Some (be32 b0 b1 b2 b3).
Proof.
  intros H0 H1 H2 H3 ->. pose proof (zlen_nonneg pre).
  rewrite rd32_be_zdrop, zdrop_app by lia. apply rd32_be_val.
  unfold bytes_ok. rewrite !Forall_cons_iff. auto.
Qed.

(** The context after an item was handled. *)
Lemma with_input_wf c s mem len :
  ctx_wf c → session_wf s → zlen mem = zlen (input_mem c) → bytes_ok mem →
  0 ≤ len ≤ zlen mem → ctx_wf (with_input c s mem len).
Proof. intros [] Hs Hm Hb Hl. split; cbn; try done; lia. Qed.

Lemma parse_startup_body_seen s body s' :
  parse_startup_body s body = Some s' → startup_seen s' = true.
Proof.
  unfold parse_startup_body.
  destruct (zset (user_scratch s) 0 0); cbn [mbind option_bind]; [|done].
  destruct (zset (db_scratch s) 0 0); cbn [mbind option_bind]; [|done].
  destruct (startup_loop _ _ _ _); cbn [mbind option_bind]; [|done].
  destruct (enqueue_event _ _); cbn [mbind option_bind]; [|done].
  case_bool_decide; by intros [= <-].
Qed.

Lemma protocol_error_good s : session_wf s → good s (protocol_error s).
Proof. intros. by apply good_enqueue. Qed.

Lemma protocol_error_expects s s' :
  protocol_error s = Some s' → expects_startup s' = expects_startup s.
Proof.
  unfold protocol_error, enqueue_event. destruct (q_enqueue _ _); [|done].
  by intros [= <-].
Qed.

Lemma expects_startup_ext s s' :
  session_ext s s' → expects_startup s = false → expects_startup s' = false.
Proof.
  intros [Hr _ _ _ Hs]. unfold expects_startup. rewrite Hr.
  case_bool_decide; [|done]. cbn. rewrite !negb_false_iff. auto.
Qed.

(** What an iteration that completes an item does. *)
Definition step_spec (c : pqwire_ctx) (it : item) (st' : bool) (rest : list Z)
    (r : option step_result) : Prop :=
  ∃ s' mem', apply_item (input_gen c) (sess c) it = Some s' ∧
    session_ext (sess c) s' ∧ expects_startup s' = st' ∧
    let c' := with_input c s' mem' (zlen rest) in
    ctx_wf c' ∧ pending c' = rest ∧ (rest = [] → mem' = input_mem c) ∧
    (r = Some (Continue c') ∨ (r = Some (Break c') ∧ rest = [])).

Lemma pending_with_input c s mem len : pending (with_input c s mem len) = ztake len mem.
Proof. done. Qed.

Lemma memmove_down_nothing mem from :
  0 ≤ from ≤ zlen mem → memmove_down mem from 0 = Some mem.
Proof.
  intros Hf. unfold memmove_down. rewrite mem_read_Some by lia. cbn [mbind option_bind].
  change (ztake 0 (zdrop from mem)) with (@nil Z).
  rewrite mem_write_Some by (change (zlen (@nil Z)) with 0; lia). done.
Qed.

(** Dropping the first [n] buffered bytes. *)
Lemma drop_input_spec c s n :
  ctx_wf c → session_wf s → 0 ≤ n ≤ input_len c →
  ∃ mem, memmove_down (input_mem c) n (input_len c - n) = Some mem ∧
    let c' := with_input c s mem (zlen (zdrop n (pending c))) in
    c' = with_input c s mem (input_len c - n) ∧
    ctx_wf c' ∧ pending c' = zdrop n (pending c) ∧ (zdrop n (pending c) = [] → mem = input_mem c).
Proof.
  intros Hwf Hs Hn. pose proof Hwf as [].
  destruct (memmove_down_spec (input_mem c) n (input_len c - n)) as (mem & Hmm & Hz & Ht & Hb);
    [lia..|]. exists mem. split; [done|].
  replace (n + (input_len c - n)) with (input_len c) in Ht by lia. fold (pending c) in Ht.
  assert (Hp : zlen (zdrop n (pending c)) = input_len c - n).
  { unfold pending. rewrite zlen_zdrop; rewrite zlen_ztake by lia; lia. }
  cbn zeta. rewrite Hp. split_and!; [done| |done|].
  - apply with_input_wf; auto; lia.
  - intros E. rewrite E, zlen_nil in Hp. rewrite <- Hp, memmove_down_nothing in Hmm by lia.
    by apply (inj Some) in Hmm.
Qed.

Lemma startup_step_spec c :
  ctx_wf c → expects_startup (sess c) = true → input_len c < 2 ^ 32 →
  match next_item (max_message_size c) true (pending c) with
  | None => startup_step c = Some (Break c)
  | Some (it, st', rest) => step_spec c it st' rest (startup_step c)
  end.
Proof.
  intros Hwf Hst Hl. pose proof Hwf as [].
  destruct (pending_split c Hwf) as (junk & Hm & Hz). pose proof (pending_ok c Hwf) as Hb.
  unfold startup_step.
  destruct (pending c) as [|b0 [|b1 [|b2 [|b3 tl]]]] eqn:Hp; cbn [next_item];
    try (rewrite (proj2 (Z.ltb_lt _ _)) by zlia; done).
  destruct (Z.ltb_spec (input_len c) 4); [exfalso; zlia|]. cbn zeta.
  unfold bytes_ok in Hb. rewrite !Forall_cons_iff in Hb. destruct Hb as (B0 & B1 & B2 & B3 & Bt).
  pose proof (be32_range b0 b1 b2 b3 B0 B1 B2 B3) as Hr.
  assert (Hrd : rd32_be (input_mem c) 0 = Some (be32 b0 b1 b2 b3))
    by (rewrite Hm; by apply (rd32_be_at [])).
  rewrite Hrd. cbn [mbind option_bind].
  set (mlen := be32 b0 b1 b2 b3) in *.
  destruct ((mlen <? 8) || (max_message_size c <? mlen)) eqn:Hbad.
  { destruct (protocol_error_good (sess c)) as (s' & Hs & Hwfs & He); [done|]. rewrite Hs.
    exists s', (input_mem c). cbn zeta. split_and!; try done.
    - by rewrite (protocol_error_expects _ _ Hs).
    - apply with_input_wf; try done. zlia.
    - by right. }
  zbool. replace (zlen tl <? mlen - 4) with (input_len c <? mlen)
    by (apply Bool.eq_iff_eq_true; rewrite !Z.ltb_lt; zlia).
  destruct (Z.ltb_spec (input_len c) mlen) as [|Hge]; [done|].
  assert (Hbody : mem_read (input_mem c) 4 (mlen - 4) = Some (ztake (mlen - 4) tl)).
  { rewrite Hm.
    rewrite mem_read_Some by zlia.
    change (zdrop 4 ((b0 :: b1 :: b2 :: b3 :: tl) ++ junk)) with (tl ++ junk).
    f_equal. apply ztake_app_le. zlia. }
  rewrite Hbody. cbn [mbind option_bind].
  destruct (parse_startup_body_good (sess c) (ztake (mlen - 4) tl)) as (s' & Hs & Hwfs & He);
    [done|rewrite zlen_ztake by zlia; lia|]. rewrite Hs. cbn [mbind option_bind].
  destruct (drop_input_spec c s' mlen) as (mem & Hmm & Hc & Hwf' & Hp' & Hnil); [done|done|zlia|].
  rewrite Hmm. cbn [mbind option_bind].
  assert (Hrest : zdrop (mlen - 4) tl = zdrop mlen (pending c)).
  { rewrite Hp. unfold zdrop. replace (Z.to_nat mlen) with (4 + Z.to_nat (mlen - 4))%nat by lia. done. }
  rewrite <- Hrest in *. rewrite <- Hc.
  exists s', mem. cbn zeta. split_and!; try done; [|by left].
  apply parse_startup_body_seen in Hs. unfold expects_startup. rewrite Hs.
  by case_bool_decide.
Qed.

Lemma message_step_spec c :
  ctx_wf c → expects_startup (sess c) = false → input_len c < 2 ^ 32 →
  match next_item (max_message_size c) false (pending c) with
  | None => message_step c = Some (Break c)
  | Some (it, st', rest) => step_spec c it st' rest (message_step c)
  end.
Proof.
  intros Hwf Hst Hl. pose proof Hwf as [].
  destruct (pending_split c Hwf) as (junk & Hm & Hz). pose proof (pending_ok c Hwf) as Hb.
  unfold message_step.
  destruct (pending c) as [|t [|b0 [|b1 [|b2 [|b3 tl]]]]] eqn:Hp; cbn [next_item];
    try (rewrite (proj2 (Z.ltb_lt _ _)) by zlia; done).
  destruct (Z.ltb_spec (input_len c) 5); [exfalso; zlia|]. cbn zeta.
  unfold bytes_ok in Hb. rewrite !Forall_cons_iff in Hb. destruct Hb as (_ & B0 & B1 & B2 & B3 & Bt).
  pose proof (be32_range b0 b1 b2 b3 B0 B1 B2 B3) as Hr.
  assert (Hty : zget (input_mem c) 0 = Some t) by by rewrite Hm.
  assert (Hrd : rd32_be (input_mem c) 1 = Some (be32 b0 b1 b2 b3))
    by (rewrite Hm; by apply (rd32_be_at [t])).
  rewrite Hty, Hrd. cbn [mbind option_bind].
  set (mlen := be32 b0 b1 b2 b3) in *.
  destruct ((mlen <? 4) || (max_message_size c <? mlen)) eqn:Hbad.
  { destruct (protocol_error_good (sess c)) as (s' & Hs & Hwfs & He); [done|]. rewrite Hs.
    cbn [mbind option_bind].
    pose proof (expects_startup_ext _ _ He Hst) as Hst'.
    rewrite Hz. destruct ((0 <? mlen) && (mlen + 1 <=? input_len c)) eqn:Hskip.
    - zbool. destruct (drop_input_spec c s' (1 + mlen)) as (mem & Hmm & Hc & Hwf' & Hp' & Hnil);
        [done|done|lia|].
      rewrite <- Z.sub_add_distr, Hmm. cbn [mbind option_bind].
      rewrite to_u32_small by lia. rewrite Hp in *. rewrite <- Hc.
      exists s', mem. cbn zeta. split_and!; try done. by left.
    - exists s', (input_mem c). cbn zeta. split_and!; try done; [|by left].
      apply with_input_wf; try done. zlia. }
  zbool. replace (zlen tl <? mlen - 4) with (input_len c <? 1 + mlen)
    by (apply Bool.eq_iff_eq_true; rewrite !Z.ltb_lt; zlia).
  destruct (Z.ltb_spec (input_len c) (1 + mlen)) as [|Hge]; [done|].
  assert (Hbody : mem_read (input_mem c) 5 (mlen - 4) = Some (ztake (mlen - 4) tl)).
  { rewrite Hm.
    rewrite mem_read_Some by zlia.
    change (zdrop 5 ((t :: b0 :: b1 :: b2 :: b3 :: tl) ++ junk)) with (tl ++ junk).
    f_equal. apply ztake_app_le. zlia. }
  rewrite Hbody. cbn [mbind option_bind].
  destruct (handle_message_good (mk_in_ptr (input_gen c) 5) (sess c) t (ztake (mlen - 4) tl))
    as (s' & Hs & Hwfs & He); [done|rewrite zlen_ztake by zlia; lia|].
  rewrite Hs. cbn [mbind option_bind].
  destruct (drop_input_spec c s' (1 + mlen)) as (mem & Hmm & Hc & Hwf' & Hp' & Hnil); [done|done|zlia|].
  rewrite Hmm. cbn [mbind option_bind].
  assert (Hrest : zdrop (mlen - 4) tl = zdrop (1 + mlen) (pending c)).
  { rewrite Hp. unfold zdrop.
    replace (Z.to_nat (1 + mlen)) with (5 + Z.to_nat (mlen - 4))%nat by lia. done. }
  rewrite <- Hrest in *. rewrite <- Hc.
  exists s', mem. cbn zeta. split_and!; try done; [|by left]. by eapply expects_startup_ext.
Qed.

Lemma feed_step_spec c :
  ctx_wf c → input_len c < 2 ^ 32 →
  match next_item (max_message_size c) (expects_startup (sess c)) (pending c) with
  | None => feed_step c = Some (Break c)
  | Some (it, st', rest) => step_spec c it st' rest (feed_step c)
  end.
Proof.
  intros Hwf Hl. unfold feed_step. destruct (expects_startup (sess c)) eqn:E.
  - by apply startup_step_spec.
  - by apply message_step_spec.
Qed.

(** ** The loop *)

(** What the loop does to a context: the items reach the session, the rest stays
    buffered, nothing but the session and the input buffer's contents changes. *)
Definition feeds (c c' : pqwire_ctx) (its : list item) (rest : list Z) : Prop :=
  apply_items (input_gen c) (sess c) its = Some (sess c') ∧ pending c' = rest ∧
  ctx_wf c' ∧ session_ext (sess c) (sess c') ∧
  c' = with_input c (sess c') (input_mem c') (input_len c').

Lemma feeds_refl c : ctx_wf c → feeds c c [] (pending c).
Proof. intros Hwf. unfold feeds. destruct c. split_and!; (done || apply session_ext_refl). Qed.

Lemma feeds_step c c' c2 it its rest s' :
  ctx_wf c → apply_item (input_gen c) (sess c) it = Some s' → session_ext (sess c) s' →
  c' = with_input c s' (input_mem c') (input_len c') → feeds c' c2 its rest →
  feeds c c2 (it :: its) rest.
Proof.
  intros Hwf Hi He Hc (Ha & Hp & Hw & He2 & Hc2).
  assert (sess c' = s') as Hs by by rewrite Hc. unfold feeds. cbn [apply_items]. rewrite Hi.
  cbn [mbind option_bind]. split_and!; try done.
  - replace (input_gen c) with (input_gen c') by by rewrite Hc. by rewrite <- Hs.
  - rewrite <- Hs in He. eapply session_ext_trans; [|done..].
    destruct Hwf as [_ [] _ _ _ _ _ _]. lia.
  - rewrite Hc2, Hc. done.
Qed.

Lemma feed_loop_spec fuel c :
  ctx_wf c → input_len c < 2 ^ 32 → (Z.to_nat (input_len c) < fuel)%nat →
  ∃ c', feed_loop fuel c = Some c' ∧
    let '(its, st', rest) := deframe_fuel fuel (max_message_size c) (expects_startup (sess c)) (pending c) in
    feeds c c' its rest ∧ expects_startup (sess c') = st'.
Proof.
  revert c. induction fuel as [|fuel IH]; intros c Hwf Hl Hf; [lia|].
  cbn [feed_loop deframe_fuel].
  pose proof (feed_step_spec c Hwf Hl) as Hstep.
  destruct (next_item _ _ _) as [[[it st'] rest]|] eqn:Hn.
  2:{ rewrite Hstep. exists c. split; [done|]. by split; [apply feeds_refl|]. }
  destruct Hstep as (s' & mem' & Hi & He & Hst & Hwf' & Hp & _ & Hr). rewrite <- Hst.
  set (c1 := with_input c s' mem' (zlen rest)) in *.
  pose proof (next_item_shorter _ _ _ _ _ _ Hn) as Hsh.
  assert (Hlp : Z.of_nat (length (pending c)) = input_len c).
  { unfold pending. change (zlen (ztake (input_len c) (input_mem c)) = input_len c).
    destruct Hwf. by rewrite zlen_ztake by lia. }
  assert (Hl1 : input_len c1 = Z.of_nat (length rest)) by done.
  destruct Hr as [-> | [-> ->]]; cbn [mbind option_bind].
  - destruct (IH c1) as (c2 & -> & H2); [done|lia|lia|]. exists c2. split; [done|].
    rewrite Hp in H2. change (max_message_size c1) with (max_message_size c) in H2.
    change (sess c1) with s' in H2.
    destruct (deframe_fuel _ _ _ _) as [[its2 st2] rest2]. destruct H2 as [H2 H2'].
    split; [|done]. by apply (feeds_step c c1 c2 it its2 rest2 s').
  - exists c1. split; [done|].
    assert (deframe_fuel fuel (max_message_size c) (expects_startup s') []
            = ([], expects_startup s', [])) as ->
      by (destruct fuel; [done|]; cbn; by destruct (expects_startup s')).
    split; [|done]. apply (feeds_step c c1 c1 it [] [] s'); [done..|]. rewrite <- Hp. by apply feeds_refl.
Qed.

(** ** [pqwire_feed_input] *)

(** Growing the buffer and copying the new bytes to its end. *)
Lemma grow_copy_spec c data :
  ctx_wf c → bytes_ok data →
  (∃ al, grow_input c (zlen data)
           = (false, set_input (input_mem c) (input_len c) (input_cap c) (input_gen c) al c)
         ∧ allocs c ≠ []) ∨
  ∃ c1 c2, grow_input c (zlen data) = (true, c1) ∧ copy_input c1 data = Some c2 ∧
    c2 = set_input (input_mem c2) (input_len c + zlen data) (input_cap c2) (input_gen c2)
           (allocs c2) c ∧
    ctx_wf c2 ∧ pending c2 = pending c ++ data ∧ input_len c2 = input_len c + zlen data ∧
    (input_len c + zlen data ≤ input_cap c → input_gen c2 = input_gen c) ∧
    (allocs c = [] → allocs c2 = []).
Proof.
  intros Hwf Hb. pose proof Hwf as []. pose proof (zlen_nonneg data).
  assert (Hcopy : ∀ cap gen al, zlen (input_mem c) ≤ cap → input_len c + zlen data ≤ cap →
    ∃ c2, copy_input (set_input (input_mem c) (input_len c) cap gen al c) data = Some c2 ∧
      c2 = set_input (input_mem c2) (input_len c + zlen data) cap gen al c ∧
      ctx_wf c2 ∧ pending c2 = pending c ++ data).
  { intros cap gen al Hm Hc. unfold copy_input. cbn [input_len input_cap set_input input_mem].
    rewrite (proj2 (Z.leb_le _ _)) by lia. eexists. split; [done|].
    assert (Hz : zlen (ztake (input_len c) (input_mem c)) = input_len c) by (by rewrite zlen_ztake by lia).
    split; [done|]. split.
    - assert (zlen (ztake (input_len c) (input_mem c) ++ data
                  ++ zdrop (input_len c + zlen data) (input_mem c)) ≤ cap ∧
              input_len c + zlen data ≤ zlen (ztake (input_len c) (input_mem c) ++ data
                  ++ zdrop (input_len c + zlen data) (input_mem c))) as [??].
      { rewrite !zlen_app, Hz.
        destruct (Z.le_gt_cases (input_len c + zlen data) (zlen (input_mem c))).
        - rewrite zlen_zdrop by lia. lia.
        - rewrite zdrop_all by lia. rewrite zlen_nil. lia. }
      split; cbn; try done; try lia.
      apply bytes_ok_app. split; [by apply Forall_ztake|]. apply bytes_ok_app.
      split; [done|by apply Forall_zdrop].
    - unfold pending. cbn [input_mem input_len set_input]. rewrite app_assoc.
      apply ztake_app. rewrite zlen_app. lia. }
  unfold grow_input. destruct (Z.ltb_spec (input_cap c) (input_len c + zlen data)).
  - destruct (alloc_next (allocs c)) as [ok al] eqn:Ha. destruct ok.
    + right. destruct (Hcopy (input_len c + zlen data + 1024) (S (input_gen c)) al)
        as (c2 & Hc & H2 & Hw & Hp); [lia|lia|].
      eexists _, c2. split; [done|]. split; [done|].
      rewrite H2 in Hw, Hp |- *. split_and!; try done; [lia|].
      intros Hn. rewrite Hn in Ha. cbn in Ha. by simplify_eq.
    + left. exists al. split; [done|]. intros Hn. rewrite Hn in Ha. done.
  - right. destruct (Hcopy (input_cap c) (input_gen c) (allocs c))
      as (c2 & Hc & H2 & Hw & Hp); [lia|lia|].
    exists c, c2. split; [done|]. split; [by destruct c|].
    rewrite H2 in Hw, Hp |- *. by split_and!.
Qed.

(** The whole call: either the allocation failed and nothing was taken, or everything was. *)
Lemma feed_input_spec c data :
  ctx_wf c → bytes_ok data → input_len c + zlen data < 2 ^ 32 →
  (∃ al, allocs c ≠ [] ∧ pqwire_feed_input (Some c) (Some data)
     = Some (0, Some (set_input (input_mem c) (input_len c) (input_cap c) (input_gen c) al c))) ∨
  ∃ c', pqwire_feed_input (Some c) (Some data) = Some (zlen data, Some c') ∧
    ctx_wf c' ∧ session_ext (sess c) (sess c') ∧
    (let '(its, st', rest) :=
       deframe (max_message_size c) (expects_startup (sess c)) (pending c ++ data) in
     apply_items (input_gen c') (sess c) its = Some (sess c') ∧ pending c' = rest ∧
     expects_startup (sess c') = st') ∧
    c' = set_sess (sess c') (set_input (input_mem c') (input_len c') (input_cap c') (input_gen c')
           (allocs c') c) ∧
    (input_len c + zlen data ≤ input_cap c → input_gen c' = input_gen c) ∧
    (allocs c = [] → allocs c' = []).
Proof.
  intros Hwf Hb Hl. unfold pqwire_feed_input. rewrite guard_ctx_valid by done.
  destruct (grow_copy_spec c data Hwf Hb)
    as [(al & -> & Hn) | (c1 & c2 & -> & Hc & Hc2 & Hwf2 & Hp2 & Hl2 & Hg & Ha)].
  { left. exists al. done. }
  right. cbn [negb]. rewrite Hc. cbn [mbind option_bind].
  destruct (feed_loop_spec (S (Z.to_nat (input_len c2))) c2) as (c3 & -> & H3); [done|lia|lia|].
  assert (Hlen : Z.to_nat (input_len c2) = length (pending c2)).
  { destruct (pending_split c2 Hwf2) as (_ & _ & Hz). unfold zlen in Hz. lia. }
  rewrite Hlen in H3. fold (deframe (max_message_size c2) (expects_startup (sess c2)) (pending c2)) in H3.
  rewrite Hp2 in H3.
  assert (Hs : sess c2 = sess c ∧ max_message_size c2 = max_message_size c)
    by (rewrite Hc2; done).
  destruct Hs as [Hs Hmx]. rewrite Hs, Hmx in H3.
  destruct (deframe _ _ _) as [[its st2] rest]. destruct H3 as [(H3 & Hp & Hw & He & Hc3) Hst].
  rewrite Hs in H3, He. cbn [mbind option_bind].
  exists c3. split; [done|]. split; [done|]. split; [done|]. 
  assert (Hf : input_gen c3 = input_gen c2 ∧ allocs c3 = allocs c2) by (rewrite Hc3; done).
  destruct Hf as [Hf1 Hf2]. rewrite Hf1, Hf2. split_and!; try done.
  rewrite Hc3, Hc2. done.
Qed.

(** ** One whole frame into an empty buffer *)

(** A receiver that can take the frame: nothing buffered, past startup, memory available. *)
Record receiver (r : pqwire_ctx) (payload : list Z) : Prop := {
  rc_wf : ctx_wf r;
  rc_allocs : allocs r = [];
  rc_pending : pending r = [];
  rc_ready : expects_startup (sess r) = false;
  rc_fits : zlen payload + 4 ≤ max_message_size r;
  rc_max : max_message_size r < 2 ^ 31;
}.

Lemma next_item_frame max t payload rest :
  byte_ok t → bytes_ok payload → zlen payload + 4 ≤ max → zlen payload + 4 < 2 ^ 32 →
  next_item max false (frame t payload ++ rest) = Some (I_msg t payload, false, rest).
Proof.
  intros Ht Hb Hm Hl. pose proof (zlen_nonneg payload). unfold frame.
  assert (Hw : ∃ b0 b1 b2 b3, wr32_be (to_u32 (zlen payload + 4)) = [b0; b1; b2; b3] ∧
    be32 b0 b1 b2 b3 = zlen payload + 4).
  { pose proof (rd32_be_wr32_be [] (to_u32 (zlen payload + 4)) [] 0 eq_refl) as Hr.
    pose proof (wr32_be_ok (to_u32 (zlen payload + 4))) as Hok. unfold wr32_be in *.
    eexists _, _, _, _. split; [done|]. cbn [app] in Hr. rewrite rd32_be_val in Hr by done.
    apply (inj Some) in Hr. rewrite Hr. rewrite !to_u32_small; [done|lia|]. 
    rewrite to_u32_small; lia. }
  destruct Hw as (b0 & b1 & b2 & b3 & -> & Hlen). cbn [app next_item]. cbn zeta. rewrite Hlen.
  rewrite (proj2 (Z.ltb_ge _ 4)), (proj2 (Z.ltb_ge max _)) by lia. cbn [orb].
  rewrite zlen_app. pose proof (zlen_nonneg rest). rewrite (proj2 (Z.ltb_ge _ _)) by lia.
  replace (zlen payload + 4 - 4) with (zlen payload) by lia.
  by rewrite ztake_app, zdrop_app by done.
Qed.

Lemma frame_ok t payload : byte_ok t → bytes_ok payload → bytes_ok (frame t payload).
Proof.
  intros Ht Hb. unfold frame, bytes_ok. rewrite Forall_cons_iff, Forall_app.
  split_and!; [done|apply wr32_be_ok|done].
Qed.

Lemma zlen_frame t payload : zlen (frame t payload) = zlen payload + 5.
Proof. unfold frame. zl. Qed.
#[export] Hint Rewrite zlen_frame : zlen.

Lemma feed_one_frame r t payload :
  receiver r payload → byte_ok t → bytes_ok payload →
  ∃ r', pqwire_feed_input (Some r) (Some (frame t payload)) = Some (zlen payload + 5, Some r') ∧
    handle_message (mk_in_ptr (input_gen r') 5) (sess r) t payload = Some (sess r') ∧
    ctx_wf r' ∧ pending r' = [] ∧
    ∃ junk, input_mem r' = frame t payload ++ junk.
Proof.
  intros [Hwf Hal Hp Hst Hfit Hmax] Ht Hb. pose proof (zlen_nonneg payload).
  assert (Hil : input_len r = 0).
  { destruct (pending_split r Hwf) as (_ & _ & <-). by rewrite Hp. }
  unfold pqwire_feed_input. rewrite guard_ctx_valid by done.
  destruct (grow_copy_spec r (frame t payload) Hwf) as
    [(al & _ & Hn) | (c1 & c2 & -> & Hc & Hc2 & Hwf2 & Hp2 & Hl2 & _ & _)];
    [by apply frame_ok|done|].
  rewrite Hp in Hp2. cbn [app] in Hp2. rewrite zlen_frame in *. cbn [negb].
  rewrite Hc. cbn [mbind option_bind].
  assert (Hs : sess c2 = sess r ∧ max_message_size c2 = max_message_size r) by (rewrite Hc2; done).
  destruct Hs as [Hs Hmx].
  pose proof (feed_step_spec c2 Hwf2 ltac:(lia)) as Hstep. rewrite Hs, Hst, Hp2, Hmx in Hstep.
  pose proof (next_item_frame (max_message_size r) t payload [] Ht Hb Hfit ltac:(lia)) as Hnf.
  rewrite app_nil_r in Hnf. rewrite Hnf in Hstep.
  destruct Hstep as (s' & mem' & Hi & _ & Hst' & Hwf' & Hp' & Hm & Hr).
  specialize (Hm eq_refl). rewrite Hs in Hi. set (c3 := with_input c2 s' mem' (zlen [])) in *.
  assert (Hloop : feed_loop (S (Z.to_nat (input_len c2))) c2 = Some c3).
  { replace (Z.to_nat (input_len c2)) with (S (Z.to_nat (zlen payload + 4))) by lia.
    cbn [feed_loop]. destruct Hr as [-> | [-> _]]; cbn [mbind option_bind]; [|done].
    assert (Hl3 : input_len c3 < 2 ^ 32) by (change (input_len c3) with 0; lia).
    pose proof (feed_step_spec c3 Hwf' Hl3) as Hend. rewrite Hp' in Hend.
    assert (Hnone : ∀ max st, next_item max st [] = None) by by intros ? [].
    rewrite Hnone in Hend. by rewrite Hend. }
  rewrite Hloop. cbn [mbind option_bind]. exists c3. split_and!; try done.
  destruct (pending_split c2 Hwf2) as (junk & Hj & _). exists junk.
  rewrite Hp2 in Hj. cbn [c3 with_input set_input input_mem]. by rewrite Hm.
Qed.
