(* ===== verification/Erase.v ===== *)
(** * Erase: the parsers do not depend on where the input buffer is allocated

    Sessions that differ only in which allocation of the input buffer their queued pointers
    belong to are equivalent ([≡]); every parser, and hence a run of items, maps equivalent
    sessions to equivalent ones whatever the pointer to the body. *)
From S2P Require Import Prelude Wire Ring Events Ctx Parse ParseSafe Feed FeedSpec.

Definition erase_session (s : session) : session :=
  set_event_ring (ring_map erase_event (event_ring s)) s.

#[export] Instance session_equiv : Equiv session := λ s s', erase_session s = erase_session s'.
#[export] Instance session_equivalence : Equivalence (≡@{session}).
Proof.
  split; unfold equiv, session_equiv.
  - done.
  - by intros ???.
  - intros ???. congruence.
Qed.

(** Pushing [erase_session] through one bind of a parser. *)
Lemma erase_bind_gen {A B} (f : A → A) (g : B → B) (m m' : option A) (k k' : A → option B) :
  m' = f <$> m → (∀ a, k' (f a) = g <$> k a) → (m' ≫= k') = g <$> (m ≫= k).
Proof. intros -> Hk. destruct m; cbn; [apply Hk|done]. Qed.

Lemma enqueue_event_erase s ev :
  enqueue_event (erase_session s) (erase_event ev) = erase_session <$> enqueue_event s ev.
Proof.
  unfold enqueue_event, erase_session. cbn [event_ring set_event_ring q_enqueue ring_queue].
  rewrite ring_enqueue_map. by destruct (ring_enqueue _ _).
Qed.

Lemma on_val_erase {A} (f : A → A) m s k k' :
  (∀ a, k' (f a) = erase_session <$> k a) →
  on_val (f <$> m) (erase_session s) k' = erase_session <$> on_val m s k.
Proof. intros Hk. destruct m; cbn; [apply Hk|done|done]. Qed.

Lemma on_val_erase_id {A} (m : outcome A) s k k' :
  (∀ a, k' a = erase_session <$> k a) →
  on_val m (erase_session s) k' = erase_session <$> on_val m s k.
Proof. intros Hk. destruct m; cbn; [apply Hk|done|done]. Qed.

(** ** Bind *)
Definition erase_views (r : list pq_bind_param_view_t * Z) : list pq_bind_param_view_t * Z :=
  (erase_view <$> r.1, r.2).

Lemma read_params_erase n i off params nf fmts body base :
  read_params n i off (erase_view <$> params) nf fmts body (erase_ptr base)
  = erase_views <$> read_params n i off params nf fmts body base.
Proof.
  revert i off params. induction n as [|n IH]; intros i off params; [done|].
  cbn [read_params]. destruct (off + 4 <=? zlen body); [|done].
  destruct (rd32_be body off) as [v|]; cbn [deref mbind outcome_bind]; [|done].
  assert (Hn : ∀ d o,
    (fmt ← deref (param_format nf fmts i);
     params0 ← deref (zset (erase_view <$> params) i (mk_view (to_i32 v) (erase_ptr <$> d) fmt));
     read_params n (i + 1) o params0 nf fmts body (erase_ptr base))
    = erase_views <$>
      (fmt ← deref (param_format nf fmts i);
       params0 ← deref (zset params i (mk_view (to_i32 v) d fmt));
       read_params n (i + 1) o params0 nf fmts body base)).
  { intros d o. destruct (param_format nf fmts i) as [fmt|]; cbn [deref mbind outcome_bind]; [|done].
    change (mk_view (to_i32 v) (erase_ptr <$> d) fmt) with (erase_view (mk_view (to_i32 v) d fmt)).
    rewrite zset_fmap. destruct (zset params i _) as [p|]; [|done]. cbn. apply IH. }
  destruct (to_i32 v <? 0); [exact (Hn None _)|].
  destruct (zlen body <? off + 4 + to_i32 v); [done|].
  exact (Hn (Some (in_ptr_add base (off + 4))) _).
Qed.

Lemma bind_fields_erase base body :
  bind_fields (erase_ptr base) body = erase_bind <$> bind_fields base body.
Proof.
  unfold bind_fields.
  destruct (read_or_return body 0) as [[portal c]| |]; cbn [mbind outcome_bind]; [|done..].
  destruct (read_or_return body (0 + c)) as [[stmt c2]| |]; cbn [mbind outcome_bind]; [|done..].
  destruct (check _); cbn [mbind outcome_bind]; [|done..].
  destruct (rd16_be body _) as [n|]; cbn [deref mbind outcome_bind]; [|done].
  change (bind_formats (zero_bind (erase_ptr base) (zlen body)))
    with (bind_formats (zero_bind base (zlen body))).
  destruct (read_formats _ _ _ _ _) as [[fmts off]|]; cbn [deref mbind outcome_bind]; [|done].
  destruct (check _); cbn [mbind outcome_bind]; [|done..].
  destruct (rd16_be body off) as [n2|]; cbn [deref mbind outcome_bind]; [|done].
  change (bind_params (zero_bind (erase_ptr base) (zlen body)))
    with (erase_view <$> bind_params (zero_bind base (zlen body))).
  rewrite read_params_erase.
  destruct (read_params _ _ _ _ _ _ _ _) as [[ps o]| |]; 
    cbn [mbind outcome_bind fmap outcome_fmap erase_views fst snd]; [|done..].
  change (bind_result_formats (zero_bind (erase_ptr base) (zlen body)))
    with (bind_result_formats (zero_bind base (zlen body))).
  destruct (if o + 2 <=? zlen body then _ else _) as [[nr rf]| |]; done.
Qed.

(** ** The other parsers *)
Lemma startup_loop_erase fuel s body off :
  startup_loop fuel (erase_session s) body off = erase_session <$> startup_loop fuel s body off.
Proof.
  revert s off. induction fuel as [|fuel IH]; intros s off; [done|]. cbn [startup_loop].
  destruct (off + 1 <? zlen body); [|done].
  destruct (read_at body off) as [[[key c1]|]|]; cbn [mbind option_bind]; [|done..].
  destruct (c1 <=? 1); [done|].
  destruct (read_at body (off + c1)) as [[[val c2]|]|]; cbn [mbind option_bind]; [|done..].
  rewrite <- IH. repeat case_bool_decide; done.
Qed.

(** Enqueuing a pointer-free event and then updating plain fields. *)
Lemma enqueue_then_erase s ev (k : session → session) :
  erase_event ev = ev → (∀ s, k (erase_session s) = erase_session (k s)) →
  (s' ← enqueue_event (erase_session s) ev; Some (k s'))
  = erase_session <$> (s' ← enqueue_event s ev; Some (k s')).
Proof.
  intros He Hk. apply (erase_bind_gen erase_session).
  - rewrite <- enqueue_event_erase. by rewrite He.
  - intros a. cbn. by rewrite Hk.
Qed.

Lemma enqueue_plain_erase s ev :
  erase_event ev = ev →
  enqueue_event (erase_session s) ev = erase_session <$> enqueue_event s ev.
Proof. intros He. rewrite <- enqueue_event_erase. by rewrite He. Qed.

Lemma parse_startup_body_erase s body :
  parse_startup_body (erase_session s) body = erase_session <$> parse_startup_body s body.
Proof.
  unfold parse_startup_body.
  change (user_scratch (erase_session s)) with (user_scratch s).
  change (db_scratch (erase_session s)) with (db_scratch s).
  destruct (zset (user_scratch s) 0 0) as [u|]; cbn [mbind option_bind]; [|done].
  destruct (zset (db_scratch s) 0 0) as [d|]; cbn [mbind option_bind]; [|done].
  apply (erase_bind_gen erase_session); [apply (startup_loop_erase _ (set_db_scratch d (set_user_scratch u s)))|].
  intros s1. apply (enqueue_then_erase s1 _ (λ s, let s := set_startup_seen true s in
    if bool_decide (role s = PQWIRE_ROLE_SERVER) then set_proto_state PROTO_STATE_AUTHENTICATING s else s)).
  - done.
  - intros s2. cbn zeta. by repeat case_bool_decide.
Qed.

Lemma parse_query_msg_erase s body :
  parse_query_msg (erase_session s) body = erase_session <$> parse_query_msg s body.
Proof.
  unfold parse_query_msg. change (sql_scratch (erase_session s)) with (sql_scratch s).
  destruct (read_cstr _ _ _) as [q|]; cbn [mbind option_bind]; [|done].
  destruct (copy_or_clear _ _ _) as [a|]; cbn [mbind option_bind]; [|done].
  by apply (enqueue_then_erase (set_sql_scratch a s)).
Qed.

Lemma parse_command_complete_erase s body :
  parse_command_complete (erase_session s) body
  = erase_session <$> parse_command_complete s body.
Proof.
  unfold parse_command_complete. change (tag_scratch (erase_session s)) with (tag_scratch s).
  destruct (read_cstr _ _ _) as [q|]; cbn [mbind option_bind]; [|done].
  destruct (copy_or_clear _ _ _) as [a|]; cbn [mbind option_bind]; [|done].
  by apply (enqueue_then_erase (set_tag_scratch a s)).
Qed.

Lemma columns_loop_erase n i off s body :
  columns_loop n i off (erase_session s) body
  = (λ '(s, i), (erase_session s, i)) <$> columns_loop n i off s body.
Proof.
  revert i off s. induction n as [|n IH]; intros i off s; [done|]. cbn [columns_loop].
  destruct (off <? zlen body); [|done].
  destruct (read_at body off) as [[[nm c]|]|]; cbn [mbind option_bind]; [|done..].
  change (col_name_scratch (erase_session s)) with (col_name_scratch s).
  destruct (zget (col_name_scratch s) i); cbn [mbind option_bind]; [|done].
  destruct (zset (col_name_scratch s) i _) as [names|]; cbn [mbind option_bind]; [|done].
  destruct (zlen body <? off + c + 18); [done|].
  destruct (rd32_be _ _); cbn [mbind option_bind]; [|done].
  destruct (rd16_be _ _); cbn [mbind option_bind]; [|done].
  change (col_scratch (set_col_name_scratch names (erase_session s)))
    with (col_scratch (set_col_name_scratch names s)).
  destruct (zset (col_scratch _) i _) as [cols|]; cbn [mbind option_bind]; [|done].
  apply (IH _ _ (set_col_scratch cols (set_col_name_scratch names s))).
Qed.

Lemma parse_row_description_erase s body :
  parse_row_description (erase_session s) body = erase_session <$> parse_row_description s body.
Proof.
  unfold parse_row_description. destruct (zlen body <? 2); [done|].
  destruct (rd16_be body 0); cbn [mbind option_bind]; [|done]. rewrite columns_loop_erase.
  destruct (columns_loop _ _ _ _ _) as [[s1 i]|]; [|done]. cbn.
  by apply enqueue_plain_erase.
Qed.

Lemma cells_loop_erase n i off row s body :
  cells_loop n i off row (erase_session s) body
  = (λ '(r, s, i), (r, erase_session s, i)) <$> cells_loop n i off row s body.
Proof.
  revert i off row s. induction n as [|n IH]; intros i off row s; [done|]. cbn [cells_loop].
  destruct (off + 4 <=? zlen body); [|done].
  destruct (rd32_be body off); cbn [mbind option_bind]; [|done].
  assert (Hnull : ∀ o,
    (row0 ← set_cell row i None 0; cells_loop n (i + 1) o row0 (erase_session s) body)
    = (λ '(r, s, i), (r, erase_session s, i)) <$>
      (row0 ← set_cell row i None 0; cells_loop n (i + 1) o row0 s body)).
  { intros o. destruct (set_cell row i None 0); cbn [mbind option_bind]; [apply IH|done]. }
  destruct (_ <? 0); [apply Hnull|]. destruct (zlen body <? _); [done|].
  change (row_arena_used (erase_session s)) with (row_arena_used s).
  change (row_arena (erase_session s)) with (row_arena s).
  destruct (PQWIRE_ROW_ARENA <? _); [apply Hnull|].
  destruct (mem_read _ _ _) as [b|]; cbn [mbind option_bind]; [|done].
  destruct (mem_write _ _ _) as [ar|]; cbn [mbind option_bind]; [|done].
  cbn zeta.
  change (row_arena_used (erase_session s)) with (row_arena_used s).
  destruct (set_cell row i (Some (row_arena_used s)) _); cbn [mbind option_bind]; [|done].
  apply (IH _ _ _ (set_row_arena_used _ (set_row_arena ar s))).
Qed.

Lemma parse_data_row_erase s body :
  parse_data_row (erase_session s) body = erase_session <$> parse_data_row s body.
Proof.
  unfold parse_data_row. destruct (zlen body <? 2); [done|].
  destruct (rd16_be body 0); cbn [mbind option_bind]; [|done]. rewrite cells_loop_erase.
  destruct (cells_loop _ _ _ _ _ _) as [[[row s1] i]|]; [|done]. cbn.
  by apply enqueue_plain_erase.
Qed.

(** ** Dispatch *)
Lemma handle_frontend_erase base s type body :
  handle_frontend (erase_ptr base) (erase_session s) type body
  = erase_session <$> handle_frontend base s type body.
Proof.
  unfold handle_frontend.
  repeat (match goal with |- (if ?b then _ else _) = _ => destruct b end);
    try (by apply enqueue_plain_erase); try done.
  - apply parse_query_msg_erase.
  - apply on_val_erase_id. intros. by apply enqueue_plain_erase.
  - unfold parse_bind_msg. rewrite bind_fields_erase. apply on_val_erase.
    intros b. apply (enqueue_event_erase s (mk_event PQ_EVENT_BIND (P_bind b))).
  - apply on_val_erase_id. intros []. by apply enqueue_plain_erase.
  - apply on_val_erase_id. intros. by apply enqueue_plain_erase.
  - apply on_val_erase_id. intros []. by apply enqueue_plain_erase.
Qed.

Lemma handle_backend_erase base s type body :
  handle_backend (erase_ptr base) (erase_session s) type body
  = erase_session <$> handle_backend base s type body.
Proof.
  unfold handle_backend.
  destruct (type =? chr "R").
  { destruct (4 <=? zlen body); [|done].
    destruct (rd32_be body 0) as [v|]; cbn [mbind option_bind]; [|done].
    destruct (v =? 0); [|done]. by apply enqueue_then_erase. }
  destruct (type =? chr "Z"); [by apply enqueue_then_erase|].
  repeat (match goal with |- (if ?b then _ else _) = _ => destruct b end);
    try (by apply enqueue_plain_erase); try done.
  - apply parse_row_description_erase.
  - apply parse_data_row_erase.
  - apply parse_command_complete_erase.
  - unfold parse_error_response. destruct (parse_error_fields body); [|done].
    by apply enqueue_plain_erase.
  - apply (enqueue_event_erase s (mk_event PQ_EVENT_PARAMETER_STATUS (P_raw base (zlen body)))).
  - apply on_val_erase_id. intros. by apply enqueue_plain_erase.
Qed.

Lemma handle_message_erase base s type body :
  handle_message (erase_ptr base) (erase_session s) type body
  = erase_session <$> handle_message base s type body.
Proof.
  unfold handle_message. change (role (erase_session s)) with (role s).
  case_bool_decide; [apply handle_frontend_erase|apply handle_backend_erase].
Qed.

Lemma apply_item_erase gen s it :
  apply_item 0 (erase_session s) it = erase_session <$> apply_item gen s it.
Proof.
  destruct it as [body|t body|]; cbn [apply_item].
  - apply parse_startup_body_erase.
  - apply (handle_message_erase (mk_in_ptr gen 5)).
  - by apply enqueue_plain_erase.
Qed.

Lemma apply_items_erase gen s its :
  apply_items 0 (erase_session s) its = erase_session <$> apply_items gen s its.
Proof.
  revert s. induction its as [|it its IH]; intros s; [done|]. cbn [apply_items].
  apply (erase_bind_gen erase_session); [apply apply_item_erase|done].
Qed.

(** A run of items, from equivalent sessions and with any two buffers. *)
Lemma apply_items_equiv gen gen' s s' its t t' :
  s ≡ s' → apply_items gen s its = Some t → apply_items gen' s' its = Some t' → t ≡ t'.
Proof.
  intros He H1 H2. pose proof (apply_items_erase gen s its) as E1.
  pose proof (apply_items_erase gen' s' its) as E2. rewrite H1 in E1. rewrite H2 in E2.
  unfold equiv, session_equiv in *. rewrite He in E1. rewrite E1 in E2. cbn in E2.
  by apply (inj Some) in E2.
Qed.

Lemma apply_items_app gen s its its' :
  apply_items gen s (its ++ its') = (s' ← apply_items gen s its; apply_items gen s' its').
Proof.
  revert s. induction its as [|it its IH]; intros s; [done|]. cbn [apply_items app].
  destruct (apply_item gen s it); [|done]. cbn. apply IH.
Qed.

#[export] Instance expects_startup_proper : Proper ((≡) ==> (=)) expects_startup.
Proof.
  intros s s' He. change (expects_startup (erase_session s) = expects_startup (erase_session s')).
  by rewrite He.
Qed.
