(* ===== verification/FeedThms.v ===== *)
(** * FeedThms: what [pqwire_feed_input] promises

    The properties of the input side: safety for arbitrary bytes, refinement of the deframer,
    no byte lost, independence from chunking, and that the column bytes of queued DataRow
    events stay. *)
From S2P Require Import Prelude Wire Ring Events Ctx Parse ParseSafe Feed FeedSpec Erase.

(** ** Created contexts *)
Lemma zero_session_wf r n : 0 < n → session_wf (zero_session r n).
Proof.
  intros Hn. split; try done.
  - by apply ring_create_wf.
  - cbn [col_name_scratch zero_session]. by apply Forall_replicate.
Qed.

(** A fresh context, as [pqwire_create_with_config] builds it. *)
Definition fresh (r : pqwire_role_t) (max : Z) : pqwire_ctx :=
  mk_ctx PQWIRE_MAGIC max (zero_session r 16) [] 4096 [] 0 4096 0 (zrep 256 0) 1 Scram.zero_scram [].

Lemma fresh_wf r max : 0 < max → ctx_wf (fresh r max).
Proof.
  intros Hm. split; try done; try lia.
  - by apply zero_session_wf.
  - constructor.
Qed.

(** ** Queued rows *)
Lemma mem_read_ztake {A} (a b : list A) u off n :
  ztake u a = ztake u b → u ≤ zlen a → u ≤ zlen b → off + n ≤ u →
  mem_read a off n = mem_read b off n.
Proof.
  intros Ht Ha Hb Hn. unfold mem_read.
  destruct (Z.leb_spec 0 off), (Z.leb_spec 0 n); cbn [andb]; try done.
  rewrite !(proj2 (Z.leb_le _ _)) by lia. rewrite !ztake_zdrop_comm by lia.
  rewrite <- (ztake_ztake (off + n) u a), <- (ztake_ztake (off + n) u b) by lia. by rewrite Ht.
Qed.

Lemma read_cell_stable s s' row i :
  session_wf s → session_wf s' → session_ext s s' → row_in_arena (row_arena_used s) row →
  read_cell s' row i = read_cell s row i.
Proof.
  intros Hwf Hwf' He Hrow. unfold read_cell.
  destruct (zget (dr_data row) i) as [d|] eqn:Ed; [|done].
  destruct (zget (dr_len row) i) as [n|] eqn:En; [|done].
  cbn [mbind option_bind]. destruct d as [off|]; [|done]. cbn [mbind option_bind].
  assert (cell_in_arena (row_arena_used s) (Some off) n) as Hc.
  { unfold zget in Ed, En. destruct (0 <=? i); [|done].
    by eapply Forall2_lookup_lr. }
  destruct Hc as (? & ? & ?), He as [_ _ _ Ha _].
  destruct Hwf as [_ _ _ _ _ _ _ _ Hz Hu _], Hwf' as [_ _ _ _ _ _ _ _ Hz' _ _].
  apply (mem_read_ztake _ _ (row_arena_used s)); [done|lia..].
Qed.

(** C1: [pqwire_feed_input] is safe on arbitrary bytes: in a well-formed context, whatever
    the bytes and whatever the allocator answers, the call stops (the fuel suffices), no
    access leaves an object, the context stays well-formed, and the result is either 0 with
    nothing consumed (the buffer could not grow) or the number of bytes given. *)
Theorem feed_input_safe c data :
  ctx_wf c → bytes_ok data → input_len c + zlen data < 2 ^ 32 →
  ∃ n c', pqwire_feed_input (Some c) (Some data) = Some (n, Some c') ∧ ctx_wf c' ∧
    (n = zlen data ∨ n = 0 ∧ allocs c ≠ [] ∧ sess c' = sess c ∧ pending c' = pending c).
Proof.
  intros Hwf Hb Hl.
  destruct (feed_input_spec c data Hwf Hb Hl) as [(al & Ha & ->) | (c' & -> & Hw & _)].
  - eexists _, _. split; [done|]. split; [by destruct Hwf|]. by right.
  - eexists _, _. split; [done|]. auto.
Qed.

Lemma feed_input_safe_witness :
  ∃ n c', pqwire_feed_input (Some (fresh PQWIRE_ROLE_CLIENT 1024)) (Some [68; 0; 0; 0; 6; 255; 255])
            = Some (n, Some c') ∧ ctx_wf c' ∧
    (n = 7 ∨ n = 0 ∧ [] ≠ @nil bool ∧ sess c' = sess (fresh PQWIRE_ROLE_CLIENT 1024)
       ∧ pending c' = []).
Proof.
  apply (feed_input_safe (fresh PQWIRE_ROLE_CLIENT 1024) [68; 0; 0; 0; 6; 255; 255]).
  - apply fresh_wf. lia.
  - concrete_bytes.
  - vm_compute. reflexivity.
Defined.

(** C2: [pqwire_feed_input] refines the deframer: the items that the wire format finds in
    the buffered bytes followed by the new ones reach the parsers, in order and nothing
    else does, and the incomplete rest is what stays buffered; the output side and the
    configuration are untouched. *)
Theorem feed_input_refines c data :
  ctx_wf c → bytes_ok data → input_len c + zlen data < 2 ^ 32 → allocs c = [] →
  ∃ c' its st' rest,
    deframe (max_message_size c) (expects_startup (sess c)) (pending c ++ data) = (its, st', rest) ∧
    pqwire_feed_input (Some c) (Some data) = Some (zlen data, Some c') ∧
    apply_items (input_gen c') (sess c) its = Some (sess c') ∧
    pending c' = rest ∧ output_buf c' = output_buf c ∧ max_message_size c' = max_message_size c.
Proof.
  intros Hwf Hb Hl Ha.
  destruct (feed_input_spec c data Hwf Hb Hl) as [(al & Hn & _) | (c' & -> & _ & _ & H & Hc & _)];
    [done|].
  destruct (deframe _ _ _) as [[its st'] rest]. destruct H as (H1 & H2 & _).
  exists c', its, st', rest. split_and!; try done; by rewrite Hc.
Qed.

Lemma feed_input_refines_witness :
  ∃ c' its st' rest,
    deframe 1024 false [90; 0; 0; 0; 5; 73; 49; 0; 0] = (its, st', rest) ∧
    pqwire_feed_input (Some (fresh PQWIRE_ROLE_CLIENT 1024)) (Some [90; 0; 0; 0; 5; 73; 49; 0; 0])
      = Some (9, Some c') ∧
    apply_items (input_gen c') (sess (fresh PQWIRE_ROLE_CLIENT 1024)) its = Some (sess c') ∧
    pending c' = rest ∧ output_buf c' = [] ∧ max_message_size c' = 1024.
Proof.
  apply (feed_input_refines (fresh PQWIRE_ROLE_CLIENT 1024) [90; 0; 0; 0; 5; 73; 49; 0; 0]).
  - apply fresh_wf. lia.
  - concrete_bytes.
  - vm_compute. reflexivity.
  - reflexivity.
Defined.

(** Lossless deframing. *)
Lemma deframe_lossless max st buf :
  let '(its, _, rest) := deframe max st buf in
  bytes_ok buf → no_errors its → concat (item_bytes <$> its) ++ rest = buf.
Proof.
  apply (deframe_ind max (λ st buf '(its, _, rest), bytes_ok buf → no_errors its →
    concat (item_bytes <$> its) ++ rest = buf)); [done|].
  intros st0 buf0 it st' rest its st2 rest2 Hn _ IH Hb Hne.
  apply Forall_cons_iff in Hne as [Hi Hne]. cbn [fmap list_fmap concat].
  rewrite <- app_assoc, IH; [|by eapply next_item_rest_ok|done].
  symmetry. by eapply next_item_bytes.
Qed.

(** The payload that a handler sees never exceeds the configured maximum. *)
Definition item_fits (max : Z) (it : item) : Prop :=
  match it with
  | I_startup body => 4 ≤ zlen body ∧ zlen body + 4 ≤ max
  | I_msg _ body => zlen body + 4 ≤ max
  | I_error => True
  end.

Lemma next_item_fits max st buf it st' rest :
  bytes_ok buf → next_item max st buf = Some (it, st', rest) → item_fits max it.
Proof.
  intros Hb. unfold next_item. destruct st.
  - destruct buf as [|b0 [|b1 [|b2 [|b3 tl]]]]; try done. cbn zeta.
    destruct (_ || _) eqn:E; [by intros; simplify_eq|]. zbool.
    destruct (Z.ltb_spec (zlen tl) (be32 b0 b1 b2 b3 - 4)); [done|]. intros; simplify_eq.
    cbn. rewrite zlen_ztake by lia. lia.
  - destruct buf as [|t [|b0 [|b1 [|b2 [|b3 tl]]]]]; try done. cbn zeta.
    destruct ((_ <? 4) || _) eqn:E; [by intros; simplify_eq|]. zbool.
    destruct (Z.ltb_spec (zlen tl) (be32 b0 b1 b2 b3 - 4)); [done|]. intros; simplify_eq.
    cbn. rewrite zlen_ztake by lia. lia.
Qed.

Lemma deframe_fits max st buf :
  bytes_ok buf → Forall (item_fits max) (deframe max st buf).1.1.
Proof.
  apply (deframe_ind max (λ st buf r, bytes_ok buf → Forall (item_fits max) r.1.1)); [by constructor|].
  intros st0 buf0 it st' rest its st2 rest2 Hn _ IH Hb. constructor.
  - by eapply next_item_fits.
  - by eapply IH, next_item_rest_ok.
Qed.

(** C3: no input is lost, duplicated or resized: unless a malformed length is met, the bytes of
    the messages handed to the parsers followed by what stays buffered are exactly what was
    buffered followed by what was fed; and no message body exceeds [max_message_size - 4]. *)
Theorem feed_input_lossless c data :
  ctx_wf c → bytes_ok data → input_len c + zlen data < 2 ^ 32 → allocs c = [] →
  ∃ c' its, pqwire_feed_input (Some c) (Some data) = Some (zlen data, Some c') ∧
    apply_items (input_gen c') (sess c) its = Some (sess c') ∧
    Forall (item_fits (max_message_size c)) its ∧
    (no_errors its → concat (item_bytes <$> its) ++ pending c' = pending c ++ data).
Proof.
  intros Hwf Hb Hl Ha.
  destruct (feed_input_spec c data Hwf Hb Hl) as [(al & Hn & _) | (c' & -> & _ & _ & H & _)];
    [done|].
  assert (Hok : bytes_ok (pending c ++ data)) by (apply bytes_ok_app; auto using pending_ok).
  pose proof (deframe_lossless (max_message_size c) (expects_startup (sess c)) (pending c ++ data)) as Hll.
  pose proof (deframe_fits (max_message_size c) (expects_startup (sess c)) _ Hok) as Hfit.
  destruct (deframe _ _ _) as [[its st'] rest]. destruct H as (H1 & <- & _).
  exists c', its. auto.
Qed.

Lemma feed_input_lossless_witness :
  ∃ c' its,
    pqwire_feed_input (Some (fresh PQWIRE_ROLE_CLIENT 1024)) (Some [90; 0; 0; 0; 5; 73; 49; 0])
      = Some (8, Some c') ∧
    apply_items (input_gen c') (sess (fresh PQWIRE_ROLE_CLIENT 1024)) its = Some (sess c') ∧
    Forall (item_fits 1024) its ∧
    (no_errors its →
     concat (item_bytes <$> its) ++ pending c' = [] ++ [90; 0; 0; 0; 5; 73; 49; 0]).
Proof.
  apply (feed_input_lossless (fresh PQWIRE_ROLE_CLIENT 1024) [90; 0; 0; 0; 5; 73; 49; 0]).
  - apply fresh_wf. lia.
  - concrete_bytes.
  - vm_compute. reflexivity.
  - reflexivity.
Defined.

(** ** Chunking *)
Lemma next_item_app_error max st buf more st' rest :
  next_item max st buf = Some (I_error, st', rest) →
  ∃ st2 rest2, next_item max st (buf ++ more) = Some (I_error, st2, rest2).
Proof.
  unfold next_item. destruct st.
  - destruct buf as [|b0 [|b1 [|b2 [|b3 tl]]]]; try done. cbn [app]. cbn zeta.
    destruct (_ || _); [by eauto|]. by destruct (_ <? _).
  - destruct buf as [|t [|b0 [|b1 [|b2 [|b3 tl]]]]]; try done. cbn [app]. cbn zeta.
    destruct (_ || _); [by eauto|]. by destruct (_ <? _).
Qed.

Lemma deframe_no_errors_prefix max st buf more :
  no_errors (deframe max st (buf ++ more)).1.1 → no_errors (deframe max st buf).1.1.
Proof.
  apply (deframe_ind max (λ st buf r,
    no_errors (deframe max st (buf ++ more)).1.1 → no_errors r.1.1)); [by constructor|].
  intros st0 buf0 it st' rest its st2 rest2 Hn _ IH Hne.
  rewrite deframe_eq in Hne. destruct (is_error it) eqn:Hit.
  - destruct it; try done. destruct (next_item_app_error _ _ _ more _ _ Hn) as (st3 & r3 & E).
    rewrite E in Hne. destruct (deframe max st3 r3) as [[??]?].
    cbn in Hne. apply Forall_cons_iff in Hne. by destruct Hne.
  - rewrite (next_item_app _ _ _ more _ _ _ Hn Hit) in Hne.
    destruct (deframe max st' (rest ++ more)) as [[its' ?]?].
    cbn in Hne, IH. apply Forall_cons_iff in Hne as [_ Hne].
    constructor; [done|by apply IH].
Qed.

Lemma deframe_rest_length max st buf : (length (deframe max st buf).2 <= length buf)%nat.
Proof.
  apply (deframe_ind max (λ _ buf r, (length r.2 <= length buf)%nat)); [done|].
  intros st0 buf0 it st' rest its st2 rest2 Hn _ IH. apply next_item_shorter in Hn. cbn in *. lia.
Qed.

(** C4: the delivery does not depend on how the stream is cut into calls: feeding [a] and
    then [b] leaves, up to which allocation of the input buffer the events' pointers belong
    to, the same session (queue, states, scratch arrays, arena) and the same buffered rest
    as feeding [a ++ b] at once, provided the stream has no malformed length. *)
Theorem feed_input_chunking c a b :
  ctx_wf c → bytes_ok a → bytes_ok b → input_len c + (zlen a + zlen b) < 2 ^ 32 →
  allocs c = [] →
  no_errors (deframe (max_message_size c) (expects_startup (sess c)) (pending c ++ a ++ b)).1.1 →
  ∃ c1 c2 c', pqwire_feed_input (Some c) (Some a) = Some (zlen a, Some c1) ∧
    pqwire_feed_input (Some c1) (Some b) = Some (zlen b, Some c2) ∧
    pqwire_feed_input (Some c) (Some (a ++ b)) = Some (zlen a + zlen b, Some c') ∧
    sess c2 ≡ sess c' ∧ pending c2 = pending c'.
Proof.
  intros Hwf Ha Hb Hl Hal Hne. pose proof (zlen_nonneg a). pose proof (zlen_nonneg b).
  destruct (feed_input_spec c a Hwf Ha) as [(al & Hn & _) | (c1 & H1 & Hw1 & _ & D1 & E1 & _ & Al1)];
    [lia|done|].
  destruct (feed_input_spec c (a ++ b) Hwf) as [(al & Hn & _) | (c' & H' & _ & _ & D' & _)];
    [by apply bytes_ok_app|rewrite zlen_app; lia|done|].
  rewrite app_assoc in D', Hne.
  pose proof (deframe_no_errors_prefix _ _ _ _ Hne) as Hne1.
  pose proof (deframe_app (max_message_size c) (expects_startup (sess c)) (pending c ++ a) b) as Happ.
  pose proof (deframe_rest_length (max_message_size c) (expects_startup (sess c)) (pending c ++ a)) as Hlen.
  destruct (deframe _ _ (pending c ++ a)) as [[its1 st1] rest1]. rewrite (Happ Hne1) in D'.
  destruct D1 as (A1 & P1 & S1). cbn [fst snd] in Hlen.
  assert (Hl1 : input_len c1 ≤ input_len c + zlen a).
  { destruct (pending_split c1 Hw1) as (_ & _ & <-).
    destruct (pending_split c Hwf) as (_ & _ & <-). rewrite P1, <- zlen_app. unfold zlen. lia. }
  destruct (feed_input_spec c1 b Hw1 Hb) as [(al & Hn & _) | (c2 & H2 & Hw2 & _ & D2 & _)];
    [lia|by rewrite Al1 in Hn|].
  assert (Hm1 : max_message_size c1 = max_message_size c) by by rewrite E1.
  rewrite P1, S1, Hm1 in D2.
  destruct (deframe _ _ (rest1 ++ b)) as [[its2 st2] rest2].
  destruct D2 as (A2 & P2 & _). destruct D' as (A' & P' & _).
  exists c1, c2, c'. rewrite zlen_app in H'. split_and!; try done; [|congruence].
  rewrite apply_items_app in A'.
  destruct (apply_items (input_gen c') (sess c) its1) as [s1|] eqn:As1; [|done]. cbn in A'.
  assert (sess c1 ≡ s1) as He by by eapply apply_items_equiv.
  by eapply apply_items_equiv.
Qed.

Lemma feed_input_chunking_witness :
  ∃ c1 c2 c',
    pqwire_feed_input (Some (fresh PQWIRE_ROLE_CLIENT 1024)) (Some [90; 0; 0])
      = Some (3, Some c1) ∧
    pqwire_feed_input (Some c1) (Some [0; 5; 73; 83; 0; 0; 0; 4]) = Some (8, Some c2) ∧
    pqwire_feed_input (Some (fresh PQWIRE_ROLE_CLIENT 1024))
      (Some ([90; 0; 0] ++ [0; 5; 73; 83; 0; 0; 0; 4])) = Some (11, Some c') ∧
    sess c2 ≡ sess c' ∧ pending c2 = pending c'.
Proof.
  apply (feed_input_chunking (fresh PQWIRE_ROLE_CLIENT 1024) [90; 0; 0] [0; 5; 73; 83; 0; 0; 0; 4]).
  - apply fresh_wf. lia.
  - concrete_bytes.
  - concrete_bytes.
  - vm_compute. reflexivity.
  - reflexivity.
  - repeat constructor.
Defined.

(** The types of the queued events after a sequence of feeds. *)
Definition feed_all (c : pqwire_ctx) (chunks : list (list Z)) : option pqwire_ctx :=
  foldl (λ acc d, c ← acc; r ← pqwire_feed_input (Some c) (Some d); r.2) (Some c) chunks.
Definition queued_types (c : option pqwire_ctx) : option (list protocol_event_type_t) :=
  (λ c, ev_type <$> queued (sess c)) <$> c.

(** With a malformed length the delivery does depend on the chunking: an oversized
    frame ([max_message_size] 8, length 10) followed by a ReadyForQuery is skipped, and the
    ReadyForQuery delivered, when the whole frame is buffered; when its last byte comes
    with the next call, the buffered part is dropped, the stream loses its framing, and the
    ReadyForQuery is never delivered. *)
Theorem resync_depends_on_chunking :
  let oversized := [68; 0; 0; 0; 10; 0; 0; 0; 0; 0; 0] in
  let rfq := [90; 0; 0; 0; 5; 73] in
  let c := fresh PQWIRE_ROLE_CLIENT 8 in
  queued_types (feed_all c [oversized ++ rfq])
    = Some [PQ_EVENT_PROTOCOL_ERROR; PQ_EVENT_READY_FOR_QUERY] ∧
  queued_types (feed_all c [removelast oversized; 0 :: rfq])
    = Some [PQ_EVENT_PROTOCOL_ERROR; PQ_EVENT_PROTOCOL_ERROR].
Proof. vm_compute. split; reflexivity. Qed.

(** ** Lifetimes *)

(** C6: the column bytes of a queued DataRow stay put: neither feeding more input, with
    whatever bytes and outcome, nor dequeuing events changes what its columns read. *)
Theorem queued_rows_stable c ev row i data n c' :
  ctx_wf c → ev ∈ queued (sess c) → ev_payload ev = P_data_row row →
  bytes_ok data → input_len c + zlen data < 2 ^ 32 →
  pqwire_feed_input (Some c) (Some data) = Some (n, Some c') →
  read_cell (sess c') row i = read_cell (sess c) row i ∧
  ∃ ev' c2, pqwire_next_event (Some c) false = Some (ev', Some c2) ∧
    read_cell (sess c2) row i = read_cell (sess c) row i.
Proof.
  intros Hwf Hin Hp Hb Hl Hf. pose proof Hwf as [_ Hs _ _ _ _ _ _].
  assert (Hrow : row_in_arena (row_arena_used (sess c)) row).
  { destruct Hs as [_ _ _ _ _ _ _ _ _ _ Hr]. rewrite list.Forall_forall in Hr.
    specialize (Hr ev Hin). unfold event_in_arena in Hr. by rewrite Hp in Hr. }
  split.
  - destruct (feed_input_spec c data Hwf Hb Hl) as [(al & _ & E) | (c1 & E & Hw & He & _)].
    + rewrite E in Hf. by simplify_eq.
    + rewrite E in Hf. simplify_eq. by apply read_cell_stable; [|destruct Hw| |].
  - unfold pqwire_next_event. rewrite guard_ctx_valid by done.
    destruct (dequeue_event_spec (sess c) Hs) as (s' & -> & _ & _ & Ha & _).
    cbn [mbind option_bind]. eexists _, _. split; [done|].
    unfold read_cell. cbn [sess set_sess]. by rewrite Ha.
Qed.

(** DataRows with one column. *)
Definition row_ab : list Z := [68; 0; 0; 0; 12; 0; 1; 0; 0; 0; 2; 97; 98].
Definition row_c : list Z := [68; 0; 0; 0; 11; 0; 1; 0; 0; 0; 1; 99].

(** The payloads queued by a feed, the buffered length, and the first row's first column. *)
Definition summary (c : pqwire_ctx) : list payload_t * Z * option (list Z) :=
  (ev_payload <$> queued (sess c), input_len c,
   match ev_payload <$> queued (sess c) with
   | P_data_row row :: _ => read_cell (sess c) row 0
   | _ => None
   end).
Definition feed_summary (r : option (Z * option pqwire_ctx)) :
    option (list payload_t * Z * option (list Z)) :=
  match r with Some (_, Some c) => Some (summary c) | _ => None end.

(** A client that has received one DataRow with the single column "ab". *)
Lemma one_row_example :
  ∃ c row ev, ctx_wf c ∧ input_len c = 0 ∧ ev ∈ queued (sess c) ∧ ev_payload ev = P_data_row row ∧
    read_cell (sess c) row 0 = Some (bs "ab").
Proof.
  destruct (feed_input_spec (fresh PQWIRE_ROLE_CLIENT 64) row_ab)
    as [(al & Hn & _) | (c & H & Hw & _)];
    [apply fresh_wf; lia|concrete_bytes|vm_compute; reflexivity|done|].
  assert (Hq : feed_summary (pqwire_feed_input (Some (fresh PQWIRE_ROLE_CLIENT 64)) (Some row_ab))
               = Some ([P_data_row (mk_data_row (Some 0 :: zrep 15 None) (2 :: zrep 15 0)
                   (zrep 16 0) (zrep 16 0) 1)], 0, Some (bs "ab"))) by (vm_compute; reflexivity).
  rewrite H in Hq. cbn [feed_summary] in Hq. apply (inj Some) in Hq. unfold summary in Hq.
  destruct (queued (sess c)) as [|ev [|]] eqn:Q; [done| |done].
  injection Hq as Hq Hi Hc. exists c. eexists _, ev.
  split_and!; [done|done|rewrite Q; by left|exact Hq|].
  cbn [fmap list_fmap] in Hc. rewrite Hq in Hc. exact Hc.
Qed.

Lemma queued_rows_stable_witness :
  ∃ c row n c', read_cell (sess c) row 0 = Some (bs "ab") ∧
    pqwire_feed_input (Some c) (Some row_c) = Some (n, Some c') ∧
    read_cell (sess c') row 0 = read_cell (sess c) row 0 ∧
    ∃ ev' c2, pqwire_next_event (Some c) false = Some (ev', Some c2) ∧
      read_cell (sess c2) row 0 = read_cell (sess c) row 0.
Proof.
  destruct one_row_example as (c & row & ev & Hwf & Hi & Hin & Hp & Hr).
  assert (Hb : bytes_ok row_c) by concrete_bytes.
  assert (Hl : input_len c + zlen row_c < 2 ^ 32) by (rewrite Hi; vm_compute; reflexivity).
  assert (Hf : ∃ n c', pqwire_feed_input (Some c) (Some row_c) = Some (n, Some c')).
  { destruct (feed_input_spec c row_c Hwf Hb Hl) as [(al & _ & ->) | (c' & -> & _)]; eauto. }
  destruct Hf as (n & c' & Hf). exists c, row, n, c'. split; [done|]. split; [done|].
  apply (queued_rows_stable c ev row 0 row_c n c'); done.
Defined.
