(* ===== verification/CtxThms.v ===== *)
(** * CtxThms: lifecycle, output buffer, authentication start

    Creation succeeds exactly when the configuration and the allocator allow it, and yields
    a well-formed context; [emit_msg] and [pqwire_start_auth] append the frames they mean
    to; what failed allocations do; [pqwire_reset]; [pqwire_get_output] as a FIFO. *)
From S2P Require Import Prelude Wire Ring Events Scram Ctx Parse ParseSafe Feed FeedSpec FeedThms.

(** ** Creation *)
Definition first_allocs (al : list bool) : bool := forallb id (take 4 al).

Lemma create_with_config_ok r cfg al :
  0 < cfg_event_queue_size cfg → first_allocs al = true → 0 ≤ cfg_max_message_size cfg →
  ∃ c, pqwire_create_with_config r (Some cfg) al = Some c ∧ ctx_wf c ∧
    sess c = zero_session r (cfg_event_queue_size cfg) ∧ output_buf c = [] ∧ pending c = [] ∧
    q_cap (event_ring (sess c)) = cfg_event_queue_size cfg ∧ queued (sess c) = [].
Proof.
  intros Hq Ha Hm. unfold pqwire_create_with_config.
  rewrite (proj2 (Z.leb_gt _ _)) by lia.
  assert (Hok : ∃ al', (let '(ok, al) := alloc_next al in
      if negb ok then None else
      let '(ok_events, al) := alloc_next al in
      let '(ok_out, al) := alloc_next al in
      let '(ok_in, al) := alloc_next al in
      if negb (ok_events && ok_out && ok_in) then None else Some al) = Some al').
  { destruct al as [|[] [|[] [|[] [|[] al']]]]; try done; by eexists. }
  destruct Hok as [al' Hok].
  destruct (alloc_next al) as [[] a1]; [|done]. cbn [negb] in *.
  destruct (alloc_next a1) as [oe a2], (alloc_next a2) as [oo a3], (alloc_next a3) as [oi a4].
  destruct (negb (oe && oo && oi)); [done|].
  eexists. split; [done|].
  assert (Hz : queued (zero_session r (cfg_event_queue_size cfg)) = []) by apply ring_list_create.
  split_and!; try done. split; cbn; try done; try lia.
  - by apply zero_session_wf.
  - destruct (Z.eqb_spec (cfg_max_message_size cfg) 0); lia.
  - constructor.
  - destruct (cfg_password cfg) as [pw|]; [|done]. rewrite zlen_app, zlen_strncpy by lia. done.
Qed.

(** C23: creation returns NULL exactly when the configuration is NULL, the queue size is not
    positive or one of the four allocations fails; otherwise it yields a well-formed
    context with an empty queue of the configured capacity and empty buffers. *)
Theorem create_with_config_spec r config al :
  (∀ cfg, config = Some cfg → 0 ≤ cfg_max_message_size cfg) →
  match pqwire_create_with_config r config al with
  | None => config = None ∨ (∃ cfg, config = Some cfg ∧ cfg_event_queue_size cfg ≤ 0) ∨
            first_allocs al = false
  | Some c => ∃ cfg, config = Some cfg ∧ 0 < cfg_event_queue_size cfg ∧ first_allocs al = true ∧
      ctx_wf c ∧ q_cap (event_ring (sess c)) = cfg_event_queue_size cfg ∧
      queued (sess c) = [] ∧ output_buf c = [] ∧ pending c = []
  end.
Proof.
  intros Hm. destruct config as [cfg|]; [|by left]. specialize (Hm cfg eq_refl).
  destruct (Z.leb_spec (cfg_event_queue_size cfg) 0).
  { unfold pqwire_create_with_config. rewrite (proj2 (Z.leb_le _ _)) by lia.
    right. left. by exists cfg. }
  destruct (first_allocs al) eqn:Ha.
  - destruct (create_with_config_ok r cfg al) as (c & -> & ? & _ & ? & ? & ? & ?); [done..|].
    exists cfg. by split_and!.
  - assert (pqwire_create_with_config r (Some cfg) al = None) as ->; [|by right; right].
    unfold pqwire_create_with_config. rewrite (proj2 (Z.leb_gt _ _)) by lia.
    destruct al as [|[] [|[] [|[] [|[] al']]]]; done.
Qed.

Lemma create_with_config_spec_witness :
  match pqwire_create_with_config PQWIRE_ROLE_SERVER (Some (mk_config 16 None 1 0)) [] with
  | None => Some (mk_config 16 None 1 0) = None ∨
            (∃ cfg, Some (mk_config 16 None 1 0) = Some cfg ∧ cfg_event_queue_size cfg ≤ 0) ∨
            first_allocs [] = false
  | Some c => ∃ cfg, Some (mk_config 16 None 1 0) = Some cfg ∧ 0 < cfg_event_queue_size cfg ∧
      first_allocs [] = true ∧ ctx_wf c ∧
      q_cap (event_ring (sess c)) = cfg_event_queue_size cfg ∧
      queued (sess c) = [] ∧ output_buf c = [] ∧ pending c = []
  end.
Proof.
  apply (create_with_config_spec PQWIRE_ROLE_SERVER (Some (mk_config 16 None 1 0)) []).
  intros cfg E. apply (inj Some) in E. rewrite <- E. cbn. lia.
Defined.

(** ** Output *)

(** The answer to a request for [need] more bytes in a buffer of [cap] bytes that holds
    [len]: granted without asking when they fit, otherwise as the allocator says; with the
    capacity and the allocator's further answers. *)
Definition request_room (cap len need : Z) (al : list bool) : bool * Z * list bool :=
  if len + need <=? cap then (true, cap, al)
  else match al with
       | [] => (true, cap * 2 + need + 1024, [])
       | ok :: al => (ok, if ok then cap * 2 + need + 1024 else cap, al)
       end.

(** The part of a message whose request was granted. *)
Definition if_granted (r : bool * Z * list bool) (d : list Z) : list Z := if r.1.1 then d else [].

Lemma append_output_run c d :
  output_len c ≤ output_cap c →
  let r := request_room (output_cap c) (output_len c) (zlen d) (allocs c) in
  append_output c d = Some (set_output (output_buf c ++ if_granted r d) r.1.2 r.2 c) ∧
  zlen (output_buf c ++ if_granted r d) ≤ r.1.2.
Proof.
  intros Hc r. unfold r, append_output, ensure_output, request_room, if_granted.
  clear r. unfold output_len in *.
  pose proof (zlen_nonneg (output_buf c)). pose proof (zlen_nonneg d).
  destruct (Z.leb_spec (zlen (output_buf c) + zlen d) (output_cap c)) as [Hf|Hf]; cbn [fst snd].
  - rewrite (proj2 (Z.leb_le _ _)) by done. split; [done|zl].
  - destruct (allocs c) as [|[] al]; cbn [alloc_next fst snd output_buf output_cap set_output allocs];
      rewrite ?app_nil_r; try (split; [done|lia]);
      rewrite (proj2 (Z.leb_le _ _)) by lia; (split; [done|zl]).
Qed.

Lemma request_room_granted cap len need al :
  Forall (eq true) al → (request_room cap len need al).1.1 = true ∧ Forall (eq true) (request_room cap len need al).2.
Proof.
  intros Ha. unfold request_room. destruct (_ <=? _); [done|].
  destruct Ha as [|ok al <- Ha]; [done|]. done.
Qed.

(** C21: [emit_msg] always returns 0.  The header (type, length + 4) reaches the buffer exactly
    when its five bytes fit or the [realloc] they need succeeds, and then, separately, the
    payload exactly when it fits in what room there is or the [realloc] it needs succeeds:
    a refused request drops its part and nothing else.  If no request is refused the whole
    frame is appended. *)
Theorem emit_msg_outcomes c t payload :
  output_len c ≤ output_cap c →
  let p := default [] payload in
  let r1 := request_room (output_cap c) (output_len c) 5 (allocs c) in
  let sent1 := if_granted r1 (t :: wr32_be (to_u32 (zlen p + 4))) in
  let r2 := request_room r1.1.2 (output_len c + zlen sent1) (zlen p) r1.2 in
  let sent2 := if_granted r2 p in
  ∃ c', emit_msg c t payload = Some (0, c') ∧
    output_buf c' = output_buf c ++ sent1 ++ sent2 ∧
    output_len c' ≤ output_cap c' ∧ sess c' = sess c ∧
    (Forall (eq true) (allocs c) → sent1 ++ sent2 = frame t p).
Proof.
  intros Hc p r1 sent1 r2 sent2. set (hdr := t :: wr32_be (to_u32 (zlen p + 4))) in *.
  destruct (append_output_run c hdr Hc) as [H1 Hz1]. change (zlen hdr) with 5 in *. fold r1 sent1 in H1, Hz1.
  set (c1 := set_output (output_buf c ++ sent1) r1.1.2 r1.2 c) in *.
  assert (Hlen1 : output_len c1 = output_len c + zlen sent1) by (unfold output_len; cbn; zl).
  destruct (append_output_run c1 p) as [H2 Hz2]; [done|]. rewrite Hlen1 in H2, Hz2.
  change (output_cap c1) with r1.1.2 in *. change (allocs c1) with r1.2 in *.
  change (output_buf c1) with (output_buf c ++ sent1) in *. fold r2 sent2 in H2, Hz2.
  assert (Hall : Forall (eq true) (allocs c) → sent1 ++ sent2 = frame t p).
  { intros Ha. destruct (request_room_granted (output_cap c) (output_len c) 5 _ Ha) as [Hg1 Ha1].
    fold r1 in Hg1, Ha1.
    destruct (request_room_granted r1.1.2 (output_len c + zlen sent1) (zlen p) _ Ha1) as [Hg2 _].
    fold r2 in Hg2. unfold sent2, sent1, if_granted. by rewrite Hg1, Hg2. }
  unfold emit_msg. replace (match payload with Some p0 => zlen p0 | None => 0 end) with (zlen p)
    by by destruct payload.
  fold hdr. rewrite H1. cbn [mbind option_bind].
  assert (Hskip : zlen p = 0 → sent2 = []).
  { intros Hz. unfold sent2, if_granted. destruct r2.1.1; [|done]. clearbody p. destruct p; [done|zlia]. }
  destruct payload as [p'|].
  - destruct (Z.eqb_spec (zlen p) 0) as [Hz|Hz].
    + exists c1. rewrite (Hskip Hz), app_nil_r in *. done.
    + cbn in p. subst p. rewrite H2. cbn [mbind option_bind]. eexists. split; [done|].
      cbn [output_buf set_output]. by rewrite app_assoc.
  - exists c1. rewrite (Hskip eq_refl), app_nil_r in *. done.
Qed.

(** Eight bytes of room, four of them used, and an allocator that refuses: the header is
    dropped and the payload sent. *)
Lemma emit_msg_outcomes_witness :
  let c := set_output [1; 2; 3; 4] 8 [false] (fresh PQWIRE_ROLE_SERVER 64) in
  ∃ c', emit_msg c (chr "Z") (Some [73]) = Some (0, c') ∧
    output_buf c' = [1; 2; 3; 4] ++ [] ++ [73] ∧
    output_len c' ≤ output_cap c' ∧ sess c' = sess c ∧
    (Forall (eq true) [false] → [] ++ [73] = frame (chr "Z") [73]).
Proof.
  apply (emit_msg_outcomes (set_output [1; 2; 3; 4] 8 [false] (fresh PQWIRE_ROLE_SERVER 64)) (chr "Z") (Some [73])).
  vm_compute. discriminate.
Defined.

Lemma emit_msg_torn_calc c b :
  zlen b = 4092 →
  emit_msg (set_output b 4096 [false] c) (chr "Z") (Some [73])
  = Some (0, set_output (b ++ [73]) 4096 [] c).
Proof.
  intros Hb. unfold emit_msg. set (hdr := _ :: wr32_be _).
  assert (Hh : append_output (set_output b 4096 [false] c) hdr = Some (set_output b 4096 [] c)).
  { unfold append_output, ensure_output, output_len.
    cbn [output_buf output_cap set_output allocs]. rewrite Hb. reflexivity. }
  rewrite Hh. cbn [mbind option_bind]. change (zlen [73] =? 0) with false. cbv match.
  unfold append_output, ensure_output, output_len.
  cbn [output_buf output_cap set_output allocs]. rewrite Hb. cbn [fst snd].
  change (4092 + zlen [73] <=? 4096) with true. cbv match.
  unfold output_len. cbn [output_buf output_cap set_output allocs]. rewrite Hb. reflexivity.
Qed.

(** A failed allocation tears the stream: with 4092 bytes pending in the initial
    4096-byte buffer and an allocator that refuses, [emit_msg] reports success but only the
    one payload byte of the message, without its header, reaches the stream. *)
Theorem emit_msg_torn :
  ∃ c c', ctx_wf c ∧ output_len c = 4092 ∧ allocs c = [false] ∧
    emit_msg c (chr "Z") (Some [73]) = Some (0, c') ∧
    output_buf c' = output_buf c ++ [73].
Proof.
  exists (set_output (zrep 4092 0) 4096 [false] (fresh PQWIRE_ROLE_SERVER 64)).
  eexists. split_and!.
  - apply ctx_wf_set_output; [apply fresh_wf; lia|]. by rewrite zlen_zrep by lia.
  - unfold output_len. cbn [output_buf set_output]. by rewrite zlen_zrep by lia.
  - done.
  - apply emit_msg_torn_calc. by rewrite zlen_zrep by lia.
  - done.
Qed.

(** ** [pqwire_start_auth] *)
Lemma client_first_shape rnd :
  (∀ j, 0 ≤ rnd j) →
  ∃ c nonce, scram_sha256_init rnd = Some c ∧ length nonce = 24%nat ∧
    Forall (λ b, b ∈ charset) nonce ∧ cstr_ok nonce ∧
    scram_sha256_client_first c 256 = Some (0, bs "n,,n=user,r=" ++ nonce ++ [0]).
Proof.
  intros Hr. destruct (scram_init_spec rnd Hr) as (c & cs & Hc & _ & Hl & Hcs & Hn & _).
  exists c, cs. split_and!; try done.
  - eapply Forall_impl; [|exact Hcs]. intros b Hb. cbn in Hb.
    by apply (proj1 (list.Forall_forall _ _) charset_ok).
  - unfold scram_sha256_client_first. rewrite Hn. cbn [mbind option_bind].
    assert (zlen (bs "n,,n=user,r=" ++ cs) = 36) as Hs by (unfold zlen; rewrite length_app, Hl; done).
    rewrite Hs. unfold snprintf. cbn [Z.eqb]. rewrite ztake_all by lia. by rewrite <- app_assoc.
Qed.

(** C25: [pqwire_start_auth] on a client with SCRAM and a password appends one message of
    type 'p' that carries the client-first message with its NUL and has a correct length
    word, moves to CLIENT_FIRST, and refuses (result -1, nothing changed) a second call. *)
Theorem start_auth_client rnd c pw0 :
  (∀ j, 0 ≤ rnd j) → ctx_wf c → allocs c = [] → auth_state (sess c) = AUTH_STATE_NONE →
  role (sess c) = PQWIRE_ROLE_CLIENT → use_scram c ≠ 0 → zget (password c) 0 = Some pw0 → pw0 ≠ 0 →
  ∃ nonce c', pqwire_start_auth rnd (Some c) = Some (0, Some c') ∧
    length nonce = 24%nat ∧ Forall (λ b, b ∈ charset) nonce ∧
    output_buf c' = output_buf c ++ frame (chr "p") (bs "n,,n=user,r=" ++ nonce ++ [0]) ∧
    auth_state (sess c') = AUTH_STATE_CLIENT_FIRST ∧
    pqwire_start_auth rnd (Some c') = Some (-1, Some c').
Proof.
  intros Hr Hwf Ha Hst Hrole Hsc Hpw Hpw0.
  destruct (client_first_shape rnd Hr) as (sc & nonce & Hi & Hl & Hcs & Hok & Hf).
  unfold pqwire_start_auth at 1. rewrite guard_ctx_valid by done.
  rewrite Hst, bool_decide_true by done. cbn [negb]. rewrite Hpw. cbn [mbind option_bind].
  rewrite Hrole, bool_decide_true by done. rewrite (proj2 (Z.eqb_neq _ _) Hsc), (proj2 (Z.eqb_neq _ _) Hpw0).
  cbn [andb negb]. rewrite Hi. cbn [mbind option_bind]. rewrite Hf. cbn [mbind option_bind].
  change (0 =? 0) with true. cbv match.
  set (msg := bs "n,,n=user,r=" ++ nonce).
  assert (Hm : zlen msg = 36) by (unfold msg, zlen; rewrite length_app, Hl; done).
  assert (Hmsg : bs "n,,n=user,r=" ++ nonce ++ [0] = msg ++ [0]) by (unfold msg; by rewrite <- app_assoc).
  rewrite Hmsg, until_nul_app by (apply Forall_app; split; [apply cstr_ok_check; vm_compute; reflexivity|done]).
  cbn [mbind option_bind].
  assert (Hz1 : zlen (msg ++ [0]) = 37) by (rewrite zlen_app, Hm; done).
  rewrite mem_write_Some by (rewrite ?Hz1, ?zlen_zrep by lia; lia). cbn [mbind option_bind].
  rewrite Hm, Hz1.
  assert (Hcopy : ztake (36 + 1) (zdrop 5 (ztake 5 (zrep 512 0) ++ (msg ++ [0])
                    ++ zdrop (5 + 37) (zrep 512 0))) = msg ++ [0]).
  { rewrite zdrop_app by (by rewrite zlen_ztake by (rewrite zlen_zrep; lia)).
    apply ztake_app. by rewrite Hz1. }
  rewrite Hcopy.
  set (c1 := set_sess _ _).
  destruct (append_output_spec c1 (chr "p" :: wr32_be (to_u32 (4 + 36 + 1)) ++ msg ++ [0]))
    as (buf & cap & al & He & _ & _ & Hn & _); [by destruct Hwf|].
  rewrite He. cbn [mbind option_bind].
  destruct (Hn Ha) as [-> ->].
  exists nonce. eexists. split; [done|]. split_and!; try done.
  - cbn [output_buf set_output].
    rewrite Hmsg. unfold frame. by rewrite Hz1.
  - unfold pqwire_start_auth. unfold guard_ctx. cbn [magic set_output set_sess c1 set_scram].
    destruct Hwf. rewrite cw_magic. done.
Qed.

Lemma start_auth_client_witness :
  let c := mk_ctx PQWIRE_MAGIC 64 (zero_session PQWIRE_ROLE_CLIENT 16) [] 4096 [] 0 4096 0
             (bs "secret" ++ zrep 250 0) 1 zero_scram [] in
  ∃ nonce c', pqwire_start_auth (λ _, 7) (Some c) = Some (0, Some c') ∧
    length nonce = 24%nat ∧ Forall (λ b, b ∈ charset) nonce ∧
    output_buf c' = [] ++ frame (chr "p") (bs "n,,n=user,r=" ++ nonce ++ [0]) ∧
    auth_state (sess c') = AUTH_STATE_CLIENT_FIRST ∧
    pqwire_start_auth (λ _, 7) (Some c') = Some (-1, Some c').
Proof.
  cbn zeta.
  apply (start_auth_client (λ _, 7) (mk_ctx PQWIRE_MAGIC 64 (zero_session PQWIRE_ROLE_CLIENT 16)
    [] 4096 [] 0 4096 0 (bs "secret" ++ zrep 250 0) 1 zero_scram []) 115); try done.
  destruct (fresh_wf PQWIRE_ROLE_CLIENT 64); [lia|]. by split.
Defined.

(** ** [pqwire_get_output] *)

(** Reads of the given sizes, one after the other. *)
Fixpoint drain (sizes : list Z) (ctx : option pqwire_ctx) : list Z * option pqwire_ctx :=
  match sizes with
  | [] => ([], ctx)
  | n :: sizes => let '(d, ctx) := pqwire_get_output ctx false n in
                  let '(d', ctx) := drain sizes ctx in (d ++ d', ctx)
  end.
Definition total (sizes : list Z) : Z := foldr Z.add 0 sizes.

Lemma get_output_cut c n :
  0 < n →
  ∃ c', pqwire_get_output (Some c) false n = (ztake n (output_buf c), Some c') ∧
        output_buf c' = zdrop n (output_buf c) ∧ sess c' = sess c.
Proof.
  intros Hn. unfold pqwire_get_output. cbn [orb]. rewrite (proj2 (Z.eqb_neq _ _)) by lia.
  unfold output_len. destruct (Z.ltb_spec (zlen (output_buf c)) n); eexists.
  - rewrite (ztake_all n), (ztake_all (zlen _)) by lia. split_and!; [done| |done].
    cbn [output_buf set_output]. by rewrite !zdrop_all by lia.
  - by split_and!.
Qed.

Lemma get_output_any c n :
  0 ≤ n →
  ∃ c', pqwire_get_output (Some c) false n = (ztake n (output_buf c), Some c') ∧
        output_buf c' = zdrop n (output_buf c) ∧ sess c' = sess c.
Proof.
  intros Hn. destruct (decide (n = 0)) as [->|]; [by exists c|]. apply get_output_cut. lia.
Qed.

Lemma total_nonneg sizes : Forall (Z.le 0) sizes → 0 ≤ total sizes.
Proof. unfold total. induction 1; cbn [foldr]; lia. Qed.

(** C22: the output is a FIFO: whatever the sizes of the application's reads, together they
    yield the first bytes of the output, as many as the sizes add up to, in order, and the
    rest stays; so reads that ask for enough drain it all. *)
Theorem get_output_fifo sizes c :
  Forall (Z.le 0) sizes →
  ∃ c', drain sizes (Some c) = (ztake (total sizes) (output_buf c), Some c') ∧
    output_buf c' = zdrop (total sizes) (output_buf c) ∧ sess c' = sess c ∧
    (output_len c ≤ total sizes → drain sizes (Some c) = (output_buf c, Some c') ∧ output_buf c' = []).
Proof.
  intros Hs.
  assert (H : ∃ c', drain sizes (Some c) = (ztake (total sizes) (output_buf c), Some c') ∧
    output_buf c' = zdrop (total sizes) (output_buf c) ∧ sess c' = sess c).
  { revert c. induction Hs as [|n sizes Hn Hs IH]; intros c; [by exists c|].
    pose proof (total_nonneg sizes Hs).
    cbn [drain]. destruct (get_output_any c n Hn) as (c1 & -> & Hb & Hs1).
    destruct (IH c1) as (c2 & -> & Hb2 & Hs2). exists c2.
    change (total (n :: sizes)) with (n + total sizes).
    rewrite Hb2, Hb, Hs2, Hs1, zdrop_zdrop, ztake_add by lia. done. }
  destruct H as (c' & Hd & Hb & Hss). exists c'. split_and!; try done.
  intros Hl. unfold output_len in Hl. by rewrite Hd, Hb, ztake_all, zdrop_all.
Qed.

Lemma get_output_fifo_witness :
  let c := set_output (bs "hello") 4096 [] (fresh PQWIRE_ROLE_CLIENT 64) in
  ∃ c', drain [2; 0; 1; 9] (Some c) = (bs "hello", Some c') ∧ output_buf c' = [] ∧ sess c' = sess c ∧
    (output_len c ≤ 12 → drain [2; 0; 1; 9] (Some c) = (output_buf c, Some c') ∧ output_buf c' = []).
Proof.
  apply (get_output_fifo [2; 0; 1; 9] (set_output (bs "hello") 4096 [] (fresh PQWIRE_ROLE_CLIENT 64))).
  rewrite !Forall_cons_iff. split_and!; (lia || constructor).
Defined.

(** ** [pqwire_reset] *)

Lemma reset_session_wf s : session_wf s → session_wf (reset_session s) ∧ queued (reset_session s) = [].
Proof.
  intros [Hr]. destruct (q_reset_spec _ Hr) as (Hr1 & Hr2 & Hr3).
  assert (Hq : queued (reset_session s) = []) by exact Hr3. split; [|done].
  split; try done.
Qed.

(** C24: [pqwire_reset] leaves a well-formed context with empty queue, output and input, in
    the startup states, with the SCRAM state zeroed and role, password and message limit
    kept; but the row arena stays as used as it was, although no event holds it any more. *)
Theorem reset_spec c :
  ctx_wf c →
  ∃ c', pqwire_reset (Some c) = Some c' ∧ ctx_wf c' ∧ queued (sess c') = [] ∧
    output_buf c' = [] ∧ pending c' = [] ∧ auth_state (sess c') = AUTH_STATE_NONE ∧
    pqwire_current_state (Some c') = 0 ∧ startup_seen (sess c') = false ∧
    scram_ctx c' = zero_scram ∧ role (sess c') = role (sess c) ∧
    max_message_size c' = max_message_size c ∧ password c' = password c ∧
    row_arena_used (sess c') = row_arena_used (sess c).
Proof.
  intros Hwf. pose proof Hwf as [Hm Hs].
  destruct (reset_session_wf _ Hs) as [Hs' Hq]. pose proof (zlen_nonneg (output_buf c)).
  unfold output_len in *. unfold pqwire_reset. rewrite Hm, Z.eqb_refl.
  eexists. split; [done|]. split_and!; try done.
  - split; try done; unfold output_len; cbn; zlia.
  - unfold pqwire_current_state. cbn [magic set_scram set_input set_output set_sess].
    by rewrite Hm, Z.eqb_refl.
Qed.

Lemma reset_spec_witness :
  let c := fresh PQWIRE_ROLE_SERVER 64 in
  ∃ c', pqwire_reset (Some c) = Some c' ∧ ctx_wf c' ∧ queued (sess c') = [] ∧
    output_buf c' = [] ∧ pending c' = [] ∧ auth_state (sess c') = AUTH_STATE_NONE ∧
    pqwire_current_state (Some c') = 0 ∧ startup_seen (sess c') = false ∧
    scram_ctx c' = zero_scram ∧ role (sess c') = role (sess c) ∧
    max_message_size c' = max_message_size c ∧ password c' = password c ∧
    row_arena_used (sess c') = row_arena_used (sess c).
Proof. apply (reset_spec (fresh PQWIRE_ROLE_SERVER 64)). apply fresh_wf. lia. Defined.
