(* ===== verification/Send.v ===== *)
(** * Send: the message builders of src/src/pqwire.c

    [pqwire_send_startup] .. [pqwire_send_no_data].  A builder runs in the monad [send] over
    the context: its value, an early [return -1] ([Ret], as in [Parse]), or undefined
    behaviour ([Ub]).  A local or heap buffer of [cap] bytes is the list of the bytes written so far, [p] its
    length; [put] is a [memcpy] to [buf + p] followed by [p += n] and is undefined past the
    end of the buffer.  A C string argument is the list of its characters. *)
From S2P Require Import Prelude Wire Ring Events Scram Ctx.

Definition send (A : Type) : Type := pqwire_ctx → outcome A * pqwire_ctx.
#[export] Instance send_mret : MRet send := λ A a c, (Val a, c).
#[export] Instance send_mbind : MBind send := λ A B f m c,
  match m c with
  | (Val a, c) => f a c
  | (Ret, c) => (Ret, c)
  | (Ub, c) => (Ub, c)
  end.

Definition return_if (b : bool) : send unit := λ c, (check (negb b), c).
Definition access {A} (o : option A) : send A := λ c, (deref o, c).

Definition put (cap : Z) (buf d : list Z) : send (list Z) := λ c,
  (if zlen buf + zlen d <=? cap then Val (buf ++ d) else Ub, c).

Definition set_allocs (al : list bool) (c : pqwire_ctx) : pqwire_ctx :=
  set_output (output_buf c) (output_cap c) al c.

(** [malloc] or [realloc], where failure makes the function return -1. *)
Definition malloc_or_fail : send unit := λ c,
  let '(ok, al) := alloc_next (allocs c) in (check ok, set_allocs al c).

Definition append (d : list Z) : send unit := λ c,
  match append_output c d with
  | Some c => (Val tt, c)
  | None => (Ub, c)
  end.
Definition emit (type : Z) (payload : option (list Z)) : send Z := λ c,
  match emit_msg c type payload with
  | Some (rc, c) => (Val rc, c)
  | None => (Ub, c)
  end.
Definition update_sess (f : session → session) : send unit := λ c,
  (Val tt, set_sess (f (sess c)) c).

(** A function body, under the guard that every builder starts with. *)
Definition run_send (m : send Z) (c : pqwire_ctx) : option (Z * pqwire_ctx) :=
  match m c with
  | (Val z, c) => Some (z, c)
  | (Ret, c) => Some (-1, c)
  | (Ub, _) => None
  end.
Definition api (ctx : option pqwire_ctx) (m : send Z) : option (Z * option pqwire_ctx) :=
  guard_ctx (-1) ctx (run_send m).

(** [if (!s) s = dflt;] and the bytes of a string with its NUL. *)
Definition str_or (dflt : list Z) (s : option (list Z)) : list Z := default dflt s.
Definition with_nul (s : list Z) : list Z := s ++ [0].

(** ** Startup, queries *)
Definition send_startup (user database : option (list Z)) : send Z := λ c,
  (_ ← return_if (negb (bool_decide (role (sess c) = PQWIRE_ROLE_CLIENT)));
   let user := str_or [] user in
   let database := str_or [] database in
   let cap := 512 in
   buf ← put cap (zrep 4 0) (wr32_be PQ_PROTO_3_0);
   buf ← put cap buf (with_nul (bs "user"));
   let ulen := zlen user + 1 in
   _ ← return_if (cap <=? zlen buf + ulen);
   buf ← put cap buf (with_nul user);
   buf ← put cap buf (with_nul (bs "database"));
   let dlen := zlen database + 1 in
   _ ← return_if (cap <=? zlen buf + dlen + 1);
   buf ← put cap buf (with_nul database);
   buf ← put cap buf [0];
   buf ← access (mem_write buf 0 (wr32_be (to_u32 (zlen buf))));
   _ ← append buf;
   mret 0) c.
Definition pqwire_send_startup (ctx : option pqwire_ctx) (user database : option (list Z)) :
    option (Z * option pqwire_ctx) := api ctx (send_startup user database).

Definition pqwire_send_query (ctx : option pqwire_ctx) (sql : option (list Z)) :
    option (Z * option pqwire_ctx) :=
  api ctx (match sql with
           | None => λ c, (Ret, c)
           | Some sql => emit (chr "Q") (Some (with_nul sql))
           end).

Definition pqwire_send_call (ctx : option pqwire_ctx) (procedure : option (list Z)) :
    option (Z * option pqwire_ctx) :=
  match procedure with
  | None => Some (-1, ctx)
  | Some procedure =>
      sql ← until_nul (snprintf 512 (bs "CALL " ++ procedure));
      pqwire_send_query ctx (Some sql)
  end.

Definition pqwire_send_terminate ctx := api ctx (emit (chr "X") None).
Definition pqwire_send_sync ctx := api ctx (emit (chr "S") None).
Definition pqwire_send_flush ctx := api ctx (emit (chr "H") None).
Definition pqwire_send_parse_complete ctx := api ctx (emit (chr "1") None).
Definition pqwire_send_bind_complete ctx := api ctx (emit (chr "2") None).
Definition pqwire_send_close_complete ctx := api ctx (emit (chr "3") None).
Definition pqwire_send_no_data ctx := api ctx (emit (chr "n") None).

(** ** Parse *)

(** [a ? a[i] : dflt] for a possibly NULL array. *)
Definition array_or (dflt : Z) (a : option (list Z)) (i : Z) : option Z :=
  match a with None => Some dflt | Some a => zget a i end.

(** The same for an array of [int32_t]. *)
Definition i32_array_or (dflt : Z) (a : option (list Z)) (i : Z) : option Z :=
  to_i32 <$> array_or dflt a i.

Fixpoint put_oids (n : nat) (i : Z) (oids : option (list Z)) (cap : Z) (buf : list Z) :
    send (list Z) :=
  match n with
  | O => mret buf
  | S n' =>
      v ← access (array_or 0 oids i);
      buf ← put cap buf (wr32_be v);
      put_oids n' (i + 1) oids cap buf
  end.

Definition send_parse (statement : option (list Z)) (query : list Z)
    (oids : option (list Z)) (n_param_types : Z) : send Z :=
  let cap := PQWIRE_MAX_QUERY_LEN + 256 in
  let statement := str_or [] statement in
  let nlen := zlen statement + 1 in
  let qlen := zlen query + 1 in
  _ ← return_if (cap <? nlen + qlen + 2 + n_param_types * 4);
  buf ← put cap [] (with_nul statement);
  buf ← put cap buf (with_nul query);
  buf ← put cap buf (wr16_be n_param_types);
  buf ← put_oids (Z.to_nat n_param_types) 0 oids cap buf;
  emit (chr "P") (Some buf).
Definition pqwire_send_parse (ctx : option pqwire_ctx) (statement query : option (list Z))
    (oids : option (list Z)) (n_param_types : Z) : option (Z * option pqwire_ctx) :=
  api ctx (match query with
           | None => λ c, (Ret, c)
           | Some query => send_parse statement query oids n_param_types
           end).

(** ** Bind *)
Fixpoint put_formats (n : nat) (i : Z) (fmts : option (list Z)) (cap : Z) (buf : list Z) :
    send (list Z) :=
  match n with
  | O => mret buf
  | S n' =>
      v ← access (array_or 0 fmts i);
      buf ← put cap buf (wr16_be (to_u16 v));
      put_formats n' (i + 1) fmts cap buf
  end.

(** [values && values[i]]: the byte object it points to. *)
Definition value_at (values : option (list (option (list Z)))) (i : Z) : option (option (list Z)) :=
  match values with None => Some None | Some vs => zget vs i end.

(** [n] bytes of the heap block that were never written; [heap] are its contents. *)
Definition put_unwritten (heap : Z → Z) (cap : Z) (buf : list Z) (n : Z) : send (list Z) :=
  put cap buf ((λ k : nat, heap (zlen buf + Z.of_nat k)) <$> seq 0 (Z.to_nat n)).

(** The parameter loop: the buffer's capacity and contents. *)
Fixpoint put_values (n : nat) (i : Z) (heap : Z → Z) (lengths : option (list Z))
    (values : option (list (option (list Z)))) (cap : Z) (buf : list Z) : send (Z * list Z) :=
  match n with
  | O => mret (cap, buf)
  | S n' =>
      plen ← access (i32_array_or (-1) lengths i);
      _ ← return_if (cap <? zlen buf + 4);
      buf ← put cap buf (wr32_be (to_u32 plen));
      if 0 <? plen then
        cap ← (if cap <? zlen buf + plen
               then _ ← malloc_or_fail; mret (zlen buf + plen + 1024)
               else mret cap);
        v ← access (value_at values i);
        buf ← (match v with
               | Some v => d ← access (mem_read v 0 plen); put cap buf d
               | None => put_unwritten heap cap buf plen
               end);
        put_values n' (i + 1) heap lengths values cap buf
      else put_values n' (i + 1) heap lengths values cap buf
  end.

Definition send_bind_msg (heap : Z → Z) (portal statement : option (list Z))
    (param_formats : option (list Z)) (n_param_formats : Z)
    (param_lengths : option (list Z)) (param_values : option (list (option (list Z))))
    (n_params : Z) (result_formats : option (list Z)) (n_result_formats : Z) : send Z :=
  let cap := 64 + n_params * 256 in
  let portal := str_or [] portal in
  let statement := str_or [] statement in
  _ ← malloc_or_fail;
  let nlen := zlen portal + 1 in
  let slen := zlen statement + 1 in
  _ ← return_if (cap <? 0 + nlen + slen);
  buf ← put cap [] (with_nul portal);
  buf ← put cap buf (with_nul statement);
  _ ← return_if (cap <? zlen buf + 2 + n_param_formats * 2);
  buf ← put cap buf (wr16_be n_param_formats);
  buf ← put_formats (Z.to_nat n_param_formats) 0 param_formats cap buf;
  _ ← return_if (cap <? zlen buf + 2);
  buf ← put cap buf (wr16_be n_params);
  '(cap, buf) ← put_values (Z.to_nat n_params) 0 heap param_lengths param_values cap buf;
  _ ← return_if (cap <? zlen buf + 2 + n_result_formats * 2);
  buf ← put cap buf (wr16_be n_result_formats);
  buf ← put_formats (Z.to_nat n_result_formats) 0 result_formats cap buf;
  emit (chr "B") (Some buf).
Definition pqwire_send_bind (heap : Z → Z) (ctx : option pqwire_ctx)
    (portal statement : option (list Z))
    (param_formats : option (list Z)) (n_param_formats : Z)
    (param_lengths : option (list Z)) (param_values : option (list (option (list Z))))
    (n_params : Z) (result_formats : option (list Z)) (n_result_formats : Z) :
    option (Z * option pqwire_ctx) :=
  api ctx (send_bind_msg heap portal statement param_formats n_param_formats param_lengths
             param_values n_params result_formats n_result_formats).

(** ** Describe, Execute, Close *)
Definition send_target (type : Z) (target : Z) (name : option (list Z)) : send Z :=
  let cap := PQWIRE_MAX_STMT_NAME + 2 in
  let name := str_or [] name in
  let nlen := zlen name + 1 in
  _ ← return_if (cap <? 1 + nlen);
  buf ← put cap [] [target];
  buf ← put cap buf (with_nul name);
  emit type (Some buf).
Definition pqwire_send_describe (ctx : option pqwire_ctx) (target : Z) (name : option (list Z)) :
    option (Z * option pqwire_ctx) := api ctx (send_target (chr "D") target name).
Definition pqwire_send_close (ctx : option pqwire_ctx) (target : Z) (name : option (list Z)) :
    option (Z * option pqwire_ctx) := api ctx (send_target (chr "C") target name).

Definition send_execute (portal : option (list Z)) (max_rows : Z) : send Z :=
  let cap := PQWIRE_MAX_PORTAL_NAME + 8 in
  let portal := str_or [] portal in
  let nlen := zlen portal + 1 in
  _ ← return_if (cap <? nlen + 4);
  buf ← put cap [] (with_nul portal);
  buf ← put cap buf (wr32_be max_rows);
  emit (chr "E") (Some buf).
Definition pqwire_send_execute (ctx : option pqwire_ctx) (portal : option (list Z)) (max_rows : Z) :
    option (Z * option pqwire_ctx) := api ctx (send_execute portal max_rows).

(** ** Parse, Bind, Execute and Sync with unnamed statement and portal *)

(** [if (f(...) != 0) return -1;] then the rest, on the context the call left. *)
Definition and_then (r : option (Z * option pqwire_ctx))
    (k : option pqwire_ctx → option (Z * option pqwire_ctx)) : option (Z * option pqwire_ctx) :=
  '(rc, ctx) ← r;
  if rc =? 0 then k ctx else Some (-1, ctx).

Definition pqwire_send_unnamed_pipeline (heap : Z → Z) (ctx : option pqwire_ctx)
    (query : option (list Z)) (oids : option (list Z)) (n_param_types : Z)
    (param_formats : option (list Z)) (n_param_formats : Z)
    (param_lengths : option (list Z)) (param_values : option (list (option (list Z))))
    (n_params : Z) (result_formats : option (list Z)) (n_result_formats max_rows : Z) :
    option (Z * option pqwire_ctx) :=
  and_then (pqwire_send_parse ctx (Some []) query oids n_param_types) (λ ctx,
  and_then (pqwire_send_bind heap ctx (Some []) (Some []) param_formats n_param_formats
              param_lengths param_values n_params result_formats n_result_formats) (λ ctx,
  and_then (pqwire_send_execute ctx (Some []) max_rows) (λ ctx,
  pqwire_send_sync ctx))).

(** ** Backend messages *)
Definition pqwire_send_auth_ok (ctx : option pqwire_ctx) : option (Z * option pqwire_ctx) :=
  api ctx (emit (chr "R") (Some (wr32_be 0))).

Definition pqwire_send_ready_for_query (ctx : option pqwire_ctx) : option (Z * option pqwire_ctx) :=
  api ctx (_ ← update_sess (set_proto_state PROTO_STATE_READY);
           emit (chr "Z") (Some [chr "I"])).

Fixpoint put_columns (n : nat) (i : Z) (cols : list (pq_column_desc_t (list Z))) (cap : Z)
    (buf : list Z) : send (list Z) :=
  match n with
  | O => mret buf
  | S n' =>
      col ← access (zget cols i);
      let name := str_or [] (cd_name col) in
      let nlen := zlen name + 1 in
      _ ← return_if (cap <? zlen buf + nlen + 18);
      buf ← put cap buf (with_nul name);
      buf ← put cap buf (wr32_be 0);
      buf ← put cap buf (wr16_be 0);
      buf ← put cap buf (wr32_be (cd_oid col));
      buf ← put cap buf (wr16_be 4);
      buf ← put cap buf (wr32_be (to_u32 (-1)));
      buf ← put cap buf (wr16_be (to_u16 (cd_format col)));
      put_columns n' (i + 1) cols cap buf
  end.

Definition send_row_description (cols : list (pq_column_desc_t (list Z))) (n_cols : Z) : send Z :=
  let cap := 2048 in
  let n_cols := if PQWIRE_MAX_ROW_COLUMNS <? n_cols then PQWIRE_MAX_ROW_COLUMNS else n_cols in
  buf ← put cap [] (wr16_be (to_u16 n_cols));
  buf ← put_columns (Z.to_nat n_cols) 0 cols cap buf;
  emit (chr "T") (Some buf).
Definition pqwire_send_row_description (ctx : option pqwire_ctx)
    (cols : option (list (pq_column_desc_t (list Z)))) (n_cols : Z) :
    option (Z * option pqwire_ctx) :=
  api ctx (match cols with
           | None => λ c, (Ret, c)
           | Some cols => send_row_description cols n_cols
           end).

(** [format] and [oid] are not used. *)
Definition send_data_row (data : option (list Z)) (len : Z) : send Z :=
  let cap := 4096 in
  buf ← put cap [] (wr16_be 1);
  buf ← (match data with
         | None => put cap buf (wr32_be (to_u32 (-1)))
         | Some data =>
             _ ← return_if (cap <? zlen buf + 4 + len);
             buf ← put cap buf (wr32_be (to_u32 len));
             d ← access (mem_read data 0 len);
             put cap buf d
         end);
  emit (chr "D") (Some buf).
Definition pqwire_send_data_row (ctx : option pqwire_ctx) (data : option (list Z))
    (len format oid : Z) : option (Z * option pqwire_ctx) := api ctx (send_data_row data len).

Fixpoint put_cells (n : nat) (i : Z) (lengths : option (list Z))
    (values : option (list (option (list Z)))) (cap : Z) (buf : list Z) : send (list Z) :=
  match n with
  | O => mret buf
  | S n' =>
      plen ← access (i32_array_or (-1) lengths i);
      _ ← return_if (cap <? zlen buf + 4);
      buf ← put cap buf (wr32_be (to_u32 plen));
      v ← (if 0 <? plen then access (value_at values i) else mret None);
      match v with
      | Some v =>
          cap ← (if cap <? zlen buf + plen
                 then _ ← malloc_or_fail; mret (zlen buf + plen + 1024)
                 else mret cap);
          d ← access (mem_read v 0 plen);
          buf ← put cap buf d;
          put_cells n' (i + 1) lengths values cap buf
      | None => put_cells n' (i + 1) lengths values cap buf
      end
  end.

Definition send_data_row_multi (lengths : option (list Z))
    (values : option (list (option (list Z)))) (n_cols : Z) : send Z :=
  let cap := 64 + n_cols * 256 in
  _ ← malloc_or_fail;
  buf ← put cap [] (wr16_be n_cols);
  buf ← put_cells (Z.to_nat n_cols) 0 lengths values cap buf;
  emit (chr "D") (Some buf).
Definition pqwire_send_data_row_multi (ctx : option pqwire_ctx) (lengths : option (list Z))
    (values : option (list (option (list Z)))) (n_cols : Z) : option (Z * option pqwire_ctx) :=
  api ctx (send_data_row_multi lengths values n_cols).

Definition pqwire_send_command_complete (ctx : option pqwire_ctx) (tag : option (list Z)) :
    option (Z * option pqwire_ctx) :=
  api ctx (match tag with
           | None => λ c, (Ret, c)
           | Some tag => emit (chr "C") (Some (with_nul tag))
           end).

(** The macro [PUT_FIELD]. *)
Definition put_field (cap : Z) (buf : list Z) (code : Z) (str : list Z) : send (list Z) :=
  let l := zlen str + 1 in
  _ ← return_if (cap <=? zlen buf + 1 + l);
  buf ← put cap buf [code];
  put cap buf (with_nul str).

Definition send_error_response (severity sqlstate message : option (list Z)) : send Z :=
  let cap := 512 in
  buf ← put_field cap [] (chr "S") (str_or (bs "ERROR") severity);
  buf ← put_field cap buf (chr "C") (str_or (bs "XX000") sqlstate);
  buf ← put_field cap buf (chr "M") (str_or (bs "error") message);
  _ ← return_if (cap <=? zlen buf + 1);
  buf ← put cap buf [0];
  emit (chr "E") (Some buf).
Definition pqwire_send_error_response (ctx : option pqwire_ctx)
    (severity sqlstate message : option (list Z)) : option (Z * option pqwire_ctx) :=
  api ctx (send_error_response severity sqlstate message).
