(* ===== verification/SendSpec.v ===== *)
(** * SendSpec: what the message builders put on the wire

    For each builder the bytes it appends, as a pure function of its arguments, and the
    exact condition under which it succeeds, returns -1, or overruns its buffer. *)
From S2P Require Import Prelude Wire Ring Events Scram Ctx ParseSafe Feed FeedThms Send.

(** ** Running the builders *)
Lemma send_bind_Val {A B} (m : send A) (k : A → send B) c a c' :
  m c = (Val a, c') → (m ≫= k) c = k a c'.
Proof. intros E. unfold mbind, send_mbind. by rewrite E. Qed.

Lemma put_run {B} cap buf d (k : list Z → send B) c :
  zlen buf + zlen d ≤ cap → (put cap buf d ≫= k) c = k (buf ++ d) c.
Proof.
  intros H. apply send_bind_Val. unfold put. by rewrite (proj2 (Z.leb_le _ _)) by lia.
Qed.
Lemma put_end cap buf d c : zlen buf + zlen d ≤ cap → put cap buf d c = (Val (buf ++ d), c).
Proof. intros H. unfold put. by rewrite (proj2 (Z.leb_le _ _)) by lia. Qed.
Lemma return_if_run {B} b (k : unit → send B) c :
  (return_if b ≫= k) c = if b then (Ret, c) else k tt c.
Proof. by destruct b. Qed.
Lemma access_run {A B} (o : option A) a (k : A → send B) c :
  o = Some a → (access o ≫= k) c = k a c.
Proof. by intros ->. Qed.

Lemma api_run ctx m c z c' :
  ctx_wf c → ctx = Some c → run_send m c = Some (z, c') → api ctx m = Some (z, Some c').
Proof. intros Hwf -> Hr. unfold api. rewrite guard_ctx_valid by done. by rewrite Hr. Qed.
Lemma api_Val m c z c' : ctx_wf c → m c = (Val z, c') → api (Some c) m = Some (z, Some c').
Proof. intros Hwf E. eapply api_run; [done..|]. unfold run_send. by rewrite E. Qed.
Lemma api_Ret m c c' : ctx_wf c → m c = (Ret, c') → api (Some c) m = Some (-1, Some c').
Proof. intros Hwf E. eapply api_run; [done..|]. unfold run_send. by rewrite E. Qed.
Lemma api_Ub m c c' : ctx_wf c → m c = (Ub, c') → api (Some c) m = None.
Proof.
  intros Hwf E. unfold api. rewrite guard_ctx_valid by done. unfold run_send. by rewrite E.
Qed.

(** [c'] is [c] with [bytes] appended to its output. *)
Definition sends (c c' : pqwire_ctx) (bytes : list Z) : Prop :=
  ∃ cap, c' = set_output (output_buf c ++ bytes) cap [] c ∧ zlen (output_buf c ++ bytes) ≤ cap.

Lemma sends_wf c c' bytes : ctx_wf c → sends c c' bytes → ctx_wf c'.
Proof. intros Hwf (cap & -> & Hz). by apply ctx_wf_set_output. Qed.
Lemma sends_allocs c c' bytes : sends c c' bytes → allocs c' = [].
Proof. by intros (cap & -> & _). Qed.
Lemma sends_sess c c' bytes : sends c c' bytes → sess c' = sess c.
Proof. by intros (cap & -> & _). Qed.
Lemma sends_output c c' bytes : sends c c' bytes → output_buf c' = output_buf c ++ bytes.
Proof. by intros (cap & -> & _). Qed.
Lemma sends_trans c c1 c2 b1 b2 : sends c c1 b1 → sends c1 c2 b2 → sends c c2 (b1 ++ b2).
Proof.
  intros (cap1 & -> & H1) (cap2 & -> & H2). exists cap2. cbn [output_buf set_output] in *.
  rewrite <- !app_assoc in *. done.
Qed.

Section builders.
Context (c : pqwire_ctx) (Hwf : ctx_wf c) (Hal : allocs c = []).

Lemma emit_sends t p : ∃ c', emit t p c = (Val 0, c') ∧ sends c c' (frame t (default [] p)).
Proof using Hwf Hal.
  destruct (emit_msg_spec c t p) as (buf & cap & al & He & Hz & _ & Hn); [by destruct Hwf|].
  destruct (Hn Hal) as [-> ->]. unfold emit. rewrite He. eexists. split; [done|]. by exists cap.
Qed.

Lemma append_sends d : ∃ c', append d c = (Val tt, c') ∧ sends c c' d.
Proof using Hwf Hal.
  destruct (append_output_spec c d) as (buf & cap & al & He & Hz & _ & Hn & _); [by destruct Hwf|].
  destruct (Hn Hal) as [-> ->]. unfold append. rewrite He. eexists. split; [done|]. by exists cap.
Qed.

Lemma malloc_run {B} (k : unit → send B) : (malloc_or_fail ≫= k) c = k tt c.
Proof using Hwf Hal.
  unfold mbind, send_mbind, malloc_or_fail. rewrite Hal. cbn. unfold set_allocs.
  f_equal. destruct c. cbn in *. by subst.
Qed.

(** A builder that ends with [emit]. *)
Lemma api_emit m t p :
  m c = emit t (Some p) c → ∃ c', api (Some c) m = Some (0, Some c') ∧ sends c c' (frame t p).
Proof using Hwf Hal.
  intros E. destruct (emit_sends t (Some p)) as (c' & E' & Hs). exists c'. split; [|done].
  apply api_Val; [done|]. by rewrite E.
Qed.

(** *** The empty-bodied messages, Query, CommandComplete *)
Lemma send_empty_spec t :
  ∃ c', api (Some c) (emit t None) = Some (0, Some c') ∧ sends c c' (frame t []).
Proof using Hwf Hal.
  destruct (emit_sends t None) as (c' & E & Hs). exists c'. split; [|done]. by apply api_Val.
Qed.

Lemma send_query_spec sql :
  ∃ c', pqwire_send_query (Some c) (Some sql) = Some (0, Some c') ∧
        sends c c' (frame (chr "Q") (with_nul sql)).
Proof using Hwf Hal. by apply api_emit. Qed.

Lemma send_command_complete_spec tag :
  ∃ c', pqwire_send_command_complete (Some c) (Some tag) = Some (0, Some c') ∧
        sends c c' (frame (chr "C") (with_nul tag)).
Proof using Hwf Hal. by apply api_emit. Qed.

(** *** Describe, Close, Execute *)
Lemma zlen_with_nul s : zlen (with_nul s) = zlen s + 1.
Proof using. unfold with_nul. zl. Qed.
#[local] Hint Rewrite zlen_with_nul : zlen.

Lemma send_target_run t target name :
  send_target t target name c =
  (if zlen (str_or [] name) <=? 64 then emit t (Some (target :: with_nul (str_or [] name))) c
   else (Ret, c)).
Proof using.
  unfold send_target. change (PQWIRE_MAX_STMT_NAME + 2) with 66.
  set (n := str_or [] name). rewrite return_if_run.
  destruct (Z.leb_spec (zlen n) 64).
  - rewrite (proj2 (Z.ltb_ge _ _)) by lia. rewrite put_run by zl. rewrite put_run by zl. done.
  - by rewrite (proj2 (Z.ltb_lt _ _)) by lia.
Qed.

Lemma send_execute_run portal rows :
  send_execute portal rows c =
  (if zlen (str_or [] portal) <=? 67
   then emit (chr "E") (Some (with_nul (str_or [] portal) ++ wr32_be rows)) c
   else (Ret, c)).
Proof using.
  unfold send_execute. change (PQWIRE_MAX_PORTAL_NAME + 8) with 72.
  set (n := str_or [] portal). rewrite return_if_run.
  destruct (Z.leb_spec (zlen n) 67).
  - rewrite (proj2 (Z.ltb_ge _ _)) by lia. rewrite put_run by zl. rewrite put_run by zl. done.
  - by rewrite (proj2 (Z.ltb_lt _ _)) by lia.
Qed.
End builders.
#[export] Hint Rewrite zlen_with_nul : zlen.

(** ** Startup *)
Definition startup_payload (user database : list Z) : list Z :=
  wr32_be PQ_PROTO_3_0 ++ with_nul (bs "user") ++ with_nul user ++ with_nul (bs "database")
    ++ with_nul database ++ [0].
Definition startup_packet (user database : list Z) : list Z :=
  wr32_be (zlen (startup_payload user database) + 4) ++ startup_payload user database.

Lemma zlen_startup_payload u d : zlen (startup_payload u d) = 4 + 5 + (zlen u + 1) + 9 + (zlen d + 1) + 1.
Proof.
  unfold startup_payload. autorewrite with zlen.
  change (zlen (bs "user")) with 4. change (zlen (bs "database")) with 8. lia.
Qed.

(** What [pqwire_send_startup] does, for every length of the two strings. *)
Lemma send_startup_cases c user database :
  ctx_wf c → allocs c = [] → role (sess c) = PQWIRE_ROLE_CLIENT →
  let u := str_or [] user in
  let d := str_or [] database in
  if 498 <=? zlen u then pqwire_send_startup (Some c) user database = Some (-1, Some c)
  else if 490 <=? zlen u then pqwire_send_startup (Some c) user database = None
  else if 487 <=? zlen u + zlen d then pqwire_send_startup (Some c) user database = Some (-1, Some c)
  else ∃ c', pqwire_send_startup (Some c) user database = Some (0, Some c') ∧
             sends c c' (startup_packet u d).
Proof.
  intros Hwf Hal Hr u d. pose proof (zlen_nonneg u). pose proof (zlen_nonneg d).
  assert (Hpre : send_startup user database c =
    (let buf := (zrep 4 0 ++ wr32_be PQ_PROTO_3_0) ++ with_nul (bs "user") in
     (_ ← return_if (512 <=? 13 + (zlen u + 1));
      buf ← put 512 buf (with_nul u);
      buf ← put 512 buf (with_nul (bs "database"));
      _ ← return_if (512 <=? zlen buf + (zlen d + 1) + 1);
      buf ← put 512 buf (with_nul d);
      buf ← put 512 buf [0];
      buf ← access (mem_write buf 0 (wr32_be (to_u32 (zlen buf))));
      _ ← append buf;
      mret 0) c)).
  { unfold send_startup. rewrite return_if_run, Hr, bool_decide_true by done. cbn [negb].
    rewrite put_run by (vm_compute; discriminate). rewrite put_run by (vm_compute; discriminate).
    done. }
  cbn zeta in Hpre. rewrite return_if_run in Hpre.
  set (buf := (zrep 4 0 ++ wr32_be PQ_PROTO_3_0) ++ with_nul (bs "user")) in *.
  assert (Hb : zlen buf = 13) by done. assert (Hdb : zlen (bs "database") = 8) by done.
  destruct (Z.leb_spec 498 (zlen u)).
  { apply api_Ret; [done|]. rewrite Hpre, (proj2 (Z.leb_le _ _)) by lia. done. }
  rewrite (proj2 (Z.leb_gt 512 _)) in Hpre by lia. rewrite put_run in Hpre by zl.
  destruct (Z.leb_spec 490 (zlen u)).
  { apply (api_Ub _ _ c); [done|]. rewrite Hpre. unfold mbind, send_mbind. unfold put at 1.
    rewrite (proj2 (Z.leb_gt _ _)) by zl. done. }
  rewrite put_run in Hpre by zl. rewrite return_if_run in Hpre.
  assert (Hb2 : zlen ((buf ++ with_nul u) ++ with_nul (bs "database")) = 23 + zlen u) by zl.
  rewrite Hb2 in Hpre.
  destruct (Z.leb_spec 487 (zlen u + zlen d)).
  { apply api_Ret; [done|]. rewrite Hpre, (proj2 (Z.leb_le _ _)) by lia. done. }
  rewrite (proj2 (Z.leb_gt 512 _)) in Hpre by lia.
  rewrite put_run in Hpre by zl. rewrite put_run in Hpre by zl.
  assert (Hfull : (((buf ++ with_nul u) ++ with_nul (bs "database")) ++ with_nul d) ++ [0]
                  = zrep 4 0 ++ startup_payload u d).
  { unfold buf, startup_payload. by rewrite <- !app_assoc. }
  rewrite Hfull in Hpre.
  assert (Hlen : zlen (zrep 4 0 ++ startup_payload u d) = zlen (startup_payload u d) + 4).
  { rewrite zlen_app. change (zlen (zrep 4 0)) with 4. lia. }
  pose proof (zlen_startup_payload u d).
  rewrite (access_run _ (startup_packet u d)) in Hpre.
  2:{ rewrite Hlen, to_u32_small by lia. rewrite mem_write_Some by zl.
      rewrite ztake_0. unfold startup_packet. cbn [app]. do 2 f_equal. }
  destruct (append_sends c Hwf Hal (startup_packet u d)) as (c' & Ha & Hs).
  exists c'. split; [|done]. apply api_Val; [done|]. rewrite Hpre.
  by rewrite (send_bind_Val _ _ _ _ _ Ha).
Qed.

(** ** Array-copying loops *)
Definition cat {A} (f : A → list Z) (l : list A) : list Z := concat (f <$> l).

Lemma cat_cons {A} (f : A → list Z) x l : cat f (x :: l) = f x ++ cat f l.
Proof. done. Qed.

Lemma zlen_cat_const {A} (f : A → list Z) n l :
  (∀ x, zlen (f x) = n) → zlen (cat f l) = n * zlen l.
Proof.
  intros Hf. induction l as [|x l IH]; [by rewrite (zlen_nil (A:=A)), Z.mul_0_r|].
  rewrite cat_cons, zlen_app, Hf, IH, zlen_cons. lia.
Qed.

Definition be16 (v : Z) : list Z := wr16_be (to_u16 v).

Lemma zlen_cat_be16 l : zlen (cat be16 l) = 2 * zlen l.
Proof. by apply zlen_cat_const. Qed.
Lemma zlen_cat_wr32 l : zlen (cat wr32_be l) = 4 * zlen l.
Proof. by apply zlen_cat_const. Qed.
#[export] Hint Rewrite zlen_cat_be16 zlen_cat_wr32 : zlen.

Lemma zget_middle {A} (pre : list A) x l : zget (pre ++ x :: l) (zlen pre) = Some x.
Proof. rewrite zget_app_r by lia. by rewrite Z.sub_diag. Qed.

Lemma zlen_snoc {A} (l : list A) x : zlen (l ++ [x]) = zlen l + 1.
Proof. zl. Qed.

Lemma put_oids_run vs pre cap buf c :
  zlen buf + 4 * zlen vs ≤ cap →
  put_oids (length vs) (zlen pre) (Some (pre ++ vs)) cap buf c = (Val (buf ++ cat wr32_be vs), c).
Proof.
  revert pre buf. induction vs as [|v vs IH]; intros pre buf Hc.
  - cbn. by rewrite app_nil_r.
  - rewrite zlen_cons in Hc. pose proof (zlen_nonneg vs). cbn [length put_oids].
    rewrite (access_run _ v) by apply zget_middle. rewrite put_run by zl.
    rewrite <- (zlen_snoc pre v), (cons_middle v pre vs), app_assoc.
    rewrite IH by zl. by rewrite <- app_assoc.
Qed.

Lemma put_formats_run vs pre cap buf c :
  zlen buf + 2 * zlen vs ≤ cap →
  put_formats (length vs) (zlen pre) (Some (pre ++ vs)) cap buf c = (Val (buf ++ cat be16 vs), c).
Proof.
  revert pre buf. induction vs as [|v vs IH]; intros pre buf Hc.
  - cbn. by rewrite app_nil_r.
  - rewrite zlen_cons in Hc. pose proof (zlen_nonneg vs). cbn [length put_formats].
    rewrite (access_run _ v) by apply zget_middle.
    rewrite put_run by (autorewrite with zlen; unfold be16; zl).
    rewrite <- (zlen_snoc pre v), (cons_middle v pre vs), app_assoc.
    rewrite IH by zl. by rewrite <- app_assoc.
Qed.

(** ** Parse *)
Definition parse_payload (statement query : list Z) (oids : list Z) : list Z :=
  with_nul statement ++ with_nul query ++ wr16_be (zlen oids) ++ cat wr32_be oids.

Lemma zlen_to_nat {A} (l : list A) : Z.to_nat (zlen l) = length l.
Proof. unfold zlen. lia. Qed.

Lemma send_parse_spec c statement query oids :
  ctx_wf c → allocs c = [] →
  let st := str_or [] statement in
  if 4352 <? zlen (parse_payload st query oids)
  then pqwire_send_parse (Some c) statement (Some query) (Some oids) (zlen oids) = Some (-1, Some c)
  else ∃ c', pqwire_send_parse (Some c) statement (Some query) (Some oids) (zlen oids)
               = Some (0, Some c') ∧ sends c c' (frame (chr "P") (parse_payload st query oids)).
Proof.
  intros Hwf Hal st.
  assert (Hz : zlen (parse_payload st query oids) = zlen st + 1 + (zlen query + 1) + 2 + zlen oids * 4)
    by (unfold parse_payload; zl).
  rewrite Hz. pose proof (zlen_nonneg oids). pose proof (zlen_nonneg st). pose proof (zlen_nonneg query).
  assert (Hrun : send_parse statement query (Some oids) (zlen oids) c =
    if 4352 <? zlen st + 1 + (zlen query + 1) + 2 + zlen oids * 4 then (Ret, c)
    else emit (chr "P") (Some (parse_payload st query oids)) c).
  { unfold send_parse. change (PQWIRE_MAX_QUERY_LEN + 256) with 4352.
    rewrite return_if_run. fold st. destruct (Z.ltb_spec 4352 (zlen st + 1 + (zlen query + 1) + 2 + zlen oids * 4));
      [done|].
    rewrite put_run by zl. rewrite put_run by zl. rewrite put_run by zl.
    rewrite zlen_to_nat. erewrite send_bind_Val; [|apply (put_oids_run oids []); zl].
    unfold parse_payload. by rewrite <- !app_assoc. }
  destruct (4352 <? _).
  - by apply api_Ret.
  - by apply api_emit.
Qed.

(** ** Bind *)

(** The lengths array that describes the parameters: -1 for NULL. *)
Definition param_length (p : option (list Z)) : Z :=
  match p with Some d => zlen d | None => -1 end.
Definition param_bytes (p : option (list Z)) : list Z :=
  wr32_be (to_u32 (param_length p)) ++ default [] p.

(** The parameter loop's capacity checks: the final capacity and length, or [None] where the
    code gives up although a [realloc] would have made room. *)
Fixpoint values_fit (cap p : Z) (ps : list (option (list Z))) : option (Z * Z) :=
  match ps with
  | [] => Some (cap, p)
  | v :: ps =>
      if cap <? p + 4 then None
      else let p := p + 4 in
           let n := zlen (default [] v) in
           if (0 <? n) && (cap <? p + n) then values_fit (p + n + 1024) (p + n) ps
           else values_fit cap (p + n) ps
  end.

Lemma to_nat_length {A} (l : list A) : Z.of_nat (length l) = zlen l.
Proof. done. Qed.

Lemma mem_read_all (v : list Z) : mem_read v 0 (zlen v) = Some v.
Proof.
  pose proof (zlen_nonneg v). rewrite mem_read_Some by lia.
  by rewrite zdrop_0, ztake_all by lia.
Qed.

(** A value whose length is an [int32_t]. *)
Definition len_ok (p : option (list Z)) : Prop := zlen (default [] p) < 2 ^ 31.

Lemma i32_param_length pre p ls :
  len_ok p → i32_array_or (-1) (Some (pre ++ param_length p :: ls)) (zlen pre) = Some (param_length p).
Proof.
  intros Hp. unfold i32_array_or, array_or. rewrite zget_middle. cbn. f_equal.
  destruct p as [d|]; [|done]. unfold len_ok in Hp. change (default [] (Some d)) with d in Hp.
  pose proof (zlen_nonneg d). apply to_i32_small. cbn. lia.
Qed.

(** The capacity after the value of [p] has been given room, [n] being the length so far. *)
Definition value_cap (cap n : Z) (p : option (list Z)) : Z :=
  let l := zlen (default [] p) in
  if (0 <? l) && (cap <? n + l) then n + l + 1024 else cap.

Lemma values_fit_cons cap n p ps :
  values_fit cap n (p :: ps) =
  if cap <? n + 4 then None else values_fit (value_cap cap (n + 4) p) (n + 4 + zlen (default [] p)) ps.
Proof.
  cbn [values_fit]. unfold value_cap. destruct (cap <? n + 4); [done|]. by destruct (_ && _).
Qed.

(** One turn of the parameter loop. *)
Lemma put_values_turn heap n pre ls vpre vs p cap buf c :
  allocs c = [] → ctx_wf c → zlen pre = zlen vpre → len_ok p →
  put_values (S n) (zlen pre) heap (Some (pre ++ param_length p :: ls)) (Some (vpre ++ p :: vs)) cap buf c
  = if cap <? zlen buf + 4 then (Ret, c)
    else put_values n (zlen pre + 1) heap (Some (pre ++ param_length p :: ls)) (Some (vpre ++ p :: vs))
           (value_cap cap (zlen buf + 4) p) (buf ++ param_bytes p) c.
Proof.
  intros Hal Hwf Hpre Hp. cbn [put_values]. rewrite (access_run _ _ _ c (i32_param_length pre p ls Hp)).
  rewrite return_if_run. destruct (Z.ltb_spec cap (zlen buf + 4)); [done|]. rewrite put_run by zl.
  assert (Hz4 : zlen (buf ++ wr32_be (to_u32 (param_length p))) = zlen buf + 4) by zl.
  unfold value_cap, param_bytes. destruct p as [d|]; cbn [param_length] in *.
  2:{ change (0 <? -1) with false. by rewrite app_nil_r. }
  change (default [] (Some d)) with d. rewrite app_assoc. destruct (Z.ltb_spec 0 (zlen d)) as [Hd|Hd]; cbn [andb].
  2:{ destruct d; [by rewrite app_nil_r|zlia]. }
  assert (Hv : access (value_at (Some (vpre ++ Some d :: vs)) (zlen pre)) c = (Val (Some d), c)).
  { unfold access. cbn [value_at]. rewrite Hpre, zget_middle. done. }
  rewrite Hz4. destruct (Z.ltb_spec cap (zlen buf + 4 + zlen d)).
  - erewrite send_bind_Val by (rewrite malloc_run by done; done).
    rewrite (send_bind_Val _ _ _ _ _ Hv). erewrite send_bind_Val; [done|].
    rewrite (access_run _ d) by apply mem_read_all. apply put_end. zl.
  - erewrite send_bind_Val by done. rewrite (send_bind_Val _ _ _ _ _ Hv).
    erewrite send_bind_Val; [done|]. rewrite (access_run _ d) by apply mem_read_all. apply put_end. zl.
Qed.

Lemma zlen_param_bytes p : zlen (param_bytes p) = 4 + zlen (default [] p).
Proof. unfold param_bytes. zl. Qed.
#[export] Hint Rewrite zlen_param_bytes : zlen.

Lemma value_cap_enough cap n p : n ≤ cap → n + zlen (default [] p) ≤ value_cap cap n p.
Proof.
  intros. unfold value_cap. pose proof (zlen_nonneg (default [] p)).
  destruct (Z.ltb_spec 0 (zlen (default [] p))), (Z.ltb_spec cap (n + zlen (default [] p))); cbn [andb]; lia.
Qed.

Lemma put_values_run heap ps pre vpre cap buf c :
  allocs c = [] → ctx_wf c → zlen buf ≤ cap → zlen pre = zlen vpre → Forall len_ok ps →
  put_values (length ps) (zlen pre) heap (Some (pre ++ (param_length <$> ps)))
    (Some (vpre ++ ps)) cap buf c
  = match values_fit cap (zlen buf) ps with
    | Some (cap', _) => (Val (cap', buf ++ cat param_bytes ps), c)
    | None => (Ret, c)
    end ∧ (∀ cap' p', values_fit cap (zlen buf) ps = Some (cap', p') →
           p' = zlen (buf ++ cat param_bytes ps) ∧ p' ≤ cap').
Proof.
  intros Hal Hwf Hb Hp Hps. revert pre vpre cap buf Hb Hp.
  induction Hps as [|v ps Hv Hps IH]; intros pre vpre cap buf Hb Hp.
  - cbn. rewrite app_nil_r. split; [done|]. intros ?? E. by simplify_eq.
  - cbn [length fmap list_fmap]. rewrite put_values_turn, values_fit_cons by done.
    destruct (Z.ltb_spec cap (zlen buf + 4)); [done|].
    assert (Hz : zlen (buf ++ param_bytes v) = zlen buf + 4 + zlen (default [] v)) by zl.
    destruct (IH (pre ++ [param_length v]) (vpre ++ [v]) (value_cap cap (zlen buf + 4) v) (buf ++ param_bytes v))
      as [IH1 IH2]; [rewrite Hz; apply value_cap_enough; lia|zl|].
    rewrite zlen_snoc, <- !app_assoc in IH1. rewrite Hz in IH1, IH2. rewrite cat_cons, app_assoc.
    split; [|exact IH2]. cbn [app] in IH1. rewrite IH1. by rewrite app_assoc.
Qed.

Definition bind_payload (portal statement : list Z) (fmts : list Z) (ps : list (option (list Z)))
    (rfmts : list Z) : list Z :=
  with_nul portal ++ with_nul statement ++ wr16_be (zlen fmts) ++ cat be16 fmts
    ++ wr16_be (zlen ps) ++ cat param_bytes ps ++ wr16_be (zlen rfmts) ++ cat be16 rfmts.

(** The capacity checks of [pqwire_send_bind], all of them. *)
Definition bind_fits (portal statement fmts : list Z) (ps : list (option (list Z)))
    (rfmts : list Z) : bool :=
  let cap := 64 + zlen ps * 256 in
  let p := zlen portal + 1 + (zlen statement + 1) + 2 + zlen fmts * 2 + 2 in
  (p <=? cap) &&
  match values_fit cap p ps with
  | Some (cap, p) => p + 2 + zlen rfmts * 2 <=? cap
  | None => false
  end.

(** The call, with arrays that describe [fmts], [ps] and [rfmts]. *)
Definition call_send_bind (heap : Z → Z) (ctx : option pqwire_ctx) (portal statement fmts : list Z)
    (ps : list (option (list Z))) (rfmts : list Z) : option (Z * option pqwire_ctx) :=
  pqwire_send_bind heap ctx (Some portal) (Some statement) (Some fmts) (zlen fmts)
    (Some (param_length <$> ps)) (Some ps) (zlen ps) (Some rfmts) (zlen rfmts).

Lemma send_bind_run heap c portal statement fmts ps rfmts :
  ctx_wf c → allocs c = [] → Forall len_ok ps →
  send_bind_msg heap (Some portal) (Some statement) (Some fmts) (zlen fmts)
    (Some (param_length <$> ps)) (Some ps) (zlen ps) (Some rfmts) (zlen rfmts) c
  = if bind_fits portal statement fmts ps rfmts
    then emit (chr "B") (Some (bind_payload portal statement fmts ps rfmts)) c
    else (Ret, c).
Proof.
  intros Hwf Hal Hps. unfold send_bind_msg, bind_fits.
  change (str_or [] (Some portal)) with portal. change (str_or [] (Some statement)) with statement.
  rewrite malloc_run by done. set (cap := 64 + zlen ps * 256).
  pose proof (zlen_nonneg portal). pose proof (zlen_nonneg statement).
  pose proof (zlen_nonneg fmts). pose proof (zlen_nonneg ps). pose proof (zlen_nonneg rfmts).
  set (p := zlen portal + 1 + (zlen statement + 1) + 2 + zlen fmts * 2 + 2).
  rewrite return_if_run. destruct (Z.ltb_spec cap (0 + (zlen portal + 1) + (zlen statement + 1))).
  { by rewrite (proj2 (Z.leb_gt p cap)) by lia. }
  rewrite put_run by zl. rewrite put_run by zl. rewrite return_if_run.
  assert (Hz1 : zlen (([] ++ with_nul portal) ++ with_nul statement) = p - 4 - zlen fmts * 2)
    by (unfold p; zl).
  rewrite Hz1. destruct (Z.ltb_spec cap (p - 4 - zlen fmts * 2 + 2 + zlen fmts * 2)).
  { by rewrite (proj2 (Z.leb_gt p cap)) by lia. }
  rewrite put_run by zl. rewrite (zlen_to_nat fmts).
  erewrite send_bind_Val by (apply (put_formats_run fmts []); zl).
  rewrite return_if_run.
  set (buf := ((([] ++ with_nul portal) ++ with_nul statement) ++ wr16_be (zlen fmts)) ++ cat be16 fmts).
  assert (Hz2 : zlen buf = p - 2) by (unfold buf; rewrite !zlen_app, zlen_cat_be16; revert Hz1; zl).
  rewrite Hz2. replace (p - 2 + 2) with p by lia.
  destruct (Z.ltb_spec cap p); [by rewrite (proj2 (Z.leb_gt p cap)) by lia|].
  rewrite (proj2 (Z.leb_le p cap)) by lia. cbn [andb].
  rewrite put_run by zl. rewrite (zlen_to_nat ps).
  assert (Hz3 : zlen (buf ++ wr16_be (zlen ps)) = p) by zl.
  destruct (put_values_run heap ps [] [] cap (buf ++ wr16_be (zlen ps)) c) as [Hv1 Hv2];
    [done|done|lia|done|done|]. rewrite Hz3 in Hv1, Hv2. cbn [app] in Hv1. change (zlen (@nil Z)) with 0 in Hv1.
  destruct (values_fit cap p ps) as [[cap' p']|].
  2:{ unfold mbind at 1, send_mbind at 1. by rewrite Hv1. }
  destruct (Hv2 _ _ eq_refl) as [Hp' Hc'].
  set (buf2 := (buf ++ wr16_be (zlen ps)) ++ cat param_bytes ps) in *.
  rewrite (send_bind_Val _ _ _ _ _ Hv1). rewrite return_if_run, <- Hp'.
  destruct (Z.ltb_spec cap' (p' + 2 + zlen rfmts * 2)).
  { by rewrite (proj2 (Z.leb_gt _ cap')) by lia. }
  rewrite (proj2 (Z.leb_le _ cap')) by lia.
  rewrite put_run by zl. rewrite (zlen_to_nat rfmts).
  erewrite send_bind_Val by (apply (put_formats_run rfmts []); zl).
  unfold bind_payload, buf2, buf. by rewrite <- !app_assoc.
Qed.

Lemma send_bind_spec heap c portal statement fmts ps rfmts :
  ctx_wf c → allocs c = [] → Forall len_ok ps →
  if bind_fits portal statement fmts ps rfmts
  then ∃ c', call_send_bind heap (Some c) portal statement fmts ps rfmts = Some (0, Some c') ∧
             sends c c' (frame (chr "B") (bind_payload portal statement fmts ps rfmts))
  else call_send_bind heap (Some c) portal statement fmts ps rfmts = Some (-1, Some c).
Proof.
  intros Hwf Hal Hps. pose proof (send_bind_run heap c portal statement fmts ps rfmts Hwf Hal Hps) as Hr.
  destruct (bind_fits _ _ _ _ _); [by apply api_emit|by apply api_Ret].
Qed.

(** ** RowDescription *)
Definition column_bytes (col : pq_column_desc_t (list Z)) : list Z :=
  with_nul (str_or [] (cd_name col)) ++ wr32_be 0 ++ wr16_be 0 ++ wr32_be (cd_oid col)
    ++ wr16_be 4 ++ wr32_be (to_u32 (-1)) ++ be16 (cd_format col).
Definition row_desc_payload (cols : list (pq_column_desc_t (list Z))) : list Z :=
  wr16_be (zlen cols) ++ cat column_bytes cols.

Lemma zlen_column_bytes col : zlen (column_bytes col) = zlen (str_or [] (cd_name col)) + 1 + 18.
Proof. unfold column_bytes, be16. zl. Qed.
#[export] Hint Rewrite zlen_column_bytes : zlen.

Lemma put_columns_run cols pre cap buf c :
  zlen buf + zlen (cat column_bytes cols) ≤ cap →
  put_columns (length cols) (zlen pre) (pre ++ cols) cap buf c
  = (Val (buf ++ cat column_bytes cols), c).
Proof.
  revert pre buf. induction cols as [|v vs IH]; intros pre buf Hc.
  - cbn. by rewrite app_nil_r.
  - rewrite cat_cons, zlen_app, zlen_column_bytes in Hc.
    pose proof (zlen_nonneg (cat column_bytes vs)). cbn [length put_columns].
    rewrite (access_run _ v) by apply zget_middle.
    rewrite return_if_run, (proj2 (Z.ltb_ge _ _)) by lia.
    do 7 (rewrite put_run by zl).
    rewrite <- (zlen_snoc pre v), (cons_middle v pre vs), app_assoc.
    assert (Hb : ((((((buf ++ with_nul (str_or [] (cd_name v))) ++ wr32_be 0) ++ wr16_be 0)
                ++ wr32_be (cd_oid v)) ++ wr16_be 4) ++ wr32_be (to_u32 (-1)))
                ++ wr16_be (to_u16 (cd_format v)) = buf ++ column_bytes v).
    { unfold column_bytes, be16. by rewrite <- !app_assoc. }
    rewrite Hb, IH by zl. by rewrite <- app_assoc.
Qed.

Lemma send_row_description_spec c cols :
  ctx_wf c → allocs c = [] → zlen cols ≤ 16 → zlen (row_desc_payload cols) ≤ 2048 →
  ∃ c', pqwire_send_row_description (Some c) (Some cols) (zlen cols) = Some (0, Some c') ∧
        sends c c' (frame (chr "T") (row_desc_payload cols)).
Proof.
  intros Hwf Hal Hn Hz. apply api_emit; [done..|]. unfold send_row_description.
  unfold PQWIRE_MAX_ROW_COLUMNS. pose proof (zlen_nonneg cols).
  rewrite (proj2 (Z.ltb_ge _ _)) by lia. rewrite to_u16_small by lia.
  unfold row_desc_payload in *. rewrite zlen_app, zlen_wr16_be in Hz.
  rewrite put_run by zl. rewrite zlen_to_nat.
  erewrite send_bind_Val by (apply (put_columns_run cols []); zl). done.
Qed.

(** ** DataRow *)
Definition data_row_payload (ps : list (option (list Z))) : list Z :=
  wr16_be (zlen ps) ++ cat param_bytes ps.

Lemma put_cells_turn n pre ls vpre vs p cap buf c :
  allocs c = [] → ctx_wf c → zlen pre = zlen vpre → len_ok p →
  put_cells (S n) (zlen pre) (Some (pre ++ param_length p :: ls)) (Some (vpre ++ p :: vs)) cap buf c
  = if cap <? zlen buf + 4 then (Ret, c)
    else put_cells n (zlen pre + 1) (Some (pre ++ param_length p :: ls)) (Some (vpre ++ p :: vs))
           (value_cap cap (zlen buf + 4) p) (buf ++ param_bytes p) c.
Proof.
  intros Hal Hwf Hpre Hp. cbn [put_cells]. rewrite (access_run _ _ _ c (i32_param_length pre p ls Hp)).
  rewrite return_if_run. destruct (Z.ltb_spec cap (zlen buf + 4)); [done|]. rewrite put_run by zl.
  assert (Hz4 : zlen (buf ++ wr32_be (to_u32 (param_length p))) = zlen buf + 4) by zl.
  unfold value_cap, param_bytes. destruct p as [d|]; cbn [param_length] in *.
  2:{ change (0 <? -1) with false. erewrite send_bind_Val by done. by rewrite app_nil_r. }
  change (default [] (Some d)) with d. rewrite app_assoc. destruct (Z.ltb_spec 0 (zlen d)) as [Hd|Hd]; cbn [andb].
  2:{ erewrite send_bind_Val by done. destruct d; [by rewrite app_nil_r|zlia]. }
  assert (Hv : access (value_at (Some (vpre ++ Some d :: vs)) (zlen pre)) c = (Val (Some d), c)).
  { unfold access. cbn [value_at]. rewrite Hpre, zget_middle. done. }
  rewrite (send_bind_Val _ _ _ _ _ Hv), Hz4. destruct (Z.ltb_spec cap (zlen buf + 4 + zlen d)).
  - erewrite send_bind_Val by (rewrite malloc_run by done; done).
    rewrite (access_run _ d) by apply mem_read_all. by rewrite put_run by zl.
  - erewrite send_bind_Val by done.
    rewrite (access_run _ d) by apply mem_read_all. by rewrite put_run by zl.
Qed.

Lemma put_cells_run ps pre vpre cap buf c :
  allocs c = [] → ctx_wf c → zlen buf ≤ cap → zlen pre = zlen vpre → Forall len_ok ps →
  put_cells (length ps) (zlen pre) (Some (pre ++ (param_length <$> ps)))
    (Some (vpre ++ ps)) cap buf c
  = match values_fit cap (zlen buf) ps with
    | Some _ => (Val (buf ++ cat param_bytes ps), c)
    | None => (Ret, c)
    end.
Proof.
  intros Hal Hwf Hb Hp Hps. revert pre vpre cap buf Hb Hp.
  induction Hps as [|v ps Hv Hps IH]; intros pre vpre cap buf Hb Hp.
  - cbn. by rewrite app_nil_r.
  - cbn [length fmap list_fmap]. rewrite put_cells_turn, values_fit_cons by done.
    destruct (Z.ltb_spec cap (zlen buf + 4)); [done|].
    assert (Hz : zlen (buf ++ param_bytes v) = zlen buf + 4 + zlen (default [] v)) by zl.
    pose proof (IH (pre ++ [param_length v]) (vpre ++ [v]) (value_cap cap (zlen buf + 4) v) (buf ++ param_bytes v))
      as IH1.
    rewrite zlen_snoc, <- !app_assoc in IH1. rewrite Hz, cat_cons in *. cbn [app] in IH1.
    apply IH1; [apply value_cap_enough; lia|zl].
Qed.

Definition row_fits (ps : list (option (list Z))) : bool :=
  bool_decide (is_Some (values_fit (64 + zlen ps * 256) 2 ps)).

Definition call_send_data_row_multi (ctx : option pqwire_ctx) (ps : list (option (list Z))) :
    option (Z * option pqwire_ctx) :=
  pqwire_send_data_row_multi ctx (Some (param_length <$> ps)) (Some ps) (zlen ps).

Lemma send_data_row_multi_spec c ps :
  ctx_wf c → allocs c = [] → Forall len_ok ps →
  if row_fits ps
  then ∃ c', call_send_data_row_multi (Some c) ps = Some (0, Some c') ∧
             sends c c' (frame (chr "D") (data_row_payload ps))
  else call_send_data_row_multi (Some c) ps = Some (-1, Some c).
Proof.
  intros Hwf Hal Hps. unfold row_fits. pose proof (zlen_nonneg ps).
  assert (Hrun : send_data_row_multi (Some (param_length <$> ps)) (Some ps) (zlen ps) c
    = match values_fit (64 + zlen ps * 256) 2 ps with
      | Some _ => emit (chr "D") (Some (data_row_payload ps)) c
      | None => (Ret, c)
      end).
  { unfold send_data_row_multi. rewrite malloc_run by done. rewrite put_run by zl.
    rewrite zlen_to_nat.
    pose proof (put_cells_run ps [] [] (64 + zlen ps * 256) ([] ++ wr16_be (zlen ps)) c Hal Hwf) as Hc.
    change (zlen ([] ++ wr16_be (zlen ps))) with 2 in Hc. specialize (Hc ltac:(lia) eq_refl Hps).
    change (zlen (@nil Z)) with 0 in Hc. cbn [app] in Hc |- *.
    destruct (values_fit _ _ _).
    - by rewrite (send_bind_Val _ _ _ _ _ Hc).
    - unfold mbind at 1, send_mbind at 1. by rewrite Hc. }
  destruct (values_fit _ _ _).
  - rewrite bool_decide_true by done. by apply api_emit.
  - rewrite bool_decide_false by (by intros []). by apply api_Ret.
Qed.

(** ** ErrorResponse *)
Definition error_payload (severity sqlstate message : list Z) : list Z :=
  (chr "S" :: with_nul severity) ++ (chr "C" :: with_nul sqlstate)
    ++ (chr "M" :: with_nul message) ++ [0].

Lemma put_field_run {B} cap buf code str (k : list Z → send B) c :
  (put_field cap buf code str ≫= k) c
  = if cap <=? zlen buf + 1 + (zlen str + 1) then (Ret, c) else k (buf ++ code :: with_nul str) c.
Proof.
  unfold put_field. destruct (Z.leb_spec cap (zlen buf + 1 + (zlen str + 1))) as [Hf|Hf].
  - done.
  - pose proof (zlen_nonneg str). erewrite send_bind_Val.
    2:{ rewrite return_if_run. rewrite put_run by zl. apply put_end. zl. }
    by rewrite <- app_assoc.
Qed.

Lemma send_error_response_spec c severity sqlstate message :
  ctx_wf c → allocs c = [] →
  let p := error_payload (str_or (bs "ERROR") severity) (str_or (bs "XX000") sqlstate)
             (str_or (bs "error") message) in
  if 512 <=? zlen p
  then pqwire_send_error_response (Some c) severity sqlstate message = Some (-1, Some c)
  else ∃ c', pqwire_send_error_response (Some c) severity sqlstate message = Some (0, Some c') ∧
             sends c c' (frame (chr "E") p).
Proof.
  intros Hwf Hal. set (s := str_or _ severity). set (q := str_or _ sqlstate).
  set (m := str_or _ message). intros p.
  pose proof (zlen_nonneg s). pose proof (zlen_nonneg q). pose proof (zlen_nonneg m).
  assert (Hz : zlen p = 2 + zlen s + (2 + zlen q) + (2 + zlen m) + 1)
    by (unfold p, error_payload; zl).
  assert (Hrun : send_error_response severity sqlstate message c =
    if 512 <=? zlen p then (Ret, c) else emit (chr "E") (Some p) c).
  { unfold send_error_response. fold s. fold q. fold m.
    rewrite put_field_run. change (zlen []) with 0.
    destruct (Z.leb_spec 512 (zlen p)) as [Hf|Hf].
    - destruct (Z.leb_spec 512 (0 + 1 + (zlen s + 1))); [done|].
      rewrite put_field_run. assert (Hb : zlen ([] ++ chr "S" :: with_nul s) = 2 + zlen s) by zl.
      rewrite Hb. destruct (Z.leb_spec 512 (2 + zlen s + 1 + (zlen q + 1))); [done|].
      rewrite put_field_run.
      assert (Hb2 : zlen (([] ++ chr "S" :: with_nul s) ++ chr "C" :: with_nul q)
                    = 2 + zlen s + (2 + zlen q)) by zl.
      rewrite Hb2. destruct (Z.leb_spec 512 (2 + zlen s + (2 + zlen q) + 1 + (zlen m + 1))); [done|].
      rewrite return_if_run. rewrite (proj2 (Z.leb_le _ _)) by zl. done.
    - rewrite (proj2 (Z.leb_gt _ _)) by lia.
      rewrite put_field_run, (proj2 (Z.leb_gt _ _)) by zl.
      rewrite put_field_run, (proj2 (Z.leb_gt _ _)) by zl.
      rewrite return_if_run, (proj2 (Z.leb_gt _ _)) by zl.
      rewrite put_run by zl. unfold p, error_payload. by rewrite <- !app_assoc. }
  destruct (512 <=? zlen p); [by apply api_Ret|by apply api_emit].
Qed.
