(* ===== verification/Roundtrip.v ===== *)
(** * Roundtrip: what one side sends is what the other side's event says

    For each builder, the bytes it puts on the wire, fed to a receiving context of the peer
    role, produce the event with the sender's arguments: exactly, or truncated to the
    capacity of the event's arrays. *)
From S2P Require Import Prelude Wire Ring Events Scram Ctx Parse ParseSafe Feed FeedSpec FeedThms.
From S2P Require Import Send SendSpec.

(** ** Helpers *)
Lemma last_push_bounded {A} cap (q : list A) x : list.last (push_bounded cap q x) = Some x.
Proof. unfold push_bounded. apply last_snoc. Qed.

Lemma enqueue_last s ev :
  session_wf s → event_in_arena (row_arena_used s) ev →
  ∃ r, enqueue_event s ev = Some (set_event_ring r s) ∧
       list.last (queued (set_event_ring r s)) = Some ev.
Proof.
  intros Hwf Hev. destruct (enqueue_event_spec s ev Hwf Hev) as (r & He & _ & _ & Hq).
  exists r. split; [done|]. rewrite Hq. apply last_push_bounded.
Qed.

Ltac no_row := (unfold event_in_arena; cbn; exact I).

Lemma with_nul_ok s : cstr_ok s → bytes_ok (with_nul s).
Proof.
  intros Hs. apply bytes_ok_app. split; [by apply cstr_ok_bytes|]. repeat constructor; lia.
Qed.

Lemma read_cstr_with_nul s rest avail :
  cstr_ok s → zlen s < avail →
  read_cstr (with_nul s ++ rest) 0 avail = Some (Some (s, zlen s + 1)).
Proof.
  intros Hs Ha. unfold with_nul. rewrite <- app_assoc. by apply (read_cstr_app []).
Qed.

(** A string at an offset of the body. *)
Lemma read_at_str pre s rest off :
  cstr_ok s → off = zlen pre → zlen (pre ++ with_nul s ++ rest) < 2 ^ 64 →
  read_at (pre ++ with_nul s ++ rest) off = Some (Some (s, zlen s + 1)).
Proof.
  intros Hs -> Hb. unfold read_at. pose proof (zlen_nonneg pre). pose proof (zlen_nonneg rest).
  pose proof (zlen_nonneg s). rewrite !zlen_app, zlen_with_nul in *.
  rewrite size_sub_small by lia. unfold with_nul. rewrite <- app_assoc.
  apply read_cstr_app; [done|done|lia].
Qed.
Lemma read_or_return_str pre s rest off :
  cstr_ok s → off = zlen pre → zlen (pre ++ with_nul s ++ rest) < 2 ^ 64 →
  read_or_return (pre ++ with_nul s ++ rest) off = Val (s, zlen s + 1).
Proof. intros. unfold read_or_return. by rewrite read_at_str. Qed.

Lemma read_or_return_first s rest :
  cstr_ok s → zlen (with_nul s ++ rest) < 2 ^ 64 →
  read_or_return (with_nul s ++ rest) 0 = Val (s, zlen s + 1).
Proof. intros. by apply (read_or_return_str []). Qed.

(** The arrays an event copies strings into. *)
Lemma cstr_of_copy dst n s : 0 < n → cstr_ok s → cstr_of (copy_cstr dst n (Some s)) = ztake (n - 1) s.
Proof. apply cstr_of_copy_cstr. Qed.

(** A message goes through: sent by a builder of [c], fed to [r], its last event is as
    [post] says of the receiver afterwards. *)
Definition delivers (c r : pqwire_ctx) (sent : option (Z * option pqwire_ctx))
    (post : pqwire_ctx → protocol_event_t → Prop) : Prop :=
  ∃ c' bytes r' ev,
    sent = Some (0, Some c') ∧ output_buf c' = output_buf c ++ bytes ∧
    pqwire_feed_input (Some r) (Some bytes) = Some (zlen bytes, Some r') ∧
    pending r' = [] ∧ list.last (queued (sess r')) = Some ev ∧ post r' ev.

Lemma delivers_intro c r sent t payload (post : pqwire_ctx → protocol_event_t → Prop) :
  receiver r payload → byte_ok t → bytes_ok payload →
  (∃ c', sent = Some (0, Some c') ∧ sends c c' (frame t payload)) →
  (∀ r' base, handle_message base (sess r) t payload = Some (sess r') → base = mk_in_ptr (input_gen r') 5 →
     ctx_wf r' → (∃ junk, input_mem r' = frame t payload ++ junk) →
     ∃ ev, list.last (queued (sess r')) = Some ev ∧ post r' ev) →
  delivers c r sent post.
Proof.
  intros Hr Ht Hb (c' & Hs & Hsend) Hev.
  destruct (feed_one_frame r t payload Hr Ht Hb) as (r' & Hf & Hh & Hwf & Hp & Hj).
  destruct (Hev r' _ Hh eq_refl Hwf Hj) as (ev & He & Hpost).
  exists c', (frame t payload), r', ev. rewrite zlen_frame.
  split_and!; try done. by apply sends_output.
Qed.

(** The receiver's dispatch, for a role. *)
Lemma handle_server base s t body :
  role s = PQWIRE_ROLE_SERVER → handle_message base s t body = handle_frontend base s t body.
Proof. intros Hr. unfold handle_message. by rewrite bool_decide_true. Qed.
Lemma handle_client base s t body :
  role s = PQWIRE_ROLE_CLIENT → handle_message base s t body = handle_backend base s t body.
Proof. intros Hr. unfold handle_message. rewrite bool_decide_false; [done|]. by rewrite Hr. Qed.

(** A decoder that succeeds, and its event. *)
Lemma on_val_event {A} (m : outcome A) a s s' (mk : A → protocol_event_t) :
  m = Val a → session_wf s → event_in_arena (row_arena_used s) (mk a) →
  on_val m s (λ a, enqueue_event s (mk a)) = Some s' → list.last (queued s') = Some (mk a).
Proof.
  intros -> Hwf Hev H. cbn [on_val] in H. destruct (enqueue_last s (mk a) Hwf Hev) as (r & He & Hl).
  rewrite He in H. apply (inj Some) in H. by rewrite <- H.
Qed.

Lemma enqueue_event_last s ev s' :
  session_wf s → event_in_arena (row_arena_used s) ev → enqueue_event s ev = Some s' →
  list.last (queued s') = Some ev.
Proof.
  intros Hwf Hev H. destruct (enqueue_last s ev Hwf Hev) as (r & He & Hl).
  rewrite He in H. apply (inj Some) in H. by rewrite <- H.
Qed.

Lemma receiver_len r payload : receiver r payload → zlen payload < 2 ^ 64.
Proof. intros []. lia. Qed.
Lemma receiver_sess r payload : receiver r payload → session_wf (sess r).
Proof. by intros [[]]. Qed.

(** ** Query *)
Lemma cstr_ok_ztake n s : cstr_ok s → cstr_ok (ztake n s).
Proof. apply Forall_take. Qed.

(** What a Query leaves in the session. *)
Lemma parse_query_run s s' sql :
  session_wf s → cstr_ok sql → parse_query_msg s (with_nul sql) = Some s' →
  list.last (queued s') = Some (mk_event PQ_EVENT_QUERY (P_query sql_scratch_ptr)) ∧
  read_ctx_ptr s' sql_scratch_ptr = ztake 4095 sql ∧ proto_state s' = PROTO_STATE_QUERYING.
Proof.
  intros Hwf Hs Hh. unfold parse_query_msg in Hh.
  pose proof (read_cstr_with_nul sql [] (zlen (with_nul sql)) Hs) as Hread.
  rewrite app_nil_r in Hread. rewrite Hread in Hh by (rewrite zlen_with_nul; lia).
  cbn [mbind option_bind copy_or_clear] in Hh. set (s1 := set_sql_scratch _ s) in Hh.
  assert (Hwf1 : session_wf s1).
  { apply wf_set_sql; [done|]. apply zlen_copy_cstr; [done|]. by destruct Hwf. }
  destruct (enqueue_last s1 (mk_event PQ_EVENT_QUERY (P_query sql_scratch_ptr)) Hwf1)
    as (q & He & Hl); [no_row|]. rewrite He in Hh. cbn [mbind option_bind] in Hh.
  apply (inj Some) in Hh. rewrite <- Hh. split_and!; [exact Hl| |done].
  by apply (cstr_of_copy_cstr _ PQWIRE_MAX_QUERY_LEN).
Qed.

(** C9: a Query sent by a client arrives at the server as a Query event whose text is the
    client's, cut at 4095 characters, and puts the server in the QUERYING state. *)
Theorem query_roundtrip c r sql :
  ctx_wf c → allocs c = [] → cstr_ok sql → receiver r (with_nul sql) →
  role (sess r) = PQWIRE_ROLE_SERVER →
  delivers c r (pqwire_send_query (Some c) (Some sql)) (λ r' ev,
    ev = mk_event PQ_EVENT_QUERY (P_query sql_scratch_ptr) ∧
    read_ctx_ptr (sess r') sql_scratch_ptr = ztake 4095 sql ∧
    pqwire_current_state (Some r') = 3).
Proof.
  intros Hc Ha Hs Hr Hrole. apply (delivers_intro c r _ (chr "Q") (with_nul sql));
    [done|apply chr_ok|by apply with_nul_ok|by apply send_query_spec|].
  intros r' base Hh _ Hwf' _. rewrite handle_server in Hh by done.
  change (handle_frontend base (sess r) (chr "Q") (with_nul sql))
    with (parse_query_msg (sess r) (with_nul sql)) in Hh.
  destruct (parse_query_run (sess r) (sess r') sql) as (Hl & Ht & Hp); [by eapply receiver_sess|done|done|].
  eexists. split; [exact Hl|]. split_and!; [done|done|].
  unfold pqwire_current_state. destruct Hwf' as [-> _ _ _ _ _ _ _]. by rewrite Hp.
Qed.

Definition test_receiver (role : pqwire_role_t) : pqwire_ctx :=
  set_sess (set_startup_seen true (zero_session role 16)) (fresh role 65536).

Lemma test_receiver_ok role payload : zlen payload ≤ 65532 → receiver (test_receiver role) payload.
Proof.
  intros Hl. split.
  - apply ctx_wf_set_sess; [by apply fresh_wf|]. by apply wf_set_seen, zero_session_wf.
  - done.
  - done.
  - by destruct role.
  - cbn. lia.
  - cbn. lia.
Qed.

Lemma query_roundtrip_witness :
  delivers (fresh PQWIRE_ROLE_CLIENT 65536) (test_receiver PQWIRE_ROLE_SERVER)
    (pqwire_send_query (Some (fresh PQWIRE_ROLE_CLIENT 65536)) (Some (bs "SELECT 1"))) (λ r' ev,
    ev = mk_event PQ_EVENT_QUERY (P_query sql_scratch_ptr) ∧
    read_ctx_ptr (sess r') sql_scratch_ptr = ztake 4095 (bs "SELECT 1") ∧
    pqwire_current_state (Some r') = 3).
Proof.
  apply (query_roundtrip (fresh PQWIRE_ROLE_CLIENT 65536) (test_receiver PQWIRE_ROLE_SERVER)).
  - apply fresh_wf. lia.
  - reflexivity.
  - concrete_bytes.
  - apply test_receiver_ok. vm_compute. discriminate.
  - reflexivity.
Defined.

(** ** Describe, Close, Execute *)
Lemma target_name_run t name :
  cstr_ok name → zlen name < 2 ^ 63 →
  target_name (t :: with_nul name) = Val (t, copy_cstr (zrep 64 0) 64 (Some name)).
Proof.
  intros Hn Hl. pose proof (zlen_nonneg name). unfold target_name.
  assert (Hz : zlen (t :: with_nul name) = zlen name + 2) by zl.
  rewrite Hz, (proj2 (Z.ltb_ge _ _)) by lia. cbn [negb check mbind outcome_bind].
  rewrite zget_0. cbn [deref mbind outcome_bind].
  pose proof (read_at_str [t] name [] 1 Hn eq_refl) as Hr.
  unfold read_at in Hr. rewrite app_nil_r in Hr. cbn [app] in Hr. rewrite Hz in Hr.
  by rewrite Hr by lia.
Qed.

(** The name a target message delivers, for either of the two messages. *)
Lemma target_roundtrip_lemma c r t target name (mk : Z → list Z → protocol_event_t) :
  ctx_wf c → allocs c = [] → byte_ok target → cstr_ok name → zlen name ≤ 64 →
  receiver r (target :: with_nul name) → byte_ok t →
  (∀ used x y, event_in_arena used (mk x y)) →
  role (sess r) = PQWIRE_ROLE_SERVER →
  (∀ base s body, role s = PQWIRE_ROLE_SERVER → handle_message base s t body
     = on_val (target_name body) s (λ p, enqueue_event s (mk p.1 p.2))) →
  delivers c r (api (Some c) (send_target t target (Some name))) (λ _ ev,
    ∃ arr, ev = mk target arr ∧ zlen arr = 64 ∧ cstr_of arr = ztake 63 name).
Proof.
  intros Hc Ha Ht Hn Hl Hr Htb Hev Hrole Hh.
  apply (delivers_intro c r _ t (target :: with_nul name)); [done|done| | |].
  - unfold bytes_ok. rewrite Forall_cons_iff. split; [done|by apply with_nul_ok].
  - apply api_emit; [done..|]. rewrite send_target_run.
    change (str_or [] (Some name)) with name. by rewrite (proj2 (Z.leb_le _ _)) by lia.
  - intros r' base Hm _ _ _. rewrite Hh in Hm by done. pose proof (receiver_len _ _ Hr) as Hlen.
    apply (on_val_event _ (target, copy_cstr (zrep 64 0) 64 (Some name))) in Hm;
      [|apply target_name_run; [done|lia]|by eapply receiver_sess|done].
    eexists. split; [exact Hm|]. eexists. split; [done|]. split.
    + by apply zlen_copy_cstr.
    + by apply cstr_of_copy_cstr.
Qed.

(** C26: Describe and Close are refused exactly for names of more than 64 characters; a name
    that is sent reaches the server with its target byte, cut at 63 characters: the builder's
    buffer is one character larger than the event's array. *)
Theorem target_roundtrip c r target name :
  ctx_wf c → allocs c = [] → byte_ok target → cstr_ok name →
  receiver r (target :: with_nul name) → role (sess r) = PQWIRE_ROLE_SERVER →
  if zlen name <=? 64 then
    delivers c r (pqwire_send_describe (Some c) target (Some name)) (λ _ ev, ∃ arr,
      ev = mk_event PQ_EVENT_DESCRIBE (P_describe (mk_describe target arr)) ∧
      zlen arr = 64 ∧ cstr_of arr = ztake 63 name) ∧
    delivers c r (pqwire_send_close (Some c) target (Some name)) (λ _ ev, ∃ arr,
      ev = mk_event PQ_EVENT_CLOSE (P_close (mk_close target arr)) ∧
      zlen arr = 64 ∧ cstr_of arr = ztake 63 name)
  else pqwire_send_describe (Some c) target (Some name) = Some (-1, Some c) ∧
       pqwire_send_close (Some c) target (Some name) = Some (-1, Some c).
Proof.
  intros Hc Ha Ht Hn Hr Hrole. destruct (Z.leb_spec (zlen name) 64) as [Hl|Hl].
  - split.
    + apply (target_roundtrip_lemma c r (chr "D") target name
        (λ t n, mk_event PQ_EVENT_DESCRIBE (P_describe (mk_describe t n)))); try done.
      intros base s body Hs. rewrite handle_server by done.
      change (handle_frontend base s (chr "D") body) with (parse_describe_msg s body).
      unfold parse_describe_msg. by destruct (target_name body) as [[]| |].
    + apply (target_roundtrip_lemma c r (chr "C") target name
        (λ t n, mk_event PQ_EVENT_CLOSE (P_close (mk_close t n)))); try done.
      intros base s body Hs. rewrite handle_server by done.
      change (handle_frontend base s (chr "C") body) with (parse_close_msg s body).
      unfold parse_close_msg. by destruct (target_name body) as [[]| |].
  - split; (apply api_Ret; [done|]; rewrite send_target_run;
      change (str_or [] (Some name)) with name; by rewrite (proj2 (Z.leb_gt _ _)) by lia).
Qed.

Lemma target_roundtrip_witness :
  delivers (fresh PQWIRE_ROLE_CLIENT 64) (test_receiver PQWIRE_ROLE_SERVER)
    (pqwire_send_describe (Some (fresh PQWIRE_ROLE_CLIENT 64)) 83 (Some (bs "stmt"))) (λ _ ev, ∃ arr,
      ev = mk_event PQ_EVENT_DESCRIBE (P_describe (mk_describe 83 arr)) ∧
      zlen arr = 64 ∧ cstr_of arr = ztake 63 (bs "stmt")) ∧
  delivers (fresh PQWIRE_ROLE_CLIENT 64) (test_receiver PQWIRE_ROLE_SERVER)
    (pqwire_send_close (Some (fresh PQWIRE_ROLE_CLIENT 64)) 83 (Some (bs "stmt"))) (λ _ ev, ∃ arr,
      ev = mk_event PQ_EVENT_CLOSE (P_close (mk_close 83 arr)) ∧
      zlen arr = 64 ∧ cstr_of arr = ztake 63 (bs "stmt")).
Proof.
  apply (target_roundtrip (fresh PQWIRE_ROLE_CLIENT 64) (test_receiver PQWIRE_ROLE_SERVER) 83 (bs "stmt")).
  - apply fresh_wf. lia.
  - reflexivity.
  - vm_compute. split; [discriminate|reflexivity].
  - concrete_bytes.
  - apply test_receiver_ok. vm_compute. discriminate.
  - reflexivity.
Defined.

(** C27: an Execute for a portal name of at most 67 characters reaches the server with the
    name cut at 63 characters and its row limit. *)
Theorem execute_roundtrip c r portal rows :
  ctx_wf c → allocs c = [] → cstr_ok portal → zlen portal ≤ 67 → 0 ≤ rows < 2 ^ 32 →
  receiver r (with_nul portal ++ wr32_be rows) → role (sess r) = PQWIRE_ROLE_SERVER →
  delivers c r (pqwire_send_execute (Some c) (Some portal) rows) (λ _ ev, ∃ arr,
    ev = mk_event PQ_EVENT_EXECUTE (P_execute (mk_execute arr rows)) ∧
    zlen arr = 64 ∧ cstr_of arr = ztake 63 portal).
Proof.
  intros Hc Ha Hn Hl Hrows Hr Hrole.
  apply (delivers_intro c r _ (chr "E") (with_nul portal ++ wr32_be rows)); [done|apply chr_ok| | |].
  - apply bytes_ok_app. split; [by apply with_nul_ok|apply wr32_be_ok].
  - apply api_emit; [done..|]. rewrite send_execute_run.
    change (str_or [] (Some portal)) with portal. by rewrite (proj2 (Z.leb_le _ _)) by lia.
  - intros r' base Hm _ _ _. pose proof (receiver_len _ _ Hr) as Hlen.
    pose proof (zlen_nonneg portal).
    rewrite handle_server in Hm by done.
    change (handle_frontend base (sess r) (chr "E") (with_nul portal ++ wr32_be rows))
      with (parse_execute_msg (sess r) (with_nul portal ++ wr32_be rows)) in Hm.
    apply (on_val_event _ (mk_execute (copy_cstr (zrep 64 0) 64 (Some portal)) rows)) in Hm;
      [|  |by eapply receiver_sess|done].
    + eexists. split; [exact Hm|]. eexists. split; [done|]. split.
      * by apply zlen_copy_cstr.
      * by apply cstr_of_copy_cstr.
    + unfold execute_fields. rewrite read_or_return_first by done.
      cbn [mbind outcome_bind]. rewrite (proj2 (Z.leb_le _ _)) by zl.
      pose proof (rd32_be_wr32_be (with_nul portal) rows [] (0 + (zlen portal + 1))) as Hrd.
      rewrite app_nil_r in Hrd. rewrite Hrd by zl. by rewrite to_u32_small by lia.
Qed.

Lemma execute_roundtrip_witness :
  delivers (fresh PQWIRE_ROLE_CLIENT 64) (test_receiver PQWIRE_ROLE_SERVER)
    (pqwire_send_execute (Some (fresh PQWIRE_ROLE_CLIENT 64)) (Some (bs "p1")) 10) (λ _ ev, ∃ arr,
    ev = mk_event PQ_EVENT_EXECUTE (P_execute (mk_execute arr 10)) ∧
    zlen arr = 64 ∧ cstr_of arr = ztake 63 (bs "p1")).
Proof.
  apply (execute_roundtrip (fresh PQWIRE_ROLE_CLIENT 64) (test_receiver PQWIRE_ROLE_SERVER) (bs "p1") 10).
  - apply fresh_wf. lia.
  - reflexivity.
  - concrete_bytes.
  - vm_compute. discriminate.
  - lia.
  - apply test_receiver_ok. vm_compute. discriminate.
  - reflexivity.
Defined.

(** ** CommandComplete *)

(** C28: a CommandComplete tag reaches the client, cut at 63 characters, and makes its
    protocol state READY. *)
Theorem command_complete_roundtrip c r tag :
  ctx_wf c → allocs c = [] → cstr_ok tag → receiver r (with_nul tag) →
  role (sess r) = PQWIRE_ROLE_CLIENT →
  delivers c r (pqwire_send_command_complete (Some c) (Some tag)) (λ r' ev,
    ev = mk_event PQ_EVENT_COMMAND_COMPLETE (P_command_complete tag_scratch_ptr) ∧
    read_ctx_ptr (sess r') tag_scratch_ptr = ztake 63 tag ∧
    pqwire_current_state (Some r') = 2).
Proof.
  intros Hc Ha Hs Hr Hrole. apply (delivers_intro c r _ (chr "C") (with_nul tag));
    [done|apply chr_ok|by apply with_nul_ok|by apply send_command_complete_spec|].
  intros r' base Hh _ Hwf' _. rewrite handle_client in Hh by done.
  change (handle_backend base (sess r) (chr "C") (with_nul tag))
    with (parse_command_complete (sess r) (with_nul tag)) in Hh.
  unfold parse_command_complete in Hh.
  pose proof (read_cstr_with_nul tag [] (zlen (with_nul tag)) Hs) as Hread.
  rewrite app_nil_r in Hread. rewrite Hread in Hh by (rewrite zlen_with_nul; lia).
  cbn [mbind option_bind copy_or_clear] in Hh.
  set (s1 := set_tag_scratch _ (sess r)) in Hh.
  assert (Hwf1 : session_wf s1).
  { apply wf_set_tag; [by eapply receiver_sess|]. apply zlen_copy_cstr; [done|].
    by destruct (receiver_sess _ _ Hr). }
  destruct (enqueue_last s1 (mk_event PQ_EVENT_COMMAND_COMPLETE (P_command_complete tag_scratch_ptr)) Hwf1)
    as (q & He & Hl); [no_row|]. rewrite He in Hh. cbn [mbind option_bind] in Hh.
  apply (inj Some) in Hh. rewrite <- Hh. eexists. split; [exact Hl|]. split_and!; [done| |].
  - by apply (cstr_of_copy_cstr _ 64).
  - unfold pqwire_current_state. destruct Hwf' as [-> _ _ _ _ _ _ _]. by rewrite <- Hh.
Qed.

Lemma command_complete_roundtrip_witness :
  delivers (fresh PQWIRE_ROLE_SERVER 64) (test_receiver PQWIRE_ROLE_CLIENT)
    (pqwire_send_command_complete (Some (fresh PQWIRE_ROLE_SERVER 64)) (Some (bs "SELECT 1"))) (λ r' ev,
    ev = mk_event PQ_EVENT_COMMAND_COMPLETE (P_command_complete tag_scratch_ptr) ∧
    read_ctx_ptr (sess r') tag_scratch_ptr = ztake 63 (bs "SELECT 1") ∧
    pqwire_current_state (Some r') = 2).
Proof.
  apply (command_complete_roundtrip (fresh PQWIRE_ROLE_SERVER 64) (test_receiver PQWIRE_ROLE_CLIENT)
    (bs "SELECT 1")).
  - apply fresh_wf. lia.
  - reflexivity.
  - concrete_bytes.
  - apply test_receiver_ok. vm_compute. discriminate.
  - reflexivity.
Defined.

(** ** Parse *)

(** Overwriting one element, then reading around it. *)
Lemma zset_around {A} (l : list A) i x l1 j :
  zset l i x = Some l1 → i < j → ztake (i + 1) l1 = ztake i l ++ [x] ∧ zdrop j l1 = zdrop j l.
Proof.
  intros Hs Hj. assert (Hi : 0 ≤ i < zlen l).
  { unfold zset in Hs. case_match eqn:E; [|done]. zbool. done. }
  rewrite zset_Some in Hs by done. apply (inj Some) in Hs as <-. unfold ztake, zdrop, zlen in *. split.
  - replace (Z.to_nat (i + 1)) with (S (Z.to_nat i)) by lia.
    erewrite take_S_r by (apply list_lookup_insert_eq; lia). by rewrite take_insert_ge by lia.
  - by rewrite drop_insert_lt by lia.
Qed.

(** What a loop that writes [vs] to [l] from index [i] on leaves. *)
Definition filled {A} (l : list A) (i : Z) (vs l' : list A) : Prop :=
  zlen l' = zlen l ∧ ztake (i + zlen vs) l' = ztake i l ++ vs ∧
  zdrop (i + zlen vs) l' = zdrop (i + zlen vs) l.

Lemma filled_nil {A} (l : list A) i : filled l i [] l.
Proof. unfold filled. rewrite zlen_nil, Z.add_0_r, app_nil_r. done. Qed.

Lemma filled_cons {A} (l l1 l2 : list A) i x vs :
  zset l i x = Some l1 → filled l1 (i + 1) vs l2 → filled l i (x :: vs) l2.
Proof.
  intros Hs (Hl & Ht & Hd). pose proof (zset_zlen _ _ _ _ Hs) as Hz. pose proof (zlen_nonneg vs).
  destruct (zset_around _ _ _ _ (i + 1 + zlen vs) Hs) as [H1 H2]; [lia|].
  unfold filled. rewrite zlen_cons. replace (i + (zlen vs + 1)) with (i + 1 + zlen vs) by lia.
  rewrite Ht, Hd, H1, H2, <- app_assoc. split_and!; [congruence|done|done].
Qed.

Lemma zset_is_Some {A} (l : list A) i x : 0 ≤ i < zlen l → ∃ l', zset l i x = Some l'.
Proof. intros. rewrite zset_Some by done. eauto. Qed.

Lemma read_oids_run vs i oids pre rest :
  0 ≤ i → i + zlen vs ≤ zlen oids → Forall (λ v, 0 ≤ v < 2 ^ 32) vs →
  ∃ oids', read_oids (length vs) i (zlen pre) oids (pre ++ cat wr32_be vs ++ rest) = Some oids' ∧
    filled oids i vs oids'.
Proof.
  revert i oids pre. induction vs as [|v vs IH]; intros i oids pre Hi Hl Hv.
  { exists oids. split; [done|apply filled_nil]. }
  rewrite zlen_cons in Hl. pose proof (zlen_nonneg vs). apply Forall_cons_iff in Hv as [Hv Hvs].
  cbn [length read_oids]. rewrite cat_cons, <- app_assoc.
  pose proof (zlen_nonneg rest). rewrite (proj2 (Z.leb_le _ _)) by zl.
  rewrite rd32_be_wr32_be by done. rewrite to_u32_small by done. cbn [mbind option_bind].
  destruct (zset_is_Some oids i v) as [o1 Ho]; [lia|]. rewrite Ho. cbn [mbind option_bind].
  pose proof (zset_zlen _ _ _ _ Ho) as Hz.
  destruct (IH (i + 1) o1 (pre ++ wr32_be v)) as (o2 & Hr & Hf); [lia|lia|done|].
  rewrite zlen_app, zlen_wr32_be, <- app_assoc in Hr. exists o2. split; [done|].
  by eapply filled_cons.
Qed.

Lemma filled_prefix {A} (l : list A) vs l' : filled l 0 vs l' → ztake (zlen vs) l' = vs.
Proof. intros (_ & Ht & _). by rewrite Z.add_0_l, ztake_0 in Ht. Qed.

Lemma cat_bytes_ok {A} (f : A → list Z) l : Forall (λ x, bytes_ok (f x)) l → bytes_ok (cat f l).
Proof. induction 1; [constructor|]. rewrite cat_cons. by apply bytes_ok_app. Qed.
Lemma cat_wr32_ok l : bytes_ok (cat wr32_be l).
Proof. apply cat_bytes_ok. apply list.Forall_forall. intros. apply wr32_be_ok. Qed.
Lemma cat_be16_ok l : bytes_ok (cat be16 l).
Proof. apply cat_bytes_ok. apply list.Forall_forall. intros. apply wr16_be_ok. Qed.

Lemma clamp_small n lim : n ≤ lim → clamp n lim = n.
Proof. intros. unfold clamp. by rewrite (proj2 (Z.ltb_ge _ _)) by lia. Qed.

Lemma parse_fields_run st q oids :
  cstr_ok st → cstr_ok q → Forall (λ v, 0 ≤ v < 2 ^ 32) oids → zlen oids ≤ 16 →
  zlen (parse_payload st q oids) < 2 ^ 64 →
  ∃ p, parse_fields (parse_payload st q oids) = Val p ∧
    cstr_of (parse_statement p) = ztake 63 st ∧ cstr_of (parse_query p) = ztake 4095 q ∧
    parse_n_param_types p = zlen oids ∧ ztake (zlen oids) (parse_param_type_oids p) = oids ∧
    zlen (parse_param_type_oids p) = 16 ∧ zlen (parse_statement p) = 64 ∧ zlen (parse_query p) = 4096.
Proof.
  intros Hst Hq Ho Hn Hb. unfold parse_payload in *. pose proof (zlen_nonneg oids).
  unfold parse_fields. rewrite read_or_return_first by done. cbn [mbind outcome_bind].
  rewrite (read_or_return_str (with_nul st) q) by (done || zl). cbn [mbind outcome_bind].
  set (off := 0 + (zlen st + 1) + (zlen q + 1)).
  set (pre := with_nul st ++ with_nul q).
  assert (Hpre : zlen pre = off) by (unfold pre, off; zl).
  assert (Hbody : with_nul st ++ with_nul q ++ wr16_be (zlen oids) ++ cat wr32_be oids
    = pre ++ wr16_be (zlen oids) ++ cat wr32_be oids) by (unfold pre; by rewrite <- app_assoc).
  rewrite Hbody, (proj2 (Z.leb_le _ _)) by zl.
  rewrite rd16_be_wr16_be by done. rewrite to_u16_small by lia. cbn [deref mbind outcome_bind].
  unfold PQWIRE_MAX_PARAM_TYPES. rewrite clamp_small, zlen_to_nat by done.
  destruct (read_oids_run oids 0 (parse_param_type_oids zero_parse) (pre ++ wr16_be (zlen oids)) [])
    as (o & Hr & Hf); [lia|change (zlen (parse_param_type_oids zero_parse)) with 16; lia|done|].
  rewrite zlen_app, Hpre, zlen_wr16_be, app_nil_r, <- app_assoc in Hr. rewrite Hr.
  cbn [deref mbind outcome_bind]. eexists. split; [done|]. cbn [parse_statement parse_query
    parse_n_param_types parse_param_type_oids].
  split_and!.
  - by apply cstr_of_copy_cstr.
  - by apply cstr_of_copy_cstr.
  - done.
  - by apply filled_prefix in Hf.
  - by destruct Hf as [-> _].
  - by apply zlen_copy_cstr.
  - by apply zlen_copy_cstr.
Qed.

(** C8: a Parse that the client can send (at most 4352 bytes) with at most 16 parameter types
    reaches the server with its statement name cut at 63 characters, its query cut at 4095,
    and its parameter type OIDs; a longer one is refused with -1 and nothing is sent. *)
Theorem parse_roundtrip c r st q oids :
  ctx_wf c → allocs c = [] → cstr_ok st → cstr_ok q → Forall (λ v, 0 ≤ v < 2 ^ 32) oids →
  zlen oids ≤ 16 → receiver r (parse_payload st q oids) → role (sess r) = PQWIRE_ROLE_SERVER →
  let sent := pqwire_send_parse (Some c) (Some st) (Some q) (Some oids) (zlen oids) in
  if zlen (parse_payload st q oids) <=? 4352 then
    delivers c r sent (λ _ ev, ∃ p,
      ev = mk_event PQ_EVENT_PARSE (P_parse p) ∧
      cstr_of (parse_statement p) = ztake 63 st ∧ cstr_of (parse_query p) = ztake 4095 q ∧
      parse_n_param_types p = zlen oids ∧ ztake (zlen oids) (parse_param_type_oids p) = oids)
  else sent = Some (-1, Some c).
Proof.
  intros Hc Ha Hst Hq Ho Hn Hr Hrole sent.
  pose proof (send_parse_spec c (Some st) q oids Hc Ha) as Hs.
  change (str_or [] (Some st)) with st in Hs. cbn zeta in Hs. fold sent in Hs.
  destruct (Z.leb_spec (zlen (parse_payload st q oids)) 4352) as [Hz|Hz].
  2:{ by rewrite (proj2 (Z.ltb_lt _ _)) in Hs by lia. }
  rewrite (proj2 (Z.ltb_ge _ _)) in Hs by lia.
  apply (delivers_intro c r _ (chr "P") (parse_payload st q oids)); [done|apply chr_ok| |done|].
  - unfold parse_payload. rewrite !bytes_ok_app.
    split_and!; [by apply with_nul_ok|by apply with_nul_ok|apply wr16_be_ok|apply cat_wr32_ok].
  - intros r' base Hm _ _ _.
    destruct (parse_fields_run st q oids) as (p & Hp & H1 & H2 & H3 & H4 & _);
      [done|done|done|done|by eapply receiver_len|].
    rewrite handle_server in Hm by done.
    change (handle_frontend base (sess r) (chr "P") (parse_payload st q oids))
      with (parse_parse_msg (sess r) (parse_payload st q oids)) in Hm.
    apply (on_val_event _ p) in Hm; [|done|by eapply receiver_sess|done].
    eexists. split; [exact Hm|]. exists p. by split_and!.
Qed.

Lemma parse_roundtrip_witness :
  let sent := pqwire_send_parse (Some (fresh PQWIRE_ROLE_CLIENT 64)) (Some (bs "s1"))
                (Some (bs "SELECT $1")) (Some [23; 25]) 2 in
  delivers (fresh PQWIRE_ROLE_CLIENT 64) (test_receiver PQWIRE_ROLE_SERVER) sent (λ _ ev, ∃ p,
      ev = mk_event PQ_EVENT_PARSE (P_parse p) ∧
      cstr_of (parse_statement p) = ztake 63 (bs "s1") ∧
      cstr_of (parse_query p) = ztake 4095 (bs "SELECT $1") ∧
      parse_n_param_types p = 2 ∧ ztake 2 (parse_param_type_oids p) = [23; 25]).
Proof.
  apply (parse_roundtrip (fresh PQWIRE_ROLE_CLIENT 64) (test_receiver PQWIRE_ROLE_SERVER)
    (bs "s1") (bs "SELECT $1") [23; 25]).
  - apply fresh_wf. lia.
  - reflexivity.
  - concrete_bytes.
  - concrete_bytes.
  - repeat constructor; lia.
  - vm_compute. discriminate.
  - apply test_receiver_ok. vm_compute. discriminate.
  - reflexivity.
Defined.

(** ** ErrorResponse *)
Definition field_bytes (f : Z * list Z) : list Z := f.1 :: with_nul f.2.
Definition field_ok (f : Z * list Z) : Prop := char_ok f.1 ∧ cstr_ok f.2.
Definition set_fields (e : pq_error_t) (fs : list (Z * list Z)) : pq_error_t :=
  foldl (λ e f, set_error_field f.1 f.2 e) e fs.

Lemma error_loop_run fs fuel e pre :
  Forall field_ok fs → (length fs < fuel)%nat → zlen (pre ++ cat field_bytes fs ++ [0]) < 2 ^ 64 →
  error_loop fuel e (pre ++ cat field_bytes fs ++ [0]) (zlen pre) = Some (set_fields e fs).
Proof.
  intros Hfs. revert fuel e pre. induction Hfs as [|[k v] fs [Hk Hv] _ IH]; intros fuel e pre Hf Hb;
    (destruct fuel as [|fuel]; [cbn in Hf; lia|]); cbn [error_loop].
  - change (cat field_bytes []) with (@nil Z). cbn [app]. rewrite (proj2 (Z.ltb_lt _ _)) by zl.
    rewrite zget_middle. done.
  - rewrite cat_cons in *. cbn [fst snd] in Hk, Hv.
    change (field_bytes (k, v)) with (k :: with_nul v) in *.
    set (tl := cat field_bytes fs ++ [0]).
    assert (Hbody : pre ++ ((k :: with_nul v) ++ cat field_bytes fs) ++ [0]
                    = pre ++ k :: with_nul v ++ tl) by (unfold tl; by rewrite <- app_assoc).
    rewrite Hbody in Hb |- *. pose proof (zlen_nonneg tl). pose proof (zlen_nonneg v).
    rewrite (proj2 (Z.ltb_lt _ _)) by zl. rewrite zget_middle. cbn [mbind option_bind].
    unfold char_ok in Hk. rewrite (proj2 (Z.eqb_neq _ _)) by lia.
    assert (Hb2 : pre ++ k :: with_nul v ++ tl = (pre ++ [k]) ++ with_nul v ++ tl)
      by by rewrite <- app_assoc.
    rewrite Hb2 in Hb |- *.
    rewrite (read_at_str (pre ++ [k]) v tl) by (done || zl). cbn [mbind option_bind].
    assert (Hb3 : (pre ++ [k]) ++ with_nul v ++ tl = ((pre ++ [k]) ++ with_nul v) ++ cat field_bytes fs ++ [0])
      by by rewrite <- !app_assoc.
    rewrite Hb3 in Hb |- *.
    replace (zlen pre + 1 + (zlen v + 1)) with (zlen ((pre ++ [k]) ++ with_nul v)) by zl.
    rewrite IH; [done|cbn in Hf; lia|done].
Qed.

Lemma length_field_bytes fs : (length fs <= length (cat field_bytes fs))%nat.
Proof.
  induction fs as [|f fs IH]; [done|]. rewrite cat_cons, length_app. cbn. lia.
Qed.

Lemma parse_error_fields_run fs :
  Forall field_ok fs → zlen (cat field_bytes fs ++ [0]) < 2 ^ 64 →
  parse_error_fields (cat field_bytes fs ++ [0]) = Some (set_fields zero_error fs).
Proof.
  intros Hfs Hb. unfold parse_error_fields. apply (error_loop_run fs _ _ []); [done| |done].
  pose proof (length_field_bytes fs). rewrite length_app. cbn. lia.
Qed.

(** C12: an ErrorResponse built from three strings, refused with -1 exactly when its payload
    reaches 512 bytes, delivers to the client the severity cut at 31 characters, the
    SQLSTATE cut at 7 and the message cut at 255, and empty detail, hint and position. *)
Theorem error_response_roundtrip c r sev code msg :
  ctx_wf c → allocs c = [] → cstr_ok sev → cstr_ok code → cstr_ok msg →
  receiver r (error_payload sev code msg) → role (sess r) = PQWIRE_ROLE_CLIENT →
  let sent := pqwire_send_error_response (Some c) (Some sev) (Some code) (Some msg) in
  if zlen (error_payload sev code msg) <=? 511 then
    delivers c r sent (λ _ ev, ∃ e,
      ev = mk_event PQ_EVENT_ERROR_RESPONSE (P_error e) ∧
      cstr_of (err_severity e) = ztake 31 sev ∧ cstr_of (err_code e) = ztake 7 code ∧
      cstr_of (err_message e) = ztake 255 msg ∧
      cstr_of (err_detail e) = [] ∧ cstr_of (err_hint e) = [] ∧ err_position e = 0)
  else sent = Some (-1, Some c).
Proof.
  intros Hc Ha Hs Hq Hm Hr Hrole sent.
  pose proof (send_error_response_spec c (Some sev) (Some code) (Some msg) Hc Ha) as Hsend.
  change (str_or (bs "ERROR") (Some sev)) with sev in Hsend.
  change (str_or (bs "XX000") (Some code)) with code in Hsend.
  change (str_or (bs "error") (Some msg)) with msg in Hsend. cbn zeta in Hsend. fold sent in Hsend.
  destruct (Z.leb_spec (zlen (error_payload sev code msg)) 511) as [Hz|Hz].
  2:{ by rewrite (proj2 (Z.leb_le _ _)) in Hsend by lia. }
  rewrite (proj2 (Z.leb_gt _ _)) in Hsend by lia.
  pose (fs := [(chr "S", sev); (chr "C", code); (chr "M", msg)]).
  assert (Hfs : error_payload sev code msg = cat field_bytes fs ++ [0]).
  { unfold error_payload, fs, cat, field_bytes. cbn [fmap list_fmap concat fst snd].
    rewrite app_nil_r. by rewrite <- !app_assoc. }
  apply (delivers_intro c r _ (chr "E") (error_payload sev code msg)); [done|apply chr_ok| |done|].
  - unfold error_payload, bytes_ok. rewrite !Forall_app, !Forall_cons_iff.
    split_and!; try apply chr_ok; try by apply with_nul_ok. all: try constructor; lia.
  - intros r' base Hh _ _ _. rewrite handle_client in Hh by done.
    change (handle_backend base (sess r) (chr "E") (error_payload sev code msg))
      with (parse_error_response (sess r) (error_payload sev code msg)) in Hh.
    unfold parse_error_response in Hh. rewrite Hfs, parse_error_fields_run in Hh.
    + cbn [mbind option_bind] in Hh. apply enqueue_event_last in Hh; [|by eapply receiver_sess|no_row].
      eexists. split; [exact Hh|]. eexists. split; [done|].
      unfold fs, set_fields. cbn [foldl fst snd].
      change (set_error_field (chr "M") msg (set_error_field (chr "C") code
        (set_error_field (chr "S") sev zero_error)))
        with (mk_error (copy_cstr (zrep 32 0) 32 (Some sev)) (copy_cstr (zrep 8 0) 8 (Some code))
                (copy_cstr (zrep 256 0) 256 (Some msg)) (zrep 256 0) (zrep 256 0) 0).
      cbn [err_severity err_code err_message err_detail err_hint err_position].
      split_and!; try done; by apply cstr_of_copy_cstr.
    + repeat constructor; cbn [fst snd]; try done; unfold char_ok; vm_compute; done.
    + rewrite <- Hfs. by eapply receiver_len.
Qed.

Lemma error_response_roundtrip_witness :
  delivers (fresh PQWIRE_ROLE_SERVER 64) (test_receiver PQWIRE_ROLE_CLIENT)
    (pqwire_send_error_response (Some (fresh PQWIRE_ROLE_SERVER 64)) (Some (bs "FATAL"))
       (Some (bs "42P01")) (Some (bs "no such table"))) (λ _ ev, ∃ e,
      ev = mk_event PQ_EVENT_ERROR_RESPONSE (P_error e) ∧
      cstr_of (err_severity e) = ztake 31 (bs "FATAL") ∧
      cstr_of (err_code e) = ztake 7 (bs "42P01") ∧
      cstr_of (err_message e) = ztake 255 (bs "no such table") ∧
      cstr_of (err_detail e) = [] ∧ cstr_of (err_hint e) = [] ∧ err_position e = 0).
Proof.
  apply (error_response_roundtrip (fresh PQWIRE_ROLE_SERVER 64) (test_receiver PQWIRE_ROLE_CLIENT)
    (bs "FATAL") (bs "42P01") (bs "no such table")).
  - apply fresh_wf. lia.
  - reflexivity.
  - concrete_bytes.
  - concrete_bytes.
  - concrete_bytes.
  - apply test_receiver_ok. vm_compute. discriminate.
  - reflexivity.
Defined.
