(* ===== verification/RoundtripRows.v ===== *)
(** * RoundtripRows: RowDescription and DataRow from server to client

    Both messages arrive as sent, names cut at their arrays; [arena_view] is what arrives of a
    row whose values do not all fit in the row arena. *)
From S2P Require Import Prelude Wire Ring Events Scram Ctx Parse ParseSafe Feed FeedSpec FeedThms.
From S2P Require Import Send SendSpec Roundtrip.

Lemma filled_get {A} (l l' vs : list A) i v :
  filled l 0 vs l' → zget vs i = Some v → zget l' i = Some v.
Proof.
  intros Hf Hv. apply filled_prefix in Hf. pose proof (zget_Some_lt _ _ _ Hv) as Hi.
  rewrite <- (ztake_zdrop (zlen vs) l'), Hf. by rewrite zget_app_l by lia.
Qed.

(** ** RowDescription *)
(** The descriptors as the client stores them: the name is the scratch row of the column. *)
Fixpoint stored_columns (i : Z) (cols : list (pq_column_desc_t (list Z))) : list (pq_column_desc_t Z) :=
  match cols with
  | [] => []
  | c :: cols => mk_column_desc (Some i) (cd_oid c) (cd_format c) :: stored_columns (i + 1) cols
  end.

Lemma zlen_stored i cols : zlen (stored_columns i cols) = zlen cols.
Proof. revert i. induction cols as [|c cols IH]; intros i; [done|]. cbn. by rewrite !zlen_cons, IH. Qed.

Definition column_ok (c : pq_column_desc_t (list Z)) : Prop :=
  cstr_ok (str_or [] (cd_name c)) ∧ 0 ≤ cd_oid c < 2 ^ 32 ∧ - 2 ^ 15 ≤ cd_format c < 2 ^ 15.

Lemma column_reads pre c rest :
  column_ok c → zlen (pre ++ column_bytes c ++ rest) < 2 ^ 64 →
  let body := pre ++ column_bytes c ++ rest in
  let n := zlen (str_or [] (cd_name c)) in
  read_at body (zlen pre) = Some (Some (str_or [] (cd_name c), n + 1)) ∧
  rd32_be body (zlen pre + (n + 1) + 6) = Some (cd_oid c) ∧
  rd16_be body (zlen pre + (n + 1) + 16) = Some (to_u16 (cd_format c)).
Proof.
  intros (Hn & Ho & Hf) Hb. cbn zeta. unfold column_bytes in *. set (name := str_or [] (cd_name c)) in *.
  split_and!.
  - rewrite <- !app_assoc in *. by apply read_at_str.
  - set (l := pre ++ with_nul name ++ wr32_be 0 ++ wr16_be 0).
    set (k := wr16_be 4 ++ wr32_be (to_u32 (-1)) ++ be16 (cd_format c) ++ rest).
    replace (pre ++ _ ++ rest) with (l ++ wr32_be (cd_oid c) ++ k)
      by (unfold l, k; by rewrite <- !app_assoc).
    rewrite rd32_be_wr32_be by (unfold l; zl). by rewrite to_u32_small.
  - set (l := pre ++ with_nul name ++ wr32_be 0 ++ wr16_be 0 ++ wr32_be (cd_oid c) ++ wr16_be 4
                ++ wr32_be (to_u32 (-1))).
    replace (pre ++ _ ++ rest) with (l ++ wr16_be (to_u16 (cd_format c)) ++ rest)
      by (unfold l, be16; by rewrite <- !app_assoc).
    rewrite rd16_be_wr16_be by (unfold l; zl). f_equal. by apply to_u16_small, to_u16_range.
Qed.

Lemma columns_loop_run cols i s pre rest :
  session_wf s → 0 ≤ i → i + zlen cols ≤ 16 → Forall column_ok cols →
  zlen (pre ++ cat column_bytes cols ++ rest) < 2 ^ 64 →
  ∃ s' names, columns_loop (length cols) i (zlen pre) s (pre ++ cat column_bytes cols ++ rest)
                = Some (s', i + zlen cols) ∧ session_wf s' ∧
    filled (col_scratch s) i (stored_columns i cols) (col_scratch s') ∧
    filled (col_name_scratch s) i names (col_name_scratch s') ∧
    (cstr_of <$> names) = (λ c, ztake 63 (str_or [] (cd_name c))) <$> cols.
Proof.
  revert i s pre. induction cols as [|c cols IH]; intros i s pre Hwf Hi Hl Hok Hb.
  { exists s, []. rewrite zlen_nil, Z.add_0_r. split_and!; try done; apply filled_nil. }
  rewrite zlen_cons in *. pose proof (zlen_nonneg cols). apply Forall_cons_iff in Hok as [Hc Hok].
  cbn [length columns_loop]. rewrite cat_cons, <- app_assoc in Hb |- *.
  destruct (column_reads pre c (cat column_bytes cols ++ rest) Hc Hb) as (R1 & R2 & R3).
  set (body := pre ++ column_bytes c ++ cat column_bytes cols ++ rest) in *.
  set (name := str_or [] (cd_name c)) in *. pose proof (zlen_nonneg name).
  pose proof (zlen_nonneg (cat column_bytes cols)). pose proof (zlen_nonneg rest).
  assert (Hbl : zlen body = zlen pre + (zlen name + 1 + 18) + zlen (cat column_bytes cols) + zlen rest)
    by (unfold body, name; zl).
  rewrite (proj2 (Z.ltb_lt _ _)) by lia. rewrite R1. cbn [mbind option_bind].
  pose proof Hwf as []. unfold PQWIRE_MAX_ROW_COLUMNS in *.
  destruct (zget_is_Some i (col_name_scratch s)) as [row Hrow]; [lia|]. rewrite Hrow.
  cbn [mbind option_bind]. pose proof (zget_Forall _ _ _ _ sw_col_name Hrow) as Hrl. cbn in Hrl.
  destruct (zset_is_Some (col_name_scratch s) i (copy_cstr row 64 (Some name))) as [ns Hns]; [lia|].
  rewrite Hns. cbn [mbind option_bind]. rewrite (proj2 (Z.ltb_ge _ _)) by lia.
  rewrite R2. cbn [mbind option_bind]. rewrite R3. cbn [mbind option_bind].
  rewrite to_i16_u16, to_i16_small by (by destruct Hc as (_ & _ & ?)).
  set (s1 := set_col_name_scratch ns s). change (col_scratch s1) with (col_scratch s).
  destruct (zset_is_Some (col_scratch s) i (mk_column_desc (Some i) (cd_oid c) (cd_format c)))
    as [cs Hcs]; [lia|]. rewrite Hcs. cbn [mbind option_bind].
  assert (Hwf1 : session_wf (set_col_scratch cs s1)).
  { apply wf_set_col; [apply wf_set_col_names; [done| |]|].
    - by rewrite (zset_zlen _ _ _ _ Hns).
    - rewrite zset_Some in Hns by lia. apply (inj Some) in Hns as <-.
      apply Forall_insert; [done|]. by apply zlen_copy_cstr.
    - by rewrite (zset_zlen _ _ _ _ Hcs). }
  assert (Hbody : body = (pre ++ column_bytes c) ++ cat column_bytes cols ++ rest)
    by (unfold body; by rewrite <- app_assoc).
  rewrite Hbody in Hb |- *.
  destruct (IH (i + 1) (set_col_scratch cs s1) (pre ++ column_bytes c)) as
    (s2 & nms & Hr & Hwf2 & Hf1 & Hf2 & Hn); [done|lia|lia|done|done|].
  replace (zlen (pre ++ column_bytes c)) with (zlen pre + (zlen name + 1) + 18) in Hr
    by (unfold name; zl).
  exists s2, (copy_cstr row 64 (Some name) :: nms). rewrite Hr.
  split_and!; [do 2 f_equal; lia|done|by eapply filled_cons|by eapply filled_cons|].
  cbn [fmap list_fmap]. rewrite Hn. f_equal. apply cstr_of_copy_cstr; [lia|by destruct Hc].
Qed.

(** C11: a RowDescription of at most 16 columns (2048 bytes) delivers to the client the number of
    columns and, for every column, its type OID, its format and its name cut at 63
    characters. *)
Theorem row_description_roundtrip c r cols :
  ctx_wf c → allocs c = [] → zlen cols ≤ 16 → Forall column_ok cols →
  zlen (row_desc_payload cols) ≤ 2048 → receiver r (row_desc_payload cols) →
  role (sess r) = PQWIRE_ROLE_CLIENT →
  delivers c r (pqwire_send_row_description (Some c) (Some cols) (zlen cols)) (λ r' ev,
    ev = mk_event PQ_EVENT_ROW_DESCRIPTION (P_row_desc col_scratch_ptr (zlen cols)) ∧
    ∀ i col, zget cols i = Some col →
      zget (col_scratch (sess r')) i = Some (mk_column_desc (Some i) (cd_oid col) (cd_format col)) ∧
      cstr_of <$> zget (col_name_scratch (sess r')) i = Some (ztake 63 (str_or [] (cd_name col)))).
Proof.
  intros Hc Ha Hn Hok Hz Hr Hrole. pose proof (zlen_nonneg cols).
  apply (delivers_intro c r _ (chr "T") (row_desc_payload cols));
    [done|apply chr_ok| |by apply send_row_description_spec|].
  { unfold row_desc_payload. apply bytes_ok_app. split; [apply wr16_be_ok|].
    apply cat_bytes_ok. eapply Forall_impl; [|exact Hok]. intros col (Hs & _ & _).
    unfold column_bytes, be16. rewrite !bytes_ok_app.
    split_and!; first [by apply with_nul_ok|apply wr32_be_ok|apply wr16_be_ok]. }
  intros r' base Hh _ _ _. rewrite handle_client in Hh by done.
  change (handle_backend base (sess r) (chr "T") (row_desc_payload cols))
    with (parse_row_description (sess r) (row_desc_payload cols)) in Hh.
  unfold parse_row_description, row_desc_payload in Hh.
  pose proof (zlen_nonneg (cat column_bytes cols)).
  rewrite (proj2 (Z.ltb_ge _ _)) in Hh by zl.
  pose proof (rd16_be_wr16_be [] (zlen cols) (cat column_bytes cols) 0 eq_refl) as Hrd.
  cbn [app] in Hrd. rewrite Hrd, to_u16_small in Hh by lia. cbn [mbind option_bind] in Hh.
  unfold PQWIRE_MAX_ROW_COLUMNS in Hh. rewrite clamp_small, zlen_to_nat in Hh by done.
  destruct (columns_loop_run cols 0 (sess r) (wr16_be (zlen cols)) [])
    as (s1 & names & Hl & Hwf1 & Hf1 & Hf2 & Hnm);
    [by eapply receiver_sess|lia|lia|done| |].
  { rewrite app_nil_r. change (zlen (row_desc_payload cols) < 2 ^ 64). lia. }
  rewrite zlen_wr16_be, app_nil_r in Hl. rewrite Hl in Hh. cbn [mbind option_bind] in Hh.
  destruct (enqueue_last s1 (mk_event PQ_EVENT_ROW_DESCRIPTION (P_row_desc col_scratch_ptr (0 + zlen cols))))
    as (q & He & Hlast); [done|no_row|].
  rewrite He in Hh. apply (inj Some) in Hh. rewrite <- Hh. eexists. split; [exact Hlast|].
  split; [done|]. intros i col Hi. cbn [col_scratch set_event_ring col_name_scratch].
  split.
  - eapply filled_get; [exact Hf1|]. clear -Hi.
    pose proof (zget_Some_lt _ _ _ Hi) as Hlt. unfold zget in *.
    rewrite (proj2 (Z.leb_le _ _)) in * by lia.
    assert (∀ cols j n, cols !! n = Some col →
      stored_columns j cols !! n = Some (mk_column_desc (Some (j + Z.of_nat n)) (cd_oid col) (cd_format col))) as Hst.
    { clear. induction cols as [|x cols IH]; intros j [|n] Hn; try done; cbn in *.
      - simplify_eq. by rewrite Z.add_0_r.
      - rewrite (IH (j + 1)) by done. do 3 f_equal. lia. }
    rewrite (Hst _ 0 _ Hi). do 3 f_equal. lia.
  - assert (Hg : zget (cstr_of <$> names) i = Some (ztake 63 (str_or [] (cd_name col)))).
    { rewrite Hnm, zget_fmap, Hi. done. }
    rewrite zget_fmap in Hg. destruct (zget names i) as [nm|] eqn:E; [|done].
    by rewrite (filled_get _ _ _ _ _ Hf2 E).
Qed.

Lemma row_description_roundtrip_witness :
  let cols := [mk_column_desc (Some (bs "id")) 23 0; mk_column_desc None 25 1] in
  delivers (fresh PQWIRE_ROLE_SERVER 64) (test_receiver PQWIRE_ROLE_CLIENT)
    (pqwire_send_row_description (Some (fresh PQWIRE_ROLE_SERVER 64)) (Some cols) (zlen cols)) (λ r' ev,
    ev = mk_event PQ_EVENT_ROW_DESCRIPTION (P_row_desc col_scratch_ptr (zlen cols)) ∧
    ∀ i col, zget cols i = Some col →
      zget (col_scratch (sess r')) i = Some (mk_column_desc (Some i) (cd_oid col) (cd_format col)) ∧
      cstr_of <$> zget (col_name_scratch (sess r')) i = Some (ztake 63 (str_or [] (cd_name col)))).
Proof.
  intros cols.
  apply (row_description_roundtrip (fresh PQWIRE_ROLE_SERVER 64) (test_receiver PQWIRE_ROLE_CLIENT) cols).
  - apply fresh_wf. lia.
  - reflexivity.
  - vm_compute. discriminate.
  - repeat constructor; vm_compute; (discriminate || done).
  - vm_compute. discriminate.
  - apply test_receiver_ok. vm_compute. discriminate.
  - reflexivity.
Defined.

(** ** DataRow *)

(** What column pointer and length [dn] say of the column value [p]: NULL, or the bytes in
    the used part of the arena. *)
Definition cell_reads (s : session) (p : option (list Z)) (dn : option Z * Z) : Prop :=
  match p with
  | None => dn = (None, 0)
  | Some v => ∃ off, dn = (Some off, zlen v) ∧ 0 ≤ off ∧ off + zlen v ≤ row_arena_used s ∧
                     mem_read (row_arena s) off (zlen v) = Some v
  end.

Lemma cell_reads_ext s s' p dn :
  session_wf s → session_wf s' → session_ext s s' → cell_reads s p dn → cell_reads s' p dn.
Proof.
  intros Hwf Hwf' He. destruct p as [v|]; cbn; [|done].
  intros (off & -> & H0 & Hu & Hr). destruct He as [_ _ Hle Ha _].
  exists off. split_and!; [done|done|lia|]. rewrite <- Hr.
  destruct Hwf as [_ _ _ _ _ _ _ _ Hz Hus _], Hwf' as [_ _ _ _ _ _ _ _ Hz' _ _].
  apply (mem_read_ztake _ _ (row_arena_used s)); [done|lia..].
Qed.

Definition total_bytes (ps : list (option (list Z))) : Z :=
  foldr (λ p t, zlen (default [] p) + t) 0 ps.
Lemma total_bytes_nonneg ps : 0 ≤ total_bytes ps.
Proof.
  induction ps as [|p ps IH]; [done|].
  change (total_bytes (p :: ps)) with (zlen (default [] p) + total_bytes ps).
  pose proof (zlen_nonneg (default [] p)). lia.
Qed.

Definition value_ok (p : option (list Z)) : Prop :=
  match p with Some v => bytes_ok v ∧ zlen v < 2 ^ 31 | None => True end.

Lemma values_len_ok ps : Forall value_ok ps → Forall len_ok ps.
Proof. apply Forall_impl. intros [v|]; [by intros []|done]. Qed.

(** The length word of a parameter or column. *)
Lemma param_length_word pre p rest :
  value_ok p → rd32_be (pre ++ param_bytes p ++ rest) (zlen pre) = Some (to_u32 (param_length p)).
Proof.
  intros Hp. unfold param_bytes. rewrite <- app_assoc. rewrite rd32_be_wr32_be by done.
  f_equal. apply to_u32_small, to_u32_range.
Qed.
Lemma to_i32_param_length p : value_ok p → to_i32 (to_u32 (param_length p)) = param_length p.
Proof.
  intros Hp. rewrite to_i32_u32, to_i32_small; [done|].
  destruct p as [v|]; cbn in *; [|lia]. pose proof (zlen_nonneg v). lia.
Qed.
Lemma param_value_read pre v rest :
  mem_read (pre ++ param_bytes (Some v) ++ rest) (zlen pre + 4) (zlen v) = Some v.
Proof.
  unfold param_bytes. change (default [] (Some v)) with v. rewrite <- app_assoc, app_assoc.
  apply mem_read_app; [zl|done].
Qed.

(** Writing cell [i]. *)
Lemma set_cell_run u row i d n :
  0 ≤ i < 16 → row_wf u row →
  ∃ row', set_cell row i d n = Some row' ∧
    zset (dr_data row) i d = Some (dr_data row') ∧ zset (dr_len row) i n = Some (dr_len row').
Proof.
  intros Hi [H1 H2 H3 H4 _]. unfold set_cell.
  destruct (zset_is_Some (dr_data row) i d) as [ds Hd]; [lia|].
  destruct (zset_is_Some (dr_len row) i n) as [ls Hl]; [lia|].
  destruct (zset_is_Some (dr_format row) i 0) as [fs Hf]; [lia|].
  destruct (zset_is_Some (dr_oid row) i 0) as [os Ho]; [lia|].
  rewrite Hd, Hl, Hf, Ho. cbn [mbind option_bind]. eexists. split; [done|]. done.
Qed.

(** One turn of the column loop: the offset moves past the column whether or not its value is
    kept. *)
Lemma cells_turn n i row s pre p rest :
  value_ok p → let body := pre ++ param_bytes p ++ rest in
  cells_loop (S n) i (zlen pre) row s body =
  match p with
  | None =>
      row ← set_cell row i None 0;
      cells_loop n (i + 1) (zlen (pre ++ param_bytes p)) row s body
  | Some v =>
      if PQWIRE_ROW_ARENA <? row_arena_used s + zlen v then
        row ← set_cell row i None 0;
        cells_loop n (i + 1) (zlen (pre ++ param_bytes p)) row s body
      else
        arena ← mem_write (row_arena s) (row_arena_used s) v;
        row ← set_cell row i (Some (row_arena_used s)) (zlen v);
        cells_loop n (i + 1) (zlen (pre ++ param_bytes p)) row
          (set_row_arena_used (row_arena_used s + zlen v) (set_row_arena arena s)) body
  end.
Proof.
  intros Hp body. cbn [cells_loop].
  assert (Hbl : zlen body = zlen pre + (4 + zlen (default [] p)) + zlen rest) by (unfold body; zl).
  pose proof (zlen_nonneg (default [] p)). pose proof (zlen_nonneg rest).
  pose proof (param_length_word pre p rest Hp) as Hword. fold body in Hword.
  rewrite (proj2 (Z.leb_le _ _)) by lia. rewrite Hword. cbn [mbind option_bind]. cbn zeta. rewrite to_i32_param_length by done.
  rewrite zlen_app, zlen_param_bytes. destruct p as [v|]; cbn [param_length].
  - change (default [] (Some v)) with v in *. rewrite Z.add_assoc.
    rewrite (proj2 (Z.ltb_ge (zlen v) 0)), (proj2 (Z.ltb_ge (zlen body) _)) by lia.
    pose proof (param_value_read pre v rest) as Hval. fold body in Hval. rewrite Hval.
    by destruct (_ <? _).
  - change (zlen (default [] None)) with 0. by rewrite Z.add_assoc, Z.add_0_r.
Qed.

Lemma cells_loop_run ps i row s pre rest :
  session_wf s → 0 ≤ i → i + zlen ps ≤ 16 → Forall value_ok ps → row_wf (row_arena_used s) row →
  row_arena_used s + total_bytes ps ≤ PQWIRE_ROW_ARENA →
  zlen (pre ++ cat param_bytes ps ++ rest) < 2 ^ 64 →
  ∃ row' s' cells,
    cells_loop (length ps) i (zlen pre) row s (pre ++ cat param_bytes ps ++ rest)
      = Some (row', s', i + zlen ps) ∧ session_wf s' ∧ row_wf (row_arena_used s') row' ∧
    filled (dr_data row) i cells.*1 (dr_data row') ∧ filled (dr_len row) i cells.*2 (dr_len row') ∧
    Forall2 (cell_reads s') ps cells ∧ session_ext s s'.
Proof.
  revert i row s pre. induction ps as [|p ps IH]; intros i row s pre Hwf Hi Hl Hok Hrow Hfit Hb.
  { exists row, s, []. rewrite zlen_nil, Z.add_0_r.
    split_and!; (done || apply filled_nil || apply session_ext_refl || constructor). }
  rewrite zlen_cons in *. pose proof (zlen_nonneg ps). apply Forall_cons_iff in Hok as [Hp Hok].
  pose proof (total_bytes_nonneg ps). 
  change (total_bytes (p :: ps)) with (zlen (default [] p) + total_bytes ps) in Hfit.
  cbn [length]. rewrite cat_cons, <- app_assoc in Hb |- *. rewrite cells_turn by done.
  assert (Hbody : pre ++ param_bytes p ++ cat param_bytes ps ++ rest
                  = (pre ++ param_bytes p) ++ cat param_bytes ps ++ rest) by (by rewrite <- app_assoc).
  rewrite Hbody in Hb |- *.
  assert (Hnext : ∀ d n row1 s1, set_cell row i d n = Some row1 → session_wf s1 → session_ext s s1 →
    row_arena_used s1 = row_arena_used s + zlen (default [] p) →
    row_wf (row_arena_used s1) row1 → cell_reads s1 p (d, n) →
    ∃ row' s' cells,
      cells_loop (length ps) (i + 1) (zlen (pre ++ param_bytes p)) row1 s1
          ((pre ++ param_bytes p) ++ cat param_bytes ps ++ rest)
        = Some (row', s', i + (zlen ps + 1)) ∧ session_wf s' ∧ row_wf (row_arena_used s') row' ∧
      filled (dr_data row) i cells.*1 (dr_data row') ∧ filled (dr_len row) i cells.*2 (dr_len row') ∧
      Forall2 (cell_reads s') (p :: ps) cells ∧ session_ext s s').
  { intros d n row1 s1 Hset Hwf1 He1 Hu1 Hrow1 Hcell.
    destruct (IH (i + 1) row1 s1 (pre ++ param_bytes p)) as
      (row2 & s2 & cells & Hr & Hwf2 & Hrow2 & Hf1 & Hf2 & Hc & He2); try done; try lia.
    exists row2, s2, ((d, n) :: cells). rewrite Hr.
    destruct (set_cell_run _ row i d n ltac:(lia) Hrow) as (row1' & Hset' & Hs1 & Hs2).
    rewrite Hset in Hset'. apply (inj Some) in Hset'. subst row1'.
    split_and!; [do 2 f_equal; lia|done|done|by eapply filled_cons|by eapply filled_cons| |].
    - constructor; [|done]. by eapply (cell_reads_ext s1).
    - eapply session_ext_trans; [destruct Hwf; lia|done|done]. }
  destruct p as [v|].
  - change (default [] (Some v)) with v in *. pose proof (zlen_nonneg v).
    rewrite (proj2 (Z.ltb_ge _ _)) by lia.
    destruct (arena_copy_good s v) as (arena & Hw & Hwf1 & He1 & Hread); [done|lia|].
    rewrite Hw. cbn [mbind option_bind].
    set (s1 := set_row_arena_used _ _) in *.
    destruct (set_cell_wf (row_arena_used s1) row i (Some (row_arena_used s)) (zlen v))
      as (r1 & Hset & Hr1).
    { eapply row_wf_mono; [|done]. by destruct He1. }
    { lia. }
    { cbn. destruct Hwf. lia. }
    rewrite Hset. cbn [mbind option_bind]. apply (Hnext (Some (row_arena_used s)) (zlen v)); try done.
    cbn. exists (row_arena_used s). destruct Hwf. split_and!; [done|lia|lia|done].
  - change (default [] (@None (list Z))) with (@nil Z) in *. change (zlen (@nil Z)) with 0 in *.
    destruct (set_cell_wf _ row i None 0 Hrow) as (r1 & Hset & Hr1); [lia|done|].
    rewrite Hset. cbn [mbind option_bind].
    apply (Hnext None 0); (done || apply session_ext_refl || lia).
Qed.

(** The row event of a payload whose values fit in the free arena. *)
Definition row_delivers (s : session) (ps : list (option (list Z))) (ev : protocol_event_t) : Prop :=
  ∃ row, ev = mk_event PQ_EVENT_DATA_ROW (P_data_row row) ∧ dr_n_columns row = zlen ps ∧
    ∀ i p, zget ps i = Some p →
      match p with
      | None => zget (dr_data row) i = Some None ∧ zget (dr_len row) i = Some 0
      | Some v => zget (dr_len row) i = Some (zlen v) ∧ read_cell s row i = Some v
      end.

Lemma row_payload_ok ps : Forall value_ok ps → bytes_ok (data_row_payload ps).
Proof.
  intros Hok. unfold data_row_payload. apply bytes_ok_app. split; [apply wr16_be_ok|].
  apply cat_bytes_ok. eapply Forall_impl; [|exact Hok]. intros p Hp.
  unfold param_bytes. apply bytes_ok_app. split; [apply wr32_be_ok|].
  destruct p; [by destruct Hp|constructor].
Qed.

(** [parse_data_row] on the payload of at most 16 columns is the column loop. *)
Lemma parse_row_loop s ps :
  zlen ps ≤ 16 →
  parse_data_row s (data_row_payload ps) =
  ('(row, s, i) ← cells_loop (length ps) 0 (zlen (wr16_be (zlen ps))) zero_data_row s
                    (wr16_be (zlen ps) ++ cat param_bytes ps ++ []);
   enqueue_event s (mk_event PQ_EVENT_DATA_ROW (P_data_row
     (mk_data_row (dr_data row) (dr_len row) (dr_format row) (dr_oid row) i)))).
Proof.
  intros Hn. pose proof (zlen_nonneg ps). pose proof (zlen_nonneg (cat param_bytes ps)).
  unfold parse_data_row, data_row_payload. rewrite (proj2 (Z.ltb_ge _ _)) by zl.
  pose proof (rd16_be_wr16_be [] (zlen ps) (cat param_bytes ps) 0 eq_refl) as Hrd.
  cbn [app] in Hrd. rewrite Hrd, to_u16_small by lia. cbn [mbind option_bind].
  unfold PQWIRE_MAX_ROW_COLUMNS. rewrite clamp_small, zlen_to_nat by done. by rewrite app_nil_r.
Qed.

Lemma parse_row_delivers s s' ps :
  session_wf s → zlen ps ≤ 16 → Forall value_ok ps → zlen (data_row_payload ps) < 2 ^ 64 →
  row_arena_used s + total_bytes ps ≤ PQWIRE_ROW_ARENA →
  parse_data_row s (data_row_payload ps) = Some s' →
  ∃ ev, list.last (queued s') = Some ev ∧ row_delivers s' ps ev.
Proof.
  intros Hwf Hn Hok Hz Harena Hh. rewrite parse_row_loop in Hh by done.
  destruct (cells_loop_run ps 0 zero_data_row s (wr16_be (zlen ps)) [])
    as (row & s1 & cells & Hl & Hwf1 & Hrow & Hf1 & Hf2 & Hcells & He1);
    [done|lia|lia|done|apply zero_row_wf|done| |].
  { rewrite app_nil_r. exact Hz. }
  rewrite Hl in Hh. cbn [mbind option_bind] in Hh. set (row1 := mk_data_row _ _ _ _ _) in Hh.
  destruct (enqueue_last s1 (mk_event PQ_EVENT_DATA_ROW (P_data_row row1)))
    as (q & He & Hlast); [done|by destruct Hrow|].
  rewrite He in Hh. apply (inj Some) in Hh as <-. eexists. split; [exact Hlast|].
  exists row1. split_and!; [done|done|]. intros i p Hi.
  assert (Hcell : ∃ dn, zget cells i = Some dn ∧ cell_reads s1 p dn).
  { unfold zget in *. destruct (0 <=? i); [|done]. by eapply Forall2_lookup_l in Hcells as (? & ? & ?); eauto. }
  destruct Hcell as (dn & Hdn & Hcell).
  assert (Hd : zget (dr_data row) i = Some dn.1)
    by (eapply filled_get; [exact Hf1|]; by rewrite zget_fmap, Hdn).
  assert (Hlen : zget (dr_len row) i = Some dn.2)
    by (eapply filled_get; [exact Hf2|]; by rewrite zget_fmap, Hdn).
  destruct p as [v|]; cbn in Hcell; cbn [row1 dr_data dr_len].
  - destruct Hcell as (off & -> & _ & _ & Hread). split; [done|].
    unfold read_cell. cbn [dr_data dr_len row1]. rewrite Hd, Hlen. exact Hread.
  - by rewrite Hd, Hlen, Hcell.
Qed.

(** Sending a row and parsing it. *)
Lemma row_goes_through c r ps (post : pqwire_ctx → protocol_event_t → Prop) :
  ctx_wf c → allocs c = [] → zlen ps ≤ 16 → Forall value_ok ps → row_fits ps = true →
  receiver r (data_row_payload ps) → role (sess r) = PQWIRE_ROLE_CLIENT →
  (∀ r', parse_data_row (sess r) (data_row_payload ps) = Some (sess r') →
     ∃ ev, list.last (queued (sess r')) = Some ev ∧ post r' ev) →
  delivers c r (call_send_data_row_multi (Some c) ps) post.
Proof.
  intros Hc Ha Hn Hok Hfits Hr Hrole Hpost.
  pose proof (send_data_row_multi_spec c ps Hc Ha (values_len_ok _ Hok)) as Hsend. rewrite Hfits in Hsend.
  apply (delivers_intro c r _ (chr "D") (data_row_payload ps));
    [done|apply chr_ok|by apply row_payload_ok|done|].
  intros r' base Hh _ _ _. rewrite handle_client in Hh by done. by apply Hpost.
Qed.

(** C10: a DataRow of at most 16 columns that the builder accepts and whose bytes fit in the
    client's free row arena delivers every column: a NULL as a NULL data pointer, a value
    as its exact bytes. *)
Theorem data_row_roundtrip c r ps :
  ctx_wf c → allocs c = [] → zlen ps ≤ 16 → Forall value_ok ps → row_fits ps = true →
  receiver r (data_row_payload ps) → role (sess r) = PQWIRE_ROLE_CLIENT →
  row_arena_used (sess r) + total_bytes ps ≤ PQWIRE_ROW_ARENA →
  delivers c r (call_send_data_row_multi (Some c) ps) (λ r' ev, ∃ row,
    ev = mk_event PQ_EVENT_DATA_ROW (P_data_row row) ∧ dr_n_columns row = zlen ps ∧
    ∀ i p, zget ps i = Some p →
      match p with
      | None => zget (dr_data row) i = Some None
      | Some v => zget (dr_len row) i = Some (zlen v) ∧ read_cell (sess r') row i = Some v
      end).
Proof.
  intros Hc Ha Hn Hok Hfits Hr Hrole Harena. apply row_goes_through; try done. intros r' Hh.
  destruct (parse_row_delivers (sess r) (sess r') ps) as (ev & Hlast & row & -> & Hcols & Hcells);
    try done; [by eapply receiver_sess|by eapply receiver_len|].
  eexists. split; [exact Hlast|]. exists row. split_and!; [done|done|]. intros i p Hi.
  specialize (Hcells i p Hi). destruct p; [done|by destruct Hcells].
Qed.

Lemma data_row_roundtrip_witness :
  let ps := [Some (bs "42"); None; Some []] in
  delivers (fresh PQWIRE_ROLE_SERVER 64) (test_receiver PQWIRE_ROLE_CLIENT)
    (call_send_data_row_multi (Some (fresh PQWIRE_ROLE_SERVER 64)) ps) (λ r' ev, ∃ row,
    ev = mk_event PQ_EVENT_DATA_ROW (P_data_row row) ∧ dr_n_columns row = zlen ps ∧
    ∀ i p, zget ps i = Some p →
      match p with
      | None => zget (dr_data row) i = Some None
      | Some v => zget (dr_len row) i = Some (zlen v) ∧ read_cell (sess r') row i = Some v
      end).
Proof.
  intros ps.
  apply (data_row_roundtrip (fresh PQWIRE_ROLE_SERVER 64) (test_receiver PQWIRE_ROLE_CLIENT) ps).
  - apply fresh_wf. lia.
  - reflexivity.
  - vm_compute. discriminate.
  - unfold ps. rewrite !Forall_cons_iff. unfold value_ok.
    split_and!; first [concrete_bytes|exact I|constructor|vm_compute; reflexivity].
  - vm_compute. reflexivity.
  - apply test_receiver_ok. vm_compute. discriminate.
  - reflexivity.
  - vm_compute. discriminate.
Defined.

(** ** Rows that exhaust the arena *)

(** What of the columns [ps] the arena has room for when [used] bytes are taken: a value that
    does not fit becomes NULL, and the ones after it are tried in turn. *)
Fixpoint arena_view (used : Z) (ps : list (option (list Z))) : list (option (list Z)) :=
  match ps with
  | [] => []
  | p :: ps =>
      if PQWIRE_ROW_ARENA <? used + zlen (default [] p) then None :: arena_view used ps
      else p :: arena_view (used + zlen (default [] p)) ps
  end.

Lemma length_arena_view used ps : length (arena_view used ps) = length ps.
Proof. revert used. induction ps as [|p ps IH]; intros used; cbn; [done|]. by destruct (_ <? _); cbn; rewrite IH. Qed.
Lemma zlen_arena_view used ps : zlen (arena_view used ps) = zlen ps.
Proof. unfold zlen. by rewrite length_arena_view. Qed.
Lemma arena_view_ok used ps : Forall value_ok ps → Forall value_ok (arena_view used ps).
Proof.
  intros Hok. revert used. induction Hok as [|p ps Hp Hok IH]; intros used; cbn; [constructor|].
  destruct (_ <? _); constructor; (done || apply IH).
Qed.
Lemma arena_view_fits used ps :
  used ≤ PQWIRE_ROW_ARENA → used + total_bytes (arena_view used ps) ≤ PQWIRE_ROW_ARENA.
Proof.
  revert used. induction ps as [|p ps IH]; intros used Hu; cbn [arena_view]; [cbn; lia|].
  destruct (Z.ltb_spec PQWIRE_ROW_ARENA (used + zlen (default [] p))) as [H|H]; cbn [total_bytes foldr].
  - specialize (IH used Hu). unfold total_bytes in IH. cbn [default]. rewrite zlen_nil. lia.
  - specialize (IH (used + zlen (default [] p)) H). unfold total_bytes in IH. lia.
Qed.
Lemma zlen_view_payload used ps :
  zlen (data_row_payload (arena_view used ps)) ≤ zlen (data_row_payload ps).
Proof.
  unfold data_row_payload. rewrite !zlen_app, !zlen_wr16_be. apply Z.add_le_mono_l.
  revert used. induction ps as [|p ps IH]; intros used; [done|]. cbn [arena_view].
  destruct (_ <? _); rewrite !cat_cons, !zlen_app, !zlen_param_bytes.
  - specialize (IH used). pose proof (zlen_nonneg (default [] p)).
    change (zlen (default [] (@None (list Z)))) with 0. lia.
  - specialize (IH (used + zlen (default [] p))). lia.
Qed.

(** The column loop does the same with the values that do not fit replaced by NULL. *)
Lemma cells_loop_view ps i row s pre pre' :
  Forall value_ok ps → row_arena_used s ≤ PQWIRE_ROW_ARENA →
  cells_loop (length ps) i (zlen pre) row s (pre ++ cat param_bytes ps ++ []) =
  cells_loop (length ps) i (zlen pre') row s
    (pre' ++ cat param_bytes (arena_view (row_arena_used s) ps) ++ []).
Proof.
  revert i row s pre pre'. induction ps as [|p ps IH]; intros i row s pre pre' Hok Hu; [done|].
  apply Forall_cons_iff in Hok as [Hp Hok]. cbn [length arena_view].
  rewrite cat_cons, <- app_assoc, cells_turn by done.
  destruct (Z.ltb_spec PQWIRE_ROW_ARENA (row_arena_used s + zlen (default [] p))) as [Hx|Hx].
  - destruct p as [v|]; [|exfalso; revert Hx; cbn [default]; rewrite zlen_nil; lia].
    change (default [] (Some v)) with v in Hx. rewrite (proj2 (Z.ltb_lt _ _)) by lia.
    rewrite cat_cons, <- app_assoc, cells_turn by done.
    destruct (set_cell row i None 0) as [row'|]; [|done]. cbn [mbind option_bind].
    rewrite (app_assoc pre), (app_assoc pre'). by apply IH.
  - rewrite cat_cons, <- app_assoc, cells_turn by done. destruct p as [v|].
    + change (default [] (Some v)) with v in *. rewrite (proj2 (Z.ltb_ge _ _)) by lia.
      destruct (mem_write (row_arena s) _ v) as [arena|]; [|done]. cbn [mbind option_bind].
      destruct (set_cell row i _ (zlen v)) as [row'|]; [|done]. cbn [mbind option_bind].
      rewrite (app_assoc pre), (app_assoc pre'). by apply IH.
    + change (default [] (@None (list Z))) with (@nil Z) in *. change (zlen (@nil Z)) with 0 in *. rewrite Z.add_0_r.
      destruct (set_cell row i None 0) as [row'|]; [|done]. cbn [mbind option_bind].
      rewrite (app_assoc pre), (app_assoc pre'). by apply IH.
Qed.

Lemma parse_row_view s ps :
  row_arena_used s ≤ PQWIRE_ROW_ARENA → zlen ps ≤ 16 → Forall value_ok ps →
  parse_data_row s (data_row_payload ps)
  = parse_data_row s (data_row_payload (arena_view (row_arena_used s) ps)).
Proof.
  intros Hu Hn Hok. rewrite (parse_row_loop s ps), (parse_row_loop s (arena_view _ _)) by (rewrite ?zlen_arena_view; done).
  by rewrite length_arena_view, zlen_arena_view, (cells_loop_view ps 0 _ s _ (wr16_be (zlen ps))).
Qed.

(** C36: a DataRow of at most 16 columns that the builder accepts and the client's row arena
    cannot hold loses columns silently: each value
    that does not fit in what the columns before it left of the 65536 bytes arrives with a
    NULL pointer and length 0, as SQL NULL does, and the columns that fit, also those after
    it, arrive with their exact bytes. *)
Theorem arena_exhausted_is_null c r ps :
  ctx_wf c → allocs c = [] → zlen ps ≤ 16 → Forall value_ok ps → row_fits ps = true →
  receiver r (data_row_payload ps) → role (sess r) = PQWIRE_ROLE_CLIENT →
  delivers c r (call_send_data_row_multi (Some c) ps) (λ r' ev,
    row_delivers (sess r') (arena_view (row_arena_used (sess r)) ps) ev).
Proof.
  intros Hc Ha Hn Hok Hfits Hr Hrole. apply row_goes_through; try done. intros r' Hh.
  pose proof (receiver_sess _ _ Hr) as Hwf. assert (row_arena_used (sess r) ≤ PQWIRE_ROW_ARENA) by (destruct Hwf; lia).
  rewrite parse_row_view in Hh by done. apply (parse_row_delivers (sess r)); try done.
  - by rewrite zlen_arena_view.
  - by apply arena_view_ok.
  - pose proof (zlen_view_payload (row_arena_used (sess r)) ps). pose proof (receiver_len _ _ Hr). lia.
  - by apply arena_view_fits.
Qed.

(** A client whose arena has three bytes left: the first and third of three values fit. *)
Definition nearly_full : pqwire_ctx :=
  let r := test_receiver PQWIRE_ROLE_CLIENT in
  set_sess (set_row_arena_used (PQWIRE_ROW_ARENA - 3) (sess r)) r.

Lemma wf_set_used u s :
  session_wf s → row_arena_used s ≤ u ≤ PQWIRE_ROW_ARENA → session_wf (set_row_arena_used u s).
Proof.
  intros [] Hu. split; cbn; try done; try lia.
  eapply Forall_impl; [|exact sw_rows]. intros ev. apply event_in_arena_mono. lia.
Qed.

Lemma nearly_full_ok payload : zlen payload ≤ 59 → receiver nearly_full payload.
Proof.
  intros Hl. destruct (test_receiver_ok PQWIRE_ROLE_CLIENT payload) as [H1 H2 H3 H4 H5 H6]; [lia|].
  split; try done. apply ctx_wf_set_sess; [done|]. apply wf_set_used; [by destruct H1|].
  change (row_arena_used (sess (test_receiver PQWIRE_ROLE_CLIENT))) with 0. unfold PQWIRE_ROW_ARENA. lia.
Qed.

Lemma arena_exhausted_is_null_witness :
  let ps := [Some (bs "ab"); Some (bs "wxyz"); Some (bs "c"); None] in
  arena_view (row_arena_used (sess nearly_full)) ps = [Some (bs "ab"); None; Some (bs "c"); None] ∧
  delivers (fresh PQWIRE_ROLE_SERVER 64) nearly_full
    (call_send_data_row_multi (Some (fresh PQWIRE_ROLE_SERVER 64)) ps) (λ r' ev,
    row_delivers (sess r') (arena_view (row_arena_used (sess nearly_full)) ps) ev).
Proof.
  intros ps. split; [reflexivity|].
  apply (arena_exhausted_is_null (fresh PQWIRE_ROLE_SERVER 64) nearly_full ps).
  - apply fresh_wf. lia.
  - reflexivity.
  - vm_compute. discriminate.
  - unfold ps. rewrite !Forall_cons_iff. unfold value_ok.
    split_and!; first [concrete_bytes|exact I|constructor|vm_compute; reflexivity].
  - vm_compute. reflexivity.
  - apply nearly_full_ok. vm_compute. discriminate.
  - reflexivity.
Defined.
