(* ===== verification/RoundtripBind.v ===== *)
(** * RoundtripBind: Bind and StartupMessage from client to server

    A Bind arrives as views into the server's input buffer, through which its parameter bytes
    are read; a StartupMessage as user and database, where the builder does not overrun its
    buffer. *)
From S2P Require Import Prelude Wire Ring Events Scram Ctx Parse ParseSafe Feed FeedSpec FeedThms.
From S2P Require Import Send SendSpec Roundtrip RoundtripRows.

(** ** Bind *)
Definition i16_ok (v : Z) : Prop := - 2 ^ 15 ≤ v < 2 ^ 15.

Lemma read_formats_run vs i fmts pre rest :
  0 ≤ i → i + zlen vs ≤ zlen fmts → Forall i16_ok vs →
  ∃ fmts', read_formats (length vs) i (zlen pre) fmts (pre ++ cat be16 vs ++ rest)
             = Some (fmts', zlen pre + 2 * zlen vs) ∧ filled fmts i vs fmts'.
Proof.
  revert i fmts pre. induction vs as [|v vs IH]; intros i fmts pre Hi Hl Hv.
  { exists fmts. split; [|apply filled_nil]. cbn [length read_formats].
    do 2 f_equal. change (zlen (@nil Z)) with 0. lia. }
  rewrite zlen_cons in *. pose proof (zlen_nonneg vs). apply Forall_cons_iff in Hv as [Hv Hvs].
  cbn [length read_formats]. rewrite cat_cons, <- app_assoc.
  pose proof (zlen_nonneg rest). change (be16 v) with (wr16_be (to_u16 v)).
  rewrite (proj2 (Z.leb_le _ _)) by zl.
  rewrite rd16_be_wr16_be by done. cbn [mbind option_bind].
  rewrite !to_i16_u16, to_i16_small by done.
  destruct (zset_is_Some fmts i v) as [o1 Ho]; [lia|]. rewrite Ho. cbn [mbind option_bind].
  pose proof (zset_zlen _ _ _ _ Ho) as Hz.
  destruct (IH (i + 1) o1 (pre ++ wr16_be (to_u16 v))) as (o2 & Hr & Hf); [lia|lia|done|].
  rewrite zlen_app, zlen_wr16_be, <- app_assoc in Hr. exists o2.
  split; [|by eapply filled_cons]. rewrite Hr. do 2 f_equal. lia.
Qed.

(** What a parameter view says of the parameter it views. *)
Definition view_ok (base : in_ptr) (body : list Z) (nf : Z) (fmts : list Z) (i : Z)
    (p : option (list Z)) (v : pq_bind_param_view_t) : Prop :=
  pv_length v = param_length p ∧ param_format nf fmts i = Some (pv_format v) ∧
  match p with
  | None => pv_data v = None
  | Some d => ∃ off, pv_data v = Some (in_ptr_add base off) ∧ mem_read body off (zlen d) = Some d
  end.

Fixpoint views_ok base body nf fmts i (ps : list (option (list Z))) (vs : list pq_bind_param_view_t) :=
  match ps, vs with
  | [], [] => True
  | p :: ps, v :: vs => view_ok base body nf fmts i p v ∧ views_ok base body nf fmts (i + 1) ps vs
  | _, _ => False
  end.

Lemma views_ok_get base body nf fmts i ps vs k p :
  views_ok base body nf fmts i ps vs → zget ps k = Some p →
  ∃ v, zget vs k = Some v ∧ view_ok base body nf fmts (i + k) p v.
Proof.
  revert i vs k. induction ps as [|q ps IH]; intros i vs k Hv Hk.
  { apply zget_Some_lt in Hk. change (zlen (@nil (option (list Z)))) with 0 in Hk. lia. }
  destruct vs as [|v vs]; [done|]. destruct Hv as [Hv Hvs].
  pose proof (zget_Some_lt _ _ _ Hk) as Hlt. destruct (Z.eq_dec k 0) as [->|Hk0].
  - rewrite zget_0 in Hk. apply (inj Some) in Hk as <-. exists v. by rewrite Z.add_0_r.
  - rewrite zget_cons in Hk by lia. destruct (IH (i + 1) vs (k - 1) Hvs Hk) as (w & Hw & Ho).
    exists w. rewrite zget_cons by lia. split; [done|]. by replace (i + k) with (i + 1 + (k - 1)) by lia.
Qed.

Lemma views_ok_length base body nf fmts i ps vs :
  views_ok base body nf fmts i ps vs → zlen vs = zlen ps.
Proof.
  revert i vs. induction ps as [|p ps IH]; intros i [|v vs] Hv; try done.
  destruct Hv as [_ Hv]. by rewrite !zlen_cons, (IH _ _ Hv).
Qed.

Lemma read_params_run ps i params pre rest nf fmts base :
  0 ≤ i → i + zlen ps ≤ zlen params → 0 ≤ nf ≤ zlen fmts → Forall value_ok ps →
  ∃ params' vs,
    read_params (length ps) i (zlen pre) params nf fmts (pre ++ cat param_bytes ps ++ rest) base
      = Val (params', zlen pre + zlen (cat param_bytes ps)) ∧
    filled params i vs params' ∧
    views_ok base (pre ++ cat param_bytes ps ++ rest) nf fmts i ps vs.
Proof.
  revert i params pre. induction ps as [|p ps IH]; intros i params pre Hi Hl Hf Hok.
  { exists params, []. change (zlen (cat param_bytes [])) with 0. rewrite Z.add_0_r.
    split_and!; [done|apply filled_nil|done]. }
  rewrite zlen_cons in *. pose proof (zlen_nonneg ps). apply Forall_cons_iff in Hok as [Hp Hok].
  cbn [length read_params]. rewrite cat_cons, <- app_assoc.
  pose proof (param_length_word pre p (cat param_bytes ps ++ rest) Hp) as Hword.
  set (body := pre ++ param_bytes p ++ cat param_bytes ps ++ rest) in *.
  assert (Hbl : zlen body = zlen pre + (4 + zlen (default [] p)) + zlen (cat param_bytes ps) + zlen rest)
    by (unfold body; zl).
  assert (Hval : ∀ v, p = Some v → mem_read body (zlen pre + 4) (zlen v) = Some v)
    by (intros v ->; apply param_value_read).
  pose proof (zlen_nonneg (default [] p)). pose proof (zlen_nonneg (cat param_bytes ps)).
  pose proof (zlen_nonneg rest).
  rewrite (proj2 (Z.leb_le _ _)) by lia. rewrite Hword. cbn [deref mbind outcome_bind]. cbn zeta.
  rewrite to_i32_param_length by done.
  assert (Hbody : body = (pre ++ param_bytes p) ++ cat param_bytes ps ++ rest)
    by (unfold body; by rewrite <- app_assoc).
  destruct (param_format_defined nf fmts i) as [fmt Hfmt]; [lia|lia|].
  assert (Hnext : ∀ data off', off' = zlen pre + 4 + zlen (default [] p) →
    view_ok base body nf fmts i p (mk_view (param_length p) data fmt) →
    ∃ params' vs,
      (fmt ← deref (param_format nf fmts i);
       params ← deref (zset params i (mk_view (param_length p) data fmt));
       read_params (length ps) (i + 1) off' params nf fmts body base)
      = Val (params', zlen pre + zlen (param_bytes p ++ cat param_bytes ps)) ∧
      filled params i vs params' ∧ views_ok base body nf fmts i (p :: ps) vs).
  { intros data off' -> Hv. rewrite Hfmt. cbn [deref mbind outcome_bind].
    destruct (zset_is_Some params i (mk_view (param_length p) data fmt)) as [p1 Hp1]; [lia|].
    rewrite Hp1. cbn [deref mbind outcome_bind]. pose proof (zset_zlen _ _ _ _ Hp1) as Hz.
    destruct (IH (i + 1) p1 (pre ++ param_bytes p)) as (p2 & vs & Hr & Hfl & Hvs); [lia|lia|done|done|].
    rewrite <- Hbody in Hr, Hvs. rewrite zlen_app, zlen_param_bytes, Z.add_assoc in Hr.
    exists p2, (mk_view (param_length p) data fmt :: vs). rewrite Hr. split_and!.
    - do 2 f_equal. zl.
    - by eapply filled_cons.
    - by split. }
  destruct p as [d|].
  - change (default [] (Some d)) with d in *. change (param_length (Some d)) with (zlen d) in *.
    rewrite (proj2 (Z.ltb_ge _ _)) by lia. rewrite (proj2 (Z.ltb_ge _ _)) by lia.
    cbn [mbind outcome_bind]. apply (Hnext (Some (in_ptr_add base (zlen pre + 4)))); [done|].
    split_and!; [done|done|]. exists (zlen pre + 4). split; [done|by apply Hval].
  - change (param_length None) with (-1) in *. change (-1 <? 0) with true. cbv match.
    cbn [mbind outcome_bind]. apply (Hnext None); [|done].
    change (zlen (default [] (@None (list Z)))) with 0. lia.
Qed.

(** The format that applies to parameter [i], as the protocol defines it. *)
Definition effective_format (fmts : list Z) (i : Z) : Z :=
  match fmts with
  | [] => 0
  | [f] => f
  | _ => default 0 (zget fmts i)
  end.

Lemma param_format_effective fmts arr i f :
  0 ≤ i → ztake (zlen fmts) arr = fmts → param_format (zlen fmts) arr i = Some f →
  f = effective_format fmts i.
Proof.
  intros Hi Ht. assert (Hg : ∀ k, k < zlen fmts → zget arr k = zget fmts k).
  { intros k Hk. rewrite <- (ztake_zdrop (zlen fmts) arr), Ht. by rewrite zget_app_l. }
  unfold param_format, effective_format. destruct fmts as [|f0 [|f1 fs]].
  - change (zlen []) with 0. by intros [= <-].
  - change (zlen [f0]) with 1 in *. rewrite Hg by lia. rewrite zget_0. by intros [= <-].
  - assert (2 ≤ zlen (f0 :: f1 :: fs)) by zlia. set (l := f0 :: f1 :: fs) in *.
    rewrite !(proj2 (Z.eqb_neq _ _)) by lia. destruct (Z.ltb_spec i (zlen l)) as [Hlt|Hge].
    + rewrite Hg by done. by intros ->.
    + intros [= <-]. unfold zget. rewrite (proj2 (Z.leb_le _ _)) by lia.
      rewrite lookup_ge_None_2; [done|]. unfold zlen in Hge. lia.
Qed.

Section bind_decode.
Context (base : in_ptr) (portal statement fmts : list Z) (ps : list (option (list Z))) (rfmts : list Z).
Context (Hpo : cstr_ok portal) (Hst : cstr_ok statement) (Hfm : Forall i16_ok fmts)
  (Hps : Forall value_ok ps) (Hrf : Forall i16_ok rfmts)
  (Hnf : zlen fmts ≤ 32) (Hnp : zlen ps ≤ 32) (Hnr : zlen rfmts ≤ 32).
Let body := bind_payload portal statement fmts ps rfmts.
Context (Hlen : zlen body < 2 ^ 64).

(** What the event of a well-formed Bind holds. *)
Definition bind_says (b : pq_bind_t) : Prop :=
  cstr_of (bind_portal b) = ztake 63 portal ∧ cstr_of (bind_statement b) = ztake 63 statement ∧
  bind_n_formats b = zlen fmts ∧ ztake (zlen fmts) (bind_formats b) = fmts ∧
  bind_n_params b = zlen ps ∧ bind_n_result_formats b = zlen rfmts ∧
  ztake (zlen rfmts) (bind_result_formats b) = rfmts ∧
  ∀ i p, zget ps i = Some p → ∃ v, zget (bind_params b) i = Some v ∧
    pv_length v = param_length p ∧ pv_format v = effective_format fmts i ∧
    match p with
    | None => pv_data v = None
    | Some d => ∃ off, pv_data v = Some (in_ptr_add base off) ∧ mem_read body off (zlen d) = Some d
    end.

Lemma bind_fields_run : ∃ b, bind_fields base body = Val b ∧ bind_says b.
Proof using Hpo Hst Hfm Hps Hrf Hnf Hnp Hnr Hlen.
  pose proof (zlen_nonneg portal). pose proof (zlen_nonneg statement). pose proof (zlen_nonneg fmts).
  pose proof (zlen_nonneg ps). pose proof (zlen_nonneg rfmts). pose proof (zlen_nonneg (cat param_bytes ps)).
  set (p1 := with_nul portal ++ with_nul statement).
  set (p2 := p1 ++ wr16_be (zlen fmts)). set (p3 := p2 ++ cat be16 fmts).
  set (p4 := p3 ++ wr16_be (zlen ps)). set (p5 := p4 ++ cat param_bytes ps).
  set (p6 := p5 ++ wr16_be (zlen rfmts)).
  assert (B1 : body = p1 ++ wr16_be (zlen fmts) ++ cat be16 fmts ++ wr16_be (zlen ps)
     ++ cat param_bytes ps ++ wr16_be (zlen rfmts) ++ cat be16 rfmts)
    by (unfold body, bind_payload, p1; by rewrite <- app_assoc).
  assert (B2 : body = p2 ++ cat be16 fmts ++ wr16_be (zlen ps) ++ cat param_bytes ps
     ++ wr16_be (zlen rfmts) ++ cat be16 rfmts) by (rewrite B1; unfold p2; by rewrite <- app_assoc).
  assert (B3 : body = p3 ++ wr16_be (zlen ps) ++ cat param_bytes ps
     ++ wr16_be (zlen rfmts) ++ cat be16 rfmts) by (rewrite B2; unfold p3; by rewrite <- app_assoc).
  assert (B4 : body = p4 ++ cat param_bytes ps ++ wr16_be (zlen rfmts) ++ cat be16 rfmts)
    by (rewrite B3; unfold p4; by rewrite <- app_assoc).
  assert (B5 : body = p5 ++ wr16_be (zlen rfmts) ++ cat be16 rfmts)
    by (rewrite B4; unfold p5; by rewrite <- app_assoc).
  assert (B6 : body = p6 ++ cat be16 rfmts ++ [])
    by (rewrite app_nil_r, B5; unfold p6; by rewrite <- app_assoc).
  assert (L1 : zlen p1 = 0 + (zlen portal + 1) + (zlen statement + 1)) by (unfold p1; zl).
  assert (L2 : zlen p2 = zlen p1 + 2) by (unfold p2; zl).
  assert (L3 : zlen p3 = zlen p2 + 2 * zlen fmts) by (unfold p3; zl).
  assert (L4 : zlen p4 = zlen p3 + 2) by (unfold p4; zl).
  assert (L5 : zlen p5 = zlen p4 + zlen (cat param_bytes ps)) by (unfold p5; zl).
  assert (L6 : zlen p6 = zlen p5 + 2) by (unfold p6; zl).
  assert (LB : zlen body = zlen p6 + 2 * zlen rfmts) by (rewrite B6, app_nil_r; zl).
  unfold bind_fields. cbn zeta.
  assert (R1 : read_or_return body 0 = Val (portal, zlen portal + 1)).
  { unfold body, bind_payload in *. by apply read_or_return_first. }
  assert (R2 : read_or_return body (0 + (zlen portal + 1)) = Val (statement, zlen statement + 1)).
  { unfold body, bind_payload in *. apply read_or_return_str; [done|zl|done]. }
  rewrite R1. cbn [mbind outcome_bind]. rewrite R2. cbn [mbind outcome_bind]. rewrite <- L1.
  rewrite (proj2 (Z.ltb_ge _ _)) by lia. cbn [negb check mbind outcome_bind].
  assert (N1 : rd16_be body (zlen p1) = Some (zlen fmts))
    by (rewrite B1, rd16_be_wr16_be by done; by rewrite to_u16_small by lia).
  rewrite N1. cbn [deref mbind outcome_bind]. unfold PQWIRE_MAX_BIND_PARAMS.
  rewrite clamp_small, zlen_to_nat by done.
  destruct (read_formats_run fmts 0 (bind_formats (zero_bind base (zlen body))) p2
    (wr16_be (zlen ps) ++ cat param_bytes ps ++ wr16_be (zlen rfmts) ++ cat be16 rfmts))
    as (fa & F1 & F2); [lia|done|done|].
  rewrite <- B2, L2, <- L2, <- L3 in F1. rewrite <- L2, F1. cbn [deref mbind outcome_bind].
  rewrite (proj2 (Z.ltb_ge _ _)) by lia. cbn [negb check mbind outcome_bind].
  assert (N2 : rd16_be body (zlen p3) = Some (zlen ps))
    by (rewrite B3, rd16_be_wr16_be by done; by rewrite to_u16_small by lia).
  rewrite N2. cbn [deref mbind outcome_bind]. rewrite clamp_small, zlen_to_nat by done.
  destruct (read_params_run ps 0 (bind_params (zero_bind base (zlen body))) p4
    (wr16_be (zlen rfmts) ++ cat be16 rfmts) (zlen fmts) fa base) as (pa & vs & P1 & P2 & P3);
    [lia|done| |done|].
  { destruct F2 as [-> _]. change (zlen (bind_formats (zero_bind base (zlen body)))) with 32. lia. }
  rewrite <- B4, <- L5 in P1. rewrite <- B4 in P3. rewrite <- L4, P1. cbn [mbind outcome_bind].
  rewrite (proj2 (Z.leb_le _ _)) by lia.
  assert (N3 : rd16_be body (zlen p5) = Some (zlen rfmts))
    by (rewrite B5, rd16_be_wr16_be by done; by rewrite to_u16_small by lia).
  rewrite N3. cbn [deref mbind outcome_bind]. rewrite clamp_small, zlen_to_nat by done.
  destruct (read_formats_run rfmts 0 (bind_result_formats (zero_bind base (zlen body))) p6 [])
    as (ra & G1 & G2); [lia|done|done|].
  rewrite <- B6 in G1. rewrite <- L6, G1. cbn [deref mbind outcome_bind].
  eexists. split; [done|]. unfold bind_says.
  cbn [bind_portal bind_statement bind_n_formats bind_formats bind_n_params bind_params
    bind_n_result_formats bind_result_formats].
  apply filled_prefix in F2 as F3. apply filled_prefix in G2.
  split_and!; try done; try by apply cstr_of_copy_cstr.
  intros i p Hi. destruct (views_ok_get _ _ _ _ _ _ _ _ _ P3 Hi) as (v & Hv & V1 & V2 & V3).
  rewrite Z.add_0_l in V2. exists v. pose proof (zget_Some_lt _ _ _ Hi).
  split_and!; [by eapply filled_get|done| |done].
  by eapply param_format_effective in V2; [|lia|].
Qed.
End bind_decode.

Lemma mem_read_shift {A} (pre body post : list A) off n d :
  mem_read body off n = Some d → mem_read (pre ++ body ++ post) (zlen pre + off) n = Some d.
Proof.
  unfold mem_read. intros H. destruct (_ && _) eqn:E; [|done]. zbool. apply (inj Some) in H.
  pose proof (zlen_nonneg pre). pose proof (zlen_nonneg post). rewrite !zlen_app.
  rewrite !(proj2 (Z.leb_le _ _)) by lia. cbn [andb]. f_equal.
  rewrite <- zdrop_zdrop by lia. rewrite zdrop_app by done.
  rewrite zdrop_app_le by lia. rewrite ztake_app_le by (rewrite zlen_zdrop by lia; lia). done.
Qed.

(** C7: a Bind with at most 32 parameters, formats and result formats that the builder accepts
    reaches the server with its names cut at 63 characters, its formats and result formats,
    and for each parameter the effective format and, read through the event's view, NULL or
    the exact bytes; the view reads them as long as no other input is fed. *)
Theorem bind_roundtrip heap c r portal statement fmts ps rfmts :
  ctx_wf c → allocs c = [] → cstr_ok portal → cstr_ok statement →
  Forall i16_ok fmts → Forall value_ok ps → Forall i16_ok rfmts →
  zlen fmts ≤ 32 → zlen ps ≤ 32 → zlen rfmts ≤ 32 →
  bind_fits portal statement fmts ps rfmts = true →
  receiver r (bind_payload portal statement fmts ps rfmts) → role (sess r) = PQWIRE_ROLE_SERVER →
  delivers c r (call_send_bind heap (Some c) portal statement fmts ps rfmts) (λ r' ev, ∃ b,
    ev = mk_event PQ_EVENT_BIND (P_bind b) ∧
    cstr_of (bind_portal b) = ztake 63 portal ∧ cstr_of (bind_statement b) = ztake 63 statement ∧
    bind_n_formats b = zlen fmts ∧ ztake (zlen fmts) (bind_formats b) = fmts ∧
    bind_n_params b = zlen ps ∧ bind_n_result_formats b = zlen rfmts ∧
    ztake (zlen rfmts) (bind_result_formats b) = rfmts ∧
    ∀ i p, zget ps i = Some p → ∃ v, zget (bind_params b) i = Some v ∧
      pv_length v = param_length p ∧ pv_format v = effective_format fmts i ∧ read_param r' v = p).
Proof.
  intros Hc Ha Hpo Hst Hfm Hps Hrf Hnf Hnp Hnr Hfit Hr Hrole.
  pose proof (send_bind_spec heap c portal statement fmts ps rfmts Hc Ha (values_len_ok _ Hps)) as Hsend.
  rewrite Hfit in Hsend. set (body := bind_payload portal statement fmts ps rfmts) in *.
  apply (delivers_intro c r _ (chr "B") body); [done|apply chr_ok| |done|].
  { unfold body, bind_payload. rewrite !bytes_ok_app.
    split_and!; try (by apply with_nul_ok); try apply wr16_be_ok; try apply cat_be16_ok.
    apply cat_bytes_ok. eapply Forall_impl; [|exact Hps]. intros p Hp.
    unfold param_bytes. apply bytes_ok_app. split; [apply wr32_be_ok|].
    destruct p; [by destruct Hp|constructor]. }
  intros r' base Hh Hbase _ [junk Hj].
  destruct (bind_fields_run base portal statement fmts ps rfmts) as (b & Hb & Hsays);
    try done; [by apply (receiver_len r)|].
  rewrite handle_server in Hh by done.
  change (handle_frontend base (sess r) (chr "B") body) with (parse_bind_msg base (sess r) body) in Hh.
  apply (on_val_event _ b) in Hh; [|exact Hb|by eapply receiver_sess|done].
  eexists. split; [exact Hh|]. exists b. split; [done|].
  destruct Hsays as (S1 & S2 & S3 & S4 & S5 & S6 & S7 & S8). split_and!; try done.
  intros i p Hi. destruct (S8 i p Hi) as (v & V1 & V2 & V3 & V4). exists v. split_and!; try done.
  unfold read_param. destruct p as [d|]; [|by rewrite V4].
  destruct V4 as (off & -> & Hread). cbn [mbind option_bind].
  unfold read_in_ptr. rewrite Hbase. cbn [ip_gen ip_off in_ptr_add].
  rewrite bool_decide_true by done. rewrite Hj, V2. unfold frame.
  rewrite app_comm_cons, <- app_assoc. by apply (mem_read_shift (chr "B" :: wr32_be (to_u32 (zlen body + 4)))).
Qed.

Lemma bind_roundtrip_witness :
  let ps := [Some (bs "42"); None] in
  delivers (fresh PQWIRE_ROLE_CLIENT 64) (test_receiver PQWIRE_ROLE_SERVER)
    (call_send_bind (λ _, 0) (Some (fresh PQWIRE_ROLE_CLIENT 64)) (bs "p") (bs "s") [1; 0] ps [1])
    (λ r' ev, ∃ b,
    ev = mk_event PQ_EVENT_BIND (P_bind b) ∧
    cstr_of (bind_portal b) = ztake 63 (bs "p") ∧ cstr_of (bind_statement b) = ztake 63 (bs "s") ∧
    bind_n_formats b = 2 ∧ ztake 2 (bind_formats b) = [1; 0] ∧
    bind_n_params b = zlen ps ∧ bind_n_result_formats b = 1 ∧
    ztake 1 (bind_result_formats b) = [1] ∧
    ∀ i p, zget ps i = Some p → ∃ v, zget (bind_params b) i = Some v ∧
      pv_length v = param_length p ∧ pv_format v = effective_format [1; 0] i ∧ read_param r' v = p).
Proof.
  intros ps.
  apply (bind_roundtrip (λ _, 0) (fresh PQWIRE_ROLE_CLIENT 64) (test_receiver PQWIRE_ROLE_SERVER)
    (bs "p") (bs "s") [1; 0] ps [1]).
  - apply fresh_wf. lia.
  - reflexivity.
  - concrete_bytes.
  - concrete_bytes.
  - repeat constructor; discriminate.
  - unfold ps. rewrite !Forall_cons_iff. unfold value_ok.
    split_and!; first [concrete_bytes|exact I|constructor|vm_compute; reflexivity].
  - repeat constructor; discriminate.
  - vm_compute. discriminate.
  - vm_compute. discriminate.
  - vm_compute. discriminate.
  - vm_compute. reflexivity.
  - apply test_receiver_ok. vm_compute. discriminate.
  - reflexivity.
Defined.

(** ** StartupMessage *)

(** A server that waits for the StartupMessage. *)
Record listener (r : pqwire_ctx) (packet : list Z) : Prop := {
  ls_wf : ctx_wf r;
  ls_allocs : allocs r = [];
  ls_pending : pending r = [];
  ls_role : role (sess r) = PQWIRE_ROLE_SERVER;
  ls_seen : startup_seen (sess r) = false;
  ls_fits : zlen packet ≤ max_message_size r;
}.

Lemma next_item_startup max payload :
  bytes_ok payload → 4 ≤ zlen payload → zlen payload + 4 ≤ max → zlen payload + 4 < 2 ^ 32 →
  next_item max true (wr32_be (zlen payload + 4) ++ payload) = Some (I_startup payload, false, []).
Proof.
  intros Hb H4 Hm Hl.
  assert (Hw : ∃ b0 b1 b2 b3, wr32_be (zlen payload + 4) = [b0; b1; b2; b3] ∧
    be32 b0 b1 b2 b3 = zlen payload + 4).
  { pose proof (rd32_be_wr32_be [] (zlen payload + 4) [] 0 eq_refl) as Hr.
    pose proof (wr32_be_ok (zlen payload + 4)) as Hok. unfold wr32_be in *.
    eexists _, _, _, _. split; [done|]. cbn [app] in Hr. rewrite rd32_be_val in Hr by done.
    apply (inj Some) in Hr. rewrite Hr. apply to_u32_small. lia. }
  destruct Hw as (b0 & b1 & b2 & b3 & -> & Hlen). cbn [app next_item]. cbn zeta. rewrite Hlen.
  rewrite (proj2 (Z.ltb_ge _ 8)), (proj2 (Z.ltb_ge max _)) by lia. cbn [orb].
  rewrite (proj2 (Z.ltb_ge _ _)) by lia.
  replace (zlen payload + 4 - 4) with (zlen payload) by lia.
  by rewrite ztake_all, zdrop_all by done.
Qed.

Lemma startup_loop_pair fuel s pre key val rest off :
  cstr_ok key → key ≠ [] → cstr_ok val → off = zlen pre →
  zlen (pre ++ with_nul key ++ with_nul val ++ rest) < 2 ^ 64 →
  startup_loop (S fuel) s (pre ++ with_nul key ++ with_nul val ++ rest) off
  = startup_loop fuel
      (if bool_decide (key = bs "user")
       then set_user_scratch (copy_cstr (user_scratch s) 128 (Some val)) s
       else if bool_decide (key = bs "database")
       then set_db_scratch (copy_cstr (db_scratch s) 128 (Some val)) s
       else s)
      (pre ++ with_nul key ++ with_nul val ++ rest) (off + (zlen key + 1) + (zlen val + 1)).
Proof.
  intros Hk Hne Hv -> Hb. cbn [startup_loop].
  assert (0 < zlen key) by (destruct key; [done|zlia]).
  pose proof (zlen_nonneg val). pose proof (zlen_nonneg rest).
  rewrite (proj2 (Z.ltb_lt _ _)) by zl. rewrite read_at_str by done. cbn [mbind option_bind].
  rewrite (proj2 (Z.leb_gt _ _)) by lia.
  assert (Hb2 : pre ++ with_nul key ++ with_nul val ++ rest
    = (pre ++ with_nul key) ++ with_nul val ++ rest) by by rewrite <- app_assoc.
  rewrite Hb2 in Hb |- *. by rewrite read_at_str by (done || zl).
Qed.

Lemma parse_startup_run s user database :
  session_wf s → role s = PQWIRE_ROLE_SERVER → cstr_ok user → cstr_ok database →
  zlen (startup_payload user database) < 2 ^ 64 →
  ∃ s', parse_startup_body s (startup_payload user database) = Some s' ∧
    list.last (queued s') = Some (mk_event PQ_EVENT_STARTUP (P_startup user_scratch_ptr db_scratch_ptr)) ∧
    cstr_of (user_scratch s') = ztake 127 user ∧ cstr_of (db_scratch s') = ztake 127 database ∧
    startup_seen s' = true ∧ proto_state s' = PROTO_STATE_AUTHENTICATING.
Proof.
  intros Hwf Hrole Hu Hd Hb.
  pose proof (zlen_startup_payload user database) as Hz.
  pose proof (zlen_nonneg user). pose proof (zlen_nonneg database).
  unfold parse_startup_body.
  destruct (zset_scratch (user_scratch s) 128) as (u0 & -> & Hu0); [by destruct Hwf|lia|].
  destruct (zset_scratch (db_scratch s) 128) as (d0 & -> & Hd0); [by destruct Hwf|lia|].
  cbn [mbind option_bind]. set (s1 := set_db_scratch d0 (set_user_scratch u0 s)).
  set (body := startup_payload user database) in *.
  set (pre := wr32_be PQ_PROTO_3_0). assert (Hpre : zlen pre = 4) by done.
  assert (B1 : body = pre ++ with_nul (bs "user") ++ with_nul user
    ++ (with_nul (bs "database") ++ with_nul database ++ [0])) by done.
  assert (B2 : body = (pre ++ with_nul (bs "user") ++ with_nul user)
    ++ with_nul (bs "database") ++ with_nul database ++ [0]) by (rewrite B1; by rewrite <- !app_assoc).
  assert (Hfuel : ∃ f, S (length body) = S (S (S f))).
  { assert (2 ≤ Z.of_nat (length body)) by (change (2 ≤ zlen body); lia).
    exists (length body - 2)%nat. lia. }
  destruct Hfuel as [f ->].
  rewrite B1, startup_loop_pair;
    [|apply cstr_ok_check; vm_compute; reflexivity|done|done|done|by rewrite <- B1].
  rewrite <- B1, B2, startup_loop_pair;
    [|apply cstr_ok_check; vm_compute; reflexivity|done|done|zl|by rewrite <- B2].
  rewrite <- B2. change (bool_decide (bs "user" = bs "user")) with true.
  change (bool_decide (bs "database" = bs "user")) with false.
  change (bool_decide (bs "database" = bs "database")) with true. cbv match.
  cbn [startup_loop]. rewrite (proj2 (Z.ltb_ge _ _)).
  2:{ change (zlen (bs "user")) with 4. change (zlen (bs "database")) with 8. lia. }
  cbn [mbind option_bind].
  set (s2 := set_db_scratch (copy_cstr _ 128 (Some database)) _).
  assert (Hwf2 : session_wf s2).
  { unfold s2, s1. apply wf_set_db; [apply wf_set_user; [apply wf_set_db; [by apply wf_set_user|done]|]|];
      by apply zlen_copy_cstr. }
  destruct (enqueue_last s2 (mk_event PQ_EVENT_STARTUP (P_startup user_scratch_ptr db_scratch_ptr)) Hwf2)
    as (q & He & Hl); [no_row|]. rewrite He. cbn [mbind option_bind].
  cbn [role set_startup_seen set_event_ring s2 set_db_scratch set_user_scratch s1].
  rewrite Hrole, bool_decide_true by done. eexists. split; [done|].
  split_and!; [exact Hl| | |done|done].
  - by apply cstr_of_copy_cstr.
  - by apply cstr_of_copy_cstr.
Qed.

(** C13: [pqwire_send_startup] and the server's startup parser: for a user name of at most 489
    characters the packet is sent when user and database together stay below 487 characters
    (refused with -1 otherwise), and the server then sees both, each cut at 127 characters,
    and moves to AUTHENTICATING; a user name of 490 to 497 characters overruns the builder's
    512-byte buffer (undefined behaviour) before any check. *)
Theorem startup_roundtrip c r user database :
  ctx_wf c → allocs c = [] → role (sess c) = PQWIRE_ROLE_CLIENT →
  cstr_ok user → cstr_ok database → listener r (startup_packet user database) →
  let sent := pqwire_send_startup (Some c) (Some user) (Some database) in
  if zlen user + zlen database <? 487 then
    ∃ c' r', sent = Some (0, Some c') ∧
      output_buf c' = output_buf c ++ startup_packet user database ∧
      pqwire_feed_input (Some r) (Some (startup_packet user database))
        = Some (zlen (startup_packet user database), Some r') ∧
      pending r' = [] ∧
      list.last (queued (sess r')) = Some (mk_event PQ_EVENT_STARTUP (P_startup user_scratch_ptr db_scratch_ptr)) ∧
      read_ctx_ptr (sess r') user_scratch_ptr = ztake 127 user ∧
      read_ctx_ptr (sess r') db_scratch_ptr = ztake 127 database ∧
      startup_seen (sess r') = true ∧ pqwire_current_state (Some r') = 1
  else if (490 <=? zlen user) && (zlen user <=? 497) then sent = None
  else sent = Some (-1, Some c).
Proof.
  intros Hc Ha Hrc Hu Hd [Hr Hra Hrp Hrr Hrs Hrf] sent.
  pose proof (zlen_nonneg user). pose proof (zlen_nonneg database).
  pose proof (send_startup_cases c (Some user) (Some database) Hc Ha Hrc) as Hsend.
  change (str_or [] (Some user)) with user in Hsend. change (str_or [] (Some database)) with database in Hsend.
  cbn zeta in Hsend. fold sent in Hsend.
  destruct (Z.ltb_spec (zlen user + zlen database) 487) as [Hlt|Hge].
  2:{ destruct (Z.leb_spec 490 (zlen user)), (Z.leb_spec 498 (zlen user)),
        (Z.leb_spec (zlen user) 497); cbn [andb]; try lia; try done.
      by rewrite (proj2 (Z.leb_le _ _)) in Hsend by lia. }
  rewrite !(proj2 (Z.leb_gt _ _)) in Hsend by lia.
  destruct Hsend as (c' & Hsent & Hs). pose proof (zlen_startup_payload user database) as Hz.
  set (payload := startup_payload user database) in *.
  assert (Hpk : startup_packet user database = wr32_be (zlen payload + 4) ++ payload) by done.
  assert (Hb : bytes_ok payload).
  { unfold payload, startup_payload. rewrite !bytes_ok_app.
    split_and!; first [apply wr32_be_ok|by apply with_nul_ok|concrete_bytes]. }
  assert (Hzp : zlen (startup_packet user database) = zlen payload + 4) by (rewrite Hpk; zl).
  destruct (feed_input_spec r (startup_packet user database) Hr) as
    [(al & Hn & _) | (r' & Hf & Hwf' & _ & Hdf & _)]; [| |done|].
  { rewrite Hpk. apply bytes_ok_app. split; [apply wr32_be_ok|done]. }
  { destruct (pending_split r Hr) as (_ & _ & <-). rewrite Hrp. change (zlen (@nil Z)) with 0. lia. }
  assert (Hexp : expects_startup (sess r) = true)
    by (unfold expects_startup; rewrite Hrr, Hrs; done).
  assert (Hnx : next_item (max_message_size r) true (startup_packet user database)
                = Some (I_startup payload, false, []))
    by (rewrite Hpk; apply next_item_startup; [done|lia|lia|lia]).
  rewrite Hrp, Hexp in Hdf. change ([] ++ startup_packet user database)
    with (startup_packet user database) in Hdf.
  rewrite deframe_eq, Hnx in Hdf. rewrite deframe_eq in Hdf. cbn [next_item] in Hdf.
  destruct Hdf as (Hap & Hpend & _).
  cbn [apply_items apply_item] in Hap.
  destruct (parse_startup_run (sess r) user database) as (s' & Hs' & Hl & H1 & H2 & H3 & H4);
    [by destruct Hr|done|done|done|fold payload; lia|]. fold payload in Hs'. rewrite Hs' in Hap.
  cbn [mbind option_bind] in Hap. apply (inj Some) in Hap. subst s'.
  exists c', r'. split_and!; try done; [by apply sends_output|].
  unfold pqwire_current_state. destruct Hwf' as [-> _ _ _ _ _ _ _]. by rewrite Z.eqb_refl, H4.
Qed.

Lemma startup_roundtrip_witness :
  let sent := pqwire_send_startup (Some (fresh PQWIRE_ROLE_CLIENT 64)) (Some (bs "me")) (Some (bs "db")) in
  ∃ c' r', sent = Some (0, Some c') ∧
      output_buf c' = [] ++ startup_packet (bs "me") (bs "db") ∧
      pqwire_feed_input (Some (fresh PQWIRE_ROLE_SERVER 64)) (Some (startup_packet (bs "me") (bs "db")))
        = Some (zlen (startup_packet (bs "me") (bs "db")), Some r') ∧
      pending r' = [] ∧
      list.last (queued (sess r')) = Some (mk_event PQ_EVENT_STARTUP (P_startup user_scratch_ptr db_scratch_ptr)) ∧
      read_ctx_ptr (sess r') user_scratch_ptr = ztake 127 (bs "me") ∧
      read_ctx_ptr (sess r') db_scratch_ptr = ztake 127 (bs "db") ∧
      startup_seen (sess r') = true ∧ pqwire_current_state (Some r') = 1.
Proof.
  apply (startup_roundtrip (fresh PQWIRE_ROLE_CLIENT 64) (fresh PQWIRE_ROLE_SERVER 64) (bs "me") (bs "db")).
  - apply fresh_wf. lia.
  - reflexivity.
  - reflexivity.
  - concrete_bytes.
  - concrete_bytes.
  - split; try reflexivity; [apply fresh_wf; lia|vm_compute; discriminate].
Defined.
