(* ===== verification/Alias.v ===== *)
(** * Alias: how long the pointers of an event stay good

    Events point into the context: at the start of the input buffer (Bind values, raw bodies)
    or at a scratch array (texts, tags, names).  Two messages that arrive in one
    [pqwire_feed_input] call share that memory: when the application gets to the first
    event, the second message has already taken its place. *)
From S2P Require Import Prelude Wire Ring Events Scram Ctx Parse ParseSafe Feed FeedSpec FeedThms.
From S2P Require Import Send SendSpec Roundtrip.

(** One turn of the loop on a frame that is followed by more input. *)
Lemma feed_frame_turn c t body rest :
  ctx_wf c → input_len c < 2 ^ 32 → expects_startup (sess c) = false →
  byte_ok t → bytes_ok body → zlen body + 4 ≤ max_message_size c → zlen body + 4 < 2 ^ 32 →
  pending c = frame t body ++ rest →
  ∃ s' mem', handle_message (mk_in_ptr (input_gen c) 5) (sess c) t body = Some s' ∧
    expects_startup s' = false ∧ session_wf s' ∧
    let c' := with_input c s' mem' (zlen rest) in
    ctx_wf c' ∧ pending c' = rest ∧ (rest = [] → mem' = input_mem c) ∧
    (feed_step c = Some (Continue c') ∨ feed_step c = Some (Break c') ∧ rest = []).
Proof.
  intros Hwf Hl Hst Ht Hb Hfit Hfit2 Hp. pose proof (feed_step_spec c Hwf Hl) as Hstep.
  rewrite Hst, Hp, next_item_frame in Hstep by done.
  destruct Hstep as (s' & mem' & Hi & _ & Hst' & Hwf' & Hp' & Hm & Hr).
  exists s', mem'. split_and!; try done. by destruct Hwf'.
Qed.

(** The rest of the loop when nothing is left. *)
Lemma feed_loop_done fuel c :
  ctx_wf c → pending c = [] → feed_loop (S fuel) c = Some c.
Proof.
  intros Hwf Hp. assert (Hl : input_len c = 0) by (destruct (pending_split c Hwf) as (_ & _ & <-); by rewrite Hp).
  pose proof (feed_step_spec c Hwf ltac:(lia)) as Hend. rewrite Hp in Hend.
  assert (Hnone : ∀ max st, next_item max st [] = None) by by intros ? [].
  rewrite Hnone in Hend. cbn [feed_loop]. by rewrite Hend.
Qed.

(** Two whole frames in one call: both are handled with the same base pointer, and the buffer
    starts with the second one afterwards. *)
Lemma feed_two_frames r t1 b1 t2 b2 :
  receiver r b1 → receiver r b2 → byte_ok t1 → bytes_ok b1 → byte_ok t2 → bytes_ok b2 →
  zlen b1 + zlen b2 < 2 ^ 31 →
  ∃ r' s1, pqwire_feed_input (Some r) (Some (frame t1 b1 ++ frame t2 b2))
             = Some (zlen (frame t1 b1 ++ frame t2 b2), Some r') ∧
    handle_message (mk_in_ptr (input_gen r') 5) (sess r) t1 b1 = Some s1 ∧ session_wf s1 ∧
    handle_message (mk_in_ptr (input_gen r') 5) s1 t2 b2 = Some (sess r') ∧
    ctx_wf r' ∧ pending r' = [] ∧ ∃ junk, input_mem r' = frame t2 b2 ++ junk.
Proof.
  intros [Hwf Hal Hp Hst Hf1 _] [_ _ _ _ Hf2 _] Ht1 Hb1 Ht2 Hb2 Hsum.
  pose proof (zlen_nonneg b1). pose proof (zlen_nonneg b2).
  assert (Hil : input_len r = 0) by (destruct (pending_split r Hwf) as (_ & _ & <-); by rewrite Hp).
  unfold pqwire_feed_input. rewrite guard_ctx_valid by done.
  destruct (grow_copy_spec r (frame t1 b1 ++ frame t2 b2) Hwf) as
    [(al & _ & Hn) | (c1 & c2 & -> & Hc & Hc2 & Hwf2 & Hp2 & Hl2 & _ & _)];
    [apply bytes_ok_app; split; by apply frame_ok|done|].
  rewrite Hp in Hp2. cbn [app] in Hp2. assert (Hlen : input_len c2 = zlen b1 + zlen b2 + 10) by (rewrite Hl2; zl).
  cbn [negb]. rewrite Hc. cbn [mbind option_bind].
  assert (Hs : sess c2 = sess r ∧ max_message_size c2 = max_message_size r) by (rewrite Hc2; done).
  destruct Hs as [Hs Hmx].
  destruct (feed_frame_turn c2 t1 b1 (frame t2 b2)) as (s1 & m1 & Hh1 & Hst1 & Hws1 & Hw1 & Hp1 & _ & Hr1);
    try done; try lia; [by rewrite Hs|].
  set (c3 := with_input c2 s1 m1 (zlen (frame t2 b2))) in *.
  destruct Hr1 as [Hr1 | [_ E]]; [|done].
  assert (Hl3 : input_len c3 < 2 ^ 32) by (change (input_len c3) with (zlen (frame t2 b2)); rewrite zlen_frame; lia).
  assert (Hm3 : max_message_size c3 = max_message_size r) by exact Hmx.
  assert (Hp3 : pending c3 = frame t2 b2 ++ []) by (by rewrite app_nil_r).
  destruct (feed_frame_turn c3 t2 b2 []) as (s2 & m2 & Hh2 & Hst2 & Hws2 & Hw2 & Hp2' & Hm2 & Hr2);
    try done; try lia.
  specialize (Hm2 eq_refl). set (c4 := with_input c3 s2 m2 (zlen [])) in *.
  assert (Hloop : feed_loop (S (Z.to_nat (input_len c2))) c2 = Some c4).
  { replace (Z.to_nat (input_len c2)) with (S (S (Z.to_nat (zlen b1 + zlen b2 + 8)))) by lia.
    cbn [feed_loop]. rewrite Hr1. cbn [mbind option_bind].
    destruct Hr2 as [-> | [-> _]]; cbn [mbind option_bind]; [|done].
    by apply (feed_loop_done (Z.to_nat (zlen b1 + zlen b2 + 8))). }
  rewrite Hloop. cbn [mbind option_bind]. exists c4, s1. rewrite Hs in Hh1. split_and!; try done.
  destruct (pending_split c3 Hw1) as (junk & Hj & _). exists junk. rewrite Hp1 in Hj.
  change (input_mem c4) with m2. by rewrite Hm2.
Qed.

(** C39: the pointers of events that arrive in one [pqwire_feed_input] call do not stay valid
    until the next call.  For any two messages in one call to a receiver with nothing
    buffered, the events of both are made with the same base pointer, and afterwards a
    pointer to offset [off] of a body, of the first message as of the second, reads the
    second message's bytes at [off].  Likewise two Query events point at one scratch array,
    which then holds the second text. *)
Theorem pipelined_events_alias r t1 b1 t2 b2 :
  receiver r b1 → receiver r b2 → byte_ok t1 → bytes_ok b1 → byte_ok t2 → bytes_ok b2 →
  zlen b1 + zlen b2 < 2 ^ 31 →
  ∃ r' s1, pqwire_feed_input (Some r) (Some (frame t1 b1 ++ frame t2 b2))
             = Some (zlen (frame t1 b1 ++ frame t2 b2), Some r') ∧
    handle_message (mk_in_ptr (input_gen r') 5) (sess r) t1 b1 = Some s1 ∧
    handle_message (mk_in_ptr (input_gen r') 5) s1 t2 b2 = Some (sess r') ∧
    (∀ off n, 0 ≤ off → 0 ≤ n → off + n ≤ zlen b2 →
       read_in_ptr r' (mk_in_ptr (input_gen r') (5 + off)) n = Some (ztake n (zdrop off b2))) ∧
    (∀ sql1 sql2, role (sess r) = PQWIRE_ROLE_SERVER → t1 = chr "Q" → t2 = chr "Q" →
       b1 = with_nul sql1 → b2 = with_nul sql2 → cstr_ok sql1 → cstr_ok sql2 →
       read_ctx_ptr s1 sql_scratch_ptr = ztake 4095 sql1 ∧
       read_ctx_ptr (sess r') sql_scratch_ptr = ztake 4095 sql2).
Proof.
  intros Hr1 Hr2 Ht1 Hb1 Ht2 Hb2 Hsum. pose proof (zlen_nonneg b2).
  destruct (feed_two_frames r t1 b1 t2 b2) as (r' & s1 & Hf & Hh1 & Hws & Hh2 & Hwf & _ & junk & Hm); try done.
  exists r', s1. split_and!; try done.
  - intros off n Ho Hn Hl. unfold read_in_ptr. cbn [ip_gen ip_off]. rewrite bool_decide_true, Hm by done.
    assert (Hz : frame t2 b2 ++ junk = (t2 :: wr32_be (to_u32 (zlen b2 + 4))) ++ b2 ++ junk)
      by (unfold frame; cbn [app]; by rewrite <- app_assoc).
    pose proof (zlen_nonneg junk). rewrite Hz, mem_read_Some by zl. f_equal.
    rewrite zdrop_app_ge by zl. replace (5 + off - _) with off by zl.
    rewrite zdrop_app_le by lia. apply ztake_app_le. rewrite zlen_zdrop by lia. lia.
  - intros sql1 sql2 Hrole -> -> -> -> Hs1 Hs2.
    rewrite handle_server in Hh1 by done.
    change (parse_query_msg (sess r) (with_nul sql1) = Some s1) in Hh1.
    assert (Hrole1 : role s1 = PQWIRE_ROLE_SERVER).
    { destruct (handle_message_good (mk_in_ptr (input_gen r') 5) (sess r) (chr "Q") (with_nul sql1))
        as (s1' & E & _ & He); [by eapply receiver_sess|by eapply receiver_len|].
      rewrite handle_server in E by done. change (parse_query_msg (sess r) (with_nul sql1) = Some s1') in E.
      rewrite Hh1 in E. apply (inj Some) in E as <-. destruct He. congruence. }
    rewrite handle_server in Hh2 by done.
    change (parse_query_msg s1 (with_nul sql2) = Some (sess r')) in Hh2.
    split; [eapply (parse_query_run (sess r))|eapply (parse_query_run s1)]; try done. by eapply receiver_sess.
Qed.

(** ** Concrete messages *)

(** What the bytes behind the pointers of the queued events read as, after the feed. *)
Definition event_bytes (c : pqwire_ctx) (ev : protocol_event_t) : list (option (list Z)) :=
  match ev_payload ev with
  | P_bind b => read_param c <$> ztake (bind_n_params b) (bind_params b)
  | P_query p => [Some (read_ctx_ptr (sess c) p)]
  | P_raw p n => [read_in_ptr c p n]
  | _ => []
  end.
Definition queued_bytes (c : option pqwire_ctx) : option (list (list (option (list Z)))) :=
  (λ c, event_bytes c <$> queued (sess c)) <$> c.

Definition startup_bytes : list Z := [0; 0; 0; 8; 0; 3; 0; 0].
(** The body of a Bind to the unnamed portal and statement with one text parameter. *)
Definition bind1 (v : list Z) : list Z := [0; 0; 0; 0; 0; 1] ++ wr32_be (zlen v) ++ v ++ [0; 0].

(** Two Binds in one call both read the second value; fed one by one, and read before the next
    feed, each reads its own.  Two Queries share the scratch array, and two ParameterStatus
    bodies the buffer. *)
Example queued_bytes_example :
  let srv := fresh PQWIRE_ROLE_SERVER 1024 in
  let cl := fresh PQWIRE_ROLE_CLIENT 1024 in
  let b v := frame (chr "B") (bind1 v) in
  queued_bytes (feed_all srv [startup_bytes; b (bs "ab")]) = Some [[]; [Some (bs "ab")]] ∧
  queued_bytes (feed_all srv [startup_bytes; b (bs "ab") ++ b (bs "cd")])
    = Some [[]; [Some (bs "cd")]; [Some (bs "cd")]] ∧
  queued_bytes (feed_all srv [startup_bytes; frame (chr "Q") (bs "a" ++ [0]) ++
                                             frame (chr "Q") (bs "b" ++ [0])])
    = Some [[]; [Some (bs "b")]; [Some (bs "b")]] ∧
  queued_bytes (feed_all cl [frame (chr "S") (bs "x" ++ [0] ++ bs "1" ++ [0]) ++
                             frame (chr "S") (bs "y" ++ [0] ++ bs "2" ++ [0])])
    = Some [[Some (bs "y" ++ [0] ++ bs "2" ++ [0])]; [Some (bs "y" ++ [0] ++ bs "2" ++ [0])]].
Proof. vm_compute. split_and!; reflexivity. Qed.

(** Two pipelined Binds: the value of both is at offset 10 of the body. *)
Lemma pipelined_events_alias_witness :
  let r := test_receiver PQWIRE_ROLE_SERVER in
  let m1 := bind1 (bs "ab") in
  let m2 := bind1 (bs "cd") in
  ztake 2 (zdrop 10 m1) = bs "ab" ∧
  ∃ r' s1, pqwire_feed_input (Some r) (Some (frame (chr "B") m1 ++ frame (chr "B") m2))
             = Some (zlen (frame (chr "B") m1 ++ frame (chr "B") m2), Some r') ∧
    handle_message (mk_in_ptr (input_gen r') 5) (sess r) (chr "B") m1 = Some s1 ∧
    handle_message (mk_in_ptr (input_gen r') 5) s1 (chr "B") m2 = Some (sess r') ∧
    read_in_ptr r' (mk_in_ptr (input_gen r') (5 + 10)) 2 = Some (bs "cd").
Proof.
  intros r m1 m2. split; [reflexivity|].
  destruct (pipelined_events_alias r (chr "B") m1 (chr "B") m2) as (r' & s1 & Hf & H1 & H2 & Hp & _).
  - apply test_receiver_ok. vm_compute. discriminate.
  - apply test_receiver_ok. vm_compute. discriminate.
  - apply chr_ok.
  - concrete_bytes.
  - apply chr_ok.
  - concrete_bytes.
  - vm_compute. reflexivity.
  - exists r', s1. split; [exact Hf|]. split; [exact H1|]. split; [exact H2|].
    apply (Hp 10 2); vm_compute; discriminate.
Defined.
