(* ===== verification/SendThms.v ===== *)
(** * SendThms: edge cases of the message builders

    What [pqwire_send_bind] and [pqwire_send_data_row_multi] do with lengths that come
    without values, and which sizes [pqwire_send_bind] refuses. *)
From S2P Require Import Prelude Wire Ring Events Scram Ctx Parse ParseSafe Feed FeedSpec FeedThms.
From S2P Require Import Send SendSpec Roundtrip.

(** The size check that refuses a Bind of one parameter of [n] bytes, [p] being the offset of
    the parameter's length word and [nr] the number of result formats.  The buffer has 320
    bytes; it is replaced by one with 1024 bytes to spare only when the value does not fit. *)
Definition one_param_refused (p n nr : Z) : bool :=
  (320 <? p + 4) || (if p + 4 + n <=? 320 then 320 <? p + 4 + n + 2 + 2 * nr else 1024 <? 2 + 2 * nr).

Definition one_param_offset (portal statement fmts : list Z) : Z :=
  zlen portal + 1 + (zlen statement + 1) + 2 + 2 * zlen fmts + 2.

Lemma bind_fits_one portal statement fmts v rfmts :
  bind_fits portal statement fmts [Some v] rfmts
  = negb (one_param_refused (one_param_offset portal statement fmts) (zlen v) (zlen rfmts)).
Proof.
  pose proof (zlen_nonneg v). pose proof (zlen_nonneg rfmts). pose proof (zlen_nonneg fmts).
  unfold bind_fits, one_param_refused, one_param_offset. change (zlen [Some v]) with 1.
  change (64 + 1 * 256) with 320. rewrite (Z.mul_comm (zlen fmts) 2), (Z.mul_comm (zlen rfmts) 2).
  set (p := zlen portal + 1 + (zlen statement + 1) + 2 + 2 * zlen fmts + 2).
  rewrite values_fit_cons. cbn [values_fit]. unfold value_cap. change (default [] (Some v)) with v.
  destruct (Z.leb_spec p 320), (Z.ltb_spec 320 (p + 4)); cbn [andb orb negb]; try lia.
  destruct (Z.leb_spec (p + 4 + zlen v) 320), (Z.ltb_spec 320 (p + 4 + zlen v)), (Z.ltb_spec 0 (zlen v));
    cbn [andb]; try lia; rewrite <- Z.leb_antisym; apply eq_true_iff_eq; rewrite !Z.leb_le; lia.
Qed.

(** C37: which Binds of one parameter [pqwire_send_bind] refuses, for any portal, statement,
    formats and value: those whose fixed part does not fit in 320 bytes, those whose value
    just fits there while the result formats after it do not, and those whose value does not
    fit and that have more than 511 result formats; so a value of 309 or 310 bytes to the
    unnamed portal and statement is refused and longer ones are sent.  What is sent is the
    protocol's encoding. *)
Theorem send_bind_refused_sizes heap c portal statement fmts v rfmts :
  ctx_wf c → allocs c = [] → zlen v < 2 ^ 31 →
  if one_param_refused (one_param_offset portal statement fmts) (zlen v) (zlen rfmts)
  then call_send_bind heap (Some c) portal statement fmts [Some v] rfmts = Some (-1, Some c)
  else ∃ c', call_send_bind heap (Some c) portal statement fmts [Some v] rfmts = Some (0, Some c') ∧
    output_buf c' = output_buf c ++
      frame (chr "B") (with_nul portal ++ with_nul statement ++ wr16_be (zlen fmts) ++ cat be16 fmts
        ++ wr16_be 1 ++ (wr32_be (to_u32 (zlen v)) ++ v) ++ wr16_be (zlen rfmts) ++ cat be16 rfmts).
Proof.
  intros Hc Ha Hv.
  pose proof (send_bind_spec heap c portal statement fmts [Some v] rfmts Hc Ha) as Hs.
  rewrite bind_fits_one in Hs. destruct (one_param_refused _ _ _); cbn [negb] in Hs; [apply Hs; by constructor|].
  destruct Hs as (c' & Hs & Ho); [by constructor|]. exists c'. split; [done|].
  rewrite (sends_output _ _ _ Ho). unfold bind_payload. rewrite (cat_cons param_bytes), app_nil_r. done.
Qed.

Lemma send_bind_refused_sizes_witness :
  one_param_refused (one_param_offset [] [] []) 310 0 = true ∧
  one_param_refused (one_param_offset [] [] []) 311 0 = false ∧
  call_send_bind (λ _, 0) (Some (fresh PQWIRE_ROLE_CLIENT 64)) [] [] [] [Some (zrep 309 65)] []
    = Some (-1, Some (fresh PQWIRE_ROLE_CLIENT 64)).
Proof.
  do 2 (split; [reflexivity|]).
  apply (send_bind_refused_sizes (λ _, 0) (fresh PQWIRE_ROLE_CLIENT 64) [] [] [] (zrep 309 65) []).
  - apply fresh_wf. lia.
  - reflexivity.
  - vm_compute. reflexivity.
Defined.

(** A length that is given without a value. *)
Section missing.
Context (c : pqwire_ctx) (n : Z) (Hc : ctx_wf c) (Ha : allocs c = []) (Hn : 0 < n ≤ 248).

Ltac in_room := rewrite return_if_run, (proj2 (Z.ltb_ge 320 _)) by (vm_compute; discriminate).
Ltac put_const := rewrite put_run by (vm_compute; discriminate).

Lemma given_length : i32_array_or (-1) (Some [n]) 0 = Some n.
Proof using Hn. change (Some (to_i32 n) = Some n). f_equal. apply to_i32_small. lia. Qed.

(** [n] uninitialised bytes of the heap block, from offset 10. *)
Definition unwritten (heap : Z → Z) : list Z := (λ k : nat, heap (10 + Z.of_nat k)) <$> seq 0 (Z.to_nat n).

Lemma zlen_unwritten heap : zlen (unwritten heap) = n.
Proof using Hn. unfold unwritten, zlen. rewrite length_fmap, length_seq. lia. Qed.

Lemma put_missing_value heap :
  put_values 1 0 heap (Some [n]) None 320 [0; 0; 0; 0; 0; 1] c
  = (Val (320, ([0; 0; 0; 0; 0; 1] ++ wr32_be n) ++ unwritten heap), c).
Proof using Hn.
  cbn [put_values]. rewrite (access_run _ n) by exact given_length. in_room. put_const.
  rewrite (proj2 (Z.ltb_lt 0 n)), to_u32_small by lia.
  assert (Hz : zlen ([0; 0; 0; 0; 0; 1] ++ wr32_be n) = 10) by done.
  rewrite Hz, (proj2 (Z.ltb_ge _ _)) by lia. do 2 erewrite send_bind_Val by done.
  erewrite send_bind_Val; [done|]. unfold put_unwritten. rewrite Hz. apply put_end.
  rewrite Hz. pose proof (zlen_unwritten heap). unfold unwritten in *. lia.
Qed.

Lemma send_missing_value heap :
  send_bind_msg heap None None None 0 (Some [n]) None 1 None 0 c
  = emit (chr "B") (Some ([0; 0; 0; 0; 0; 1] ++ wr32_be n ++ unwritten heap ++ [0; 0])) c.
Proof using Hc Ha Hn.
  unfold send_bind_msg. rewrite malloc_run by done.
  change (str_or [] None) with (@nil Z). change (64 + 1 * 256) with 320.
  in_room. do 2 put_const. in_room. put_const. erewrite send_bind_Val by done. in_room. put_const.
  rewrite (send_bind_Val _ _ _ _ _ (put_missing_value heap)). rewrite return_if_run.
  assert (Hz : zlen (([0; 0; 0; 0; 0; 1] ++ wr32_be n) ++ unwritten heap) = 10 + n)
    by (rewrite zlen_app, zlen_unwritten; done).
  rewrite Hz, (proj2 (Z.ltb_ge _ _)) by lia. rewrite put_run by (rewrite Hz, zlen_wr16_be; lia).
  erewrite send_bind_Val by done. by rewrite <- !app_assoc.
Qed.

Lemma send_missing_cell :
  send_data_row_multi (Some [n]) None 1 c = emit (chr "D") (Some (wr16_be 1 ++ wr32_be n)) c.
Proof using Hc Ha Hn.
  unfold send_data_row_multi. rewrite malloc_run by done. change (64 + 1 * 256) with 320. put_const.
  assert (Hv : put_cells 1 0 (Some [n]) None 320 ([] ++ wr16_be 1) c = (Val (wr16_be 1 ++ wr32_be n), c)).
  { cbn [put_cells]. rewrite (access_run _ n) by exact given_length. in_room. put_const.
    rewrite (proj2 (Z.ltb_lt 0 n)), to_u32_small by lia. by erewrite send_bind_Val by done. }
  by rewrite (send_bind_Val _ _ _ _ _ Hv).
Qed.

Lemma parse_missing_cell s s' :
  session_wf s → parse_data_row s (wr16_be 1 ++ wr32_be n) = Some s' →
  ∃ row, list.last (queued s') = Some (mk_event PQ_EVENT_DATA_ROW (P_data_row row)) ∧ dr_n_columns row = 0.
Proof using Hn.
  intros Hwf Hh. set (body := wr16_be 1 ++ wr32_be n) in *. unfold parse_data_row in Hh.
  change (zlen body) with 6 in Hh. change (rd16_be body 0) with (Some 1) in Hh.
  change (6 <? 2) with false in Hh. cbn [mbind option_bind] in Hh.
  change (Z.to_nat (clamp 1 PQWIRE_MAX_ROW_COLUMNS)) with 1%nat in Hh.
  cbn [cells_loop] in Hh. change (zlen body) with 6 in Hh. change (2 + 4 <=? 6) with true in Hh. cbv match in Hh.
  pose proof (rd32_be_wr32_be (wr16_be 1) n [] 2 eq_refl) as Hrd. rewrite app_nil_r in Hrd. fold body in Hrd.
  rewrite Hrd in Hh. cbn [mbind option_bind] in Hh. rewrite to_u32_small, to_i32_small in Hh by lia.
  rewrite (proj2 (Z.ltb_ge n 0)), (proj2 (Z.ltb_lt 6 _)) in Hh by lia. cbn [mbind option_bind] in Hh.
  apply enqueue_event_last in Hh; [by eexists|done|]. unfold event_in_arena, row_in_arena. cbn. repeat constructor.
Qed.
End missing.

(** C38: lengths without values: given a positive length and a NULL values array,
    [pqwire_send_bind] sends that many bytes of its uninitialised heap block as the
    parameter's value, and [pqwire_send_data_row_multi] announces the bytes but sends none,
    so that the client's row event has no columns at all. *)
Theorem missing_values_sent heap c r n :
  ctx_wf c → allocs c = [] → 0 < n ≤ 248 → receiver r (wr16_be 1 ++ wr32_be n) →
  role (sess r) = PQWIRE_ROLE_CLIENT →
  (∃ c', pqwire_send_bind heap (Some c) None None None 0 (Some [n]) None 1 None 0 = Some (0, Some c') ∧
     output_buf c' = output_buf c ++ frame (chr "B")
       ([0; 0; 0; 0; 0; 1] ++ wr32_be n
          ++ ((λ k : nat, heap (10 + Z.of_nat k)) <$> seq 0 (Z.to_nat n)) ++ [0; 0])) ∧
  delivers c r (pqwire_send_data_row_multi (Some c) (Some [n]) None 1) (λ _ ev, ∃ row,
    ev = mk_event PQ_EVENT_DATA_ROW (P_data_row row) ∧ dr_n_columns row = 0).
Proof.
  intros Hc Ha Hn Hr Hrole. split.
  - destruct (api_emit c Hc Ha _ _ _ (send_missing_value c n Hc Ha Hn heap)) as (c' & He & Ho).
    exists c'. split; [exact He|]. by apply sends_output.
  - apply (delivers_intro c r _ (chr "D") (wr16_be 1 ++ wr32_be n)); [done|apply chr_ok| | |].
    + apply bytes_ok_app. split; [apply wr16_be_ok|apply wr32_be_ok].
    + apply api_emit; [done..|]. by apply send_missing_cell.
    + intros r' base Hh _ _ _. rewrite handle_client in Hh by done.
      destruct (parse_missing_cell n Hn (sess r) (sess r')) as (row & Hl & Hz); [by eapply receiver_sess|exact Hh|].
      eexists. split; [exact Hl|]. by exists row.
Qed.

Lemma missing_values_sent_witness :
  (∃ c', pqwire_send_bind (λ k, k) (Some (fresh PQWIRE_ROLE_SERVER 64)) None None None 0 (Some [3]) None 1 None 0
           = Some (0, Some c') ∧
     output_buf c' = [] ++ frame (chr "B") ([0; 0; 0; 0; 0; 1] ++ wr32_be 3
          ++ ((λ k : nat, 10 + Z.of_nat k) <$> seq 0 (Z.to_nat 3)) ++ [0; 0])) ∧
  delivers (fresh PQWIRE_ROLE_SERVER 64) (test_receiver PQWIRE_ROLE_CLIENT)
    (pqwire_send_data_row_multi (Some (fresh PQWIRE_ROLE_SERVER 64)) (Some [3]) None 1) (λ _ ev, ∃ row,
    ev = mk_event PQ_EVENT_DATA_ROW (P_data_row row) ∧ dr_n_columns row = 0).
Proof.
  apply (missing_values_sent (λ k, k) (fresh PQWIRE_ROLE_SERVER 64) (test_receiver PQWIRE_ROLE_CLIENT) 3).
  - apply fresh_wf. lia.
  - reflexivity.
  - lia.
  - apply test_receiver_ok. vm_compute. discriminate.
  - reflexivity.
Defined.
