(* ===== verification/Pipeline.v ===== *)
(** * Pipeline: mid-pipeline recovery

    [pqwire_msg_peek], [pqwire_pipeline_status_init], [pqwire_pipeline_observe_msg],
    [pqwire_note_ready], [pqwire_pipeline_feed_backend_msg] and
    [pqwire_pipeline_filter_backend_type] of src/src/pqwire.c. *)
From S2P Require Import Prelude Wire Ring Events Scram Ctx Parse ParseSafe Feed FeedSpec FeedThms.
From S2P Require Import Send SendSpec Roundtrip.

Record pqwire_pipeline_status_t := mk_status {
  saw_error : Z;
  saw_rfq : Z;
  complete : Z;
  n_msgs : Z;
  last_error : pq_error_t;
}.

(** [buf] is the object the pointer points into, [len] the length the caller gives;
    [outs_null] says that an output pointer is NULL.  [Some None] is the result -1. *)
Definition pqwire_msg_peek (buf : option (list Z)) (len : Z) (outs_null : bool) :
    option (option (Z * Z)) :=
  match buf with
  | None => Some None
  | Some buf =>
      if (len <? 5) || outs_null then Some None else
      mlen ← rd32_be buf 1;
      if mlen <? 4 then Some None else
      let total := 1 + mlen in
      if len <? total then Some None else
      t ← zget buf 0;
      Some (Some (t, total))
  end.

Definition pqwire_pipeline_status_init (st : option pqwire_pipeline_status_t) :
    option pqwire_pipeline_status_t :=
  match st with
  | None => None
  | Some _ => Some (mk_status 0 0 0 0 zero_error)
  end.

(** The result and the status; [n_msgs] is an [int], whose overflow is undefined. *)
Definition pqwire_pipeline_observe_msg (st : option pqwire_pipeline_status_t)
    (msg : option (list Z)) (len : Z) : option (Z * option pqwire_pipeline_status_t) :=
  match st, msg with
  | Some s, Some m =>
      r ← pqwire_msg_peek msg len false;
      match r with
      | None => Some (-1, st)
      | Some (type, total) =>
          if negb (total =? len) then Some (-1, st) else
          if n_msgs s =? 2 ^ 31 - 1 then None else
          let n := n_msgs s + 1 in
          if (type =? chr "E") && (5 <=? total) then
            body ← mem_read m 5 (total - 5);
            e ← parse_error_fields body;
            Some (0, Some (mk_status 1 (saw_rfq s) (complete s) n e))
          else if type =? chr "Z" then
            Some (1, Some (mk_status (saw_error s) 1 1 n (last_error s)))
          else Some (0, Some (mk_status (saw_error s) (saw_rfq s) (complete s) n (last_error s)))
      end
  | _, _ => Some (-1, st)
  end.

Definition pqwire_note_ready (ctx : option pqwire_ctx) : option pqwire_ctx :=
  match ctx with
  | None => None
  | Some c => if magic c =? PQWIRE_MAGIC
              then Some (set_sess (set_proto_state PROTO_STATE_READY (sess c)) c)
              else Some c
  end.

(** [while (pqwire_next_event(client_role, &ev) == 1) { }]. *)
Fixpoint drain_events (fuel : nat) (ctx : option pqwire_ctx) : option (option pqwire_ctx) :=
  match fuel with
  | O => None
  | S fuel' =>
      '(ev, ctx) ← pqwire_next_event ctx false;
      match ev with
      | Some _ => drain_events fuel' ctx
      | None => Some ctx
      end
  end.

Definition pqwire_pipeline_feed_backend_msg (client_role : option pqwire_ctx)
    (st : option pqwire_pipeline_status_t) (msg : option (list Z)) (len : Z) :
    option (Z * option pqwire_ctx * option pqwire_pipeline_status_t) :=
  match client_role, st, msg with
  | Some c, Some _, Some m =>
      if negb (magic c =? PQWIRE_MAGIC) || (len =? 0) then Some (-1, client_role, st) else
      '(rfq, st) ← pqwire_pipeline_observe_msg st msg len;
      if rfq <? 0 then Some (-1, client_role, st) else
      data ← mem_read m 0 len;
      '(_, ctx) ← pqwire_feed_input client_role (Some data);
      ctx ← drain_events
              (S (match ctx with Some c => length (queued (sess c)) | None => O end)) ctx;
      let ctx := if rfq =? 1 then pqwire_note_ready ctx else ctx in
      Some (0, ctx, st)
  | _, _, _ => Some (-1, client_role, st)
  end.

Definition pqwire_pipeline_filter_backend_type (type : Z) (skip_parse_bind_complete : Z) : Z :=
  if negb (skip_parse_bind_complete =? 0) && ((type =? chr "1") || (type =? chr "2")) then 1
  else if (type =? chr "S") || (type =? chr "N") || (type =? chr "K") then 1
  else 0.

(** ** Peeking and framing agree *)

(** Peeking at a header that can be read. *)
Lemma peek_header t b0 b1 b2 b3 tl len :
  byte_ok b0 → byte_ok b1 → byte_ok b2 → byte_ok b3 →
  let mlen := be32 b0 b1 b2 b3 in
  pqwire_msg_peek (Some (t :: b0 :: b1 :: b2 :: b3 :: tl)) len false =
  Some (if (len <? 5) || (mlen <? 4) || (len <? 1 + mlen) then None else Some (t, 1 + mlen)).
Proof.
  intros B0 B1 B2 B3 mlen. unfold pqwire_msg_peek. rewrite orb_false_r.
  destruct (len <? 5); [done|]. pose proof (rd32_be_at [t] b0 b1 b2 b3 tl 1 B0 B1 B2 B3 eq_refl) as Hrd.
  cbn [app] in Hrd. rewrite Hrd. cbn [mbind option_bind]. fold mlen.
  destruct (mlen <? 4); [done|]. by destruct (len <? 1 + mlen).
Qed.

(** What is buffered, seen as a header and the rest of the buffer's memory. *)
Lemma pending_header c :
  ctx_wf c → 5 ≤ input_len c →
  ∃ t b0 b1 b2 b3 tl junk, input_mem c = t :: b0 :: b1 :: b2 :: b3 :: tl ++ junk ∧
    pending c = t :: b0 :: b1 :: b2 :: b3 :: tl ∧ input_len c = zlen tl + 5 ∧
    byte_ok b0 ∧ byte_ok b1 ∧ byte_ok b2 ∧ byte_ok b3.
Proof.
  intros Hwf Hl. destruct (pending_split c Hwf) as (junk & Hm & Hz). pose proof (pending_ok c Hwf) as Hb.
  destruct (pending c) as [|t [|b0 [|b1 [|b2 [|b3 tl]]]]]; try (exfalso; zlia).
  unfold bytes_ok in Hb. rewrite !Forall_cons_iff in Hb. destruct Hb as (_ & B0 & B1 & B2 & B3 & _).
  exists t, b0, b1, b2, b3, tl, junk. split_and!; try done. zlia.
Qed.

(** C20: [pqwire_msg_peek] on a context's buffered bytes against one turn of the framing loop,
    past the startup message.  When it finds a message, the loop takes exactly that many
    bytes off the buffer, and hands their type and body to the dispatcher if the length is
    within the context's maximum message size, else queues a protocol error; when it does
    not, the loop delivers nothing: it waits for more bytes or queues a protocol error. *)
Theorem msg_peek_is_framing c :
  ctx_wf c → input_len c < 2 ^ 32 →
  match pqwire_msg_peek (Some (input_mem c)) (input_len c) false with
  | Some (Some (t, total)) =>
      5 ≤ total ≤ input_len c ∧ zget (pending c) 0 = Some t ∧
      ∃ c', message_step c = Some (Continue c') ∧ pending c' = zdrop total (pending c) ∧
        (if total - 1 <=? max_message_size c
         then handle_message (mk_in_ptr (input_gen c) 5) (sess c) t (ztake (total - 5) (zdrop 5 (pending c)))
         else protocol_error (sess c)) = Some (sess c')
  | Some None =>
      message_step c = Some (Break c) ∨
      ∃ c', message_step c = Some (Continue c') ∧ protocol_error (sess c) = Some (sess c')
  | None => False
  end.
Proof.
  intros Hwf Hl. pose proof Hwf as [_ Hs _ _ _ _ _ _]. destruct (Z.ltb_spec (input_len c) 5) as [H5|H5].
  { unfold pqwire_msg_peek, message_step. rewrite (proj2 (Z.ltb_lt _ _)) by done. by left. }
  destruct (pending_header c Hwf H5) as (t & b0 & b1 & b2 & b3 & tl & junk & Hm & Hp & Hz & B0 & B1 & B2 & B3).
  pose proof (be32_range b0 b1 b2 b3 B0 B1 B2 B3) as Hr. pose proof (zlen_nonneg tl).
  rewrite Hm, (peek_header t b0 b1 b2 b3 _ _ B0 B1 B2 B3). rewrite (proj2 (Z.ltb_ge _ 5)) by done.
  pose proof (rd32_be_at [t] b0 b1 b2 b3 (tl ++ junk) 1 B0 B1 B2 B3 eq_refl) as Hrd. cbn [app] in Hrd.
  unfold message_step. rewrite Hm, (proj2 (Z.ltb_ge _ 5)), zget_0, Hrd by done. cbn [mbind option_bind orb].
  set (mlen := be32 b0 b1 b2 b3) in *. rewrite <- Hm.
  destruct (protocol_error_good (sess c)) as (s' & Hpe & Hwfs & _); [done|].
  destruct (Z.ltb_spec mlen 4) as [H4|H4]; cbn [orb].
  { right. rewrite Hpe. cbn [mbind option_bind].
    destruct ((0 <? mlen) && (mlen + 1 <=? input_len c)) eqn:Hskip; [|by eexists].
    zbool. destruct (drop_input_spec c s' (1 + mlen)) as (mem & Hmm & _); [done|done|lia|].
    rewrite <- Z.sub_add_distr, Hmm. by eexists. }
  rewrite Hpe. cbn [mbind option_bind].
  destruct (Z.ltb_spec (max_message_size c) mlen) as [Hmax|Hmax].
  - rewrite (proj2 (Z.ltb_lt 0 mlen)) by lia. cbn [andb].
    destruct (Z.ltb_spec (input_len c) (1 + mlen)).
    { right. rewrite (proj2 (Z.leb_gt _ _)) by lia. by eexists. }
    rewrite (proj2 (Z.leb_le (mlen + 1) _)) by lia.
    destruct (drop_input_spec c s' (1 + mlen)) as (mem & Hmm & Hc & _ & Hp' & _); [done|done|lia|].
    rewrite <- Z.sub_add_distr, Hmm. cbn [mbind option_bind]. rewrite to_u32_small by lia. rewrite <- Hc.
    split; [lia|]. split; [by rewrite Hp|]. rewrite (proj2 (Z.leb_gt (1 + mlen - 1) _)) by lia. by eexists.
  - destruct (Z.ltb_spec (input_len c) (1 + mlen)); [by left|].
    assert (Hbody : mem_read (input_mem c) 5 (mlen - 4) = Some (ztake (1 + mlen - 5) (zdrop 5 (pending c)))).
    { rewrite Hm, Hp. rewrite mem_read_Some by zlia.
      change (zdrop 5 (t :: b0 :: b1 :: b2 :: b3 :: ?x)) with x. f_equal.
      replace (1 + mlen - 5) with (mlen - 4) by lia. apply ztake_app_le. zlia. }
    rewrite Hbody. cbn [mbind option_bind]. set (body := ztake _ _) in *.
    destruct (handle_message_good (mk_in_ptr (input_gen c) 5) (sess c) t body) as (s1 & Hh & Hwf1 & _).
    { done. }
    { unfold body. rewrite zlen_ztake; [lia|]. rewrite Hp. change (zdrop 5 (t :: b0 :: b1 :: b2 :: b3 :: tl)) with tl. lia. }
    rewrite Hh. cbn [mbind option_bind].
    destruct (drop_input_spec c s1 (1 + mlen)) as (mem & Hmm & Hc & _ & Hp' & _); [done|done|lia|].
    rewrite Hmm. cbn [mbind option_bind]. rewrite <- Hc.
    split; [lia|]. split; [by rewrite Hp|]. rewrite (proj2 (Z.leb_le (1 + mlen - 1) _)) by lia. by eexists.
Qed.

(** A client with [data] buffered, for messages of at most [max] bytes. *)
Definition buffering (max : Z) (data : list Z) : pqwire_ctx :=
  set_input data (zlen data) 4096 0 [] (fresh PQWIRE_ROLE_CLIENT max).

Lemma buffering_wf max data : 0 < max → bytes_ok data → zlen data ≤ 4096 → ctx_wf (buffering max data).
Proof.
  intros Hm Hb Hl. pose proof (zlen_nonneg data). destruct (fresh_wf PQWIRE_ROLE_CLIENT max Hm).
  split; try done; cbn; lia.
Qed.

(** A ReadyForQuery followed by a byte, and a message over the maximum size. *)
Lemma msg_peek_is_framing_witness :
  (let c := buffering 64 (frame 90 [73] ++ [1]) in
   pqwire_msg_peek (Some (input_mem c)) (input_len c) false = Some (Some (90, 6)) ∧
   ∃ c', message_step c = Some (Continue c') ∧ pending c' = [1] ∧
     handle_message (mk_in_ptr 0 5) (sess c) 90 [73] = Some (sess c')) ∧
  (let c := buffering 8 (frame 90 (zrep 5 0) ++ [1]) in
   pqwire_msg_peek (Some (input_mem c)) (input_len c) false = Some (Some (90, 10)) ∧
   ∃ c', message_step c = Some (Continue c') ∧ pending c' = [1] ∧
     protocol_error (sess c) = Some (sess c')).
Proof.
  split; (split; [reflexivity|]).
  - apply (msg_peek_is_framing (buffering 64 (frame 90 [73] ++ [1]))); [|reflexivity].
    apply buffering_wf; [lia|concrete_bytes|vm_compute; discriminate].
  - apply (msg_peek_is_framing (buffering 8 (frame 90 (zrep 5 0) ++ [1]))); [|reflexivity].
    apply buffering_wf; [lia|concrete_bytes|vm_compute; discriminate].
Defined.

(** ** Observing a run of messages *)
Lemma peek_frame t body :
  byte_ok t → bytes_ok body → zlen body + 4 < 2 ^ 32 →
  pqwire_msg_peek (Some (frame t body)) (zlen body + 5) false = Some (Some (t, zlen body + 5)).
Proof.
  intros Ht Hb Hl. pose proof (zlen_nonneg body). unfold pqwire_msg_peek.
  rewrite orb_false_r, (proj2 (Z.ltb_ge _ 5)) by lia.
  assert (Hrd : rd32_be (frame t body) 1 = Some (zlen body + 4)).
  { unfold frame. pose proof (rd32_be_wr32_be [t] (to_u32 (zlen body + 4)) body 1 eq_refl) as Hr.
    cbn [app] in Hr. rewrite Hr. by rewrite !to_u32_small by (rewrite ?to_u32_small; lia). }
  rewrite Hrd. cbn [mbind option_bind].
  rewrite (proj2 (Z.ltb_ge _ 4)), (proj2 (Z.ltb_ge _ (1 + _))) by lia.
  unfold frame. rewrite zget_0. cbn [mbind option_bind]. do 3 f_equal. lia.
Qed.

(** What a run of frames amounts to. *)
Fixpoint errors_of (ms : list (Z * list Z)) : list (list Z) :=
  match ms with
  | [] => []
  | (t, body) :: ms => if t =? chr "E" then body :: errors_of ms else errors_of ms
  end.
Definition has_rfq (ms : list (Z * list Z)) : bool := existsb (λ m, m.1 =? chr "Z") ms.

Fixpoint observe_all (st : pqwire_pipeline_status_t) (ms : list (Z * list Z)) :
    option pqwire_pipeline_status_t :=
  match ms with
  | [] => Some st
  | (t, body) :: ms =>
      '(_, st) ← pqwire_pipeline_observe_msg (Some st) (Some (frame t body)) (zlen body + 5);
      st ← st;
      observe_all st ms
  end.

Definition msg_ok (m : Z * list Z) : Prop :=
  byte_ok m.1 ∧ bytes_ok m.2 ∧ zlen m.2 + 4 < 2 ^ 32.

(** One observed frame. *)
Definition observe_step (st : pqwire_pipeline_status_t) (t : Z) (body : list Z) (e : pq_error_t) :
    Z * pqwire_pipeline_status_t :=
  if t =? chr "E" then (0, mk_status 1 (saw_rfq st) (complete st) (n_msgs st + 1) e)
  else if t =? chr "Z" then (1, mk_status (saw_error st) 1 1 (n_msgs st + 1) (last_error st))
  else (0, mk_status (saw_error st) (saw_rfq st) (complete st) (n_msgs st + 1) (last_error st)).

Lemma observe_frame st t body :
  msg_ok (t, body) → n_msgs st < 2 ^ 31 - 1 →
  ∃ e, parse_error_fields body = Some e ∧
    pqwire_pipeline_observe_msg (Some st) (Some (frame t body)) (zlen body + 5)
    = Some ((observe_step st t body e).1, Some (observe_step st t body e).2).
Proof.
  intros (Ht & Hb & Hl) Hn. cbn [fst snd] in *. pose proof (zlen_nonneg body).
  destruct (parse_error_fields_defined body) as [e He]; [lia|].
  exists e. split; [done|]. unfold pqwire_pipeline_observe_msg.
  rewrite peek_frame by done. cbn [mbind option_bind].
  rewrite Z.eqb_refl. cbn [negb]. rewrite (proj2 (Z.eqb_neq _ _)) by lia.
  rewrite (proj2 (Z.leb_le 5 _)), andb_true_r by lia.
  assert (Hread : mem_read (frame t body) 5 (zlen body + 5 - 5) = Some body).
  { rewrite mem_read_Some by zl.
    change (zdrop 5 (frame t body)) with body. f_equal. apply ztake_all. lia. }
  unfold observe_step. destruct (t =? chr "E").
  - rewrite Hread. cbn [mbind option_bind]. by rewrite He.
  - by destruct (t =? chr "Z").
Qed.

(** C18: observing a run of well-formed backend frames from a fresh status counts them,
    remembers whether an ErrorResponse or a ReadyForQuery was among them, and keeps the
    fields of the last ErrorResponse, decoded as the ErrorResponse event decodes them. *)
Theorem pipeline_observe_all ms :
  Forall msg_ok ms → zlen ms < 2 ^ 31 →
  ∃ st, observe_all (mk_status 0 0 0 0 zero_error) ms = Some st ∧
    n_msgs st = zlen ms ∧
    saw_error st = (match errors_of ms with [] => 0 | _ => 1 end) ∧
    saw_rfq st = Z.b2z (has_rfq ms) ∧ complete st = Z.b2z (has_rfq ms) ∧
    Some (last_error st) = (match list.last (errors_of ms) with
                            | None => Some zero_error
                            | Some body => parse_error_fields body
                            end).
Proof.
  intros Hms. assert (Hgen : ∀ st, n_msgs st + zlen ms < 2 ^ 31 →
    ∃ st', observe_all st ms = Some st' ∧ n_msgs st' = n_msgs st + zlen ms ∧
      saw_error st' = (match errors_of ms with [] => saw_error st | _ => 1 end) ∧
      saw_rfq st' = (if has_rfq ms then 1 else saw_rfq st) ∧
      complete st' = (if has_rfq ms then 1 else complete st) ∧
      Some (last_error st') = (match list.last (errors_of ms) with
                              | None => Some (last_error st)
                              | Some body => parse_error_fields body
                              end)).
  { induction Hms as [|[t body] ms Hm _ IH]; intros st Hn.
    { exists st. rewrite zlen_nil, Z.add_0_r. by split_and!. }
    rewrite zlen_cons in *. pose proof (zlen_nonneg ms). cbn [observe_all].
    destruct (observe_frame st t body Hm) as (e & He & ->); [lia|]. cbn [mbind option_bind].
    destruct (IH (observe_step st t body e).2) as (st' & -> & H1 & H2 & H3 & H4 & H5).
    { unfold observe_step. destruct (t =? chr "E"), (t =? chr "Z"); cbn; lia. }
    exists st'. split; [done|]. revert H1 H2 H3 H4 H5.
    unfold observe_step. cbn [errors_of has_rfq existsb fst]. fold (has_rfq ms).
    destruct (Z.eqb_spec t (chr "E")) as [->|].
    - change (chr "E" =? chr "Z") with false. cbn [snd n_msgs saw_error saw_rfq complete last_error orb].
      intros H1 H2 H3 H4 H5. split_and!; [lia| |done|done|].
      + by destruct (errors_of ms).
      + rewrite H5. destruct (errors_of ms) as [|l ls]; [change (Some e = parse_error_fields body); by rewrite He|].
        rewrite list.last_cons_cons. destruct (list.last (l :: ls)) eqn:El; [done|].
        by apply list.last_None in El.
    - destruct (Z.eqb_spec t (chr "Z")); cbn [snd n_msgs saw_error saw_rfq complete last_error orb];
        intros H1 H2 H3 H4 H5; (split_and!; [lia|done| | |done]); rewrite ?H3, ?H4;
        by destruct (has_rfq ms). }
  intros Hn. destruct (Hgen (mk_status 0 0 0 0 zero_error)) as (st & H0 & H1 & H2 & H3 & H4 & H5);
    [cbn; lia|].
  exists st. split; [done|]. cbn in H1. rewrite H2, H3, H4, H5.
  split_and!; try done; by destruct (has_rfq ms).
Qed.

Lemma pipeline_observe_all_witness :
  ∃ st, observe_all (mk_status 0 0 0 0 zero_error)
          [(chr "1", []); (chr "E", [83; 65; 0; 0]); (chr "Z", [73])] = Some st ∧
    n_msgs st = 3 ∧ saw_error st = 1 ∧ saw_rfq st = 1 ∧ complete st = 1 ∧
    Some (last_error st) = parse_error_fields [83; 65; 0; 0].
Proof.
  apply (pipeline_observe_all [(chr "1", []); (chr "E", [83; 65; 0; 0]); (chr "Z", [73])]).
  - rewrite !Forall_cons_iff. unfold msg_ok.
    split_and!; first [apply chr_ok|concrete_bytes|constructor|vm_compute; reflexivity].
  - vm_compute. reflexivity.
Defined.

(** ** Feeding a backend message through a client *)

(** The session after every event has been taken. *)
Definition drained (s : session) (q : ring protocol_event_t) : session :=
  set_event_ring q (set_row_arena_used (match queued s with [] => row_arena_used s | _ => 0 end) s).

Lemma drained_empty s : queued s = [] → drained s (event_ring s) = s.
Proof. unfold drained. intros ->. by destruct s. Qed.

Lemma drained_dequeue s r q :
  queued s ≠ [] → q_list r = tail (queued s) → (q_count r =? 0) = bool_decide (q_list r = []) →
  drained (if q_count r =? 0 then set_row_arena_used 0 (set_event_ring r s) else set_event_ring r s) q
  = drained s q.
Proof.
  intros Hne Hl ->. unfold drained, queued in *. destruct (q_list (event_ring s)); [done|].
  case_bool_decide as Hc; cbn [event_ring set_event_ring set_row_arena_used].
  - by rewrite Hc.
  - by destruct (q_list r).
Qed.

(** Taking every event leaves the context as it was, the queue and the arena's use apart. *)
Lemma drain_events_run fuel c :
  ctx_wf c → (length (queued (sess c)) < fuel)%nat →
  ∃ q, drain_events fuel (Some c) = Some (Some (set_sess (drained (sess c) q) c)) ∧
       ctx_wf (set_sess (drained (sess c) q) c) ∧ queued (drained (sess c) q) = [].
Proof.
  revert c. induction fuel as [|fuel IH]; intros c Hwf Hf; [lia|]. cbn [drain_events].
  unfold pqwire_next_event. rewrite guard_ctx_valid by done.
  pose proof Hwf as [_ Hs _ _ _ _ _ _].
  destruct (dequeue_event_spec (sess c) Hs) as (s' & Hd & Hs' & Hq & _ & _).
  assert (Hwf1 : ctx_wf (set_sess s' c)) by by apply ctx_wf_set_sess.
  destruct (q_dequeue_spec (event_ring (sess c))) as (r & He & Hr & _ & Hl); [by destruct Hs|].
  unfold dequeue_event in *. rewrite He in *. cbn [mbind option_bind] in *. fold (queued (sess c)) in *.
  destruct (queued (sess c)) as [|ev evs] eqn:Hqc; cbn [head tail] in *.
  - injection Hd as <-. exists (event_ring (sess c)). rewrite drained_empty by done. by split_and!.
  - apply (inj Some), (f_equal snd) in Hd. cbn [snd] in Hd. rewrite Hd. cbn [mbind option_bind].
    destruct (IH (set_sess s' c)) as (q & -> & H1 & H2); [done|cbn [sess set_sess]; rewrite Hq; cbn in Hf; lia|].
    cbn [sess set_sess] in *. pose proof (q_count_spec r Hr) as Hn.
    assert (Hdr : drained s' q = drained (sess c) q).
    { rewrite <- Hd. apply drained_dequeue; [by rewrite Hqc|by rewrite Hl, Hqc|].
      rewrite Hn. case_bool_decide as Hc; [by rewrite Hc|]. apply Z.eqb_neq. destruct (q_list r); [done|zlia]. }
    rewrite Hdr in *. by exists q.
Qed.

(** A length that is not the frame's. *)
Lemma observe_bad_length st t body n :
  msg_ok (t, body) → n ≠ zlen body + 5 → 5 ≤ n →
  pqwire_pipeline_observe_msg (Some st) (Some (frame t body)) n = Some (-1, Some st).
Proof.
  intros (Ht & Hb & Hl) Hne H5. cbn [fst snd] in *. pose proof (zlen_nonneg body).
  pose proof (peek_frame t body Ht Hb Hl) as Hp. unfold pqwire_pipeline_observe_msg, pqwire_msg_peek in *.
  rewrite !orb_false_r in *. rewrite (proj2 (Z.ltb_ge _ _)) in Hp by lia.
  rewrite (proj2 (Z.ltb_ge n 5)) by lia.
  destruct (rd32_be (frame t body) 1) as [mlen|]; cbn [mbind option_bind] in *; [|done].
  destruct (mlen <? 4); [done|].
  destruct (Z.ltb_spec (zlen body + 5) (1 + mlen)); [done|].
  destruct (zget (frame t body) 0) as [t'|]; cbn [mbind option_bind] in *; [|done].
  apply (inj Some), (inj Some) in Hp. injection Hp as -> Hml.
  destruct (Z.ltb_spec n (1 + mlen)); cbn [mbind option_bind]; [done|].
  rewrite (proj2 (Z.eqb_neq (1 + mlen) n)) by lia. done.
Qed.

(** Feeding the frame: as [feed_one_frame], with the output untouched. *)
Lemma feed_frame_output c t body :
  receiver c body → msg_ok (t, body) →
  ∃ c1, pqwire_feed_input (Some c) (Some (frame t body)) = Some (zlen body + 5, Some c1) ∧
    handle_message (mk_in_ptr (input_gen c1) 5) (sess c) t body = Some (sess c1) ∧
    ctx_wf c1 ∧ pending c1 = [] ∧ output_buf c1 = output_buf c.
Proof.
  intros Hr Hm. pose proof Hr as [Hwf Hal _ _ _ _]. pose proof (zlen_nonneg body).
  destruct (feed_one_frame c t body Hr) as (c1 & Hf & Hh & Hw1 & Hp1 & _);
    [by destruct Hm|by destruct Hm as (_ & ? & _)|].
  destruct (feed_input_spec c (frame t body) Hwf) as
    [(al & Hna & _) | (c1' & Hf' & _ & _ & _ & Hout & _)]; [| |done|].
  { apply frame_ok; by destruct Hm as (? & ? & _). }
  { destruct (pending_split c Hwf) as (_ & _ & <-). destruct Hr as [_ _ -> _ Hfit Hmax].
    rewrite zlen_frame. change (zlen (@nil Z)) with 0. lia. }
  rewrite Hf in Hf'. apply (inj Some) in Hf'. injection Hf' as _ <-.
  exists c1. split_and!; try done. by rewrite Hout.
Qed.

(** C19: feeding one complete backend frame through a client updates the status as observing
    it does and delivers the frame: the client's session is afterwards what the message
    dispatcher makes of the frame's type and body, with the queue drained (and the row arena
    free again if there were events) and, after a ReadyForQuery, the state READY; the input
    buffer is empty and the stream of output untouched.  A truncated or over-long frame is
    refused with -1 and changes nothing. *)
Theorem pipeline_feed_backend c st t body :
  receiver c body → msg_ok (t, body) → n_msgs st < 2 ^ 31 - 1 →
  role (sess c) = PQWIRE_ROLE_CLIENT →
  (∃ e c' s' q, parse_error_fields body = Some e ∧
    pqwire_pipeline_feed_backend_msg (Some c) (Some st) (Some (frame t body)) (zlen body + 5)
      = Some (0, Some c', Some (observe_step st t body e).2) ∧
    handle_message (mk_in_ptr (input_gen c') 5) (sess c) t body = Some s' ∧
    sess c' = (if t =? chr "Z" then set_proto_state PROTO_STATE_READY (drained s' q) else drained s' q) ∧
    ctx_wf c' ∧ queued (sess c') = [] ∧ pending c' = [] ∧ output_buf c' = output_buf c) ∧
  (∀ n, n ≠ zlen body + 5 → 5 ≤ n →
    pqwire_pipeline_feed_backend_msg (Some c) (Some st) (Some (frame t body)) n
      = Some (-1, Some c, Some st)).
Proof.
  intros Hr Hm Hn Hrole. pose proof Hr as [Hwf Hal _ _ _ _]. pose proof (zlen_nonneg body).
  unfold pqwire_pipeline_feed_backend_msg. pose proof Hwf as [Hmagic _ _ _ _ _ _ _].
  rewrite Hmagic, Z.eqb_refl. cbn [negb orb]. split.
  2:{ intros n Hne H5. rewrite (proj2 (Z.eqb_neq n 0)) by lia. by rewrite observe_bad_length. }
  rewrite (proj2 (Z.eqb_neq _ _)) by lia.
  destruct (observe_frame st t body Hm Hn) as (e & He & ->). cbn [mbind option_bind].
  assert (Hrfq : (observe_step st t body e).1 = if t =? chr "Z" then 1 else 0).
  { unfold observe_step. destruct (Z.eqb_spec t (chr "E")) as [->|]; [done|]. by destruct (t =? chr "Z"). }
  assert (Hread : mem_read (frame t body) 0 (zlen body + 5) = Some (frame t body)).
  { rewrite <- zlen_frame with (t := t). apply mem_read_all. }
  destruct (feed_frame_output c t body Hr Hm) as (c1 & Hf & Hh & Hw1 & Hp1 & Ho1).
  destruct (drain_events_run (S (length (queued (sess c1)))) c1 Hw1) as (q & Hd & Hw2 & Hq2); [lia|].
  rewrite Hrfq. replace ((if t =? chr "Z" then 1 else 0) <? 0) with false by (by destruct (t =? chr "Z")).
  rewrite Hread. cbn [mbind option_bind]. rewrite Hf. cbn [mbind option_bind]. rewrite Hd. cbn [mbind option_bind].
  unfold pqwire_note_ready. pose proof Hw2 as [Hm2 Hs2 _ _ _ _ _ _]. rewrite Hm2, Z.eqb_refl.
  exists e. destruct (t =? chr "Z"); eexists _, (sess c1), q; (split; [done|]); (split; [reflexivity|]).
  - split_and!; try done. by apply ctx_wf_set_sess, wf_set_proto.
  - by split_and!.
Qed.

Lemma pipeline_feed_backend_witness :
  (∃ e c' s' q, parse_error_fields [73] = Some e ∧
    pqwire_pipeline_feed_backend_msg (Some (test_receiver PQWIRE_ROLE_CLIENT))
      (Some (mk_status 0 0 0 0 zero_error)) (Some (frame (chr "Z") [73])) (zlen [73] + 5)
      = Some (0, Some c', Some (observe_step (mk_status 0 0 0 0 zero_error) (chr "Z") [73] e).2) ∧
    handle_message (mk_in_ptr (input_gen c') 5) (sess (test_receiver PQWIRE_ROLE_CLIENT)) (chr "Z") [73] = Some s' ∧
    sess c' = set_proto_state PROTO_STATE_READY (drained s' q) ∧
    ctx_wf c' ∧ queued (sess c') = [] ∧ pending c' = [] ∧
    output_buf c' = output_buf (test_receiver PQWIRE_ROLE_CLIENT)) ∧
  (∀ n, n ≠ zlen [73] + 5 → 5 ≤ n →
    pqwire_pipeline_feed_backend_msg (Some (test_receiver PQWIRE_ROLE_CLIENT))
      (Some (mk_status 0 0 0 0 zero_error)) (Some (frame (chr "Z") [73])) n
      = Some (-1, Some (test_receiver PQWIRE_ROLE_CLIENT), Some (mk_status 0 0 0 0 zero_error))).
Proof.
  apply (pipeline_feed_backend (test_receiver PQWIRE_ROLE_CLIENT) (mk_status 0 0 0 0 zero_error)
    (chr "Z") [73]).
  - apply test_receiver_ok. vm_compute. discriminate.
  - unfold msg_ok. split_and!; [apply chr_ok|concrete_bytes|vm_compute; reflexivity].
  - vm_compute. reflexivity.
  - reflexivity.
Defined.
