(* ===== verification/Params.v ===== *)
(** * Params: owned parameters and the Bind rewriting helpers of src/src/pqwire.c

    [pqwire_param_clear] .. [pqwire_param_set_null], [pqwire_bind_inject_identity],
    [pqwire_send_bind_params], [pqwire_bind_rewrite_identity_zerocopy],
    [pqwire_send_bind_rewrite_identity] and [pqwire_prepared_from_parse].

    Owned parameter data live in a heap of blocks ([store]).  Freeing a block that is not
    allocated, or reading one that has been freed, is undefined ([None]); a freed block's
    name is never given out again.  The pointers the caller passes as text, data or identity
    may point outside that heap or into one of its blocks ([src_ptr]) and are read when the
    code reads them, after the slot has been cleared.  [rd p n] reads [n] bytes through a
    pointer of a Bind event, as [Feed.read_in_ptr] does. *)
From stdpp Require Import gmap.
From S2P Require Import Prelude Wire Ring Events Scram Ctx Parse Send.

(** ** Owned parameters *)
Record pqwire_param_t := mk_param {
  p_data : option nat;
  p_length : Z;
  p_owned : Z;
  p_format : Z;
}.

(** The blocks given out so far: [Some d] is allocated and holds [d], [None] has been freed. *)
Record store := mk_store {
  blocks : gmap nat (option (list Z));
  p_allocs : list bool;
}.

(** The bytes of block [b], if it is allocated. *)
Definition live (s : store) (b : nat) : option (list Z) := mjoin (blocks s !! b).

(** [malloc(n)] filled with [d]: [None] is NULL. *)
Definition alloc_block (s : store) (d : list Z) : option nat * store :=
  let '(ok, al) := alloc_next (p_allocs s) in
  if ok then
    let b := base.fresh (dom (blocks s)) in
    (Some b, mk_store (<[b := Some d]> (blocks s)) al)
  else (None, mk_store (blocks s) al).

Definition free_block (s : store) (b : nat) : option store :=
  _ ← live s b;
  Some (mk_store (<[b := None]> (blocks s)) (p_allocs s)).

(** A pointer that a caller passes: to the bytes [d] of an object of its own, or to offset
    [off] of a block. *)
Inductive src_ptr :=
| Ext (d : list Z)
| Blk (b : nat) (off : Z).

(** What can be read from the pointer on. *)
Definition src_bytes (s : store) (p : src_ptr) : option (list Z) :=
  match p with
  | Ext d => Some d
  | Blk b off =>
      d ← live s b;
      if (0 <=? off) && (off <=? zlen d) then Some (zdrop off d) else None
  end.
(** The C string there, and [n] bytes there. *)
Definition src_text (s : store) (p : src_ptr) : option (list Z) := src_bytes s p ≫= until_nul.
Definition src_read (s : store) (p : src_ptr) (n : Z) : option (list Z) :=
  d ← src_bytes s p; mem_read d 0 n.

Definition cleared : pqwire_param_t := mk_param None (-1) 0 0.

Definition pqwire_param_clear (s : store) (p : option pqwire_param_t) :
    option (store * option pqwire_param_t) :=
  match p with
  | None => Some (s, None)
  | Some q =>
      s ← (match p_data q with
           | Some b => if p_owned q =? 0 then Some s else free_block s b
           | None => Some s
           end);
      Some (s, Some cleared)
  end.

Definition pqwire_param_set_text (s : store) (p : option pqwire_param_t)
    (text : option src_ptr) : option (Z * store * option pqwire_param_t) :=
  match p, text with
  | Some _, Some text =>
      '(s, p) ← pqwire_param_clear s p;
      text ← src_text s text;
      let len := zlen text in
      let '(d, s) := alloc_block s text in
      match d with
      | None => if 0 <? len then Some (-1, s, p)
                else Some (0, s, Some (mk_param None (to_i32 len) 1 0))
      | Some b => Some (0, s, Some (mk_param (Some b) (to_i32 len) 1 0))
      end
  | _, _ => Some (-1, s, p)
  end.

(** [d] is what the [memcpy] reads; it is only looked at when the block was allocated. *)
Definition pqwire_param_set_binary (s : store) (p : option pqwire_param_t)
    (data : option src_ptr) (len : Z) : option (Z * store * option pqwire_param_t) :=
  match p with
  | None => Some (-1, s, p)
  | Some _ =>
      '(s, p) ← pqwire_param_clear s p;
      if len =? 0 then Some (0, s, Some (mk_param None 0 1 1))
      else match data with
           | None => Some (-1, s, p)
           | Some data =>
               let d := src_read s data len in
               let '(b, s) := alloc_block s (default [] d) in
               match b with
               | None => Some (-1, s, p)
               | Some b => _ ← d; Some (0, s, Some (mk_param (Some b) (to_i32 len) 1 1))
               end
           end
  end.

Definition pqwire_param_set_null (s : store) (p : option pqwire_param_t) :
    option (store * option pqwire_param_t) :=
  '(s, p) ← pqwire_param_clear s p;
  Some (s, option_map (λ q, mk_param (p_data q) (-1) (p_owned q) 0) p).

(** ** [pqwire_bind_inject_identity] *)
Section rewriting.
Context (rd : in_ptr → Z → option (list Z)).

(** The bytes of a view of non-negative length; [memcpy] of 0 bytes reads nothing. *)
Definition view_bytes (v : pq_bind_param_view_t) : option (list Z) :=
  if pv_length v =? 0 then Some [] else p ← pv_data v; rd p (pv_length v).

(** What one turn of the loop does to [out_params[i]] (already cleared).  The text copy [tmp]
    is a block of its own that is freed before the turn ends. *)
Definition inject_one (s : store) (v : pq_bind_param_view_t) (here : bool)
    (identity : src_ptr) (as_binary : Z) (q : pqwire_param_t) :
    option (Z * store * option pqwire_param_t) :=
  if here then
    if negb (as_binary =? 0) then
      text ← src_text s identity;
      pqwire_param_set_binary s (Some q) (Some identity) (zlen text)
    else pqwire_param_set_text s (Some q) (Some identity)
  else if pv_length v <? 0 then
    '(s, q) ← pqwire_param_set_null s (Some q);
    Some (0, s, option_map (λ q, mk_param (p_data q) (p_length q) (p_owned q) (pv_format v)) q)
  else if pv_format v =? 1 then
    match pv_data v with
    | None => pqwire_param_set_binary s (Some q) None (pv_length v)
    | Some _ => d ← view_bytes v; pqwire_param_set_binary s (Some q) (Some (Ext d)) (pv_length v)
    end
  else
    let '(ok, al) := alloc_next (p_allocs s) in
    let s := mk_store (blocks s) al in
    if negb ok then Some (-1, s, Some q) else
    d ← view_bytes v;
    pqwire_param_set_text s (Some q) (Some (Ext (d ++ [0]))).

Fixpoint inject_loop (n : nat) (i : Z) (s : store) (bind : pq_bind_t)
    (out : list pqwire_param_t) (slot : Z) (identity : src_ptr) (as_binary : Z) :
    option (Z * store * list pqwire_param_t) :=
  match n with
  | O => Some (0, s, out)
  | S n' =>
      v ← zget (bind_params bind) i;
      q ← zget out i;
      '(s, q) ← pqwire_param_clear s (Some q);
      q ← q;
      '(rc, s, q) ← inject_one s v (i =? slot) identity as_binary q;
      q ← q;
      out ← zset out i q;
      if negb (rc =? 0) then Some (-1, s, out)
      else inject_loop n' (i + 1) s bind out slot identity as_binary
  end.

Definition pqwire_bind_inject_identity (s : store) (bind : option pq_bind_t)
    (out_params : option (list pqwire_param_t)) (slot : Z) (identity : option src_ptr)
    (as_binary : Z) : option (Z * store * option (list pqwire_param_t)) :=
  match bind, out_params, identity with
  | Some b, Some out, Some identity =>
      if (bind_n_params b <=? slot) && (0 <? bind_n_params b) then Some (-1, s, out_params)
      else if bind_n_params b =? 0 then Some (-1, s, out_params)
      else '(rc, s, out) ← inject_loop (Z.to_nat (bind_n_params b)) 0 s b out slot identity as_binary;
           Some (rc, s, Some out)
  | _, _, _ => Some (-1, s, out_params)
  end.

(** ** [pqwire_bind_rewrite_identity_zerocopy] *)

(** The state of the function: the object behind [out] and the number [p] of bytes written;
    a step may return early from the function or write outside the object. *)
Definition writer (A : Type) : Type := list Z * Z → outcome A * (list Z * Z).
#[export] Instance writer_mret : MRet writer := λ A a st, (Val a, st).
#[export] Instance writer_mbind : MBind writer := λ A B f m st,
  match m st with
  | (Val a, st) => f a st
  | (Ret, st) => (Ret, st)
  | (Ub, st) => (Ub, st)
  end.
Definition load {A} (o : option A) : writer A := λ st, (deref o, st).

(** [PUT_BYTES(src, n)]; [src] holds the bytes that [memcpy] reads. *)
Definition put_src (out_cap : Z) (src : option (list Z)) (n : Z) : writer unit := λ '(out, p),
  if out_cap <? p + n then (Ret, (out, p))
  else if n =? 0 then (Val tt, (out, p))
  else match d ← src; mem_write out p d with
       | Some out => (Val tt, (out, p + n))
       | None => (Ub, (out, p))
       end.
(** The same for bytes the function has; [PUT_U16] and [PUT_U32] write 2 and 4 of them. *)
Definition put_bytes (out_cap : Z) (d : list Z) : writer unit := put_src out_cap (Some d) (zlen d).

Fixpoint rewrite_formats (n : nat) (i : Z) (b : pq_bind_t) (slot as_binary : Z)
    (formats : list Z) : option (list Z) :=
  match n with
  | O => Some formats
  | S n' =>
      f ← (if i =? slot then Some (if as_binary =? 0 then 0 else 1)
           else if bind_n_formats b =? 0 then Some 0
           else if bind_n_formats b =? 1 then zget (bind_formats b) 0
           else if i <? bind_n_formats b then zget (bind_formats b) i
           else Some 0);
      formats ← zset formats i f;
      rewrite_formats n' (i + 1) b slot as_binary formats
  end.

Fixpoint put_u16s (n : nat) (i : Z) (vs : list Z) (out_cap : Z) : writer unit :=
  match n with
  | O => mret tt
  | S n' =>
      v ← load (zget vs i);
      _ ← put_bytes out_cap (wr16_be (to_u16 v));
      put_u16s n' (i + 1) vs out_cap
  end.

Fixpoint rewrite_params (n : nat) (i : Z) (b : pq_bind_t) (slot : Z) (identity : list Z)
    (out_cap : Z) : writer unit :=
  match n with
  | O => mret tt
  | S n' =>
      _ ← (if i =? slot then
             _ ← put_bytes out_cap (wr32_be (to_u32 (zlen identity)));
             put_bytes out_cap identity
           else
             v ← load (zget (bind_params b) i);
             if pv_length v <? 0 then put_bytes out_cap (wr32_be (2 ^ 32 - 1))
             else
               _ ← put_bytes out_cap (wr32_be (to_u32 (pv_length v)));
               put_src out_cap (view_bytes v) (pv_length v));
      rewrite_params n' (i + 1) b slot identity out_cap
  end.

(** The room left for the header, [p = 5]. *)
Definition skip_header (out_cap : Z) : writer unit := λ '(out, p),
  if out_cap <? p + 5 then (Ret, (out, p)) else (Val tt, (out, 5)).
(** The header, at the end. *)
Definition put_header : writer unit := λ '(out, p),
  match mem_write out 0 (chr "B" :: wr32_be (to_u32 (p - 1))) with
  | Some out => (Val tt, (out, p))
  | None => (Ub, (out, p))
  end.

Definition rewrite_body (b : pq_bind_t) (portal statement : list Z) (slot : Z)
    (identity : list Z) (as_binary out_cap : Z) : writer unit :=
  _ ← skip_header out_cap;
  _ ← put_bytes out_cap (with_nul portal);
  _ ← put_bytes out_cap (with_nul statement);
  let n_fmt := bind_n_params b in
  formats ← load (rewrite_formats (Z.to_nat n_fmt) 0 b slot as_binary (zrep PQWIRE_MAX_BIND_PARAMS 0));
  _ ← put_bytes out_cap (wr16_be (to_u16 n_fmt));
  _ ← put_u16s (Z.to_nat n_fmt) 0 formats out_cap;
  _ ← put_bytes out_cap (wr16_be (to_u16 (bind_n_params b)));
  _ ← rewrite_params (Z.to_nat (bind_n_params b)) 0 b slot identity out_cap;
  _ ← put_bytes out_cap (wr16_be (to_u16 (bind_n_result_formats b)));
  _ ← put_u16s (Z.to_nat (bind_n_result_formats b)) 0 (bind_result_formats b) out_cap;
  put_header.

(** The result, the object behind [out] and the number behind [out_len] afterwards. *)
Definition pqwire_bind_rewrite_identity_zerocopy (bind : option pq_bind_t)
    (portal statement : option (list Z)) (slot : Z) (identity : option (list Z))
    (as_binary : Z) (out : option (list Z)) (out_cap : Z) (out_len : option Z) :
    option (Z * option (list Z) * option Z) :=
  match bind, identity, out, out_len with
  | Some b, Some identity, Some o, Some _ =>
      if (bind_n_params b =? 0) || (bind_n_params b <=? slot) then Some (-1, out, out_len)
      else match rewrite_body b (str_or [] portal) (str_or [] statement) slot identity
                   as_binary out_cap (o, 0) with
           | (Val _, (o, p)) => Some (0, Some o, Some p)
           | (Ret, (o, _)) => Some (-1, Some o, out_len)
           | (Ub, _) => None
           end
  | _, _, _, _ => Some (-1, out, out_len)
  end.

(** [stack] is the uninitialised local array [buf]. *)
Definition pqwire_send_bind_rewrite_identity (stack : list Z) (ctx : option pqwire_ctx)
    (bind : option pq_bind_t) (portal statement : option (list Z)) (slot : Z)
    (identity : option (list Z)) (as_binary : Z) : option (Z * option pqwire_ctx) :=
  api ctx ('(rc, buf, n) ← access (pqwire_bind_rewrite_identity_zerocopy bind portal statement slot
                                    identity as_binary (Some stack) 8192 (Some 0));
           _ ← return_if (negb (rc =? 0));
           bytes ← access (buf ← buf; n ← n; mem_read buf 0 n);
           _ ← append bytes;
           mret 0).
End rewriting.

(** ** [pqwire_send_bind_params] *)

(** The object behind a [data] pointer; nothing can be read through a dangling one. *)
Definition param_value (s : store) (q : pqwire_param_t) : option (list Z) :=
  (λ b, default [] (live s b)) <$> p_data q.

Definition pqwire_send_bind_params (heap : Z → Z) (s : store) (ctx : option pqwire_ctx)
    (portal statement : option (list Z)) (params : option (list pqwire_param_t)) (n_params : Z)
    (result_formats : option (list Z)) (n_result_formats : Z) : option (Z * option pqwire_ctx) :=
  match params with
  | None =>
      if 0 <? n_params then Some (-1, ctx)
      else pqwire_send_bind heap ctx portal statement (Some []) 0 (Some []) (Some []) 0
             result_formats n_result_formats
  | Some ps =>
      if PQWIRE_MAX_BIND_PARAMS <? n_params then Some (-1, ctx) else
      qs ← mem_read ps 0 n_params;
      pqwire_send_bind heap ctx portal statement (Some (p_format <$> qs)) n_params
        (Some (p_length <$> qs)) (Some (param_value s <$> qs)) n_params result_formats n_result_formats
  end.

(** ** [pqwire_prepared_from_parse] *)
Record pqwire_prepared_stmt_t := mk_prepared {
  ps_name : list Z;
  ps_query : list Z;
  ps_n_param_types : Z;
  ps_param_type_oids : list Z;
  ps_identity_param_slot : Z;
}.

(** The arrays of the event are C strings in their arrays, read up to the NUL. *)
Definition pqwire_prepared_from_parse (parse : option pq_parse_t) (out_null : bool) :
    option (Z * option pqwire_prepared_stmt_t) :=
  match parse with
  | None => Some (-1, None)
  | Some p =>
      if out_null then Some (-1, None) else
      name ← until_nul (parse_statement p);
      query ← until_nul (parse_query p);
      let n := if PQWIRE_MAX_PARAM_TYPES <? parse_n_param_types p then PQWIRE_MAX_PARAM_TYPES
               else parse_n_param_types p in
      src ← mem_read (parse_param_type_oids p) 0 n;
      oids ← mem_write (zrep PQWIRE_MAX_PARAM_TYPES 0) 0 src;
      Some (0, Some (mk_prepared (copy_cstr (zrep PQWIRE_MAX_STMT_NAME 0) PQWIRE_MAX_STMT_NAME (Some name))
                       (copy_cstr (zrep PQWIRE_MAX_QUERY_LEN 0) PQWIRE_MAX_QUERY_LEN (Some query))
                       n oids (-1)))
  end.
