(* ===== verification/ParamsSpec.v ===== *)
(** * ParamsSpec: ownership of parameter data, and what the Bind rewriting builds

    Ownership: the allocated blocks are those of the slots ([slots_wf]), through any sequence
    of operations ([run_ops]).  Rewriting: each step of the function appends its bytes inside
    the caller's buffer or returns early ([emits]), so the whole message does. *)
From stdpp Require Import gmap.
From S2P Require Import Prelude Wire Ring Events Scram Ctx Parse ParseSafe Feed FeedSpec FeedThms.
From S2P Require Import Send SendSpec Roundtrip RoundtripRows RoundtripBind Params.

(** ** Ownership *)

(** The allocated blocks are exactly the data of the array's slots, each owned by one slot:
    nothing dangles, nothing is shared, nothing has leaked. *)
Record slots_wf (s : store) (ps : list pqwire_param_t) : Prop := {
  sl_nodup : NoDup (omap p_data ps);
  sl_blocks : ∀ b, is_Some (live s b) ↔ b ∈ omap p_data ps;
  sl_owned : Forall (λ q, is_Some (p_data q) → p_owned q ≠ 0) ps;
}.

Inductive param_op :=
| Op_clear (i : Z)
| Op_set_text (i : Z) (text : src_ptr)
| Op_set_binary (i : Z) (data : option src_ptr) (len : Z)
| Op_set_null (i : Z).

(** An operation on slot [i] of an array; its result code. *)
Definition run_op (s : store) (ps : list pqwire_param_t) (op : param_op) :
    option (Z * store * list pqwire_param_t) :=
  let finish i rc s q := q ← q; ps ← zset ps i q; Some (rc, s, ps) in
  match op with
  | Op_clear i => q ← zget ps i; '(s, q) ← pqwire_param_clear s (Some q); finish i 0 s q
  | Op_set_text i text =>
      q ← zget ps i; '(rc, s, q) ← pqwire_param_set_text s (Some q) (Some text); finish i rc s q
  | Op_set_binary i data len =>
      q ← zget ps i;
      '(rc, s, q) ← pqwire_param_set_binary s (Some q) data len; finish i rc s q
  | Op_set_null i => q ← zget ps i; '(s, q) ← pqwire_param_set_null s (Some q); finish i 0 s q
  end.
Definition op_slot (op : param_op) : Z :=
  match op with Op_clear i | Op_set_text i _ | Op_set_binary i _ _ | Op_set_null i => i end.

Fixpoint run_ops (s : store) (ps : list pqwire_param_t) (ops : list param_op) :
    option (store * list pqwire_param_t) :=
  match ops with
  | [] => Some (s, ps)
  | op :: ops => '(_, s, ps) ← run_op s ps op; run_ops s ps ops
  end.

(** The value a slot holds: [None] is NULL. *)
Definition slot_value (s : store) (q : pqwire_param_t) : option (list Z) :=
  if p_length q <? 0 then None else Some (default [] (param_value s q)).
Definition contents (s : store) (ps : list pqwire_param_t) : list (option (list Z)) :=
  slot_value s <$> ps.

(** The value an operation asks for: what its pointer shows when it is called. *)
Definition op_value (s : store) (op : param_op) : option (list Z) :=
  match op with
  | Op_set_text _ t => src_text s t
  | Op_set_binary _ (Some d) len => if len =? 0 then Some [] else src_read s d len
  | Op_set_binary _ None len => if len =? 0 then Some [] else None
  | _ => None
  end.

(** The pointer goes into the block of the slot itself. *)
Definition own (q : pqwire_param_t) (p : src_ptr) : Prop :=
  match p with Blk b _ => p_data q = Some b | Ext _ => False end.

(** What a caller owes: a slot of the array, and a pointer, not into the slot's own block, that
    can be read for the length asked ([set_binary] refuses NULL by itself). *)
Definition op_ok (s : store) (ps : list pqwire_param_t) (op : param_op) : Prop :=
  ∃ q, zget ps (op_slot op) = Some q ∧
  match op with
  | Op_set_text _ t => ¬ own q t ∧ ∃ text, src_text s t = Some text ∧ zlen text < 2 ^ 31
  | Op_set_binary _ (Some d) len =>
      0 ≤ len < 2 ^ 31 ∧ (0 < len → ¬ own q d ∧ is_Some (src_read s d len))
  | Op_set_binary _ None len => 0 ≤ len
  | _ => True
  end.

Fixpoint ops_ok (s : store) (ps : list pqwire_param_t) (ops : list param_op) : Prop :=
  match ops with
  | [] => True
  | op :: ops => op_ok s ps op ∧ ∀ rc s' ps', run_op s ps op = Some (rc, s', ps') → ops_ok s' ps' ops
  end.

(** An operation whose pointer goes into its own slot's block, with something to read. *)
Definition op_self (s : store) (ps : list pqwire_param_t) (op : param_op) : Prop :=
  ∃ q, zget ps (op_slot op) = Some q ∧
  match op with
  | Op_set_text _ t => own q t
  | Op_set_binary _ (Some d) len => own q d ∧ 0 < len ∧ (alloc_next (p_allocs s)).1 = true
  | _ => False
  end.

(** *** The heap *)
Lemma live_alloc s d b s' :
  alloc_block s d = (Some b, s') →
  live s b = None ∧ live s' b = Some d ∧ ∀ b', b' ≠ b → live s' b' = live s b'.
Proof.
  unfold alloc_block. destruct (alloc_next (p_allocs s)) as [[] al]; [|done]. intros [= <- <-].
  set (b := base.fresh (dom (blocks s))).
  assert (Hf : blocks s !! b = None) by (apply not_elem_of_dom, is_fresh).
  unfold live. cbn [blocks]. rewrite Hf, lookup_insert_eq. split_and!; [done|done|].
  intros b' Hne. by rewrite lookup_insert_ne.
Qed.

Lemma alloc_failed s d s' : alloc_block s d = (None, s') → blocks s' = blocks s.
Proof. unfold alloc_block. destruct (alloc_next _) as [[] al]; [done|]. by intros [= <-]. Qed.

Lemma live_blocks s s' b : blocks s' = blocks s → live s' b = live s b.
Proof. unfold live. by intros ->. Qed.

Lemma live_free s b d :
  live s b = Some d →
  ∃ s', free_block s b = Some s' ∧ p_allocs s' = p_allocs s ∧ live s' b = None ∧
        ∀ b', b' ≠ b → live s' b' = live s b'.
Proof.
  intros Hd. unfold free_block. rewrite Hd. cbn [mbind option_bind]. eexists. split; [done|].
  unfold live. cbn [blocks p_allocs]. rewrite lookup_insert_eq. split_and!; [done|done|].
  intros b' Hne. by rewrite lookup_insert_ne.
Qed.

(** A pointer into a block that has not changed. *)
Lemma src_bytes_live s s' p :
  (∀ b off, p = Blk b off → live s' b = live s b) → src_bytes s' p = src_bytes s p.
Proof. destruct p as [d|b off]; [done|]. intros H. cbn. by rewrite (H b off). Qed.

Lemma src_bytes_freed s b off : live s b = None → src_bytes s (Blk b off) = None.
Proof. intros H. cbn. by rewrite H. Qed.

(** *** Slots *)
Lemma slot_split (ps : list pqwire_param_t) i q :
  zget ps i = Some q →
  ∃ l k, ps = l ++ q :: k ∧ i = zlen l ∧ ∀ q', zset ps i q' = Some (l ++ q' :: k).
Proof.
  intros Hi. pose proof (zget_Some_lt _ _ _ Hi) as Hlt. unfold zget in Hi.
  rewrite (proj2 (Z.leb_le _ _)) in Hi by lia.
  apply list_elem_of_split_length in Hi as (l & k & -> & Hl).
  exists l, k. split_and!; [done|unfold zlen; lia|]. intros q'.
  rewrite zset_Some by lia. f_equal. rewrite Hl. by rewrite insert_app_r_alt, Nat.sub_diag by lia.
Qed.

Lemma omap_middle (l k : list pqwire_param_t) q :
  omap p_data (l ++ q :: k) = omap p_data l ++ option_list (p_data q) ++ omap p_data k.
Proof. rewrite omap_app. cbn. by destruct (p_data q). Qed.

(** Changing one slot: the others keep their blocks. *)
Definition others_kept (s s' : store) (l k : list pqwire_param_t) : Prop :=
  ∀ b, b ∈ omap p_data l ∨ b ∈ omap p_data k → live s' b = live s b.

Lemma slot_value_ext s s' q :
  (∀ b, p_data q = Some b → live s' b = live s b) → slot_value s' q = slot_value s q.
Proof.
  intros H. unfold slot_value, param_value. destruct (p_data q) as [b|]; [|done].
  cbn. by rewrite (H b).
Qed.

Lemma contents_ext s s' ps :
  (∀ b, b ∈ omap p_data ps → live s' b = live s b) → contents s' ps = contents s ps.
Proof.
  intros H. unfold contents. apply list_fmap_ext. intros i q Hq. apply slot_value_ext.
  intros b Hb. apply H. apply list_elem_of_omap. exists q. split; [|done].
  by eapply list_elem_of_lookup_2.
Qed.

Lemma contents_middle s s' l q q' k :
  others_kept s s' l k →
  contents s' (l ++ q' :: k) = <[length l := slot_value s' q']> (contents s (l ++ q :: k)).
Proof.
  intros H. unfold contents. rewrite !fmap_app, !fmap_cons.
  fold (contents s' l) (contents s' k) (contents s l) (contents s k).
  rewrite (contents_ext s s' l), (contents_ext s s' k) by (intros; apply H; auto).
  rewrite insert_app_r_alt by (unfold contents; by rewrite length_fmap).
  unfold contents. by rewrite length_fmap, Nat.sub_diag.
Qed.

(** Clearing a slot frees its block. *)
Lemma clear_slot s l q k :
  slots_wf s (l ++ q :: k) →
  ∃ s', pqwire_param_clear s (Some q) = Some (s', Some cleared) ∧
        slots_wf s' (l ++ cleared :: k) ∧ p_allocs s' = p_allocs s ∧ others_kept s s' l k ∧
        ∀ b, live s' b = if decide (p_data q = Some b) then None else live s b.
Proof.
  intros [Hnd Hb Ho]. unfold pqwire_param_clear.
  apply Forall_app in Ho as [Hol Hok]. apply Forall_cons_iff in Hok as [Hoq Hok].
  assert (Hoc : Forall (λ q, is_Some (p_data q) → p_owned q ≠ 0) (l ++ cleared :: k)).
  { apply Forall_app. split; [done|]. constructor; [|done]. by intros [? [=]]. }
  destruct (p_data q) as [b|] eqn:Eq.
  - rewrite (proj2 (Z.eqb_neq _ _)) by (apply Hoq; eauto).
    rewrite omap_middle, Eq in Hnd, Hb. cbn [option_list app] in Hnd, Hb.
    apply list.NoDup_app in Hnd as (Hl & Hdis & Hk). apply list.NoDup_cons in Hk as [Hnk Hk].
    destruct (proj2 (Hb b)) as [d Hd]; [set_solver|].
    destruct (live_free s b d Hd) as (s' & -> & Ha & Hf & Hkeep). cbn [mbind option_bind].
    assert (Hlive : ∀ b', live s' b' = if decide (Some b = Some b') then None else live s b').
    { intros b'. destruct (decide _) as [[= <-]|Hne]; [done|]. apply Hkeep. congruence. }
    exists s'. split_and!; [done| |done| |done].
    + split; [| |done]; rewrite omap_middle; cbn [cleared p_data option_list app].
      * apply list.NoDup_app. set_solver.
      * intros b'. rewrite Hlive. destruct (decide (Some b = Some b')) as [[= <-]|Hne].
        -- split; [by intros [? [=]]|]. set_solver.
        -- rewrite Hb. assert (b' ≠ b) by congruence. set_solver.
    + intros b' Hb'. apply Hkeep. set_solver.
  - exists s. cbn [mbind option_bind]. split_and!; [done| |done|done|done].
    split; [| |done]; rewrite omap_middle, Eq in *; done.
Qed.

(** Installing a fresh block in an empty slot. *)
Lemma alloc_slot s l k d b s' len fmt :
  slots_wf s (l ++ cleared :: k) → alloc_block s d = (Some b, s') →
  slots_wf s' (l ++ mk_param (Some b) len 1 fmt :: k) ∧ live s' b = Some d ∧ others_kept s s' l k.
Proof.
  intros [Hnd Hb Ho] Ha. destruct (live_alloc _ _ _ _ Ha) as (Hf & Hd & Hkeep).
  assert (Hnb : b ∉ omap p_data (l ++ cleared :: k)) by (rewrite <- Hb, Hf; by intros [? [=]]).
  rewrite omap_middle in Hnd, Hb, Hnb. cbn [cleared p_data option_list app] in Hnd, Hb, Hnb.
  split_and!; [|done|intros b' Hb'; apply Hkeep; set_solver]. split.
  - rewrite omap_middle. cbn [p_data option_list app]. apply list.NoDup_app in Hnd as (Hl & Hdis & Hk).
    apply list.NoDup_app. split_and!; [done|set_solver|]. apply list.NoDup_cons. set_solver.
  - intros b'. rewrite omap_middle. cbn [p_data option_list app].
    destruct (decide (b' = b)) as [->|Hne].
    + rewrite Hd. split; [set_solver|by eexists].
    + rewrite Hkeep, Hb by done. set_solver.
  - apply Forall_app in Ho as [Hol Hok]. apply Forall_cons_iff in Hok as [_ Hok].
    apply Forall_app. split; [done|]. by constructor.
Qed.

Lemma slots_wf_blocks s s' ps : blocks s' = blocks s → slots_wf s ps → slots_wf s' ps.
Proof. intros Hb [H1 H2 H3]. split; [done| |done]. intros b. by rewrite (live_blocks s s'). Qed.

Lemma slots_wf_empty s l k q :
  p_data q = None → slots_wf s (l ++ cleared :: k) → slots_wf s (l ++ q :: k).
Proof.
  intros Hq [H1 H2 H3]. rewrite omap_middle in H1, H2.
  split; [by rewrite omap_middle, Hq|by rewrite omap_middle, Hq|].
  apply Forall_app in H3 as [Hl Hk]. apply Forall_cons_iff in Hk as [_ Hk].
  apply Forall_app. split; [done|]. constructor; [|done]. rewrite Hq. by intros [? [=]].
Qed.

Lemma others_trans s1 s2 s3 l k : others_kept s1 s2 l k → others_kept s2 s3 l k → others_kept s1 s3 l k.
Proof. intros H1 H2 b Hb. by rewrite H2, H1. Qed.
Lemma others_blocks s s' l k : blocks s' = blocks s → others_kept s s' l k.
Proof. intros H b _. by apply live_blocks. Qed.

(** A source that is not the slot's own block reads the same after the slot was cleared. *)
Lemma source_kept s s1 q p :
  (∀ b, live s1 b = if decide (p_data q = Some b) then None else live s b) → ¬ own q p →
  src_bytes s1 p = src_bytes s p.
Proof. intros Hl Hn. apply src_bytes_live. intros b off ->. rewrite Hl. by destruct (decide _). Qed.

(** One that is reads freed memory. *)
Lemma source_freed s s1 q p :
  (∀ b, live s1 b = if decide (p_data q = Some b) then None else live s b) → own q p →
  src_bytes s1 p = None.
Proof.
  intros Hl. destruct p as [d|b off]; [done|]. intros Ho. apply src_bytes_freed.
  by rewrite Hl, decide_True.
Qed.

(** What a set operation does to its slot. *)
Definition slot_set (s s' : store) (l k : list pqwire_param_t) (q' : pqwire_param_t) (rc : Z)
    (v : option (list Z)) : Prop :=
  slots_wf s' (l ++ q' :: k) ∧ others_kept s s' l k ∧
  slot_value s' q' = (if rc =? 0 then v else None).

Lemma set_text_slot s l q k t text :
  slots_wf s (l ++ q :: k) → ¬ own q t → src_text s t = Some text → zlen text < 2 ^ 31 →
  ∃ rc s' q', pqwire_param_set_text s (Some q) (Some t) = Some (rc, s', Some q') ∧
    slot_set s s' l k q' rc (Some text).
Proof.
  intros Hwf Hown Ht Hlen. pose proof (zlen_nonneg text).
  destruct (clear_slot s l q k Hwf) as (s1 & Hc & Hwf1 & _ & Hk1 & Hlive).
  unfold pqwire_param_set_text, src_text in *. rewrite Hc. cbn [mbind option_bind].
  rewrite (source_kept s s1 q t Hlive Hown), Ht. cbn [mbind option_bind].
  destruct (alloc_block s1 text) as [[b|] s2] eqn:E.
  - destruct (alloc_slot _ _ _ _ _ _ (to_i32 (zlen text)) 0 Hwf1 E) as (Hwf2 & Hb & Hk2).
    eexists _, _, _. split; [done|]. split_and!; [done|by eapply others_trans|].
    unfold slot_value, param_value. cbn. rewrite to_i32_small, (proj2 (Z.ltb_ge _ _)) by lia. by rewrite Hb.
  - pose proof (alloc_failed _ _ _ E) as Hb.
    destruct (Z.ltb_spec 0 (zlen text)) as [Hp|Hp]; (eexists _, _, _; split; [done|]).
    + split_and!; [by apply (slots_wf_blocks s1)|by eapply others_trans, others_blocks|done].
    + split_and!; [apply slots_wf_empty; [done|]; by apply (slots_wf_blocks s1)
        |by eapply others_trans, others_blocks|].
      assert (text = []) as -> by (destruct text; [done|zlia]). done.
Qed.

Lemma set_binary_slot s l q k data len :
  slots_wf s (l ++ q :: k) → 0 ≤ len →
  match data with
  | Some d => len < 2 ^ 31 ∧ (0 < len → ¬ own q d ∧ is_Some (src_read s d len))
  | None => True
  end →
  ∃ rc s' q', pqwire_param_set_binary s (Some q) data len = Some (rc, s', Some q') ∧
    slot_set s s' l k q' rc (op_value s (Op_set_binary (zlen l) data len)).
Proof.
  intros Hwf Hlen Hd. destruct (clear_slot s l q k Hwf) as (s1 & Hc & Hwf1 & _ & Hk1 & Hlive).
  unfold pqwire_param_set_binary. rewrite Hc. cbn [mbind option_bind op_value].
  destruct (Z.eqb_spec len 0) as [->|Hz].
  { eexists _, _, _. split; [done|]. split_and!; [by apply slots_wf_empty|done|]. by destruct data. }
  destruct data as [d|].
  2:{ eexists _, _, _. split; [done|]. by split_and!. }
  destruct Hd as [Hmax Hd]. destruct (Hd ltac:(lia)) as [Hown [bytes Hread]].
  assert (Hr1 : src_read s1 d len = Some bytes).
  { unfold src_read in *. by rewrite (source_kept s s1 q d Hlive Hown). }
  rewrite Hr1. change (default [] (Some bytes)) with bytes. rewrite Hread.
  destruct (alloc_block s1 bytes) as [[b|] s2] eqn:E.
  - destruct (alloc_slot _ _ _ _ _ _ (to_i32 len) 1 Hwf1 E) as (Hwf2 & Hb & Hk2).
    eexists _, _, _. split; [done|]. split_and!; [done|by eapply others_trans|].
    unfold slot_value, param_value. cbn. rewrite to_i32_small, (proj2 (Z.ltb_ge _ _)) by lia. by rewrite Hb.
  - pose proof (alloc_failed _ _ _ E) as Hb. eexists _, _, _. split; [done|].
    split_and!; [by apply (slots_wf_blocks s1)|by eapply others_trans, others_blocks|done].
Qed.

Lemma set_null_slot s l q k :
  slots_wf s (l ++ q :: k) →
  ∃ s', pqwire_param_set_null s (Some q) = Some (s', Some cleared) ∧
        slots_wf s' (l ++ cleared :: k) ∧ others_kept s s' l k.
Proof.
  intros Hwf. destruct (clear_slot s l q k Hwf) as (s1 & Hc & Hwf1 & _ & Hk & _).
  unfold pqwire_param_set_null. rewrite Hc. cbn. by exists s1.
Qed.

(** *** Operations *)

(** An operation is defined, keeps the ownership invariant, and changes no slot but its own,
    which then holds the value asked for, or NULL when the operation failed. *)
Definition op_runs (s : store) (ps : list pqwire_param_t) (op : param_op) : Prop :=
  ∃ rc s' ps', run_op s ps op = Some (rc, s', ps') ∧ slots_wf s' ps' ∧ zlen ps' = zlen ps ∧
    contents s' ps' = <[Z.to_nat (op_slot op) := if rc =? 0 then op_value s op else None]> (contents s ps).

Lemma op_runs_intro s l q k op rc s' q' :
  slots_wf s' (l ++ q' :: k) → others_kept s s' l k →
  slot_value s' q' = (if rc =? 0 then op_value s op else None) → op_slot op = zlen l →
  run_op s (l ++ q :: k) op = Some (rc, s', l ++ q' :: k) →
  op_runs s (l ++ q :: k) op.
Proof.
  intros Hwf Hk Hv Hs Hr. exists rc, s', (l ++ q' :: k). split_and!; [done|done|zl|].
  rewrite (contents_middle s s' l q q' k Hk), Hv, Hs. do 2 f_equal. unfold zlen. by rewrite Nat2Z.id.
Qed.

Lemma run_op_slots s ps op : slots_wf s ps → op_ok s ps op → op_runs s ps op.
Proof.
  intros Hwf (q & Hq & Hop). destruct (slot_split ps _ q Hq) as (l & k & -> & Hl & Hset).
  destruct op as [i|i t|i data len|i]; cbn [op_slot] in *.
  - destruct (clear_slot s l q k Hwf) as (s1 & Hc & Hwf1 & _ & Hk & _).
    eapply (op_runs_intro _ _ _ _ _ 0 s1 cleared); try done.
    cbn [run_op]. rewrite Hq. cbn [mbind option_bind]. rewrite Hc. cbn [mbind option_bind]. by rewrite Hset.
  - destruct Hop as (Hown & text & Ht & Hlen).
    destruct (set_text_slot s l q k t text Hwf Hown Ht Hlen) as (rc & s1 & q' & Hc & Hwf1 & Hk & Hv).
    eapply (op_runs_intro _ _ _ _ _ rc s1 q'); try done; [cbn [op_value]; by rewrite Ht|].
    cbn [run_op]. rewrite Hq. cbn [mbind option_bind]. rewrite Hc. cbn [mbind option_bind]. by rewrite Hset.
  - destruct (set_binary_slot s l q k data len Hwf) as (rc & s1 & q' & Hc & Hwf1 & Hk & Hv).
    { destruct data; lia. }
    { destruct data; [|done]. split; [lia|]. by apply Hop. }
    eapply (op_runs_intro _ _ _ _ _ rc s1 q'); try done.
    cbn [run_op]. rewrite Hq. cbn [mbind option_bind]. rewrite Hc. cbn [mbind option_bind]. by rewrite Hset.
  - destruct (set_null_slot s l q k Hwf) as (s1 & Hc & Hwf1 & Hk).
    eapply (op_runs_intro _ _ _ _ _ 0 s1 cleared); try done.
    cbn [run_op]. rewrite Hq. cbn [mbind option_bind]. rewrite Hc. cbn [mbind option_bind]. by rewrite Hset.
Qed.

(** Setting a slot from its own block reads the block after it was freed. *)
Lemma run_op_self s ps op : slots_wf s ps → op_self s ps op → run_op s ps op = None.
Proof.
  intros Hwf (q & Hq & Hop). destruct (slot_split ps _ q Hq) as (l & k & -> & Hl & _).
  destruct (clear_slot s l q k Hwf) as (s1 & Hc & _ & Ha & _ & Hlive).
  destruct op as [i|i t|i [d|] len|i]; try done; cbn [op_slot run_op] in *; rewrite Hq; cbn [mbind option_bind].
  - unfold pqwire_param_set_text, src_text. rewrite Hc. cbn [mbind option_bind].
    by rewrite (source_freed s s1 q t).
  - destruct Hop as (Hown & Hlen & Hok). unfold pqwire_param_set_binary, src_read. rewrite Hc.
    cbn [mbind option_bind]. rewrite (proj2 (Z.eqb_neq _ _)) by lia.
    rewrite (source_freed s s1 q d) by done. cbn [mbind option_bind].
    unfold alloc_block. rewrite Ha. destruct (alloc_next (p_allocs s)) as [ok al]. cbn in Hok. by subst ok.
Qed.

Lemma run_ops_slots ops s ps :
  slots_wf s ps → ops_ok s ps ops →
  ∃ s' ps', run_ops s ps ops = Some (s', ps') ∧ slots_wf s' ps' ∧ zlen ps' = zlen ps.
Proof.
  revert s ps. induction ops as [|op ops IH]; intros s ps Hwf Hops; [by exists s, ps|].
  destruct Hops as [Hop Hops].
  destruct (run_op_slots s ps op Hwf Hop) as (rc & s1 & ps1 & Hr & Hwf1 & Hl1 & _).
  cbn [run_ops]. rewrite Hr. cbn [mbind option_bind].
  destruct (IH s1 ps1 Hwf1) as (s2 & ps2 & -> & Hwf2 & Hl2); [by eapply Hops|].
  exists s2, ps2. split_and!; [done|done|congruence].
Qed.

Lemma omap_cleared n : omap p_data (replicate n cleared) = [].
Proof. by induction n as [|m IH]. Qed.

Lemma slots_wf_cleared al n : slots_wf (mk_store ∅ al) (replicate n cleared).
Proof.
  split.
  - rewrite omap_cleared. constructor.
  - intros b. rewrite omap_cleared. unfold live. cbn [blocks]. rewrite lookup_empty.
    split; [by intros [? [=]]|]. by intros ?%elem_of_nil.
  - apply Forall_replicate. by intros [? [=]].
Qed.

Lemma slots_wf_all_cleared s n b : slots_wf s (replicate n cleared) → live s b = None.
Proof.
  intros [_ Hb _]. specialize (Hb b). rewrite omap_cleared in Hb.
  destruct (live s b) eqn:E; [|done]. exfalso.
  assert (H : b ∈ @nil nat) by (apply Hb; eauto). by apply elem_of_nil in H.
Qed.

(** Clearing the slots one after the other. *)
Definition clear_all (ps : list pqwire_param_t) : list param_op :=
  (λ i : nat, Op_clear (Z.of_nat i)) <$> seq 0 (length ps).

Lemma clear_all_from ps s k :
  slots_wf s (replicate k cleared ++ ps) →
  ∃ s', run_ops s (replicate k cleared ++ ps) ((λ i : nat, Op_clear (Z.of_nat i)) <$> seq k (length ps))
        = Some (s', replicate (k + length ps) cleared) ∧
        slots_wf s' (replicate (k + length ps) cleared).
Proof.
  revert s k. induction ps as [|q ps IH]; intros s k Hwf.
  - rewrite app_nil_r in *. rewrite Nat.add_0_r. by exists s.
  - destruct (clear_slot s _ q ps Hwf) as (s1 & Hc & Hwf1 & _).
    cbn [length seq fmap list_fmap run_ops run_op].
    assert (Hk : Z.of_nat k = zlen (replicate k cleared)) by (unfold zlen; by rewrite length_replicate).
    rewrite Hk, zget_middle. cbn [mbind option_bind]. rewrite Hc. cbn [mbind option_bind].
    rewrite zset_Some by (pose proof (zlen_nonneg ps); zl). cbn [mbind option_bind].
    replace (<[Z.to_nat (zlen (replicate k cleared)):=cleared]> (replicate k cleared ++ q :: ps))
      with (replicate (S k) cleared ++ ps).
    2:{ rewrite <- Hk, Nat2Z.id.
        rewrite insert_app_r_alt by (by rewrite length_replicate).
        rewrite length_replicate, Nat.sub_diag. cbn [insert list_insert].
        by rewrite replicate_S_end, <- app_assoc. }
    rewrite (Nat.add_succ_r k). apply (IH s1 (S k)).
    by rewrite replicate_S_end, <- app_assoc.
Qed.

(** C14: owned parameters are memory-safe when no source pointer goes into the block of the slot
    it is stored in: any sequence of clear, set-text, set-binary and set-null operations on an
    array of cleared slots, whose pointers can be read when the operation is called (for less
    than 2 GiB; they may go into other slots' blocks) and whatever the allocator answers, frees no block twice and
    reads none after it was freed; the allocated blocks are then exactly those the slots own,
    each by one slot; a further such operation changes only its own slot, to the value its
    pointer showed or, when it fails, to NULL; clearing every slot leaves no block allocated.
    A set operation whose source is its own slot's block is undefined (binary data: when there
    are bytes to copy and the [malloc] succeeds): the block is freed before it is read. *)
Theorem param_ops_ownership n ops al :
  ops_ok (mk_store ∅ al) (replicate n cleared) ops →
  ∃ s ps, run_ops (mk_store ∅ al) (replicate n cleared) ops = Some (s, ps) ∧ slots_wf s ps ∧
    (∀ op, op_ok s ps op → op_runs s ps op) ∧
    (∀ op, op_self s ps op → run_op s ps op = None) ∧
    ∃ s', run_ops s ps (clear_all ps) = Some (s', replicate n cleared) ∧ ∀ b, live s' b = None.
Proof.
  intros Hops.
  destruct (run_ops_slots ops _ _ (slots_wf_cleared al n) Hops) as (s & ps & Hr & Hwf & Hl).
  exists s, ps. split_and!; [done|done|by intros; apply run_op_slots|by intros; apply run_op_self|].
  destruct (clear_all_from ps s 0 Hwf) as (s' & Hc & Hwf'). exists s'.
  assert (Hn : length ps = n) by (unfold zlen in Hl; rewrite length_replicate in Hl; lia).
  rewrite Hn in Hc, Hwf'. unfold clear_all. rewrite Hn.
  split; [exact Hc|]. intros b. by eapply slots_wf_all_cleared.
Qed.

(** Slot 0 is set, slot 1 is copied from slot 0's block; then slot 0 can be cleared, but not set
    from its own block. *)
Definition sample_ops : list param_op :=
  [Op_set_binary 0 (Some (Ext (bs "abc"))) 3; Op_set_binary 1 (Some (Blk 0 1)) 2].

Lemma sample_ops_ok : ops_ok (mk_store ∅ []) (replicate 2 cleared) sample_ops.
Proof.
  split.
  - exists cleared. split; [done|]. cbn. split; [lia|]. intros _. split; [by intros []|]. by eexists.
  - intros rc s' ps' H. vm_compute in H. injection H as <- <- <-. split; [|done].
    exists cleared. split; [reflexivity|]. cbn. split; [lia|]. intros _. split; [by intros [=]|].
    exists (bs "bc"). vm_compute. reflexivity.
Qed.

Lemma param_ops_ownership_witness :
  ∃ s ps, run_ops (mk_store ∅ []) (replicate 2 cleared) sample_ops = Some (s, ps) ∧ slots_wf s ps ∧
    (∀ op, op_ok s ps op → op_runs s ps op) ∧
    (∀ op, op_self s ps op → run_op s ps op = None) ∧
    ∃ s', run_ops s ps (clear_all ps) = Some (s', replicate 2 cleared) ∧ ∀ b, live s' b = None.
Proof.
  apply (param_ops_ownership 2). apply sample_ops_ok.
Defined.

(** ** The rewritten Bind *)

(** [out'] differs from [out] only in its first [n] bytes. *)
Definition kept_after (n : Z) (out out' : list Z) : Prop :=
  zlen out' = zlen out ∧ zdrop n out' = zdrop n out.

Lemma kept_refl n out : kept_after n out out.
Proof. done. Qed.
Lemma kept_mono n m out out' : 0 ≤ n ≤ m → kept_after n out out' → kept_after m out out'.
Proof. intros H [H1 H2]. split; [done|]. replace m with (n + (m - n)) by lia. by rewrite <- !zdrop_zdrop, H2 by lia. Qed.
Lemma kept_trans n out1 out2 out3 : kept_after n out1 out2 → kept_after n out2 out3 → kept_after n out1 out3.
Proof. intros [H1 H2] [H3 H4]. split; congruence. Qed.

(** [m] appends [d] to the bytes written, or returns early when that would pass [cap], without
    having touched anything behind [cap]. *)
Definition emits (cap : Z) (d : list Z) (m : writer unit) : Prop := ∀ out p,
  0 ≤ p ≤ cap → cap ≤ zlen out →
  if cap <? p + zlen d then ∃ st, m (out, p) = (Ret, st) ∧ kept_after cap out st.1
  else ∃ out', m (out, p) = (Val tt, (out', p + zlen d)) ∧
         ztake (p + zlen d) out' = ztake p out ++ d ∧ kept_after (p + zlen d) out out'.

Lemma mem_write_kept out p d :
  0 ≤ p → p + zlen d ≤ zlen out →
  ∃ out', mem_write out p d = Some out' ∧ ztake (p + zlen d) out' = ztake p out ++ d ∧
          kept_after (p + zlen d) out out'.
Proof.
  intros Hp Hl. pose proof (zlen_nonneg d). rewrite mem_write_Some by done. eexists. split; [done|].
  assert (Hz : zlen (ztake p out ++ d) = p + zlen d) by (rewrite zlen_app, zlen_ztake by lia; lia).
  rewrite app_assoc. split; [|split].
  - by apply ztake_app.
  - rewrite zlen_app, Hz, zlen_zdrop by lia. lia.
  - by apply zdrop_app.
Qed.

Lemma emits_put_src cap d : emits cap d (put_src cap (Some d) (zlen d)).
Proof.
  intros out p Hp Hcap. unfold put_src. destruct (Z.ltb_spec cap (p + zlen d)); [by eexists|].
  destruct (Z.eqb_spec (zlen d) 0) as [Hz|Hz].
  { exists out. assert (d = []) as -> by (destruct d; [done|zlia]).
    rewrite zlen_nil, Z.add_0_r, app_nil_r. by split_and!. }
  cbn [mbind option_bind]. destruct (mem_write_kept out p d) as (out' & -> & H1 & H2); [lia|lia|].
  by exists out'.
Qed.
Lemma emits_put cap d : emits cap d (put_bytes cap d).
Proof. apply emits_put_src. Qed.
Lemma emits_nil cap : emits cap [] (mret tt).
Proof.
  intros out p Hp Hcap. rewrite zlen_nil, Z.add_0_r, (proj2 (Z.ltb_ge _ _)), app_nil_r by lia. by exists out.
Qed.
Lemma emits_bind cap d1 d2 m (k : unit → writer unit) :
  emits cap d1 m → emits cap d2 (k tt) → emits cap (d1 ++ d2) (m ≫= k).
Proof.
  intros Hm Hk out p Hp Hcap. specialize (Hm out p Hp Hcap). rewrite zlen_app.
  pose proof (zlen_nonneg d1). pose proof (zlen_nonneg d2). unfold mbind, writer_mbind.
  destruct (Z.ltb_spec cap (p + zlen d1)).
  { rewrite (proj2 (Z.ltb_lt _ _)) by lia. destruct Hm as ([out' p'] & -> & Hkept). by eexists. }
  destruct Hm as (out' & -> & Ht & Hkept). pose proof (Hk out' (p + zlen d1) ltac:(lia) ltac:(by destruct Hkept as [-> _])) as Hk'.
  rewrite <- Z.add_assoc in Hk'. destruct (Z.ltb_spec cap (p + (zlen d1 + zlen d2))).
  - destruct Hk' as (st & -> & Hk2). exists st. split; [done|].
    eapply kept_trans; [|done]. eapply kept_mono; [|done]. lia.
  - destruct Hk' as (out2 & -> & Ht2 & Hk2). exists out2. split; [done|]. rewrite Ht2, Ht, <- app_assoc.
    split; [done|]. eapply kept_trans; [|done]. eapply kept_mono; [|done]. lia.
Qed.
Lemma emits_load {A} cap d (o : option A) a (k : A → writer unit) :
  o = Some a → emits cap d (k a) → emits cap d (load o ≫= k).
Proof. by intros ->. Qed.

Lemma put_u16s_emits vs pre rest cap :
  emits cap (cat be16 vs) (put_u16s (length vs) (zlen pre) (pre ++ vs ++ rest) cap).
Proof.
  revert pre. induction vs as [|v vs IH]; intros pre; [apply emits_nil|].
  cbn [length put_u16s app]. rewrite cat_cons. apply (emits_load _ _ _ v); [apply zget_middle|].
  apply emits_bind; [apply emits_put|]. rewrite <- (zlen_snoc pre v).
  replace (pre ++ v :: vs ++ rest) with ((pre ++ [v]) ++ vs ++ rest) by by rewrite <- app_assoc.
  apply IH.
Qed.

(** [b] is a Bind event with these parameter formats, parameters and result formats, whose
    values can be read through its views. *)
Record bind_event (rd : in_ptr → Z → option (list Z)) (b : pq_bind_t) (fmts : list Z)
    (ps : list (option (list Z))) (rfmts : list Z) : Prop := {
  be_n_formats : bind_n_formats b = zlen fmts;
  be_formats : ztake (zlen fmts) (bind_formats b) = fmts;
  be_n_params : bind_n_params b = zlen ps;
  be_max : zlen ps ≤ PQWIRE_MAX_BIND_PARAMS;
  be_n_result : bind_n_result_formats b = zlen rfmts;
  be_result : ztake (zlen rfmts) (bind_result_formats b) = rfmts;
  be_result_max : zlen rfmts < 2 ^ 16;
  be_params : ∀ i p, zget ps i = Some p → ∃ v, zget (bind_params b) i = Some v ∧
    pv_length v = param_length p ∧ pv_format v = effective_format fmts i ∧
    match p with Some d => (q ← pv_data v; rd q (zlen d)) = Some d | None => True end;
}.

(** What the rewriting means: one format per parameter, the slot's value replaced. *)
Definition identity_format (fmts : list Z) (slot as_binary i : Z) : Z :=
  if i =? slot then (if as_binary =? 0 then 0 else 1) else effective_format fmts i.
Definition identity_formats (fmts : list Z) (n slot as_binary : Z) : list Z :=
  (λ i : nat, identity_format fmts slot as_binary (Z.of_nat i)) <$> seq 0 (Z.to_nat n).
Definition identity_params (ps : list (option (list Z))) (slot : Z) (identity : list Z) :
    list (option (list Z)) := <[Z.to_nat slot := Some identity]> ps.

Lemma param_format_run fmts arr i :
  0 ≤ i → ztake (zlen fmts) arr = fmts →
  param_format (zlen fmts) arr i = Some (effective_format fmts i).
Proof.
  intros Hi Ht.
  assert (Hl : zlen fmts ≤ zlen arr).
  { rewrite <- (ztake_zdrop (zlen fmts) arr), Ht. pose proof (zlen_nonneg (zdrop (zlen fmts) arr)). zl. }
  destruct (param_format (zlen fmts) arr i) as [f|] eqn:E.
  - f_equal. by eapply param_format_effective.
  - unfold param_format in E. pose proof (zlen_nonneg fmts).
    destruct (Z.eqb_spec (zlen fmts) 0); [done|]. destruct (Z.eqb_spec (zlen fmts) 1).
    + destruct (zget_is_Some 0 arr); [lia|congruence].
    + destruct (Z.ltb_spec i (zlen fmts)); [|done].
      destruct (zget_is_Some i arr); [lia|congruence].
Qed.

(** A view of known length and readable bytes. *)
Lemma view_reads rd v d :
  pv_length v = zlen d → (q ← pv_data v; rd q (zlen d)) = Some d → view_bytes rd v = Some d.
Proof.
  intros Hl Hd. unfold view_bytes. rewrite Hl. destruct (Z.eqb_spec (zlen d) 0); [|done].
  destruct d; [done|zlia].
Qed.

Section rewritten.
Context (rd : in_ptr → Z → option (list Z)) (b : pq_bind_t).
Context (fmts : list Z) (ps : list (option (list Z))) (rfmts : list Z) (Hb : bind_event rd b fmts ps rfmts).
Context (slot : Z) (identity : list Z) (as_binary : Z).

Definition identity_formats_from (i n : nat) : list Z :=
  (λ k : nat, identity_format fmts slot as_binary (Z.of_nat k)) <$> seq i n.

Lemma rewrite_formats_run n i arr :
  Z.of_nat i + Z.of_nat n ≤ zlen arr →
  ∃ arr', rewrite_formats n (Z.of_nat i) b slot as_binary arr = Some arr' ∧
          filled arr (Z.of_nat i) (identity_formats_from i n) arr'.
Proof using Hb.
  revert i arr. induction n as [|n IH]; intros i arr Hl; [exists arr; split; [done|apply filled_nil]|].
  cbn [rewrite_formats]. unfold identity_formats_from. cbn [seq fmap list_fmap].
  assert (Hf : (if Z.of_nat i =? slot then Some (if as_binary =? 0 then 0 else 1)
    else if bind_n_formats b =? 0 then Some 0
    else if bind_n_formats b =? 1 then zget (bind_formats b) 0
    else if Z.of_nat i <? bind_n_formats b then zget (bind_formats b) (Z.of_nat i)
    else Some 0) = Some (identity_format fmts slot as_binary (Z.of_nat i))).
  { unfold identity_format. destruct (Z.of_nat i =? slot); [done|].
    change (param_format (bind_n_formats b) (bind_formats b) (Z.of_nat i)
      = Some (effective_format fmts (Z.of_nat i))).
    rewrite (be_n_formats _ _ _ _ _ Hb). apply param_format_run; [lia|apply Hb]. }
  rewrite Hf. cbn [mbind option_bind].
  destruct (zset_is_Some arr (Z.of_nat i) (identity_format fmts slot as_binary (Z.of_nat i)))
    as [a1 Ha]; [lia|].
  rewrite Ha. cbn [mbind option_bind]. pose proof (zset_zlen _ _ _ _ Ha) as Hz.
  destruct (IH (S i) a1) as (a2 & Hr & Hfl); [lia|].
  replace (Z.of_nat i + 1) with (Z.of_nat (S i)) by lia. exists a2. split; [done|].
  eapply filled_cons; [done|]. by replace (Z.of_nat i + 1) with (Z.of_nat (S i)) by lia.
Qed.

Lemma rewrite_params_run cap qs pre :
  identity_params ps slot identity = pre ++ qs → 0 ≤ slot < zlen ps →
  emits cap (cat param_bytes qs) (rewrite_params rd (length qs) (zlen pre) b slot identity cap).
Proof using Hb.
  revert pre. induction qs as [|q qs IH]; intros pre Hps Hs; [apply emits_nil|].
  cbn [length rewrite_params]. rewrite cat_cons. apply emits_bind.
  2:{ rewrite <- (zlen_snoc pre q). apply IH; [|done]. by rewrite Hps, <- app_assoc. }
  assert (Hq : zget (identity_params ps slot identity) (zlen pre) = Some q) by (rewrite Hps; apply zget_middle).
  unfold identity_params, zget in Hq. rewrite (proj2 (Z.leb_le _ _)) in Hq by apply zlen_nonneg.
  destruct (Z.eqb_spec (zlen pre) slot) as [<-|Hne].
  - rewrite list_lookup_insert_eq in Hq by (unfold zlen in *; lia). injection Hq as <-.
    apply emits_bind; apply emits_put.
  - rewrite list_lookup_insert_ne in Hq by (pose proof (zlen_nonneg pre); lia).
    destruct (be_params _ _ _ _ _ Hb (zlen pre) q) as (v & Hv & Hl & _ & Hd).
    { unfold zget. by rewrite (proj2 (Z.leb_le _ _)) by apply zlen_nonneg. }
    apply (emits_load _ _ _ v); [done|]. rewrite Hl. unfold param_bytes.
    destruct q as [d|]; cbn [param_length].
    + pose proof (zlen_nonneg d). rewrite (proj2 (Z.ltb_ge _ _)) by lia.
      apply emits_bind; [apply emits_put|]. cbn [default]. rewrite (view_reads rd v d Hl Hd). apply emits_put_src.
    + change (-1 <? 0) with true. cbv match. change (default [] (@None (list Z))) with (@nil Z).
      rewrite app_nil_r. apply emits_put.
Qed.

(** The rewritten message. *)
Definition rewritten_payload (portal statement : list Z) : list Z :=
  bind_payload portal statement (identity_formats fmts (zlen ps) slot as_binary)
    (identity_params ps slot identity) rfmts.

Lemma zlen_identity_params : zlen (identity_params ps slot identity) = zlen ps.
Proof using. unfold identity_params, zlen. by rewrite length_insert. Qed.
Lemma zlen_identity_formats : zlen (identity_formats fmts (zlen ps) slot as_binary) = zlen ps.
Proof using. unfold identity_formats, zlen. rewrite length_fmap, length_seq. lia. Qed.

(** The body of the message, after the header's room. *)
Definition rewrite_fields (portal statement formats : list Z) (cap : Z) : writer unit :=
  _ ← put_bytes cap (with_nul portal);
  _ ← put_bytes cap (with_nul statement);
  _ ← put_bytes cap (wr16_be (to_u16 (bind_n_params b)));
  _ ← put_u16s (Z.to_nat (bind_n_params b)) 0 formats cap;
  _ ← put_bytes cap (wr16_be (to_u16 (bind_n_params b)));
  _ ← rewrite_params rd (Z.to_nat (bind_n_params b)) 0 b slot identity cap;
  _ ← put_bytes cap (wr16_be (to_u16 (bind_n_result_formats b)));
  put_u16s (Z.to_nat (bind_n_result_formats b)) 0 (bind_result_formats b) cap.

Lemma formats_run :
  ∃ arr, rewrite_formats (Z.to_nat (bind_n_params b)) 0 b slot as_binary (zrep PQWIRE_MAX_BIND_PARAMS 0) = Some arr ∧
    ztake (zlen ps) arr = identity_formats fmts (zlen ps) slot as_binary.
Proof using Hb.
  pose proof (be_max _ _ _ _ _ Hb) as Hmax. change PQWIRE_MAX_BIND_PARAMS with 32 in *.
  pose proof (zlen_nonneg ps). rewrite (be_n_params _ _ _ _ _ Hb).
  destruct (rewrite_formats_run (Z.to_nat (zlen ps)) 0 (zrep 32 0)) as (arr & Harr & Hfill).
  { change (zlen (zrep 32 0)) with 32. lia. }
  change (Z.of_nat 0) with 0 in *. exists arr. split; [done|]. apply filled_prefix in Hfill.
  change (identity_formats_from 0 (Z.to_nat (zlen ps)))
    with (identity_formats fmts (zlen ps) slot as_binary) in Hfill.
  by rewrite zlen_identity_formats in Hfill.
Qed.

Lemma rewrite_fields_emits portal statement arr cap :
  0 ≤ slot < zlen ps → ztake (zlen ps) arr = identity_formats fmts (zlen ps) slot as_binary →
  emits cap (rewritten_payload portal statement) (rewrite_fields portal statement arr cap).
Proof using Hb.
  intros Hs Ha. unfold rewrite_fields, rewritten_payload, bind_payload.
  rewrite zlen_identity_params, zlen_identity_formats.
  pose proof (be_max _ _ _ _ _ Hb) as Hmax. change PQWIRE_MAX_BIND_PARAMS with 32 in *.
  pose proof (be_result_max _ _ _ _ _ Hb). pose proof (zlen_nonneg ps). pose proof (zlen_nonneg rfmts).
  rewrite (be_n_params _ _ _ _ _ Hb), (be_n_result _ _ _ _ _ Hb), !to_u16_small by lia.
  pose proof (ztake_zdrop (zlen ps) arr) as Hsplit. rewrite Ha in Hsplit. rewrite <- Hsplit.
  pose proof (ztake_zdrop (zlen rfmts) (bind_result_formats b)) as Hrs.
  rewrite (be_result _ _ _ _ _ Hb) in Hrs. rewrite <- Hrs.
  assert (Hlf : Z.to_nat (zlen ps) = length (identity_formats fmts (zlen ps) slot as_binary))
    by (by rewrite <- zlen_to_nat, zlen_identity_formats).
  assert (Hlp : Z.to_nat (zlen ps) = length (identity_params ps slot identity))
    by (by rewrite <- zlen_to_nat, zlen_identity_params).
  repeat (apply emits_bind; [first [apply emits_put
    | rewrite Hlf; apply (put_u16s_emits _ []) | rewrite Hlp; by apply (rewrite_params_run _ _ [])]|]).
  rewrite zlen_to_nat. apply (put_u16s_emits _ []).
Qed.

Lemma rewrite_body_split portal statement arr cap st :
  rewrite_formats (Z.to_nat (bind_n_params b)) 0 b slot as_binary (zrep PQWIRE_MAX_BIND_PARAMS 0) = Some arr →
  rewrite_body rd b portal statement slot identity as_binary cap st
  = (_ ← skip_header cap; _ ← rewrite_fields portal statement arr cap; put_header) st.
Proof using.
  intros Harr. unfold rewrite_body, rewrite_fields, load. rewrite Harr. unfold mbind, writer_mbind.
  repeat (match goal with |- context [match ?m ?s0 with _ => _ end] =>
    destruct (m s0) as [[[]| |] ?]; try reflexivity end; cbn [deref]).
Qed.

(** The whole message, in the caller's buffer. *)
Lemma rewrite_body_run portal statement cap out :
  0 ≤ slot < zlen ps → cap ≤ zlen out →
  let msg := frame (chr "B") (rewritten_payload portal statement) in
  if cap <? zlen msg
  then ∃ st, rewrite_body rd b portal statement slot identity as_binary cap (out, 0) = (Ret, st) ∧
             kept_after (Z.max 0 cap) out st.1
  else rewrite_body rd b portal statement slot identity as_binary cap (out, 0)
       = (Val tt, (msg ++ zdrop (zlen msg) out, zlen msg)).
Proof using Hb.
  intros Hs Hout msg. destruct formats_run as (arr & Harr & Ha).
  rewrite (rewrite_body_split portal statement arr cap (out, 0) Harr).
  pose proof (rewrite_fields_emits portal statement arr cap Hs Ha) as He.
  set (pl := rewritten_payload portal statement) in *. pose proof (zlen_nonneg pl).
  assert (Hm : zlen msg = 5 + zlen pl) by (unfold msg; rewrite zlen_frame; lia). rewrite Hm.
  unfold mbind, writer_mbind, skip_header. change (0 + 5) with 5. destruct (Z.ltb_spec cap 5) as [Hc|Hc].
  { rewrite (proj2 (Z.ltb_lt _ _)) by lia. eexists. by split. }
  rewrite Z.max_r by lia. specialize (He out 5 ltac:(lia) Hout).
  destruct (Z.ltb_spec cap (5 + zlen pl)).
  { destruct He as ([out' p'] & -> & Hk). by eexists. }
  destruct He as (out' & -> & Ht & Hl & Hd). unfold put_header.
  assert (Hh : zlen (chr "B" :: wr32_be (to_u32 (5 + zlen pl - 1))) = 5) by zl.
  rewrite mem_write_Some by lia. rewrite Hh, ztake_0. change (0 + 5) with 5. cbn [app].
  do 3 f_equal. rewrite <- (ztake_zdrop (5 + zlen pl) out') at 1. rewrite Ht, Hd.
  assert (Hz : zlen (ztake 5 out) = 5) by (rewrite zlen_ztake by lia; lia).
  rewrite <- app_assoc, zdrop_app by done. unfold msg, frame.
  by replace (zlen pl + 4) with (5 + zlen pl - 1) by lia.
Qed.
End rewritten.

(** C15: [pqwire_bind_rewrite_identity_zerocopy], for a Bind event and any caller's buffer of at
    least [cap] bytes.  When the slot exists and the message fits in [cap] bytes, the buffer
    starts with exactly the Bind that has one format per parameter (the effective one, the
    slot's being 0 or 1 as asked), the identity as the slot's value and every other
    parameter's bytes unchanged, the bytes after it are as they were, and [*out_len] is its
    length.  Otherwise the result is -1, [*out_len] is as it was, and no byte at [cap] or
    later has changed.  In no case is anything outside the buffer accessed. *)
Theorem rewrite_identity_spec rd b portal statement fmts ps rfmts slot identity as_binary out cap n :
  bind_event rd b fmts ps rfmts → 0 ≤ slot → 0 ≤ cap ≤ zlen out →
  let msg := frame (chr "B") (rewritten_payload fmts ps rfmts slot identity as_binary portal statement) in
  let result := pqwire_bind_rewrite_identity_zerocopy rd (Some b) (Some portal) (Some statement) slot
    (Some identity) as_binary (Some out) cap (Some n) in
  if (slot <? zlen ps) && (zlen msg <=? cap)
  then result = Some (0, Some (msg ++ zdrop (zlen msg) out), Some (zlen msg))
  else ∃ out', result = Some (-1, Some out', Some n) ∧ kept_after cap out out'.
Proof.
  intros Hb Hs Hcap msg. unfold pqwire_bind_rewrite_identity_zerocopy.
  rewrite (be_n_params _ _ _ _ _ Hb). cbn zeta.
  destruct (Z.ltb_spec slot (zlen ps)) as [Hlt|Hge]; cbn [andb].
  2:{ rewrite (proj2 (Z.leb_le (zlen ps) slot)), orb_true_r by lia. by exists out. }
  rewrite (proj2 (Z.eqb_neq _ _)), (proj2 (Z.leb_gt (zlen ps) slot)) by lia. cbn [orb].
  change (str_or [] (Some portal)) with portal. change (str_or [] (Some statement)) with statement.
  pose proof (rewrite_body_run rd b fmts ps rfmts Hb slot identity as_binary portal statement cap out
    ltac:(lia) ltac:(lia)) as Hr. cbn zeta in Hr. fold msg in Hr. rewrite Z.max_r in Hr by lia.
  rewrite Z.leb_antisym. destruct (cap <? zlen msg); cbn [negb].
  - destruct Hr as ([out' p] & -> & Hk). by exists out'.
  - by rewrite Hr.
Qed.

(** A Bind event with a text value at offset 0 of some buffer, and a NULL. *)
Definition sample_rd (mem : list Z) (p : in_ptr) (n : Z) : option (list Z) := mem_read mem (ip_off p) n.
Definition sample_bind : pq_bind_t :=
  mk_bind (zrep 64 0) (zrep 64 0) 1 (1 :: zrep 31 0) 2
    (mk_view 2 (Some (mk_in_ptr 0 0)) 1 :: mk_view (-1) None 1 :: replicate 30 (mk_view 0 None 0))
    0 (zrep 32 0) (mk_in_ptr 0 0) 0.

Lemma sample_bind_event : bind_event (sample_rd (bs "42")) sample_bind [1] [Some (bs "42"); None] [].
Proof.
  split; try (vm_compute; reflexivity); try (vm_compute; discriminate).
  intros i p Hi. pose proof (zget_Some_lt _ _ _ Hi) as Hlt. change (zlen [Some (bs "42"); None]) with 2 in Hlt.
  destruct (decide (i = 0)) as [->|].
  - injection Hi as <-. eexists. split; [reflexivity|]. done.
  - replace i with 1 in * by lia. injection Hi as <-. eexists. split; [reflexivity|]. done.
Qed.

(** A buffer of 100 bytes, and one that is too short for the message; both lie in a larger
    object. *)
Lemma rewrite_identity_spec_witness :
  let msg := frame (chr "B") (rewritten_payload [1] [Some (bs "42"); None] [] 1 (bs "alice") 0 (bs "p") (bs "s")) in
  let call out cap := pqwire_bind_rewrite_identity_zerocopy (sample_rd (bs "42")) (Some sample_bind) (Some (bs "p"))
    (Some (bs "s")) 1 (Some (bs "alice")) 0 (Some out) cap (Some 0) in
  call (zrep 100 7) 100 = Some (0, Some (msg ++ zdrop (zlen msg) (zrep 100 7)), Some (zlen msg)) ∧
  ∃ out', call (zrep 100 7) 30 = Some (-1, Some out', Some 0) ∧ kept_after 30 (zrep 100 7) out'.
Proof.
  split.
  - apply (rewrite_identity_spec (sample_rd (bs "42")) sample_bind (bs "p") (bs "s") [1]
      [Some (bs "42"); None] [] 1 (bs "alice") 0 (zrep 100 7) 100 0);
      [apply sample_bind_event|lia|vm_compute; split; discriminate].
  - apply (rewrite_identity_spec (sample_rd (bs "42")) sample_bind (bs "p") (bs "s") [1]
      [Some (bs "42"); None] [] 1 (bs "alice") 0 (zrep 100 7) 30 0);
      [apply sample_bind_event|lia|vm_compute; split; discriminate].
Defined.
