(* ===== verification/ParamsInject.v ===== *)
(** * ParamsInject: rewriting a Bind through owned copies

    [pqwire_bind_inject_identity] copies the parameters of a Bind into owned ones and
    [pqwire_send_bind_params] sends them; the result is the message that
    [pqwire_send_bind_rewrite_identity] builds from the event's views directly. *)
From stdpp Require Import gmap.
From S2P Require Import Prelude Wire Ring Events Scram Ctx Parse ParseSafe Feed FeedSpec FeedThms.
From S2P Require Import Send SendSpec Roundtrip RoundtripRows RoundtripBind Params ParamsSpec.

(** ** Filling a cleared parameter *)

(** [q] describes [p] with format [f]: its length, and the bytes it points to, if any. *)
Definition describes (s : store) (q : pqwire_param_t) (p : option (list Z)) (f : Z) : Prop :=
  p_format q = f ∧ p_length q = param_length p ∧
  (0 < param_length p → param_value s q = p).

(** Nothing allocated is lost, and the allocator still succeeds. *)
Definition grows (s s' : store) : Prop :=
  (∀ b d, live s b = Some d → live s' b = Some d) ∧ p_allocs s' = [].

Lemma describes_grows s s' q p f : grows s s' → describes s q p f → describes s' q p f.
Proof.
  intros [Hsub _] (H1 & H2 & H3). split_and!; [done|done|]. intros Hp. specialize (H3 Hp).
  unfold param_value in *. destruct (p_data q) as [bl|]; [|done]. cbn in *.
  destruct p as [d|]; [|cbn in Hp; lia]. apply (inj Some) in H3. f_equal.
  destruct (live s bl) as [d'|] eqn:E.
  - by rewrite (Hsub _ _ E).
  - cbn in H3. subst d. by vm_compute in Hp.
Qed.

Lemma alloc_grows s d :
  p_allocs s = [] → ∃ bl s', alloc_block s d = (Some bl, s') ∧ grows s s' ∧ live s' bl = Some d.
Proof.
  intros Ha. destruct (alloc_block s d) as [[bl|] s'] eqn:E.
  2:{ unfold alloc_block in E. by rewrite Ha in E. }
  destruct (live_alloc _ _ _ _ E) as (Hn & Hd & Hkeep). exists bl, s'. split_and!; [done| |done].
  split; [|unfold alloc_block in E; rewrite Ha in E; by injection E as _ <-].
  intros b d' Hb. rewrite Hkeep; [done|]. intros ->. congruence.
Qed.

Lemma clear_cleared s : pqwire_param_clear s (Some cleared) = Some (s, Some cleared).
Proof. done. Qed.

Lemma set_text_cleared s t text :
  p_allocs s = [] → src_text s t = Some text → zlen text < 2 ^ 31 →
  ∃ s' q, pqwire_param_set_text s (Some cleared) (Some t) = Some (0, s', Some q) ∧
    grows s s' ∧ describes s' q (Some text) 0.
Proof.
  intros Ha Ht Hz. unfold pqwire_param_set_text. rewrite clear_cleared. cbn [mbind option_bind].
  rewrite Ht. cbn [mbind option_bind].
  destruct (alloc_grows s text Ha) as (bl & s' & -> & Hg & Hb). cbn zeta iota beta.
  eexists _, _. split; [done|]. split; [done|]. pose proof (zlen_nonneg text).
  split_and!; [done|cbn; by apply to_i32_small; lia|]. intros _. unfold param_value. cbn. by rewrite Hb.
Qed.

Lemma set_binary_cleared s d data :
  p_allocs s = [] → src_read s d (zlen data) = Some data → zlen data < 2 ^ 31 →
  ∃ s' q, pqwire_param_set_binary s (Some cleared) (Some d) (zlen data) = Some (0, s', Some q) ∧
    grows s s' ∧ describes s' q (Some data) 1.
Proof.
  intros Ha Hd Hz. unfold pqwire_param_set_binary. rewrite clear_cleared. cbn [mbind option_bind].
  pose proof (zlen_nonneg data). destruct (Z.eqb_spec (zlen data) 0) as [He|Hne].
  - eexists _, _. split; [done|]. split; [done|]. split_and!; [done|cbn; lia|cbn; lia].
  - rewrite Hd. change (default [] (Some data)) with data.
    destruct (alloc_grows s data Ha) as (bl & s' & -> & Hg & Hb). cbn [mbind option_bind].
    eexists _, _. split; [done|]. split; [done|].
    split_and!; [done|cbn; by apply to_i32_small; lia|]. intros _. unfold param_value. cbn. by rewrite Hb.
Qed.

(** The pointer shows the C string [text]. *)
Definition text_at (s : store) (p : src_ptr) (text : list Z) : Prop :=
  src_text s p = Some text.

Lemma text_at_grows s s' p text : grows s s' → text_at s p text → text_at s' p text.
Proof.
  intros [Hl _]. unfold text_at, src_text. destruct p as [d|b off]; [done|]. cbn.
  destruct (live s b) as [d|] eqn:E; [|done]. by rewrite (Hl _ _ E).
Qed.

Lemma until_nul_read d text : until_nul d = Some text → mem_read d 0 (zlen text) = Some text.
Proof. intros (rest & ->)%until_nul_spec. by apply (mem_read_app []). Qed.

Lemma text_at_read s p text : text_at s p text → src_read s p (zlen text) = Some text.
Proof.
  unfold text_at, src_text, src_read. destruct (src_bytes s p) as [d|]; [|done]. cbn. apply until_nul_read.
Qed.

Lemma src_read_ext s d : src_read s (Ext d) (zlen d) = Some d.
Proof. apply mem_read_all. Qed.
Lemma src_text_ext s text : cstr_ok text → src_text s (Ext (text ++ [0])) = Some text.
Proof. apply until_nul_app. Qed.

(** ** The injection loop *)
Section inject.
Context (rd : in_ptr → Z → option (list Z)) (b : pq_bind_t).
Context (fmts : list Z) (ps : list (option (list Z))) (rfmts : list Z) (Hb : bind_event rd b fmts ps rfmts).
Context (slot : Z) (identity : list Z) (ident : src_ptr) (as_binary : Z) (Hslot : 0 ≤ slot).
Context (Hvals : Forall (λ p, param_length p < 2 ^ 31) (identity_params ps slot identity)).

(** Formats are the protocol's 0 and 1, and a text value holds no NUL. *)
Definition copyable : Prop := ∀ i p, zget ps i = Some p →
  effective_format fmts i = 1 ∨
  (effective_format fmts i = 0 ∧ match p with Some d => cstr_ok d | None => True end).
Context (Hcopy : copyable).

Lemma inject_one_run s i v p :
  p_allocs s = [] → text_at s ident identity →
  zget (bind_params b) i = Some v → zget (identity_params ps slot identity) i = Some p →
  ∃ s' q, inject_one rd s v (i =? slot) ident as_binary cleared = Some (0, s', Some q) ∧
    grows s s' ∧ describes s' q p (identity_format fmts slot as_binary i).
Proof using Hb Hvals Hcopy Hslot.
  intros Ha Hident Hv Hp. pose proof (zget_Some_lt _ _ _ Hp) as Hlt.
  pose proof (zget_Forall _ _ _ _ Hvals Hp) as Hz. cbn beta in Hz.
  unfold identity_params, zget in Hp. rewrite (proj2 (Z.leb_le _ _)) in Hp by lia.
  unfold inject_one, identity_format. destruct (Z.eqb_spec i slot) as [->|Hne].
  { assert (p = Some identity) as ->.
    { rewrite list_lookup_insert_eq in Hp; [congruence|].
      apply lookup_lt_Some in Hp. by rewrite length_insert in Hp. }
    cbn in Hz. destruct (as_binary =? 0); cbn [negb]; [by apply set_text_cleared|].
    rewrite Hident. cbn [mbind option_bind]. apply set_binary_cleared; [done|by apply text_at_read|done]. }
  rewrite list_lookup_insert_ne in Hp by lia.
  assert (Hi : zget ps i = Some p) by (unfold zget; by rewrite (proj2 (Z.leb_le _ _)) by lia).
  destruct (be_params _ _ _ _ _ Hb i p Hi) as (v' & Hv' & Hl & Hf & Hd). rewrite Hv in Hv'.
  injection Hv' as <-. rewrite Hl, Hf. destruct p as [d|]; cbn [param_length] in *.
  2:{ change (-1 <? 0) with true. cbv match. unfold pqwire_param_set_null. rewrite clear_cleared.
      cbn. eexists _, _. split; [done|]. split; [done|]. split_and!; [done|done|cbn; lia]. }
  pose proof (zlen_nonneg d). rewrite (proj2 (Z.ltb_ge _ _)) by lia.
  pose proof (view_reads rd v d Hl Hd) as Hread.
  destruct (Hcopy i (Some d) Hi) as [He|[He Hc]]; rewrite He.
  - change (1 =? 1) with true. cbv match.
    destruct (pv_data v) as [ptr|] eqn:Edata; [|done]. rewrite Hread. cbn [mbind option_bind].
    apply set_binary_cleared; [done|apply src_read_ext|done].
  - change (0 =? 1) with false. cbv match. rewrite Ha. cbn [alloc_next negb].
    rewrite Hread. cbn [mbind option_bind].
    replace (mk_store (blocks s) []) with s by (destruct s; cbn in Ha; by subst).
    apply set_text_cleared; [done|by apply src_text_ext|done].
Qed.

(** The slots filled so far describe their parameters. *)
Definition filled_slots (s : store) (qs : list pqwire_param_t) (i : nat) (pre : list (option (list Z))) : Prop :=
  ∀ k q p, qs !! k = Some q → pre !! k = Some p →
    describes s q p (identity_format fmts slot as_binary (Z.of_nat (i + k))).

Lemma inject_loop_run todo done_ps s done_qs :
  p_allocs s = [] → text_at s ident identity →
  identity_params ps slot identity = done_ps ++ todo → length done_qs = length done_ps →
  filled_slots s done_qs 0 done_ps →
  ∃ s' qs, inject_loop rd (length todo) (zlen done_qs) s b (done_qs ++ replicate (length todo) cleared)
             slot ident as_binary = Some (0, s', qs) ∧
    p_allocs s' = [] ∧ length qs = length (identity_params ps slot identity) ∧
    filled_slots s' qs 0 (identity_params ps slot identity).
Proof using Hb Hvals Hcopy Hslot.
  revert done_ps s done_qs. induction todo as [|p todo IH]; intros done_ps s done_qs Ha Hident Hp Hlen Hfill.
  { rewrite app_nil_r in Hp. cbn [length replicate inject_loop]. rewrite app_nil_r, Hp. by exists s, done_qs. }
  cbn [length replicate inject_loop].
  assert (Hpi : zget (identity_params ps slot identity) (zlen done_qs) = Some p).
  { rewrite Hp. replace (zlen done_qs) with (zlen done_ps) by (unfold zlen; lia). apply zget_middle. }
  pose proof (zget_Some_lt _ _ _ Hpi) as Hlt. rewrite zlen_identity_params in Hlt.
  destruct (zget_is_Some (zlen done_qs) ps Hlt) as [p0 Hp0].
  destruct (be_params _ _ _ _ _ Hb _ _ Hp0) as (v & Hv & _).
  rewrite Hv, zget_middle. cbn [mbind option_bind]. rewrite clear_cleared. cbn [mbind option_bind].
  destruct (inject_one_run s _ v p Ha Hident Hv Hpi) as (s1 & q & -> & Hg & Hq). cbn [mbind option_bind].
  rewrite zset_Some by zlia. cbn [mbind option_bind].
  rewrite insert_app_r_alt by (unfold zlen; lia).
  replace (Z.to_nat (zlen done_qs) - length done_qs)%nat with 0%nat by (unfold zlen; lia).
  cbn [insert list_insert]. change (negb (0 =? 0)) with false. cbv match.
  rewrite cons_middle, app_assoc, <- (zlen_snoc done_qs q).
  apply (IH (done_ps ++ [p])).
  - by destruct Hg.
  - by eapply text_at_grows.
  - by rewrite Hp, <- app_assoc.
  - rewrite !length_app. cbn. lia.
  - intros k q' p' Hk1 Hk2.
    apply lookup_app_Some in Hk1 as [Hk1|[Hge1 Hk1]].
    + rewrite lookup_app_l in Hk2 by (rewrite <- Hlen; by eapply lookup_lt_Some).
      eapply describes_grows; [done|]. by eapply Hfill.
    + rewrite lookup_app_r in Hk2 by lia. rewrite Hlen in *.
      apply list_lookup_singleton_Some in Hk1 as [Hk ->].
      apply list_lookup_singleton_Some in Hk2 as [_ ->].
      unfold zlen in Hq. replace (0 + k)%nat with (length done_qs) by lia. exact Hq.
Qed.
End inject.

(** ** Sending the copies *)

(** A value behind a length that is not positive is never looked at. *)
Lemma put_values_ext n i heap lengths vs vs' cap buf c :
  (∀ k l, zget lengths k = Some l → 0 < to_i32 l → zget vs k = zget vs' k) →
  put_values n i heap (Some lengths) (Some vs) cap buf c
  = put_values n i heap (Some lengths) (Some vs') cap buf c.
Proof.
  intros Hext. revert i cap buf c. induction n as [|n IH]; intros i cap buf c; [done|].
  cbn [put_values i32_array_or array_or value_at]. unfold mbind, send_mbind, access, i32_array_or.
  cbn [array_or]. destruct (zget lengths i) as [l|] eqn:El; [|done]. cbn [fmap option_fmap option_map deref].
  destruct (return_if _ c) as [[[]| |] c1]; [|done|done].
  destruct (put _ _ _ c1) as [[buf1| |] c2]; [|done|done].
  destruct (Z.ltb_spec 0 (to_i32 l)) as [Hl|Hl]; [|apply IH].
  rewrite (Hext _ _ El Hl).
  match goal with |- match ?m with _ => _ end = _ => destruct m as [[cap1| |] c3] end; [|done|done].
  destruct (deref (zget vs' i)) as [v| |]; [|done|done].
  match goal with |- match ?m with _ => _ end = _ => destruct m as [[buf2| |] c4] end; [apply IH|done|done].
Qed.

Lemma send_bind_msg_ext heap portal st fmts nf lengths vs vs' n rf nr c :
  (∀ k l, zget lengths k = Some l → 0 < to_i32 l → zget vs k = zget vs' k) →
  send_bind_msg heap portal st fmts nf (Some lengths) (Some vs) n rf nr c
  = send_bind_msg heap portal st fmts nf (Some lengths) (Some vs') n rf nr c.
Proof.
  intros Hext. unfold send_bind_msg, mbind, send_mbind.
  repeat match goal with
  | |- context [match ?m ?c0 with _ => _ end] =>
      lazymatch m with
      | put_values _ _ _ _ _ _ _ => rewrite (put_values_ext _ _ _ _ vs vs') by done; reflexivity
      | _ => destruct (m c0) as [[?| |] ?]; [|done|done]
      end
  end.
Qed.

Section sending.
Context (fmts : list Z) (ps : list (option (list Z))) (slot : Z) (identity : list Z) (as_binary : Z).
Let ids := identity_params ps slot identity.
Context (s : store) (qs : list pqwire_param_t) (Hlen : length qs = length ids)
  (Hfill : filled_slots fmts slot as_binary s qs 0 ids)
  (Hvals : Forall (λ p, param_length p < 2 ^ 31) ids).

Lemma slot_describes k q : qs !! k = Some q →
  ∃ p, ids !! k = Some p ∧ describes s q p (identity_format fmts slot as_binary (Z.of_nat k)).
Proof using Hlen Hfill.
  intros Hq. destruct (lookup_lt_is_Some_2 ids k) as [p Hp].
  { rewrite <- Hlen. by eapply lookup_lt_Some. }
  exists p. split; [done|]. by apply (Hfill k).
Qed.

Lemma slots_formats : p_format <$> qs = identity_formats fmts (zlen ps) slot as_binary.
Proof using Hlen Hfill.
  assert (Hn : Z.to_nat (zlen ps) = length qs).
  { rewrite Hlen. unfold ids. rewrite <- (zlen_identity_params ps slot identity). apply zlen_to_nat. }
  apply list_eq. intros k. unfold identity_formats. rewrite !list_lookup_fmap, Hn.
  destruct (qs !! k) as [q|] eqn:Eq.
  - destruct (slot_describes k q Eq) as (p & _ & Hf & _).
    rewrite lookup_seq_lt by (by eapply lookup_lt_Some). cbn. by rewrite Hf.
  - rewrite lookup_seq_ge by (by apply lookup_ge_None). done.
Qed.

Lemma slots_lengths : p_length <$> qs = param_length <$> ids.
Proof using Hlen Hfill.
  apply list_eq. intros k. rewrite !list_lookup_fmap. destruct (qs !! k) as [q|] eqn:Eq.
  - destruct (slot_describes k q Eq) as (p & -> & _ & Hl & _). cbn. by rewrite Hl.
  - rewrite lookup_ge_None_2; [done|]. rewrite <- Hlen. by apply lookup_ge_None.
Qed.

Lemma slots_values k l :
  zget (param_length <$> ids) k = Some l → 0 < to_i32 l → zget (param_value s <$> qs) k = zget ids k.
Proof using Hlen Hfill Hvals.
  unfold zget. destruct (0 <=? k); [|done]. rewrite !list_lookup_fmap. intros Hl Hpos.
  destruct (qs !! Z.to_nat k) as [q|] eqn:Eq.
  - destruct (slot_describes _ q Eq) as (p & Hp & _ & _ & Hv). rewrite Hp in Hl |- *.
    cbn in Hl |- *. injection Hl as <-. pose proof (proj1 (list.Forall_lookup _ _) Hvals _ _ Hp) as Hz.
    cbn beta in Hz. rewrite Hv; [done|]. rewrite to_i32_small in Hpos; [done|].
    destruct p as [d|]; cbn in *; [pose proof (zlen_nonneg d)|]; lia.
  - destruct (ids !! Z.to_nat k) eqn:Ep; [|done]. apply lookup_lt_Some in Ep.
    rewrite <- Hlen in Ep. apply lookup_ge_None in Eq. lia.
Qed.

Lemma send_slots heap c portal statement rfmts :
  zlen ps ≤ PQWIRE_MAX_BIND_PARAMS →
  pqwire_send_bind_params heap s (Some c) (Some portal) (Some statement) (Some qs) (zlen ps)
    (Some rfmts) (zlen rfmts)
  = call_send_bind heap (Some c) portal statement (identity_formats fmts (zlen ps) slot as_binary) ids rfmts.
Proof using Hlen Hfill Hvals.
  intros Hmax. pose proof (zlen_nonneg ps).
  assert (Hq : zlen qs = zlen ps).
  { rewrite <- (zlen_identity_params ps slot identity). unfold zlen. by rewrite Hlen. }
  unfold pqwire_send_bind_params. rewrite (proj2 (Z.ltb_ge _ _)) by done.
  rewrite mem_read_Some by lia. rewrite zdrop_0, ztake_all by lia. cbn [mbind option_bind].
  rewrite slots_formats, slots_lengths. unfold call_send_bind, pqwire_send_bind.
  assert (Hz : zlen ids = zlen ps) by apply zlen_identity_params.
  rewrite zlen_identity_formats, Hz.
  unfold api, guard_ctx. destruct (_ =? _); [|done]. unfold run_send.
  erewrite send_bind_msg_ext by apply slots_values. done.
Qed.
End sending.

Lemma lengths_ok ps : Forall (λ p, param_length p < 2 ^ 31) ps → Forall len_ok ps.
Proof. apply Forall_impl. by intros [d|]. Qed.

(** The message of [pqwire_send_bind_rewrite_identity], when it fits in its 8192 bytes. *)
Lemma send_rewrite_run rd b fmts ps rfmts slot identity as_binary portal statement stack c :
  bind_event rd b fmts ps rfmts → 0 ≤ slot < zlen ps → zlen stack = 8192 → ctx_wf c → allocs c = [] →
  let msg := frame (chr "B") (rewritten_payload fmts ps rfmts slot identity as_binary portal statement) in
  zlen msg ≤ 8192 →
  ∃ c', pqwire_send_bind_rewrite_identity rd stack (Some c) (Some b) (Some portal) (Some statement) slot
      (Some identity) as_binary = Some (0, Some c') ∧ sends c c' msg.
Proof.
  intros Hb Hs Hst Hc Ha msg Hsize. destruct (append_sends c Hc Ha msg) as (c' & Happ & Hsend).
  exists c'. split; [|done]. apply api_Val; [done|].
  pose proof (rewrite_body_run rd b fmts ps rfmts Hb slot identity as_binary portal statement 8192 stack
    Hs ltac:(lia)) as Hr. cbn zeta in Hr. fold msg in Hr. rewrite (proj2 (Z.ltb_ge _ _)) in Hr by lia.
  erewrite access_run.
  2:{ unfold pqwire_bind_rewrite_identity_zerocopy. rewrite (be_n_params _ _ _ _ _ Hb).
      rewrite (proj2 (Z.eqb_neq _ _)), (proj2 (Z.leb_gt _ _)) by lia. cbn [orb].
      change (str_or [] (Some portal)) with portal. change (str_or [] (Some statement)) with statement.
      rewrite Hr. reflexivity. }
  cbv beta iota. rewrite return_if_run. change (negb (0 =? 0)) with false. cbv iota.
  erewrite access_run.
  2:{ cbn [mbind option_bind]. by apply (mem_read_app []). }
  by rewrite (send_bind_Val _ _ _ _ _ Happ).
Qed.

(** C16: copying and sending agrees with rewriting in place: for a Bind event with formats 0 and
    1, text values without NUL and an existing slot, an identity string anywhere in memory,
    and an allocator that does not fail, [pqwire_bind_inject_identity] into cleared parameters
    succeeds, and [pqwire_send_bind_params] of the copies puts on the wire the same bytes as
    [pqwire_send_bind_rewrite_identity] of the event, when both accept the message (8192
    bytes for the one, [bind_fits] for the other). *)
Theorem inject_agrees_with_rewrite heap rd b portal statement fmts ps rfmts slot ident identity as_binary s stack c :
  bind_event rd b fmts ps rfmts → 0 ≤ slot < zlen ps → copyable fmts ps →
  Forall (λ p, param_length p < 2 ^ 31) (identity_params ps slot identity) →
  p_allocs s = [] → text_at s ident identity → zlen stack = 8192 → ctx_wf c → allocs c = [] →
  let payload := rewritten_payload fmts ps rfmts slot identity as_binary portal statement in
  5 + zlen payload ≤ 8192 →
  bind_fits portal statement (identity_formats fmts (zlen ps) slot as_binary)
    (identity_params ps slot identity) rfmts = true →
  ∃ s' qs c1 c2,
    pqwire_bind_inject_identity rd s (Some b) (Some (replicate (length ps) cleared)) slot
      (Some ident) as_binary = Some (0, s', Some qs) ∧
    pqwire_send_bind_params heap s' (Some c) (Some portal) (Some statement) (Some qs) (zlen ps)
      (Some rfmts) (zlen rfmts) = Some (0, Some c1) ∧
    pqwire_send_bind_rewrite_identity rd stack (Some c) (Some b) (Some portal) (Some statement) slot
      (Some identity) as_binary = Some (0, Some c2) ∧
    output_buf c1 = output_buf c ++ frame (chr "B") payload ∧
    output_buf c2 = output_buf c1.
Proof.
  intros Hb Hs Hcopy Hvals Hsa Hident Hst Hc Hca payload Hsize Hfit.
  assert (Hlen : length (identity_params ps slot identity) = length ps) by apply length_insert.
  destruct (inject_loop_run rd b fmts ps rfmts Hb slot identity ident as_binary (proj1 Hs) Hvals Hcopy
    (identity_params ps slot identity) [] s []) as (s' & qs & Hl & _ & Hql & Hfill); try done.
  rewrite Hlen in Hl.
  pose proof (send_bind_spec heap c portal statement (identity_formats fmts (zlen ps) slot as_binary)
    (identity_params ps slot identity) rfmts Hc Hca (lengths_ok _ Hvals)) as Hsend.
  rewrite Hfit in Hsend. destruct Hsend as (c1 & Hsend & Hs1).
  destruct (send_rewrite_run rd b fmts ps rfmts slot identity as_binary portal statement stack c)
    as (c2 & Hr & Hs2); try done; [rewrite zlen_frame; unfold payload in Hsize; lia|].
  apply sends_output in Hs1, Hs2. exists s', qs, c1, c2. split_and!; [|by rewrite (send_slots fmts ps slot identity as_binary s' qs Hql Hfill Hvals) by apply Hb|done|done|by rewrite Hs1, Hs2].
  unfold pqwire_bind_inject_identity. rewrite (be_n_params _ _ _ _ _ Hb).
  rewrite (proj2 (Z.leb_gt _ _)), (proj2 (Z.eqb_neq _ _)) by lia. cbn [andb].
  rewrite zlen_to_nat. change (zlen (@nil pqwire_param_t)) with 0 in Hl. cbn [app] in Hl. by rewrite Hl.
Qed.

Lemma inject_agrees_with_rewrite_witness :
  let payload := rewritten_payload [1] [Some (bs "42"); None] [] 1 (bs "alice") 0 (bs "p") (bs "s") in
  ∃ s' qs c1 c2,
    pqwire_bind_inject_identity (sample_rd (bs "42")) (mk_store ∅ []) (Some sample_bind)
      (Some (replicate 2 cleared)) 1 (Some (Ext (with_nul (bs "alice")))) 0 = Some (0, s', Some qs) ∧
    pqwire_send_bind_params (λ _, 0) s' (Some (FeedThms.fresh PQWIRE_ROLE_CLIENT 64)) (Some (bs "p")) (Some (bs "s"))
      (Some qs) 2 (Some []) 0 = Some (0, Some c1) ∧
    pqwire_send_bind_rewrite_identity (sample_rd (bs "42")) (zrep 8192 0) (Some (FeedThms.fresh PQWIRE_ROLE_CLIENT 64))
      (Some sample_bind) (Some (bs "p")) (Some (bs "s")) 1 (Some (bs "alice")) 0 = Some (0, Some c2) ∧
    output_buf c1 = [] ++ frame (chr "B") payload ∧ output_buf c2 = output_buf c1.
Proof.
  apply (inject_agrees_with_rewrite (λ _, 0) (sample_rd (bs "42")) sample_bind (bs "p") (bs "s") [1]
    [Some (bs "42"); None] [] 1 (Ext (with_nul (bs "alice"))) (bs "alice") 0 (mk_store ∅ []) (zrep 8192 0)
    (FeedThms.fresh PQWIRE_ROLE_CLIENT 64)).
  - apply sample_bind_event.
  - change (zlen [Some (bs "42"); None]) with 2. lia.
  - intros i p _. by left.
  - repeat constructor.
  - reflexivity.
  - reflexivity.
  - by apply zlen_zrep.
  - apply fresh_wf. lia.
  - reflexivity.
  - vm_compute. discriminate.
  - vm_compute. reflexivity.
Defined.
