(* ===== verification/Endpoint.v ===== *)
(** * Endpoint: what a protocol context promises to code that relays its bytes

    src/src/mitm.c uses a [pqwire_ctx_t] through [pqwire_get_output] and
    [pqwire_feed_input] only.  [Endpoint] is that interface, [EndpointLaws] its contract, and
    the instance shows that the contexts of [Feed] keep it. *)
From S2P Require Import Prelude Wire Ring Events Scram Ctx Parse ParseSafe Feed FeedSpec Erase.
From S2P Require Import FeedThms CtxThms.

Class Endpoint (E : Type) := {
  ep_get_output : E → Z → list Z * E;
  ep_feed_input : E → list Z → option (Z * E);
}.

(** [ep_output]: the bytes waiting to be read.  [ep_input]: what the endpoint has made of the
    bytes it was given, and [ep_step i d i']: [i] and the further bytes [d] make [i']. *)
Class EndpointLaws (E : Type) `{Endpoint E} := {
  ep_inbox : Type;
  ep_ok : E → Prop;
  ep_output : E → list Z;
  ep_input : E → ep_inbox;
  ep_accepts : ep_inbox → list Z → Prop;
  ep_step : ep_inbox → list Z → ep_inbox → Prop;
  ep_get_output_law e n : ep_ok e → 0 < n →
    ∃ e', ep_get_output e n = (ztake n (ep_output e), e') ∧ ep_ok e' ∧
          ep_output e' = zdrop n (ep_output e) ∧ ep_input e' = ep_input e;
  ep_feed_input_law e d : ep_ok e → ep_accepts (ep_input e) d →
    ∃ e', ep_feed_input e d = Some (zlen d, e') ∧ ep_ok e' ∧
          ep_output e' = ep_output e ∧ ep_step (ep_input e) d (ep_input e');
  ep_step_nil e : ep_ok e → ep_step (ep_input e) [] (ep_input e);
  ep_step_app i d1 i1 d2 i2 : ep_step i d1 i1 → ep_step i1 d2 i2 → ep_step i (d1 ++ d2) i2;
  ep_accepts_app i d1 d2 : ep_accepts i (d1 ++ d2) →
    ep_accepts i d1 ∧ ∀ i1, ep_step i d1 i1 → ep_accepts i1 d2;
}.

(** ** Contexts *)
#[export] Instance pqwire_endpoint : Endpoint pqwire_ctx := {|
  ep_get_output c n := let '(d, c') := pqwire_get_output (Some c) false n in (d, default c c');
  ep_feed_input c d := '(n, c') ← pqwire_feed_input (Some c) (Some d); c' ← c'; Some (n, c');
|}.

(** The session, the buffered bytes and the size limit. *)
Definition inbox : Type := session * list Z * Z.
Definition ctx_inbox (c : pqwire_ctx) : inbox := (sess c, pending c, max_message_size c).
Definition inbox_items (i : inbox) (d : list Z) : list item * bool * list Z :=
  deframe i.2 (expects_startup i.1.1) (i.1.2 ++ d).

Definition ctx_ready (c : pqwire_ctx) : Prop :=
  ctx_wf c ∧ allocs c = [] ∧
  inbox_items (ctx_inbox c) [] = ([], expects_startup (sess c), pending c).

(** Bytes without a malformed length. *)
Definition inbox_accepts (i : inbox) (d : list Z) : Prop :=
  bytes_ok d ∧ zlen i.1.2 + zlen d < 2 ^ 32 ∧ no_errors (inbox_items i d).1.1.

(** [i'] is what the framed messages in [d] make of [i], up to the identity of buffers. *)
Definition inbox_step (i : inbox) (d : list Z) (i' : inbox) : Prop :=
  i'.2 = i.2 ∧ ∃ its s', inbox_items i d = (its, expects_startup i'.1.1, i'.1.2) ∧
    no_errors its ∧ apply_items 0 i.1.1 its = Some s' ∧ i'.1.1 ≡ s'.

Lemma apply_items_run gen gen' s s' its t :
  s ≡ s' → apply_items gen s its = Some t → ∃ t', apply_items gen' s' its = Some t' ∧ t ≡ t'.
Proof.
  intros He H. destruct (apply_items gen' s' its) as [t'|] eqn:E.
  - exists t'. split; [done|]. by eapply apply_items_equiv.
  - pose proof (apply_items_erase gen s its) as E1. pose proof (apply_items_erase gen' s' its) as E2.
    unfold equiv, session_equiv in He. rewrite He, E2, H, E in E1. done.
Qed.

Lemma inbox_items_app i d1 d2 :
  no_errors (inbox_items i d1).1.1 →
  inbox_items i (d1 ++ d2) =
    let '(its, st, rest) := inbox_items i d1 in
    let '(its', st', rest') := deframe i.2 st (rest ++ d2) in (its ++ its', st', rest').
Proof.
  unfold inbox_items. intros Hne. rewrite app_assoc.
  pose proof (deframe_app i.2 (expects_startup i.1.1) (i.1.2 ++ d1) d2) as Ha.
  destruct (deframe _ _ (i.1.2 ++ d1)) as [[its st] rest]. by apply Ha.
Qed.

Lemma inbox_step_app i d1 i1 d2 i2 : inbox_step i d1 i1 → inbox_step i1 d2 i2 → inbox_step i (d1 ++ d2) i2.
Proof.
  intros (Hm1 & its1 & s1 & D1 & N1 & A1 & E1) (Hm2 & its2 & s2 & D2 & N2 & A2 & E2).
  split; [congruence|].
  destruct (apply_items_run 0 0 _ s1 its2 s2 E1 A2) as (s3 & A3 & E3).
  exists (its1 ++ its2), s3. split_and!.
  - rewrite inbox_items_app; rewrite D1; [|done]. unfold inbox_items in D2. rewrite <- Hm1, D2. done.
  - by apply Forall_app.
  - rewrite apply_items_app, A1. exact A3.
  - by rewrite E2.
Qed.

Lemma inbox_accepts_app i d1 d2 :
  inbox_accepts i (d1 ++ d2) → inbox_accepts i d1 ∧ ∀ i1, inbox_step i d1 i1 → inbox_accepts i1 d2.
Proof.
  intros (Hb & Hl & Hne). apply bytes_ok_app in Hb as [Hb1 Hb2]. rewrite zlen_app in Hl.
  pose proof (zlen_nonneg d1). pose proof (zlen_nonneg d2).
  assert (N1 : no_errors (inbox_items i d1).1.1).
  { unfold inbox_items in *. rewrite app_assoc in Hne. by eapply deframe_no_errors_prefix. }
  split; [split_and!; [done|lia|done]|].
  intros i1 (Hm & its & s & D & _). split_and!; [done| |].
  - pose proof (deframe_rest_length i.2 (expects_startup i.1.1) (i.1.2 ++ d1)) as Hr.
    unfold inbox_items in D. rewrite D in Hr. cbn in Hr. rewrite length_app in Hr. unfold zlen in *. lia.
  - rewrite inbox_items_app, D in Hne by done. unfold inbox_items. rewrite Hm.
    destruct (deframe _ _ (i1.1.2 ++ d2)) as [[its2 st2] r2]. cbn in *. by apply Forall_app in Hne as [_ ?].
Qed.

Lemma ctx_feed_law c d :
  ctx_ready c → inbox_accepts (ctx_inbox c) d →
  ∃ c', ep_feed_input c d = Some (zlen d, c') ∧ ctx_ready c' ∧
        output_buf c' = output_buf c ∧ inbox_step (ctx_inbox c) d (ctx_inbox c').
Proof.
  intros (Hwf & Ha & _) (Hb & Hl & Hne). cbn [ctx_inbox fst snd] in Hl.
  destruct (pending_split c Hwf) as (_ & _ & Hp). rewrite Hp in Hl.
  destruct (feed_input_spec c d Hwf Hb Hl) as [(al & Hn & _) | (c' & Hf & Hw' & _ & D & E & _ & Al)]; [done|].
  exists c'. cbn [ep_feed_input pqwire_endpoint]. rewrite Hf. cbn [mbind option_bind].
  split; [done|]. unfold inbox_items in Hne. cbn [ctx_inbox fst snd] in Hne.
  assert (Hm : max_message_size c' = max_message_size c) by by rewrite E.
  pose proof (inbox_items_app (ctx_inbox c) d []) as Happ.
  unfold inbox_items in Happ. cbn [ctx_inbox fst snd] in Happ.
  destruct (deframe _ _ (pending c ++ d)) as [[its st] rest] eqn:Ed.
  destruct D as (A & P & S). specialize (Happ Hne). rewrite !app_nil_r, Ed in Happ. cbn [fst snd] in *.
  split; [|split; [by rewrite E|]].
  - split_and!; [done|by apply Al|]. unfold inbox_items. cbn [ctx_inbox fst snd].
    rewrite Hm, S, P, app_nil_r. destruct (deframe _ _ rest) as [[its2 st2] r2].
    injection Happ as Hi -> ->. f_equal. f_equal. apply (f_equal length) in Hi. rewrite length_app in Hi.
    destruct its2; [done|cbn in Hi; lia].
  - split; [done|]. destruct (apply_items_run _ 0 _ (sess c) _ _ (reflexivity _) A) as (s' & A0 & E0).
    exists its, s'. unfold inbox_items. cbn [ctx_inbox fst snd]. rewrite Ed, S, P. done.
Qed.

Lemma ctx_output_law c n :
  ctx_ready c → 0 < n →
  ∃ c', ep_get_output c n = (ztake n (output_buf c), c') ∧ ctx_ready c' ∧
        output_buf c' = zdrop n (output_buf c) ∧ ctx_inbox c' = ctx_inbox c.
Proof.
  intros (Hwf & Ha & Hd) Hn. cbn [ep_get_output pqwire_endpoint].
  destruct (get_output_cut c n Hn) as (c' & Hg & Ho & _). rewrite Hg.
  unfold pqwire_get_output in Hg. cbn [orb] in Hg. rewrite (proj2 (Z.eqb_neq _ _)) in Hg by lia.
  set (k := if output_len c <? n then output_len c else n) in *. injection Hg as _ <-.
  eexists. split; [done|]. split; [|done]. split; [|done].
  apply ctx_wf_set_output; [done|].
  destruct Hwf as [_ _ _ Hcap _ _ _ _]. unfold output_len in *.
  pose proof (zlen_nonneg (output_buf c)).
  assert (0 ≤ k ≤ zlen (output_buf c)) by (unfold k; case_match; zbool; lia).
  rewrite zlen_zdrop by lia. lia.
Qed.

Lemma ctx_step_nil c : ctx_ready c → inbox_step (ctx_inbox c) [] (ctx_inbox c).
Proof. intros (_ & _ & Hd). split; [done|]. exists [], (sess c). split_and!; [done|constructor|done|done]. Qed.

#[export] Instance pqwire_endpoint_laws : EndpointLaws pqwire_ctx := {|
  ep_inbox := inbox;
  ep_ok := ctx_ready;
  ep_output := output_buf;
  ep_input := ctx_inbox;
  ep_accepts := inbox_accepts;
  ep_step := inbox_step;
  ep_get_output_law := ctx_output_law;
  ep_feed_input_law := ctx_feed_law;
  ep_step_nil := ctx_step_nil;
  ep_step_app := inbox_step_app;
  ep_accepts_app := inbox_accepts_app;
|}.
