(* ===== verification/Mitm.v ===== *)
(** * Mitm: the man-in-the-middle relay of src/src/mitm.c

    [mitm_ctx] holds the two endpoints it points to and the array of enabled attacks.  The
    code sees the endpoints through the [Endpoint] interface only, and so do the theorems
    here; [Endpoint.pqwire_endpoint_laws] gives them for protocol contexts.  The two
    endpoints are different objects. *)
From S2P Require Import Prelude Wire Ring Events Scram Ctx Feed FeedSpec FeedThms SendSpec Endpoint.

Record mitm_ctx (E : Type) := mk_mitm {
  client : E;
  server : E;
  enabled_attacks : list Z;
  attack_count : Z;
}.
Arguments mk_mitm {E}.
Arguments client {E}.
Arguments server {E}.
Arguments enabled_attacks {E}.
Arguments attack_count {E}.

Section mitm.
Context {E : Type} `{Endpoint E}.

(** [ok] is the answer of [calloc]. *)
Definition mitm_create (c s : option E) (ok : bool) : option (mitm_ctx E) :=
  match c, s with
  | Some c, Some s => if ok then Some (mk_mitm c s (zrep 16 0) 0) else None
  | _, _ => None
  end.

(** What is left of the relay after [mitm_destroy]; the endpoints are not its own. *)
Definition mitm_destroy (m : option (mitm_ctx E)) : option (mitm_ctx E) :=
  match m with Some _ => None | None => None end.

(** [n = pqwire_get_output(from, buf, 4096); if (n > 0) pqwire_feed_input(to, buf, n);] *)
Definition relay (from to : E) : option (E * E) :=
  let '(buf, from) := ep_get_output from 4096 in
  if 0 <? zlen buf then '(_, to) ← ep_feed_input to buf; Some (from, to) else Some (from, to).

Definition mitm_step (m : option (mitm_ctx E)) : option (Z * option (mitm_ctx E)) :=
  match m with
  | None => Some (-1, None)
  | Some m =>
      '(c, s) ← relay (client m) (server m);
      '(s, c) ← relay s c;
      Some (0, Some (mk_mitm c s (enabled_attacks m) (attack_count m)))
  end.

Definition mitm_enable_attack (m : option (mitm_ctx E)) (attack_id : Z) : option (option (mitm_ctx E)) :=
  match m with
  | None => Some None
  | Some m =>
      if 16 <=? attack_count m then Some (Some m)
      else a ← zset (enabled_attacks m) (attack_count m) attack_id;
           Some (Some (mk_mitm (client m) (server m) a (attack_count m + 1)))
  end.

(** The inner loop: [for (j; j < count - 1; j++) a[j] = a[j + 1];]. *)
Fixpoint shift_down (n : nat) (j count : Z) (a : list Z) : option (list Z) :=
  match n with
  | O => Some a
  | S n' =>
      if j <? count - 1 then
        v ← zget a (j + 1);
        a ← zset a j v;
        shift_down n' (j + 1) count a
      else Some a
  end.

Fixpoint disable_loop (n : nat) (i count : Z) (a : list Z) (attack_id : Z) : option (list Z * Z) :=
  match n with
  | O => Some (a, count)
  | S n' =>
      if i <? count then
        v ← zget a i;
        if v =? attack_id then a ← shift_down (Z.to_nat (count - i)) i count a; Some (a, count - 1)
        else disable_loop n' (i + 1) count a attack_id
      else Some (a, count)
  end.

Definition mitm_disable_attack (m : option (mitm_ctx E)) (attack_id : Z) : option (option (mitm_ctx E)) :=
  match m with
  | None => Some None
  | Some m =>
      '(a, n) ← disable_loop (Z.to_nat (attack_count m)) 0 (attack_count m) (enabled_attacks m) attack_id;
      Some (Some (mk_mitm (client m) (server m) a n))
  end.

(** ** The enabled attacks *)
Definition attacks (m : mitm_ctx E) : list Z := ztake (attack_count m) (enabled_attacks m).

Record mitm_wf (m : mitm_ctx E) : Prop := {
  mw_array : zlen (enabled_attacks m) = 16;
  mw_count : 0 ≤ attack_count m ≤ 16;
}.

Fixpoint remove_first (x : Z) (l : list Z) : list Z :=
  match l with
  | [] => []
  | y :: l => if y =? x then l else y :: remove_first x l
  end.

Inductive attack_op := Enable (id : Z) | Disable (id : Z).
Definition run_attack_op (m : option (mitm_ctx E)) (op : attack_op) : option (option (mitm_ctx E)) :=
  match op with Enable id => mitm_enable_attack m id | Disable id => mitm_disable_attack m id end.
Definition attack_spec (l : list Z) (op : attack_op) : list Z :=
  match op with
  | Enable id => if zlen l <? 16 then l ++ [id] else l
  | Disable id => remove_first id l
  end.
Definition run_attack_ops (m : mitm_ctx E) (ops : list attack_op) : option (option (mitm_ctx E)) :=
  foldl (λ acc op, m ← acc; run_attack_op m op) (Some (Some m)) ops.

Lemma shift_down_run k pre v post rest :
  (length post < k)%nat →
  shift_down k (zlen pre) (zlen pre + 1 + zlen post) (pre ++ v :: post ++ rest)
  = Some (pre ++ post ++ default v (list.last post) :: rest).
Proof using.
  revert pre v post. induction k as [|k IH]; intros pre v post Hk.
  - lia.
  - cbn [shift_down]. destruct post as [|w post].
    { change (zlen (@nil Z)) with 0. by rewrite (proj2 (Z.ltb_ge _ _)) by lia. }
    cbn [length] in Hk. rewrite zlen_cons. pose proof (zlen_nonneg post). rewrite (proj2 (Z.ltb_lt _ _)) by lia.
    rewrite zget_app_r by lia. replace (zlen pre + 1 - zlen pre) with 1 by lia.
    rewrite zget_cons by lia. change (1 - 1) with 0. cbn [app]. rewrite zget_0. cbn [mbind option_bind].
    rewrite zset_Some by zlia. cbn [mbind option_bind].
    rewrite insert_app_r_alt by (unfold zlen; lia).
    replace (Z.to_nat (zlen pre) - length pre)%nat with 0%nat by (unfold zlen; lia).
    cbn [insert list_insert].
    rewrite <- (zlen_snoc pre w).
    replace (pre ++ w :: w :: post ++ rest) with ((pre ++ [w]) ++ w :: post ++ rest) by by rewrite <- app_assoc.
    replace (zlen (pre ++ [w]) + (zlen post + 1)) with (zlen (pre ++ [w]) + 1 + zlen post) by lia.
    rewrite (IH (pre ++ [w]) w post), <- app_assoc by lia. cbn [app]. do 4 f_equal.
    rewrite last_cons. by destruct (list.last post).
Qed.

Lemma disable_loop_run id pre todo rest :
  ∃ a n, disable_loop (length todo) (zlen pre) (zlen pre + zlen todo) (pre ++ todo ++ rest) id = Some (a, n) ∧
    ztake n a = pre ++ remove_first id todo ∧ zlen a = zlen (pre ++ todo ++ rest) ∧
    0 ≤ n ≤ zlen pre + zlen todo.
Proof using.
  revert pre. induction todo as [|v todo IH]; intros pre; pose proof (zlen_nonneg pre).
  - cbn [length disable_loop remove_first app]. change (zlen (@nil Z)) with 0.
    eexists _, _. split; [done|]. rewrite Z.add_0_r, app_nil_r, ztake_app by done. split_and!; [done|done|lia|lia].
  - pose proof (zlen_nonneg todo). cbn [length disable_loop remove_first app]. rewrite zlen_cons.
    rewrite (proj2 (Z.ltb_lt _ _)), zget_middle by lia. cbn [mbind option_bind].
    destruct (Z.eqb_spec v id) as [->|Hne].
    + replace (Z.to_nat (zlen pre + (zlen todo + 1) - zlen pre)) with (S (length todo)) by (unfold zlen; lia).
      replace (zlen pre + (zlen todo + 1)) with (zlen pre + 1 + zlen todo) by lia.
      rewrite (shift_down_run (S (length todo)) pre id todo rest) by lia. cbn [mbind option_bind].
      eexists _, _. split; [done|]. split_and!; [|zl|lia|lia].
      rewrite app_assoc. apply ztake_app. zl.
    + destruct (IH (pre ++ [v])) as (a & n & Hd & Ht & Hz & Hn).
      rewrite zlen_snoc, <- !app_assoc in Hd. cbn [app] in Hd.
      replace (zlen pre + (zlen todo + 1)) with (zlen pre + 1 + zlen todo) by lia.
      exists a, n. rewrite Hd, Ht, <- !app_assoc. split_and!; [done|done| |zlia|zlia].
      by rewrite Hz, <- app_assoc.
Qed.

Lemma attack_op_run m op :
  mitm_wf m → ∃ m', run_attack_op (Some m) op = Some (Some m') ∧ mitm_wf m' ∧
    attacks m' = attack_spec (attacks m) op ∧ client m' = client m ∧ server m' = server m.
Proof using.
  intros [Ha Hc]. assert (Hz : zlen (attacks m) = attack_count m) by (unfold attacks; zl).
  destruct op as [id|id]; cbn [run_attack_op mitm_enable_attack mitm_disable_attack attack_spec].
  - rewrite Hz. destruct (Z.leb_spec 16 (attack_count m)) as [Hf|Hf].
    + rewrite (proj2 (Z.ltb_ge _ _)) by lia. by exists m.
    + rewrite (proj2 (Z.ltb_lt _ _)), zset_Some by lia. cbn [mbind option_bind].
      eexists. split; [done|]. split_and!; [split; cbn; [|lia]| |done|done].
      * unfold zlen in *. by rewrite length_insert.
      * unfold attacks, ztake. cbn [attack_count enabled_attacks].
        replace (Z.to_nat (attack_count m + 1)) with (S (Z.to_nat (attack_count m))) by lia.
        rewrite (take_S_r _ _ id) by (apply list_lookup_insert_eq; unfold zlen in *; lia).
        by rewrite take_insert_ge by lia.
  - destruct (disable_loop_run id [] (attacks m) (zdrop (attack_count m) (enabled_attacks m)))
      as (a & n & Hd & Ht & Hl & Hn).
    cbn [app] in *. change (zlen (@nil Z)) with 0 in *. rewrite Z.add_0_l, Hz in *.
    unfold attacks in Hd, Hl. rewrite ztake_zdrop in Hd, Hl.
    replace (length (ztake (attack_count m) (enabled_attacks m))) with (Z.to_nat (attack_count m)) in Hd
      by (unfold attacks, zlen in Hz; lia).
    rewrite Hd. cbn [mbind option_bind]. eexists. split; [done|].
    split_and!; [split; cbn; lia|exact Ht|done|done].
Qed.
End mitm.

(** C29: the attack list is a list: from [mitm_create], any sequence of enable and disable
    calls stays within the 16-slot array and keeps exactly the list that appends an enabled
    attack while there are fewer than 16 and removes the first occurrence of a disabled one;
    the endpoints are not touched. *)
Theorem mitm_attack_list {E} `{Endpoint E} (c s : E) ops m :
  mitm_create (Some c) (Some s) true = Some m →
  ∃ m', run_attack_ops m ops = Some (Some m') ∧ mitm_wf m' ∧
    attacks m' = foldl attack_spec [] ops ∧ client m' = c ∧ server m' = s.
Proof.
  intros [= <-]. induction ops as [|op ops IH] using rev_ind.
  - eexists. split; [done|]. split_and!; [|done|done|done]. split; cbn; [done|lia].
  - destruct IH as (m & Hr & Hwf & Ha & Hc & Hs). destruct (attack_op_run m op Hwf) as (m' & Hr' & Hwf' & Ha' & Hc' & Hs').
    exists m'. unfold run_attack_ops in *. rewrite !foldl_app, Hr. cbn [foldl mbind option_bind].
    rewrite Hr', Ha', Ha, Hc', Hs'. done.
Qed.

Lemma mitm_attack_list_witness :
  ∃ m', run_attack_ops (mk_mitm (fresh PQWIRE_ROLE_CLIENT 64) (fresh PQWIRE_ROLE_SERVER 64) (zrep 16 0) 0)
          [Enable 1; Enable 3; Disable 1] = Some (Some m') ∧ mitm_wf m' ∧
    attacks m' = [3] ∧ client m' = fresh PQWIRE_ROLE_CLIENT 64 ∧ server m' = fresh PQWIRE_ROLE_SERVER 64.
Proof.
  apply (mitm_attack_list (fresh PQWIRE_ROLE_CLIENT 64) (fresh PQWIRE_ROLE_SERVER 64)
    [Enable 1; Enable 3; Disable 1]). reflexivity.
Defined.

(** ** Relaying *)
Section relaying.
Context {E : Type} `{EndpointLaws E}.

Fixpoint mitm_steps (k : nat) (m : mitm_ctx E) : option (option (mitm_ctx E)) :=
  match k with
  | O => Some (Some m)
  | S k' => m' ← mitm_steps k' m; '(_, m') ← mitm_step m'; Some m'
  end.

Lemma relay_run from to :
  ep_ok from → ep_ok to → ep_accepts (ep_input to) (ztake 4096 (ep_output from)) →
  ∃ from' to', relay from to = Some (from', to') ∧ ep_ok from' ∧ ep_ok to' ∧
    ep_output from' = zdrop 4096 (ep_output from) ∧ ep_input from' = ep_input from ∧
    ep_output to' = ep_output to ∧ ep_step (ep_input to) (ztake 4096 (ep_output from)) (ep_input to').
Proof using.
  intros Hf Ht Ha. unfold relay.
  destruct (ep_get_output_law from 4096 Hf) as (from' & -> & Hf' & Ho & Hi); [lia|].
  set (d := ztake 4096 (ep_output from)) in *. destruct (Z.ltb_spec 0 (zlen d)) as [Hd|Hd].
  - destruct (ep_feed_input_law to d Ht Ha) as (to' & -> & Ht' & Ho' & Hs). cbn [mbind option_bind].
    by exists from', to'.
  - exists from', to. assert (Hn : d = []) by (destruct d; [done|zlia]). rewrite Hn.
    split_and!; try done. by apply ep_step_nil.
Qed.

Lemma mitm_step_run m :
  ep_ok (client m) → ep_ok (server m) →
  ep_accepts (ep_input (server m)) (ztake 4096 (ep_output (client m))) →
  ep_accepts (ep_input (client m)) (ztake 4096 (ep_output (server m))) →
  ∃ m', mitm_step (Some m) = Some (0, Some m') ∧ ep_ok (client m') ∧ ep_ok (server m') ∧
    attacks m' = attacks m ∧
    ep_output (client m') = zdrop 4096 (ep_output (client m)) ∧
    ep_output (server m') = zdrop 4096 (ep_output (server m)) ∧
    ep_step (ep_input (server m)) (ztake 4096 (ep_output (client m))) (ep_input (server m')) ∧
    ep_step (ep_input (client m)) (ztake 4096 (ep_output (server m))) (ep_input (client m')).
Proof using.
  intros Hc Hs Ha1 Ha2. cbn [mitm_step].
  destruct (relay_run _ _ Hc Hs Ha1) as (c1 & s1 & -> & Hc1 & Hs1 & Oc1 & Ic1 & Os1 & St1).
  cbn [mbind option_bind]. rewrite <- Ic1, <- Os1 in Ha2.
  destruct (relay_run _ _ Hs1 Hc1 Ha2) as (s2 & c2 & -> & Hs2 & Hc2 & Os2 & Is2 & Oc2 & St2).
  cbn [mbind option_bind]. eexists. split; [done|]. cbn [client server].
  rewrite Oc2, Oc1, Os2, Os1, Is2. rewrite Os1, Ic1 in St2. done.
Qed.
End relaying.

(** C17: the relay is transparent: whatever attacks are enabled, after [k] steps each endpoint
    has made of its input what it makes of the first [4096 * k] bytes of the other's output,
    in order and complete, and the rest is still waiting, provided that neither stream has a
    malformed length and memory does not run out. *)
Theorem mitm_relays {E} `{EndpointLaws E} k (m : mitm_ctx E) :
  let n := 4096 * Z.of_nat k in
  let up := ztake n (ep_output (client m)) in
  let down := ztake n (ep_output (server m)) in
  ep_ok (client m) → ep_ok (server m) →
  ep_accepts (ep_input (server m)) up → ep_accepts (ep_input (client m)) down →
  ∃ m', mitm_steps k m = Some (Some m') ∧ attacks m' = attacks m ∧
    ep_step (ep_input (server m)) up (ep_input (server m')) ∧
    ep_step (ep_input (client m)) down (ep_input (client m')) ∧
    ep_output (client m') = zdrop n (ep_output (client m)) ∧
    ep_output (server m') = zdrop n (ep_output (server m)).
Proof.
  intros n up down Hc Hs Hup Hdown.
  enough (Hgoal : ∃ m', mitm_steps k m = Some (Some m') ∧ attacks m' = attacks m ∧
    ep_step (ep_input (server m)) up (ep_input (server m')) ∧
    ep_step (ep_input (client m)) down (ep_input (client m')) ∧
    ep_output (client m') = zdrop n (ep_output (client m)) ∧
    ep_output (server m') = zdrop n (ep_output (server m)) ∧ ep_ok (client m') ∧ ep_ok (server m')).
  { destruct Hgoal as (m' & H1 & H2 & H3 & H4 & H5 & H6 & _). by exists m'. }
  subst n up down. induction k as [|k IH].
  - exists m. split_and!; try done; by apply ep_step_nil.
  - replace (4096 * Z.of_nat (S k)) with (4096 * Z.of_nat k + 4096) in * by lia.
    rewrite !ztake_add, <- !zdrop_zdrop in * by lia.
    apply ep_accepts_app in Hup as [Hup1 Hup2]. apply ep_accepts_app in Hdown as [Hdn1 Hdn2].
    destruct (IH Hup1 Hdn1) as (m1 & Hr & Ha & Ss & Sc & Oc & Os & Kc & Ks).
    destruct (mitm_step_run m1 Kc Ks) as (m2 & Hr2 & Kc2 & Ks2 & Ha2 & Oc2 & Os2 & Ss2 & Sc2).
    { rewrite Oc. by apply Hup2. }
    { rewrite Os. by apply Hdn2. }
    rewrite Oc in Oc2, Ss2. rewrite Os in Os2, Sc2.
    exists m2. cbn [mitm_steps]. rewrite Hr. cbn [mbind option_bind].
    rewrite Hr2. cbn [mbind option_bind]. split_and!; try done; [congruence| |]; by eapply ep_step_app.
Qed.

(** A client that has sent its StartupMessage and a server that waits for it. *)
Definition starting_client : pqwire_ctx :=
  set_output (startup_packet (bs "me") (bs "db")) 64 [] (fresh PQWIRE_ROLE_CLIENT 1024).
Definition starting_relay : mitm_ctx pqwire_ctx :=
  mk_mitm starting_client (fresh PQWIRE_ROLE_SERVER 1024) (zrep 16 0) 0.

Lemma fresh_ready r n : 0 < n → ctx_ready (fresh r n).
Proof. intros Hn. split_and!; [by apply fresh_wf|done|]. by destruct r. Qed.

Lemma mitm_relays_witness :
  ∃ m', mitm_steps 1 starting_relay = Some (Some m') ∧ attacks m' = attacks starting_relay ∧
    ep_step (ep_input (server starting_relay)) (ztake (4096 * Z.of_nat 1) (ep_output (client starting_relay)))
      (ep_input (server m')) ∧
    ep_step (ep_input (client starting_relay)) (ztake (4096 * Z.of_nat 1) (ep_output (server starting_relay)))
      (ep_input (client m')) ∧
    ep_output (client m') = zdrop (4096 * Z.of_nat 1) (ep_output (client starting_relay)) ∧
    ep_output (server m') = zdrop (4096 * Z.of_nat 1) (ep_output (server starting_relay)).
Proof.
  apply (mitm_relays 1 starting_relay).
  - split_and!; [apply ctx_wf_set_output; [apply fresh_wf; lia|vm_compute; discriminate]|reflexivity|reflexivity].
  - apply fresh_ready. lia.
  - split_and!; [concrete_bytes|vm_compute; reflexivity|].
    apply Forall_cons_iff. split; [reflexivity|constructor].
  - split_and!; [concrete_bytes|vm_compute; reflexivity|constructor].
Defined.
